(* ===== verification/_CoqProject ===== *)
-Q . S2P
Prelude.v
Memory.v
Utils.v
Strings.v
StringsProps.v
PageSource.v
Mem.v
MemProps.v
Paging.v
Region.v
PagingProps.v
Process.v
ProcessProps.v
Identity.v
Console.v
ConsoleProps.v
Interrupts.v
InterruptsProps.v
Stubs.v
StubsProps.v
Tarfs.v
TarfsProps.v
Elf.v
ElfProps.v
Fork.v
ForkProps.v
Launch.v
Program.v
ForkChild.v
Gdt.v
PtOps.v
Ptmgr.v
Libc.v
LibcProps.v
User.v
Shell.v
Ahci.v
AhciProps.v
AhciDisk.v
AhciSim.v
Syscalls.v
SyscallsProps.v
SyscallsSim.v
SyscallsUser.v
SyscallTrap.v
Exec.v
Boot.v
BootProps.v
Kernel.v
