(* ===== verification/Prelude.v ===== *)
(** * A verified model of the bgox kernel

    bgox is a small 64-bit multitasking kernel with a page-frame allocator,
    four-level page tables, a round-robin task list, an ELF loader, a read-only
    file system over a tar archive, a text console, a keyboard driver, a disk
    driver and two dozen system calls (src/sys, src/include/sys), with a small C
    library and a shell (src/libc, src/bin).  This library translates its C code
    into executable definitions and proves what they do, the cases in which the
    code does not do what it means to included.

    ** The program and its model

    All components but the task list share one store, the byte-addressed
    physical memory [mem] of [Memory] (a finite map from addresses to bytes):
    the allocator's descriptors, the page tables, the archive, strings, task
    structures and user pages are bytes of it, so that aliasing, overlap and
    overruns are visible.  Kernel pointers are 64-bit numbers in the window at
    [KERNEL_VADDR] and are followed through [phys]; user addresses are followed
    through the page tables ([translate], [vphys]).  Integers are [Z] with the
    wrap-around of their C type written out ([u8] .. [u64], [i8], [i32],
    [+64]); shifts and masks are those of [Z].

    Each file of definitions corresponds to a source file:

    - [Memory], [Utils], [Strings]: memory accesses, src/sys/utils.c and
      src/sys/strings.c.  [cstr m a s] relates memory to strings.
    - [Mem]: src/sys/mem.c, the free list of [struct page] descriptors in the
      memory they describe, [kmalloc], [kmalloc_init], [free], the reference
      counts and [vma_malloc].  [PageSource] is the interface it offers to the
      other components; [Mem] gives its instance and laws.
    - [Paging]: src/sys/paging.c, and the walk of the processor, [translate].
      [Region]: [region_alloc] and [kmalloc_stack] of src/sys/mem.c.
    - [Process]: src/sys/process.c, the task list, [schedule] and the calls
      exit, kill, waitpid and sleep, over typed stores of nodes and tasks with a
      state monad that can crash on a bad pointer.  [Fork]: [sys_fork], over the
      flat memory; the record that the scheduler sees is a view of the task
      structure.
    - [Elf]: src/sys/elf64.c, header checks, task construction, segments.
    - [Tarfs]: src/sys/tarfs.c, archive, directories, [open], [read_file].
    - [Console]: src/sys/kprintf.c, video memory, cursor, [kprintf].
    - [Interrupts]: of src/sys/idt.c the controllers, gates, timer, keyboard
      and the calls read and gets (src/sys/kb_map.h is its table).  Port input
      (src/sys/portio.c) is a class of devices with the keyboard controller as
      instance.
    - [Stubs]: src/sys/isr.s, gisr.s and gdt.s as lists of instructions with the
      lengths of their encodings, over a machine of registers, segments, tables
      and the stack in [mem]; [interrupt] delivers through the gates that
      [idt_init] wrote.  The compiled C functions are a parameter.
    - [Gdt]: src/sys/gdt.c.  [PtOps]: src/sys/ptops.c.  [Ptmgr]:
      src/sys/ptmgr.c, the older table manager.
    - [Syscalls]: the rest of src/sys/idt.c, [syscall_handler] with its 24 calls
      and the fault handlers, and the exception handlers of src/sys/gidt.c, over
      one state [kstate] that joins the memory, the file system's counters, the
      keyboard with the console and the task list.  Its monad [KM] lifts the
      operations of the components.
    - [Boot]: src/sys/main.c, from the loader's memory map to the first switch,
      and src/sys/apicio.c.
    - [Libc], [User]: src/libc, src/bin and src/crt.  A library function that
      makes a system call is the registers at the trap and the conversion of
      what comes back.  [Shell]: the loop of the shell, an interaction tree whose
      events are its system calls.
    - [Kernel]: the whole as one machine, [kernel_step]: a system call, a fault, an
      exception, an interrupt, or a write of a user program.
    - [Ahci]: src/sys/pci.c and src/include/sys/ahci.h over a class of device
      registers; [AhciDisk] states the laws of a port and its disk (an idle port,
      one that works on a command until its bit in PxCI clears, and what it writes
      to memory by itself), [AhciSim] is an instance.

    [Prelude] holds machine integers, notations, hint databases ([cint] for
    wrap-around, [kmem] for bounds of table indices) and generic lemmas.  The
    files named ...Props state the theorems about the definitions, with
    witnesses at concrete machines: [boot_mem] is the memory of 400 pages after
    [calculate_free_list], [boot_space] an address space on it, [SyscallsSim] a
    machine with a mapped user page, two programs and three tasks.

    ** What the theorems show

    - The allocator ([MemProps]): [calculate_free_list] establishes the
      invariant [pool]; [kmalloc] refines a first-fit search on the list of
      descriptors, blocks are disjoint, exhaustion; that the last page of the
      descriptor array is itself handed out, that [free] and the reference
      counts address the wrong descriptor, that a second [vma_malloc] leaves
      its page.
    - Paging ([PagingProps]): mapping within a page table makes the processor
      translate exactly the new pages, keeping the tree of tables ([wf]);
      [region_alloc] backs a region with fresh zeroed frames; the software walk
      agrees with the processor's; the overrun of the last table.
    - Tasks ([ProcessProps]): in every reachable state the task list is a
      well-formed list of distinct tasks holding the running task (rule
      induction on the steps); [schedule] selects the next runnable task; each
      call's effect on the list; the guards that do not guard.  [Identity]: a preorder on states, what no operation changes: a
      task's pid, parent and name, and but for two operations the head of the
      list.  [ForkProps]: the forked child shares the parent's tables.
    - Loader and files ([ElfProps], [TarfsProps]): a loaded segment contains the
      file's bytes and zeros; [init_tarfs] lists the archive, [open] finds a
      file, [read_file] delivers its bytes.
    - Console, keyboard, descriptors ([ConsoleProps], [InterruptsProps], [Gdt],
      [PtOps]): [kprintf] prints the text of its format, given by rules for each
      conversion, and stays on the screen; the read calls deliver the line
      typed, if it fits, against an abstract line editor; a sleeping task wakes
      in the timer interrupt it should; gates and the TSS descriptor are what the
      processor reads.
    - Strings and numbers ([StringsProps]): splitting, copying, comparing,
      searching, and number conversions with their round trips.
    - Entry code ([StubsProps], [SyscallTrap]): an interrupt, a fault and a system
      call that switches to no other task are invisible to the code they interrupt
      but for what the handler does to memory and, for a call, to rax; which stubs
      do not take off the error code.
    - From a file to user mode ([Launch], [Program]): [elf_run_bin] from its first
      allocation to its last store, in any kernel with enough free pages, and the
      first switch to the task it returns, which arrives at the entry point with
      the segment, the stack and the arguments in place.  [Exec]: the same for the
      call exec, from the file that was found to the program that runs under the
      caller's pid.
    - From fork to user mode ([ForkChild]): the child arrives behind the parent's
      [int 0x80] with the parent's registers and stack.
    - System calls ([SyscallsProps]): every call keeps the invariant of the task
      list, and what is kept by switching, exiting, waiting and sleeping
      ([call_closed]) is kept by every call that creates or kills no task; a page fault puts a shell in the place of the running task, an
      exception prints its message and ends it; what write shows and returns;
      how cat repeats characters.
    - Library and kernel together ([LibcProps], [User], [SyscallsUser]): [printf]
      renders its format, the shell splits a line, the stubs reach the services
      of their names (four do not), and printed text appears on the screen.
    - Disk ([AhciProps], [AhciDisk]): a command decodes to its request; on a
      working port whose slots the driver sees a write is read back; the loops
      that never end.
    - Boot ([BootProps]): the end of the last region of memory in the loader's map
      is found and the first switch goes from the kernel's task to the shell.
    - Every run ([Kernel]): from that switch on, whatever happens, the list stays
      in order with the kernel's task at its head, and every task keeps its
      identity from the moment it exists.
    - The shell ([Shell]): for every kernel that delivers typed lines its calls are
      those of an automaton, line after line without end.

    ** Fuel and bounds

    Loops that run to a NUL, along a list or over an archive take fuel and
    answer [None] (in [Process]: [Fuel]) when it runs out.  Every theorem that
    says a call returns gives the fuel that is enough: more than the length of
    the string, the number of descriptors before the block, the members of the
    archive, the pages of the region; loops over the task list get [fuel_of],
    two more than the nodes there are.  Only the invariants speak of calls that
    return; where faults and the boot are described, the loading of the
    program is a step that succeeded and the rest is shown to return.  [Program]
    and [Exec] say when loading succeeds: for a file with one segment to load (a second one
    makes [vma_malloc] leave its page), on a pool with a run of ten free pages.
    Addresses of kernel objects lie below 2^31, as the window maps.

    ** What is not modelled

    The third-party boot scripts.  The code the compiler makes of the C
    functions: the theorems on the stubs ask of a called function that it
    returns to its caller with the stack above its frame unchanged, the one on
    system calls ([runs_handler]) moreover that the compiled [syscall_handler] takes
    its arguments from the registers and writes memory as the model does, apart
    from its own stack and from variables that the model keeps elsewhere; and
    [switch_return] is the end of [switch_to] without a frame of its own.
    Interrupts arrive only where the model says so: between the polls of a read
    call and as steps of the scheduler and of [Kernel].  Of the headers, constants,
    structure members and prototypes that no code uses (most of apic.h, the frames
    of ahci.h that only a device sends, the flags of paging.h).  A user string given to a system call
    lies in one page.  After [switch_to] the model continues the call of the task
    that left; the caller's view of it is the state at the switch. *)
From Stdlib Require Export ZArith Lia.
From stdpp Require Export base tactics numbers gmap list.
Open Scope Z_scope.

(** [lia] decides [/] and [mod] by constants throughout the development. *)
Ltac Zify.zify_post_hook ::= Z.to_euclidean_division_equations.

(** ** Machine integers of the x86-64 ABI (include/sys/defs.h). *)

Definition u8 (z : Z) : Z := z mod 2 ^ 8.
Definition u16 (z : Z) : Z := z mod 2 ^ 16.
Definition u32 (z : Z) : Z := z mod 2 ^ 32.
Definition u64 (z : Z) : Z := z mod 2 ^ 64.
Definition i8 (z : Z) : Z := (z + 2 ^ 7) mod 2 ^ 8 - 2 ^ 7.
Definition i32 (z : Z) : Z := (z + 2 ^ 31) mod 2 ^ 32 - 2 ^ 31.

Declare Scope c_scope.
Delimit Scope c_scope with c.
Notation "x +64 y" := (u64 (x + y)) (at level 50, left associativity) : c_scope.
Notation "x -64 y" := (u64 (x - y)) (at level 50, left associativity) : c_scope.
Notation "x *64 y" := (u64 (x * y)) (at level 40, left associativity) : c_scope.
Open Scope c_scope.

Create Rewrite HintDb cint.
Create HintDb kmem discriminated.

Lemma u8_range z : 0 <= u8 z < 2 ^ 8.
Proof. unfold u8. lia. Qed.
Lemma u64_range z : 0 <= u64 z < 2 ^ 64.
Proof. unfold u64. lia. Qed.
Lemma u32_range z : 0 <= u32 z < 2 ^ 32.
Proof. unfold u32. lia. Qed.
Lemma i32_range z : - 2 ^ 31 <= i32 z < 2 ^ 31.
Proof. unfold i32. lia. Qed.
Lemma i8_range z : - 2 ^ 7 <= i8 z < 2 ^ 7.
Proof. unfold i8. lia. Qed.
Lemma u8_small z : 0 <= z < 2 ^ 8 → u8 z = z.
Proof. unfold u8. lia. Qed.
Lemma u32_small z : 0 <= z < 2 ^ 32 → u32 z = z.
Proof. unfold u32. lia. Qed.
Lemma u64_small z : 0 <= z < 2 ^ 64 → u64 z = z.
Proof. unfold u64. lia. Qed.
Lemma i32_small z : - 2 ^ 31 <= z < 2 ^ 31 → i32 z = z.
Proof. unfold i32. lia. Qed.
Lemma i8_small z : - 2 ^ 7 <= z < 2 ^ 7 → i8 z = z.
Proof. unfold i8. lia. Qed.

#[export] Hint Rewrite u64_small u32_small u8_small i32_small i8_small using lia : cint.

(** [cnorm] drops every width wrapper whose argument is known to fit. *)
Ltac cnorm := autorewrite with cint in *.

(** ** Bit-level facts shared by the page-table and descriptor components. *)

Lemma land_ones_mod (x k : Z) : 0 <= k → Z.land x (2 ^ k - 1) = x mod 2 ^ k.
Proof.
  intros Hk. rewrite <- Z.land_ones by done.
  by rewrite Z.ones_equiv, <- Z.sub_1_r.
Qed.

Lemma shiftr_shiftl_align (x k : Z) :
  0 <= k → Z.shiftl (Z.shiftr x k) k = x - x mod 2 ^ k.
Proof.
  intros Hk. rewrite Z.shiftl_mul_pow2, Z.shiftr_div_pow2 by done.
  pose proof (Z.div_mod x (2 ^ k)). lia.
Qed.

Lemma lor_disjoint_add (a b k : Z) :
  0 <= k → 0 <= b < 2 ^ k → a mod 2 ^ k = 0 → Z.lor a b = a + b.
Proof.
  intros Hk Hb Ha. rewrite Z.add_nocarry_lxor, Z.lxor_lor; try done.
  all: apply Z.bits_inj'; intros n Hn; rewrite Z.land_spec, Z.bits_0.
  all: destruct (Z.lt_ge_cases n k).
  all: try (rewrite <- (Z.mod_pow2_bits_low a k n), Ha, Z.bits_0 by lia; done).
  all: rewrite <- (Z.mod_small b (2 ^ k)), Z.mod_pow2_bits_high, andb_false_r by lia; done.
Qed.

Lemma testbit0_odd_add (a b : Z) : a mod 2 = 0 → Z.land (a + b) 1 = b mod 2.
Proof. intros. change 1 with (2 ^ 1 - 1). rewrite land_ones_mod by done. change (2^1) with 2. lia. Qed.

(** ** Lists as C arrays. *)

Lemma take_S_snoc {A} (l : list A) (i : nat) x :
  l !! i = Some x → take (S i) l = take i l ++ [x].
Proof. apply take_S_r. Qed.

Lemma list_first_dec {A} (P : A → bool) (l : list A) :
  (∃ i x, l !! i = Some x ∧ P x = true ∧
     ∀ j y, (j < i)%nat → l !! j = Some y → P y = false)
  ∨ (∀ i x, l !! i = Some x → P x = false).
Proof.
  induction l as [|a l IH]; [right; intros i x; done|].
  destruct (P a) eqn:Ha.
  { left. exists 0%nat, a. split_and!; try done. intros; lia. }
  destruct IH as [(i & x & Hx & Hp & Hm)|Hno].
  - left. exists (S i), x. split_and!; try done.
    intros [|j] y Hj Hy; simplify_eq/=; [done|]. apply (Hm j); [lia|done].
  - right. intros [|i] x Hi; simplify_eq/=; eauto.
Qed.

(** Two predicates that agree on the members of a list select the same one. *)
Lemma list_find_ext_in {A} (P Q : A → Prop) `{∀ x, Decision (P x), ∀ x, Decision (Q x)} (l : list A) :
  (∀ x, x ∈ l → P x ↔ Q x) → list_find P l = list_find Q l.
Proof.
  induction l as [|a l IH]; intros H1; [done|]. simpl.
  pose proof (H1 a ltac:(left)). rewrite IH by (intros x Hx; apply H1; by right).
  repeat case_decide; tauto.
Qed.
