(* ===== verification/Memory.v ===== *)
(** * Memory: the flat physical memory of the machine

    One byte-addressed store that every component shares.  A byte that was
    never written reads as an arbitrary fixed value (zero here); theorems
    quantify over the initial contents.  Pointers are 64-bit numbers; the
    kernel dereferences virtual addresses through the two windows that
    [init_paging] keeps on physical memory, the identity window and the
    window at [KERNEL_VADDR] (src/include/sys/paging.h, [VADDR]/[PADDR]). *)
From S2P Require Import Prelude.

Abbreviation mem := (gmap Z Z).

(** ** Bytes *)

Definition rd (m : mem) (a : Z) : Z := u8 (default 0 (m !! a)).
Definition wr (m : mem) (a v : Z) : mem := <[a := u8 v]> m.

(** ** Little-endian accesses of [n] bytes *)

Fixpoint load (n : nat) (m : mem) (a : Z) : Z :=
  match n with
  | O => 0
  | S n' => rd m a + 2 ^ 8 * load n' m (a + 1)
  end.

Fixpoint store (n : nat) (m : mem) (a v : Z) : mem :=
  match n with
  | O => m
  | S n' => store n' (wr m a v) (a + 1) (v / 2 ^ 8)
  end.

Definition load64 : mem → Z → Z := load 8.
Definition store64 : mem → Z → Z → mem := store 8.
Definition load_int (m : mem) (a : Z) : Z := i32 (load 4 m a).
Definition store_int : mem → Z → Z → mem := store 4.

(** ** Address windows of include/sys/paging.h *)

Definition PAGE_SIZE : Z := 4096.
Definition KERNEL_VADDR : Z := 0xffffffff80000000.
Definition VADDR (p : Z) : Z := u64 (KERNEL_VADDR + p).
Definition PADDR (v : Z) : Z := u64 (v - KERNEL_VADDR).

(** The physical address a kernel pointer designates: addresses in the window
    at [KERNEL_VADDR] are shifted down, lower ones are identity mapped. *)
Definition phys (a : Z) : Z := if KERNEL_VADDR <=? a then a - KERNEL_VADDR else a.

(** ** memset and memcpy (src/sys/utils.c) *)

Fixpoint memset_loop (n : nat) (m : mem) (p value : Z) : mem :=
  match n with
  | O => m
  | S n' => memset_loop n' (wr m p value) (p + 1) value
  end.

Definition memset (m : mem) (address value size : Z) : mem :=
  memset_loop (Z.to_nat size) m address value.

Fixpoint memcpy_loop (n : nat) (m : mem) (dst src : Z) : mem :=
  match n with
  | O => m
  | S n' => memcpy_loop n' (wr m dst (rd m src)) (dst + 1) (src + 1)
  end.

Definition memcpy (m : mem) (dest src size : Z) : mem :=
  memcpy_loop (Z.to_nat size) m dest src.

(** ** Laws of single bytes *)

Lemma rd_range m a : 0 <= rd m a < 2 ^ 8.
Proof. apply u8_range. Qed.

Lemma rd_wr m a v b : rd (wr m a v) b = if decide (a = b) then u8 v else rd m b.
Proof.
  unfold rd, wr. destruct (decide (a = b)) as [->|Hne].
  - rewrite lookup_insert_eq. simpl. apply u8_small, u8_range.
  - by rewrite lookup_insert_ne.
Qed.

Lemma rd_wr_eq m a v : rd (wr m a v) a = u8 v.
Proof. rewrite rd_wr. by case_decide. Qed.

Lemma rd_wr_ne m a v b : a ≠ b → rd (wr m a v) b = rd m b.
Proof. intros. rewrite rd_wr. by case_decide. Qed.

(** Disjoint byte ranges. *)
Definition disj (a n b k : Z) : Prop := a + n <= b ∨ b + k <= a.

(** Two memories that agree on a range of addresses. *)
Definition agree_on (m m' : mem) (a n : Z) : Prop :=
  ∀ b, a <= b < a + n → rd m' b = rd m b.

Lemma agree_on_refl m a n : agree_on m m a n.
Proof. by intros b Hb. Qed.

Lemma agree_on_trans m1 m2 m3 a n :
  agree_on m1 m2 a n → agree_on m2 m3 a n → agree_on m1 m3 a n.
Proof. intros H1 H2 b Hb. by rewrite H2, H1. Qed.

Lemma agree_on_sub m m' a n b k :
  agree_on m m' a n → a <= b → b + k <= a + n → agree_on m m' b k.
Proof. intros H H1 H2 c Hc. apply H. lia. Qed.

Lemma load_agree n : ∀ m m' a, agree_on m m' a (Z.of_nat n) → load n m' a = load n m a.
Proof.
  induction n as [|n IH]; intros m m' a H; simpl; [done|].
  rewrite (H a) by lia. f_equal. f_equal. apply IH. intros b Hb. apply H. lia.
Qed.

Lemma load_range n : ∀ m a, 0 <= load n m a < 2 ^ (8 * Z.of_nat n).
Proof.
  induction n as [|n IH]; intros m a; simpl; [lia|].
  specialize (IH m (a + 1)). pose proof (rd_range m a).
  replace (2 ^ (8 * Z.of_nat (S n))) with (2 ^ 8 * 2 ^ (8 * Z.of_nat n))
    by (rewrite <- Z.pow_add_r; [f_equal|..]; lia).
  change (2 ^ 8) with 256 in *. change (Z.pow_pos 2 8) with 256. nia.
Qed.

(** ** What a store leaves unchanged, and what it writes *)

Lemma store_agree n : ∀ m a v b k,
  b + k <= a ∨ a + Z.of_nat n <= b → agree_on m (store n m a v) b k.
Proof.
  induction n as [|n IH]; intros m a v b k H; simpl; [apply agree_on_refl|].
  eapply agree_on_trans; [|apply IH; lia].
  intros c Hc. apply rd_wr_ne. lia.
Qed.

Lemma load_store_ne k n m a v b :
  b + Z.of_nat k <= a ∨ a + Z.of_nat n <= b → load k (store n m a v) b = load k m b.
Proof. intros. apply load_agree, store_agree. lia. Qed.

Lemma load_store_eq n : ∀ m a v, load n (store n m a v) a = v mod 2 ^ (8 * Z.of_nat n).
Proof.
  induction n as [|n IH]; intros m a v; simpl; [by rewrite Z.mod_1_r|].
  rewrite IH. rewrite (store_agree n _ (a + 1) _ a 1) by lia. rewrite rd_wr_eq.
  replace (2 ^ (8 * Z.of_nat (S n))) with (2 ^ 8 * 2 ^ (8 * Z.of_nat n))
    by (rewrite <- Z.pow_add_r; [f_equal|..]; lia).
  rewrite Z.rem_mul_r by lia. unfold u8. change (Z.pow_pos 2 8) with (2 ^ 8). lia.
Qed.

Lemma load64_store64_eq m a v : load64 (store64 m a v) a = u64 v.
Proof. unfold load64, store64. by rewrite load_store_eq. Qed.

Lemma load64_store64_ne m a v b :
  b + 8 <= a ∨ a + 8 <= b → load64 (store64 m a v) b = load64 m b.
Proof. intros. apply load_store_ne. lia. Qed.

Lemma load_int_store_int_eq m a v : load_int (store_int m a v) a = i32 v.
Proof. unfold load_int, store_int. rewrite load_store_eq. unfold i32. lia. Qed.

Lemma load_int_store_int_ne m a v b :
  b + 4 <= a ∨ a + 4 <= b → load_int (store_int m a v) b = load_int m b.
Proof. intros. unfold load_int, store_int. rewrite load_store_ne; [done|lia]. Qed.

Lemma load_int_store64_ne m a v b :
  b + 4 <= a ∨ a + 8 <= b → load_int (store64 m a v) b = load_int m b.
Proof. intros. unfold load_int, store64. rewrite load_store_ne; [done|lia]. Qed.

Lemma load64_store_int_ne m a v b :
  b + 8 <= a ∨ a + 4 <= b → load64 (store_int m a v) b = load64 m b.
Proof. intros. unfold load64, store_int. rewrite load_store_ne; [done|lia]. Qed.

Lemma load64_range m a : 0 <= load64 m a < 2 ^ 64.
Proof. apply load_range. Qed.

Lemma load_int_range m a : - 2 ^ 31 <= load_int m a < 2 ^ 31.
Proof. apply i32_range. Qed.

(** ** memset and memcpy *)

Lemma memset_loop_rd n : ∀ m p v b,
  rd (memset_loop n m p v) b =
  if decide (p <= b < p + Z.of_nat n) then u8 v else rd m b.
Proof.
  induction n as [|n IH]; intros m p v b; simpl; [case_decide; [lia|done]|].
  rewrite IH, rd_wr. repeat case_decide; try done; lia.
Qed.

Lemma memset_rd m p v n b :
  rd (memset m p v n) b = if decide (p <= b < p + n) then u8 v else rd m b.
Proof. unfold memset. rewrite memset_loop_rd. repeat case_decide; try done; lia. Qed.

Lemma memset_agree m p v n b k :
  b + k <= p ∨ p + n <= b → agree_on m (memset m p v n) b k.
Proof. intros H c Hc. rewrite memset_rd. case_decide; [lia|done]. Qed.

Lemma load_zeros n : ∀ m a,
  (∀ b, a <= b < a + Z.of_nat n → rd m b = 0) → load n m a = 0.
Proof.
  induction n as [|n IH]; intros m a H; simpl; [done|].
  rewrite IH, (H a) by (intros; try apply H; lia). lia.
Qed.

Lemma load_memset_zero k m p n a :
  p <= a → a + Z.of_nat k <= p + n → load k (memset m p 0 n) a = 0.
Proof.
  intros. apply load_zeros. intros b Hb. rewrite memset_rd. case_decide; [done|lia].
Qed.

Lemma load_memset_ne k m p v n a :
  a + Z.of_nat k <= p ∨ p + n <= a → load k (memset m p v n) a = load k m a.
Proof. intros. by apply load_agree, memset_agree. Qed.

Lemma memcpy_loop_rd n : ∀ m d s b,
  s + Z.of_nat n <= d ∨ d + Z.of_nat n <= s →
  rd (memcpy_loop n m d s) b =
  if decide (d <= b < d + Z.of_nat n) then rd m (s + (b - d)) else rd m b.
Proof.
  induction n as [|n IH]; intros m d s b H; simpl; [case_decide; [lia|done]|].
  rewrite IH by lia. rewrite !rd_wr.
  repeat case_decide; try lia; try done.
  - f_equal. lia.
  - subst. rewrite Z.sub_diag, Z.add_0_r. apply u8_small, rd_range.
Qed.

(** memcpy over disjoint ranges copies the source bytes and nothing else. *)
Lemma memcpy_rd m d s n b :
  s + n <= d ∨ d + n <= s →
  rd (memcpy m d s n) b = if decide (d <= b < d + n) then rd m (s + (b - d)) else rd m b.
Proof.
  intros H. unfold memcpy. destruct (Z.le_gt_cases n 0).
  - replace (Z.to_nat n) with 0%nat by lia. simpl. case_decide; [lia|done].
  - rewrite memcpy_loop_rd by lia. repeat case_decide; try done; lia.
Qed.

(** The same for single bytes and words. *)
Lemma rd_store_ne n m a v b : b < a ∨ a + Z.of_nat n <= b → rd (store n m a v) b = rd m b.
Proof. intros H. apply (store_agree n m a v b 1); lia. Qed.
Lemma rd_store64_ne m a v b : b < a ∨ a + 8 <= b → rd (store64 m a v) b = rd m b.
Proof. intros H. apply rd_store_ne. lia. Qed.
Lemma rd_memset_ne m p v n b : b < p ∨ p + n <= b → rd (memset m p v n) b = rd m b.
Proof. intros H. rewrite memset_rd. by rewrite decide_False by lia. Qed.
Lemma load64_memset_ne m p v n a : a + 8 <= p ∨ p + n <= a → load64 (memset m p v n) a = load64 m a.
Proof. intros H. apply (load_memset_ne 8). lia. Qed.
Lemma load64_store_ne n m a v b : b + 8 <= a ∨ a + Z.of_nat n <= b → load64 (store n m a v) b = load64 m b.
Proof. intros H. apply (load_store_ne 8). lia. Qed.

(** ** The windows *)

Lemma phys_VADDR p : 0 <= p < 2 ^ 31 → phys (VADDR p) = p.
Proof. intros. unfold phys, VADDR, KERNEL_VADDR. rewrite u64_small by lia. case_match; lia. Qed.

Lemma phys_low p : 0 <= p < 2 ^ 31 → phys p = p.
Proof. intros. unfold phys, KERNEL_VADDR. case_match; lia. Qed.

Lemma PADDR_VADDR p : 0 <= p < 2 ^ 64 → PADDR (VADDR p) = p.
Proof. intros. unfold PADDR, VADDR, KERNEL_VADDR, u64. lia. Qed.

Lemma VADDR_nonzero p : 0 <= p < 2 ^ 31 → VADDR p ≠ 0.
Proof. intros. unfold VADDR, KERNEL_VADDR, u64. lia. Qed.

(** ** Memories up to extensional equality

    A byte never written and a byte holding zero are the same byte; the
    accessors respect this coarser equivalence. *)

Definition mem_eq (m m' : mem) : Prop := ∀ a, rd m a = rd m' a.
Notation "m =m= m'" := (mem_eq m m') (at level 70, no associativity) : c_scope.

#[export] Instance mem_equivalence : Equivalence mem_eq.
Proof.
  split.
  - by intros m a.
  - intros m m' H a. symmetry. apply H.
  - intros m1 m2 m3 H1 H2 a. etrans; [apply H1|apply H2].
Qed.
#[export] Instance rd_proper : Proper (mem_eq ==> (=) ==> (=)) rd.
Proof. intros m m' H a ? <-. apply H. Qed.
#[export] Instance wr_proper : Proper (mem_eq ==> (=) ==> (=) ==> mem_eq) wr.
Proof. intros m m' H a ? <- v ? <- b. rewrite !rd_wr. by case_decide. Qed.
#[export] Instance load_proper n : Proper (mem_eq ==> (=) ==> (=)) (load n).
Proof. intros m m' H a ? <-. apply load_agree. intros b _. apply H. Qed.
#[export] Instance store_proper n : Proper (mem_eq ==> (=) ==> (=) ==> mem_eq) (store n).
Proof.
  induction n as [|n IH]; intros m m' H a ? <- v ? <-; simpl; [done|].
  apply IH; [|done..]. by rewrite H.
Qed.

Lemma memset_twice m p v w n : memset (memset m p v n) p w n =m= memset m p w n.
Proof. intros b. rewrite !memset_rd. by case_decide. Qed.
