(* ===== verification/Utils.v ===== *)
(** * Utils: the numeric helpers of src/sys/utils.c

    [pow], [max], [atoi], [octTodec], the page-rounding helpers and [itoa],
    with what each computes.  C strings live in the flat memory of [Memory]. *)
From S2P Require Import Prelude Memory.

(** ** C strings in memory *)

(** [cstr m a s]: the bytes [s], none of them NUL, stand at [a] and are
    followed by a NUL. *)
Fixpoint cstr (m : mem) (a : Z) (s : list Z) : Prop :=
  match s with
  | [] => rd m a = 0
  | c :: s' => rd m a = c ∧ c ≠ 0 ∧ cstr m (a + 1) s'
  end.

Lemma cstr_rd m s : ∀ a i c, cstr m a s → s !! i = Some c → rd m (a + Z.of_nat i) = c ∧ c ≠ 0.
Proof.
  induction s as [|d s IH]; intros a i c H Hi; [done|].
  destruct H as (H1 & H2 & H3). destruct i as [|i]; simplify_eq/=.
  - by rewrite Z.add_0_r.
  - destruct (IH (a + 1) i c H3 Hi) as [E ?]. split; [|done]. rewrite <- E. f_equal. lia.
Qed.

Lemma cstr_end m s : ∀ a, cstr m a s → rd m (a + Z.of_nat (length s)) = 0.
Proof.
  induction s as [|d s IH]; intros a H; simpl in *.
  - by rewrite Z.add_0_r.
  - destruct H as (_ & _ & H). rewrite <- (IH _ H). f_equal. lia.
Qed.

Lemma cstr_bytes m s : ∀ a, cstr m a s → Forall (λ c, 0 < c < 256) s.
Proof.
  induction s as [|d s IH]; intros a H; [constructor|].
  destruct H as (H1 & H2 & H3). constructor; [|by eapply IH].
  pose proof (rd_range m a). lia.
Qed.

Lemma cstr_drop m s : ∀ a (k : nat),
  cstr m a s → (k <= length s)%nat → cstr m (a + Z.of_nat k) (drop k s).
Proof.
  induction s as [|d s IH]; intros a k H Hk; simpl in *.
  - replace k with 0%nat by lia. by rewrite Z.add_0_r.
  - destruct k as [|k]; simpl; [by rewrite Z.add_0_r|].
    destruct H as (_ & _ & H).
    replace (a + Z.of_nat (S k)) with (a + 1 + Z.of_nat k) by lia. apply IH; [done|lia].
Qed.

Lemma cstr_intro m s : ∀ a,
  (∀ i c, s !! i = Some c → rd m (a + Z.of_nat i) = c ∧ c ≠ 0) →
  rd m (a + Z.of_nat (length s)) = 0 → cstr m a s.
Proof.
  induction s as [|d s IH]; intros a H Hend; simpl in *.
  - by rewrite Z.add_0_r in Hend.
  - destruct (H 0%nat d eq_refl) as [E ?]. rewrite Z.add_0_r in E. split_and!; [done..|].
    apply IH.
    + intros i c Hi. destruct (H (S i) c Hi) as [E' ?]. split; [|done]. rewrite <- E'. f_equal. lia.
    + rewrite <- Hend. f_equal. lia.
Qed.

Lemma cstr_agree m m' a s :
  cstr m a s → agree_on m m' a (Z.of_nat (length s) + 1) → cstr m' a s.
Proof.
  intros H Hag. apply cstr_intro.
  - intros i c Hi. rewrite Hag; [by eapply cstr_rd|]. apply lookup_lt_Some in Hi. lia.
  - rewrite Hag by lia. by apply cstr_end.
Qed.

Lemma cstr_inj m a s : ∀ s', cstr m a s → cstr m a s' → s = s'.
Proof.
  revert a. induction s as [|c s IH]; intros a [|d s'] H H'; simpl in *; try done; try lia.
  destruct H as (? & ? & ?), H' as (? & ? & ?). f_equal; [lia|]. by eapply IH.
Qed.

(** ** pow, max, page rounding *)

(** [exp] is a non-negative [int] in every call. *)
Fixpoint pow (x : Z) (exp : nat) : Z :=
  match exp with
  | O => 1
  | S e => x *64 pow x e
  end.

Definition max (a b : Z) : Z := if b <? a then a else b.

Definition get_starting_page (addr : Z) : Z := addr -64 addr mod 0x1000.

Definition get_ending_page (addr : Z) : Z := get_starting_page (addr +64 0x1000 -64 1).

(** ** atoi *)

(** [res] is an [int]; characters are signed. *)
Fixpoint atoi_loop (fuel : nat) (m : mem) (str i res : Z) : option Z :=
  match fuel with
  | O => None
  | S f =>
      if rd m (str + i) =? 0 then Some res
      else atoi_loop f m str (i + 1) (i32 (res * 10 + i8 (rd m (str + i)) - 48))
  end.

(** The definition returns [uint64_t], the prototype in utils.h says [int]:
    callers keep the low 32 bits, see [atoi_int]. *)
Definition atoi (fuel : nat) (m : mem) (str : Z) : option Z :=
  let '(sign, i) := if rd m str =? 45 then (-1, 1) else (1, 0) in
  res ← atoi_loop fuel m str i 0;
  Some (u64 (i32 (sign * res))).

Definition atoi_int (fuel : nat) (m : mem) (str : Z) : option Z :=
  r ← atoi fuel m str; Some (i32 r).

(** ** octTodec *)

Fixpoint octTodec_loop (fuel : nat) (octal decimal : Z) (i : nat) : Z :=
  match fuel with
  | O => decimal
  | S f =>
      if octal =? 0 then decimal
      else octTodec_loop f (octal / 10) (decimal +64 (octal mod 10) *64 pow 8 i) (S i)
  end.

(** A 64-bit number has at most 20 decimal digits. *)
Definition octTodec (octal : Z) : Z := octTodec_loop 20 octal 0 0.

(** ** itoa *)

Definition hexdigit (d : Z) : Z := if d <? 10 then 48 + d else 87 + d.

Fixpoint itoa_loop (fuel : nat) (m : mem) (val str base : Z) : Z * mem :=
  match fuel with
  | O => (str, m)
  | S f =>
      if val =? 0 then (str, m)
      else itoa_loop f (wr m (str - 1) (hexdigit (val mod base))) (val / base) (str - 1) base
  end.

Definition itoa (m : mem) (val str base : Z) : Z * mem :=
  let m := wr m str 0 in
  if val =? 0 then (str - 1, wr m (str - 1) 48)
  else if negb (base =? 10) && negb (base =? 16) then (str, m)
  else itoa_loop 20 m val str base.

(** ** Numbers written in a base *)

(** The value of a digit string, most significant digit first. *)
Definition digits_val (base : Z) (ds : list Z) : Z :=
  fold_left (λ acc d, acc * base + d) ds 0.

(** The characters [itoa] leaves for [val]. *)
Fixpoint digits_of (fuel : nat) (base val : Z) (acc : list Z) : list Z :=
  match fuel with
  | O => acc
  | S f => if val =? 0 then acc else digits_of f base (val / base) (hexdigit (val mod base) :: acc)
  end.

Definition dec_string (val : Z) : list Z := if val =? 0 then [48] else digits_of 20 10 val [].

Lemma digits_val_snoc base ds d : digits_val base (ds ++ [d]) = digits_val base ds * base + d.
Proof. unfold digits_val. by rewrite fold_left_app. Qed.

Lemma digits_val_app_acc base ds : ∀ acc,
  fold_left (λ acc d, acc * base + d) ds acc =
  acc * base ^ Z.of_nat (length ds) + digits_val base ds.
Proof.
  unfold digits_val. induction ds as [|d ds IH]; intros acc; cbn [fold_left length]; [lia|].
  rewrite IH, (IH (0 * base + d)).
  rewrite Nat2Z.inj_succ, Z.pow_succ_r by lia. ring.
Qed.

(** ** octTodec undoes reading octal digits as decimal *)

Lemma pow_spec x e : pow x e = u64 (x ^ Z.of_nat e).
Proof.
  induction e as [|e IH]; simpl; [done|]. rewrite IH, Nat2Z.inj_succ, Z.pow_succ_r by lia.
  unfold u64. by rewrite Z.mul_mod_idemp_r.
Qed.

Lemma digits_val_nonneg base ds :
  0 <= base → Forall (λ d, 0 <= d) ds → 0 <= digits_val base ds.
Proof.
  intros Hb. induction ds as [|d ds IH] using rev_ind; intros Hd; [done|].
  apply Forall_app in Hd as [Hd1 Hd2]. inversion Hd2; subst.
  rewrite digits_val_snoc. specialize (IH Hd1). nia.
Qed.

Lemma digits_val_zero b c ds :
  0 < b → Forall (λ d, 0 <= d) ds → digits_val b ds = 0 → digits_val c ds = 0.
Proof.
  intros Hb. induction ds as [|d ds IH] using rev_ind; intros Hd H0; [done|].
  apply Forall_app in Hd as [Hd1 Hd2]. inversion Hd2; subst.
  rewrite digits_val_snoc in *. pose proof (digits_val_nonneg b ds ltac:(lia) Hd1).
  assert (digits_val b ds = 0 ∧ d = 0) as [H1 ->] by nia. rewrite IH by done. lia.
Qed.

Lemma octTodec_loop_spec fuel : ∀ ds decimal i,
  Forall (λ d, 0 <= d < 8) ds →
  digits_val 10 ds < 10 ^ Z.of_nat fuel →
  0 <= decimal < 2 ^ 64 →
  octTodec_loop fuel (digits_val 10 ds) decimal i =
  u64 (decimal + digits_val 8 ds * 8 ^ Z.of_nat i).
Proof.
  induction fuel as [|fuel IH]; intros ds decimal i Hd Hf Hr.
  - assert (Hn : Forall (λ d, 0 <= d) ds) by (eapply Forall_impl; [exact Hd|]; simpl; intros; lia).
    pose proof (digits_val_nonneg 10 ds ltac:(lia) Hn). change (10 ^ Z.of_nat 0) with 1 in Hf.
    rewrite (digits_val_zero 10 8 ds) by (done || lia).
    rewrite Z.mul_0_l, Z.add_0_r, u64_small by lia. done.
  - assert (Hn : Forall (λ d, 0 <= d) ds) by (eapply Forall_impl; [exact Hd|]; simpl; intros; lia).
    cbn [octTodec_loop]. case_match eqn:E.
    + apply Z.eqb_eq in E. rewrite (digits_val_zero 10 8 ds) by (done || lia).
      rewrite Z.mul_0_l, Z.add_0_r, u64_small by lia. done.
    + destruct ds as [|d ds _] using rev_ind; [done|].
      apply Forall_app in Hd as [Hd1 Hd2]. inversion Hd2; subst.
      rewrite !digits_val_snoc in *. rewrite Nat2Z.inj_succ, Z.pow_succ_r in Hf by lia.
      replace ((digits_val 10 ds * 10 + d) / 10) with (digits_val 10 ds) by lia.
      replace ((digits_val 10 ds * 10 + d) mod 10) with d by lia.
      rewrite IH; [|done|lia|apply u64_range].
      rewrite pow_spec, Nat2Z.inj_succ, Z.pow_succ_r by lia. unfold u64.
      rewrite Z.mul_mod_idemp_r, Z.add_mod_idemp_r, Z.add_mod_idemp_l by lia.
      f_equal. ring.
Qed.

Lemma octTodec_spec ds :
  Forall (λ d, 0 <= d < 8) ds → digits_val 10 ds < 2 ^ 64 →
  octTodec (digits_val 10 ds) = u64 (digits_val 8 ds).
Proof.
  intros Hd Hb. unfold octTodec. rewrite octTodec_loop_spec by (done || lia).
  f_equal. rewrite Z.pow_0_r. lia.
Qed.

(** ** atoi reads decimal digits *)

Definition digit_chars (ds : list Z) : list Z := (λ d, 48 + d) <$> ds.

Lemma digits_val_prefix_le ds : ∀ acc,
  Forall (λ d, 0 <= d <= 9) ds → 0 <= acc →
  acc <= fold_left (λ acc d, acc * 10 + d) ds acc.
Proof.
  induction ds as [|d ds IH]; intros acc Hd Ha; [done|]. inversion Hd; subst.
  cbn [fold_left]. etrans; [|apply IH; [done|lia]]. lia.
Qed.

Lemma atoi_loop_spec ds : ∀ fuel m str i acc,
  Forall (λ d, 0 <= d <= 9) ds → 0 <= acc →
  fold_left (λ acc d, acc * 10 + d) ds acc < 2 ^ 31 →
  cstr m (str + i) (digit_chars ds) → (length ds < fuel)%nat →
  atoi_loop fuel m str i acc = Some (fold_left (λ acc d, acc * 10 + d) ds acc).
Proof.
  induction ds as [|d ds IH]; intros [|fuel] m str i acc Hd Ha Hb Hs Hf; simpl in Hf; try lia.
  - simpl in *. by rewrite Hs.
  - inversion Hd as [|? ? Hd1 Hd2]; subst. cbn [digit_chars fmap list_fmap cstr] in Hs.
    destruct Hs as (H1 & H2 & H3).
    cbn [atoi_loop fold_left] in *. rewrite H1.
    destruct (Z.eqb_spec (48 + d) 0); [lia|].
    pose proof (digits_val_prefix_le ds (acc * 10 + d) Hd2 ltac:(lia)).
    rewrite i8_small by lia. rewrite i32_small by lia.
    replace (acc * 10 + (48 + d) - 48) with (acc * 10 + d) by lia.
    apply IH; [done|lia|done| |lia].
    by rewrite Z.add_assoc.
Qed.

Lemma atoi_spec fuel m str ds :
  Forall (λ d, 0 <= d <= 9) ds → digits_val 10 ds < 2 ^ 31 →
  cstr m str (digit_chars ds) → (length ds < fuel)%nat →
  atoi fuel m str = Some (digits_val 10 ds).
Proof.
  intros Hd Hb Hs Hf. unfold atoi.
  assert (rd m str ≠ 45) as Hne.
  { destruct ds as [|d ds]; [by rewrite Hs|]. inversion Hd; subst. destruct Hs. lia. }
  apply Z.eqb_neq in Hne. rewrite Hne.
  rewrite (atoi_loop_spec ds); try done; [|by rewrite Z.add_0_r].
  assert (0 <= digits_val 10 ds).
  { apply digits_val_nonneg; [lia|]. eapply Forall_impl; [exact Hd|]. simpl; intros; lia. }
  cbn [mbind option_bind]. rewrite Z.mul_1_l, i32_small by (fold (digits_val 10 ds); lia).
  f_equal. apply u64_small. fold (digits_val 10 ds). lia.
Qed.

(** ** itoa writes the digits of its argument *)

Lemma digits_of_app fuel base : ∀ val acc,
  digits_of fuel base val acc = digits_of fuel base val [] ++ acc.
Proof.
  induction fuel as [|f IH]; intros val acc; simpl; [done|]. case_match; [done|].
  rewrite IH, (IH _ [_]), <- app_assoc. done.
Qed.

Lemma itoa_loop_spec fuel base : ∀ m val str s,
  2 <= base <= 16 → 0 <= val → cstr m str s →
  let '(p, m') := itoa_loop fuel m val str base in
  p = str - Z.of_nat (length (digits_of fuel base val s) - length s) ∧
  cstr m' p (digits_of fuel base val s).
Proof.
  induction fuel as [|f IH]; intros m val str s Hb Hv Hs; simpl; [split; [lia|done]|].
  destruct (Z.eqb_spec val 0); [split; [lia|done]|].
  pose proof (Z.mod_pos_bound val base ltac:(lia)).
  assert (Hd : 0 < hexdigit (val mod base) < 2 ^ 8) by (unfold hexdigit; case_match; lia).
  assert (Hs' : cstr (wr m (str - 1) (hexdigit (val mod base))) (str - 1)
                  (hexdigit (val mod base) :: s)).
  { split_and!; [rewrite rd_wr_eq; apply u8_small; lia|lia|].
    replace (str - 1 + 1) with str by lia. eapply cstr_agree; [done|].
    intros b Hb'. apply rd_wr_ne. lia. }
  specialize (IH _ (val / base) (str - 1) _ Hb ltac:(apply Z.div_pos; lia) Hs').
  destruct (itoa_loop f _ _ _ _) as [p m']. destruct IH as [-> IH]. split; [|done].
  rewrite (digits_of_app _ _ _ (_ :: s)), length_app. simpl. lia.
Qed.

Lemma digits_of_dec fuel : ∀ val,
  0 <= val < 10 ^ Z.of_nat fuel →
  ∃ ds, digits_of fuel 10 val [] = digit_chars ds ∧ Forall (λ d, 0 <= d <= 9) ds ∧
        digits_val 10 ds = val ∧ (length ds <= fuel)%nat.
Proof.
  induction fuel as [|f IH]; intros val Hv; simpl.
  - exists []. change (10 ^ Z.of_nat 0) with 1 in Hv. split_and!; [done|apply Forall_nil_2|cbn; lia|cbn; lia].
  - case_match eqn:E; [exists []; split_and!; [done|apply Forall_nil_2|cbn; lia|cbn; lia]|].
    rewrite Nat2Z.inj_succ, Z.pow_succ_r in Hv by lia.
    destruct (IH (val / 10)) as (ds & H1 & H2 & H3 & H4); [lia|].
    exists (ds ++ [val mod 10]). rewrite digits_of_app, H1. split_and!.
    + unfold digit_chars, hexdigit. rewrite fmap_app. case_match; [done|lia].
    + apply Forall_app. split; [done|]. constructor; [lia|constructor].
    + rewrite digits_val_snoc. lia.
    + rewrite length_app. simpl. lia.
Qed.

(** Reading back what [itoa] printed in base 10 gives the number again. *)
Lemma itoa_atoi m v str fuel :
  0 <= v < 2 ^ 31 → (20 < fuel)%nat →
  let '(p, m') := itoa m v str 10 in atoi fuel m' p = Some v.
Proof.
  intros Hv Hf. unfold itoa. destruct (Z.eqb_spec v 0) as [->|].
  { apply (atoi_spec fuel _ _ [0]); simpl; [|done| |lia].
    - constructor; [lia|constructor].
    - split_and!; [by rewrite rd_wr_eq|lia|].
      replace (str - 1 + 1) with str by lia. rewrite rd_wr_ne, rd_wr_eq by lia. done. }
  cbn [negb andb Z.eqb Pos.eqb].
  pose proof (itoa_loop_spec 20 10 (wr m str 0) v str [] ltac:(lia) ltac:(lia)
                ltac:(simpl; by rewrite rd_wr_eq)) as H.
  destruct (itoa_loop 20 _ _ _ _) as [p m']. destruct H as [_ H].
  destruct (digits_of_dec 20 v ltac:(lia)) as (ds & H1 & H2 & H3 & H4).
  rewrite H1 in H. rewrite <- H3. apply atoi_spec; try done; lia.
Qed.

(** ** Page rounding *)

Lemma get_starting_page_spec a :
  0 <= a < 2 ^ 64 → get_starting_page a = a - a mod PAGE_SIZE.
Proof. intros. unfold get_starting_page, PAGE_SIZE. apply u64_small. lia. Qed.

Lemma get_ending_page_spec a :
  0 <= a <= 2 ^ 64 - 4096 →
  get_ending_page a = a + (- a) mod PAGE_SIZE.
Proof.
  intros. unfold get_ending_page, get_starting_page, PAGE_SIZE.
  unfold u64. lia.
Qed.
