(* ===== verification/Strings.v ===== *)
(** * Strings: the kernel's string library, src/sys/strings.c

    Every function works on C strings of the flat memory, with the loops of
    the source.  A loop that runs to the terminating NUL takes fuel and
    answers [None] when it runs out; each theorem gives the fuel that is
    enough.  Loop counters are [int]s that count bytes of one string. *)
From S2P Require Import Prelude Memory Utils.

Definition FMT_LEN : Z := 100.

(** ** str_len *)

Fixpoint str_len_loop (fuel : nat) (m : mem) (str i : Z) : option Z :=
  match fuel with
  | O => None
  | S f => if rd m (str + i) =? 0 then Some i else str_len_loop f m str (i + 1)
  end.

Definition str_len (fuel : nat) (m : mem) (str : Z) : option Z := str_len_loop fuel m str 0.

(** ** str_cpy *)

(** One copying loop [for(i=0; src[i] != 0; i++) dst[base+i] = src[i]]; it
    gives the index at which it stopped. *)
Fixpoint copy_loop (fuel : nat) (m : mem) (dst src i : Z) : option (Z * mem) :=
  match fuel with
  | O => None
  | S f =>
      if rd m (src + i) =? 0 then Some (i, m)
      else copy_loop f (wr m (dst + i) (rd m (src + i))) dst src (i + 1)
  end.

Definition str_cpy (fuel : nat) (m : mem) (to_str frm_str : Z) : option mem :=
  '(i, m) ← copy_loop fuel m to_str frm_str 0;
  Some (wr m (to_str + i) 0).

(** ** str_concat *)

Definition str_concat (fuel : nat) (m : mem) (prev current dest : Z) : option mem :=
  '(i, m) ← copy_loop fuel m dest prev 0;
  let m := wr m (dest + i) 0 in
  '(j, m) ← copy_loop fuel m (dest + i) current 0;
  Some (wr m (dest + (i + j)) 0).

(** ** str_cmp, strn_cmp *)

Fixpoint str_cmp (fuel : nat) (m : mem) (str1 str2 : Z) : option Z :=
  match fuel with
  | O => None
  | S f =>
      if (rd m str1 =? rd m str2) && (rd m str1 =? 0) then Some 1
      else if rd m str1 =? rd m str2 then str_cmp f m (str1 + 1) (str2 + 1)
      else Some (-1)
  end.

Fixpoint strn_cmp (m : mem) (s1 s2 : Z) (n : nat) : Z :=
  match n with
  | O => 0
  | S n' =>
      if negb (rd m s1 =? 0) && (rd m s1 =? rd m s2) then strn_cmp m (s1 + 1) (s2 + 1) n'
      else rd m s1 - rd m s2
  end.

(** ** str_substr *)

Fixpoint substr_loop (n : nat) (m : mem) (str i out_str index : Z) : mem :=
  match n with
  | O => wr m (out_str + index) 0
  | S n' => substr_loop n' (wr m (out_str + index) (rd m (str + i))) str (i + 1) out_str (index + 1)
  end.

Definition str_substr (m : mem) (str from to out_str : Z) : mem :=
  substr_loop (Z.to_nat (to - from + 1)) m str from out_str 0.

(** ** str_split_delim *)

Fixpoint split_loop (fuel : nat) (m : mem) (str delim out prev_ptr i arg_ctr : Z)
    : option (Z * mem) :=
  match fuel with
  | O => None
  | S f =>
      if rd m (str + i) =? 0 then
        Some (arg_ctr + 1, str_substr m str prev_ptr (i - 1) (out + FMT_LEN * arg_ctr))
      else if rd m (str + i) =? delim then
        split_loop f (str_substr m str prev_ptr (i - 1) (out + FMT_LEN * arg_ctr))
          str delim out i (i + 1) (arg_ctr + 1)
      else split_loop f m str delim out prev_ptr (i + 1) arg_ctr
  end.

Definition str_split_delim (fuel : nat) (m : mem) (str delim out : Z) : option (Z * mem) :=
  split_loop fuel m str delim out 0 0 0.

(** ** str_reverse *)

Fixpoint reverse_loop (n : nat) (m : mem) (str dest len i : Z) : mem :=
  match n with
  | O => wr m (dest + i) 0
  | S n' => reverse_loop n' (wr m (dest + i) (rd m (str + (len - 1 - i)))) str dest len (i + 1)
  end.

Definition str_reverse (fuel : nat) (m : mem) (str dest : Z) : option mem :=
  len ← str_len fuel m str;
  Some (reverse_loop (Z.to_nat len) m str dest len 0).

(** ** str_contains *)

(** Answers [(startIdx, found)] when the loop ends; [fl] is the fuel of the
    [str_len] calls in its body. *)
Fixpoint contains_loop (fl fuel : nat) (m : mem) (str query i j startIdx : Z)
    : option (Z * bool) :=
  match fuel with
  | O => None
  | S f =>
      if rd m (str + i) =? 0 then Some (startIdx, false)
      else if rd m (str + i) =? rd m (query + j) then
        l ← str_len fl m query;
        if j + 1 =? l then Some (i, true)
        else contains_loop fl f m str query (i + 1) (j + 1) i
      else if 0 <=? startIdx then contains_loop fl f m str query (i + 1) 0 (-1)
      else contains_loop fl f m str query (i + 1) j startIdx
  end.

Definition str_contains (fuel : nat) (m : mem) (str query : Z) : option Z :=
  '(startIdx, found) ← contains_loop fuel fuel m str query 0 0 (-1);
  if (found : bool) then (l ← str_len fuel m query; Some (startIdx - l + 1)) else Some (-1).

(** ** What the functions compute *)

Lemma str_len_loop_spec s : ∀ fuel m str i,
  cstr m (str + i) s → (length s < fuel)%nat →
  str_len_loop fuel m str i = Some (i + Z.of_nat (length s)).
Proof.
  induction s as [|c s IH]; intros [|fuel] m str i Hs Hf; simpl in *; try lia.
  - rewrite Hs. simpl. f_equal. lia.
  - destruct Hs as (H1 & H2 & H3). rewrite H1. destruct (Z.eqb_spec c 0); [done|].
    rewrite IH; [f_equal; lia| |lia]. by rewrite Z.add_assoc.
Qed.

Lemma str_len_spec fuel m str s :
  cstr m str s → (length s < fuel)%nat → str_len fuel m str = Some (Z.of_nat (length s)).
Proof. intros. unfold str_len. rewrite (str_len_loop_spec s); [done|by rewrite Z.add_0_r|done]. Qed.

(** The copy loop writes exactly the bytes of the source string. *)
Lemma copy_loop_spec s : ∀ fuel m dst src i,
  cstr m (src + i) s → (length s < fuel)%nat →
  disj (src + i) (Z.of_nat (length s) + 1) (dst + i) (Z.of_nat (length s)) →
  ∃ m', copy_loop fuel m dst src i = Some (i + Z.of_nat (length s), m') ∧
    (∀ b, rd m' b = if decide (dst + i <= b < dst + i + Z.of_nat (length s))
                    then rd m (src + (b - dst)) else rd m b).
Proof.
  unfold disj.
  induction s as [|c s IH]; intros [|fuel] m dst src i Hs Hf Hd; simpl in Hf; try lia.
  - simpl in *. rewrite Hs. exists m. split; [by rewrite Z.add_0_r|].
    intros b. case_decide; [lia|done].
  - destruct Hs as (H1 & H2 & H3). cbn [length] in Hd. cbn [copy_loop]. rewrite H1.
    destruct (Z.eqb_spec c 0); [done|].
    destruct (IH fuel (wr m (dst + i) c) dst src (i + 1)) as (m' & E & Hm');
      [|lia|lia|].
    { rewrite Z.add_assoc. eapply cstr_agree; [exact H3|]. intros b Hb. apply rd_wr_ne. lia. }
    exists m'. split; [rewrite E; f_equal; f_equal; simpl; lia|].
    intros b. rewrite Hm'. cbn [length]. rewrite !rd_wr.
    repeat case_decide; try lia; try done. subst.
    replace (src + (dst + i - dst)) with (src + i) by lia. apply u8_small, rd_range.
Qed.

(** [m'] is [m] with the C string [s] written at [a]. *)
Definition cstr_written (m m' : mem) (a : Z) (s : list Z) : Prop :=
  cstr m' a s ∧ ∀ b, b < a ∨ a + Z.of_nat (length s) < b → rd m' b = rd m b.

Lemma str_cpy_spec fuel m to frm s :
  cstr m frm s → (length s < fuel)%nat →
  disj frm (Z.of_nat (length s) + 1) to (Z.of_nat (length s) + 1) →
  ∃ m', str_cpy fuel m to frm = Some m' ∧ cstr_written m m' to s.
Proof.
  intros Hs Hf Hd. unfold disj in Hd. unfold str_cpy.
  destruct (copy_loop_spec s fuel m to frm 0) as (m' & E & Hm');
    [by rewrite Z.add_0_r|lia|unfold disj; lia|].
  rewrite E. cbn. eexists. split; [done|]. split.
  - apply cstr_intro.
    + intros i c Hi. apply lookup_lt_Some in Hi as Hl.
      rewrite rd_wr_ne by lia. rewrite Hm'. case_decide; [|lia].
      replace (frm + _) with (frm + Z.of_nat i) by lia. by eapply cstr_rd.
    + rewrite rd_wr. case_decide; [done|lia].
  - intros b Hb. rewrite rd_wr_ne by lia. rewrite Hm'. case_decide; [lia|done].
Qed.

(** [str_concat] leaves the concatenation of its two arguments in [dest]. *)
Lemma str_concat_spec fuel m prev cur dest s t :
  cstr m prev s → cstr m cur t → (length s < fuel)%nat → (length t < fuel)%nat →
  disj prev (Z.of_nat (length s) + 1) dest (Z.of_nat (length s + length t) + 1) →
  disj cur (Z.of_nat (length t) + 1) dest (Z.of_nat (length s + length t) + 1) →
  ∃ m', str_concat fuel m prev cur dest = Some m' ∧ cstr_written m m' dest (s ++ t).
Proof.
  intros Hs Ht Hf1 Hf2 Hd1 Hd2. unfold disj in *. unfold str_concat.
  destruct (copy_loop_spec s fuel m dest prev 0) as (m1 & E1 & Hm1);
    [by rewrite Z.add_0_r|lia|unfold disj; lia|].
  rewrite E1. cbn [mbind option_bind]. rewrite Z.add_0_l.
  set (m2 := wr m1 (dest + Z.of_nat (length s)) 0).
  destruct (copy_loop_spec t fuel m2 (dest + Z.of_nat (length s)) cur 0) as (m3 & E3 & Hm3).
  { rewrite Z.add_0_r. eapply cstr_agree; [exact Ht|]. intros b Hb. unfold m2.
    rewrite rd_wr_ne by lia. rewrite Hm1. case_decide; [lia|done]. }
  { lia. } { unfold disj. lia. }
  rewrite E3. cbn [mbind option_bind]. eexists. split; [done|]. split.
  - apply cstr_intro.
    + intros i c Hi. apply lookup_lt_Some in Hi as Hl. rewrite length_app in Hl.
      rewrite rd_wr_ne by lia. rewrite Hm3. case_decide.
      * rewrite lookup_app_r in Hi by lia. unfold m2. rewrite rd_wr_ne by lia. rewrite Hm1.
        case_decide; [lia|].
        replace (cur + _) with (cur + Z.of_nat (i - length s)) by lia. by eapply cstr_rd.
      * rewrite lookup_app_l in Hi by lia. unfold m2. rewrite rd_wr_ne by lia. rewrite Hm1.
        case_decide; [|lia]. replace (prev + _) with (prev + Z.of_nat i) by lia. by eapply cstr_rd.
    + rewrite length_app, rd_wr. case_decide; [done|lia].
  - intros b Hb. rewrite length_app in Hb. rewrite rd_wr_ne by lia. rewrite Hm3.
    case_decide; [lia|]. unfold m2. rewrite rd_wr_ne by lia. rewrite Hm1. case_decide; [lia|done].
Qed.

(** [str_cmp] answers 1 exactly on equal strings and -1 on different ones. *)
Lemma str_cmp_spec s : ∀ fuel m a b t,
  cstr m a s → cstr m b t → (length s < fuel)%nat →
  str_cmp fuel m a b = Some (if decide (s = t) then 1 else -1).
Proof.
  induction s as [|c s IH]; intros [|fuel] m a b t Hs Ht Hf; cbn [length] in Hf; try lia.
  - cbn [str_cmp]. simpl in Hs. rewrite Hs. destruct t as [|d t].
    + simpl in Ht. by rewrite Ht.
    + destruct Ht as (H1 & H2 & _). rewrite H1. destruct (Z.eqb_spec 0 d); [lia|done].
  - destruct Hs as (H1 & H2 & H3). cbn [str_cmp]. rewrite H1. destruct t as [|d t].
    + simpl in Ht. rewrite Ht. destruct (Z.eqb_spec c 0); done.
    + destruct Ht as (G1 & G2 & G3). rewrite G1. destruct (Z.eqb_spec c d) as [<-|Hne].
      * destruct (Z.eqb_spec c 0); [done|]. cbn [andb]. rewrite (IH fuel m _ _ t) by (done || lia).
        f_equal. repeat case_decide; congruence.
      * cbn [andb]. f_equal. case_decide; congruence.
Qed.

(** [strn_cmp] answers 0 exactly when the first [n] bytes agree. *)
Lemma strn_cmp_spec n : ∀ m a b s t,
  cstr m a s → cstr m b t →
  strn_cmp m a b n = 0 ↔ take n s = take n t.
Proof.
  induction n as [|n IH]; intros m a b s t Hs Ht; [done|]. cbn [strn_cmp].
  destruct s as [|c s], t as [|d t]; simpl in Hs, Ht.
  - rewrite Hs, Ht. done.
  - destruct Ht as (H1 & H2 & H3). rewrite Hs, H1. simpl. split; [lia|done].
  - destruct Hs as (H1 & H2 & H3). rewrite Ht, H1. destruct (Z.eqb_spec c 0); [done|].
    simpl. split; [lia|done].
  - destruct Hs as (H1 & H2 & H3), Ht as (G1 & G2 & G3). rewrite H1, G1.
    destruct (Z.eqb_spec c 0); [done|]. cbn [negb andb].
    destruct (Z.eqb_spec c d) as [<-|].
    + rewrite (IH m _ _ s t) by done. simpl. split; [by intros ->|by intros [= ->]].
    + split; [lia|]. simpl. by intros [= ->].
Qed.

(** ** str_substr *)

Lemma substr_loop_rd n : ∀ m str i out k b,
  disj (str + i) (Z.of_nat n) (out + k) (Z.of_nat n + 1) →
  rd (substr_loop n m str i out k) b =
  if decide (out + k <= b < out + k + Z.of_nat n) then rd m (str + i + (b - (out + k)))
  else if decide (b = out + k + Z.of_nat n) then 0 else rd m b.
Proof.
  unfold disj. induction n as [|n IH]; intros m str i out k b Hd; cbn [substr_loop].
  - rewrite rd_wr. repeat case_decide; try lia; done.
  - rewrite IH by lia. rewrite !rd_wr.
    repeat case_decide; try lia; try done.
    + f_equal. lia.
    + subst. rewrite Z.sub_diag, Z.add_0_r. apply u8_small, rd_range.
Qed.

(** [str_substr] writes the characters [from .. to], both included. *)
Lemma str_substr_spec m str s from to out :
  cstr m str s → 0 <= from <= to + 1 → to < Z.of_nat (length s) →
  disj (str + from) (to - from + 1) out (to - from + 2) →
  cstr_written m (str_substr m str from to out) out
    (take (Z.to_nat (to - from + 1)) (drop (Z.to_nat from) s)).
Proof.
  intros Hs H1 H2 Hd. unfold disj in Hd. unfold str_substr.
  set (n := Z.to_nat (to - from + 1)).
  assert (Hlen : length (take n (drop (Z.to_nat from) s)) = n)
    by (rewrite length_take, length_drop; lia).
  assert (Hrd : ∀ b, rd (substr_loop n m str from out 0) b =
      if decide (out <= b < out + Z.of_nat n) then rd m (str + from + (b - out))
      else if decide (b = out + Z.of_nat n) then 0 else rd m b).
  { intros b. rewrite substr_loop_rd by (unfold disj; lia). by rewrite Z.add_0_r. }
  split.
  - apply cstr_intro.
    + intros i c Hi. apply lookup_lt_Some in Hi as Hl. rewrite Hlen in Hl.
      rewrite lookup_take, decide_True, lookup_drop in Hi by lia.
      rewrite Hrd. case_decide; [|lia].
      replace (str + from + _) with (str + Z.of_nat (Z.to_nat from + i)) by lia.
      by eapply cstr_rd.
    + rewrite Hlen, Hrd. repeat case_decide; try lia; done.
  - intros b Hb. rewrite Hlen in Hb. rewrite Hrd. repeat case_decide; try lia; done.
Qed.

(** ** str_split_delim *)

(** The pieces of [rest] when the characters [cur] were read since the last
    cut: a cut falls before every delimiter, which opens the next piece. *)
Fixpoint pieces (d : Z) (cur rest : list Z) : list (list Z) :=
  match rest with
  | [] => [cur]
  | c :: rest' => if c =? d then cur :: pieces d [c] rest' else pieces d (cur ++ [c]) rest'
  end.

Lemma pieces_concat d rest : ∀ cur, concat (pieces d cur rest) = cur ++ rest.
Proof.
  induction rest as [|c rest IH]; intros cur; simpl; [by rewrite app_nil_r|].
  case_match; simpl; rewrite IH; [done|]. by rewrite <- app_assoc.
Qed.

Lemma pieces_heads d rest : ∀ cur k p,
  pieces d cur rest !! S k = Some p → head p = Some d.
Proof.
  induction rest as [|c rest IH]; intros cur k p; simpl; [done|].
  destruct (Z.eqb_spec c d) as [->|]; [|apply IH].
  cbn [lookup list_lookup]. destruct k as [|k]; [|apply IH].
  assert (∀ rest cur, head cur = Some d → ∀ p, pieces d cur rest !! 0%nat = Some p → head p = Some d) as Hh.
  { clear. induction rest as [|c rest IH]; intros cur Hc p; simpl; [by intros [= <-]|].
    case_match; [by intros [= <-]|]. apply IH. by destruct cur. }
  by apply Hh.
Qed.

Lemma pieces_nonempty d rest cur : pieces d cur rest ≠ [].
Proof. revert cur. induction rest as [|c rest IH]; intros cur; simpl; [done|]. by case_match. Qed.

(** Cutting out the middle of a string, and the character behind it. *)
Lemma substr_middle m str pre cur rest out :
  cstr m str (pre ++ cur ++ rest) →
  disj str (Z.of_nat (length (pre ++ cur ++ rest)) + 1) out (Z.of_nat (length cur) + 1) →
  cstr_written m (str_substr m str (Z.of_nat (length pre)) (Z.of_nat (length pre + length cur) - 1) out) out cur.
Proof.
  intros Hs Hd. rewrite !length_app in Hd.
  pose proof (str_substr_spec m str (pre ++ cur ++ rest) (Z.of_nat (length pre)) (Z.of_nat (length pre + length cur) - 1) out) as W.
  replace (Z.to_nat (_ - _ + 1)) with (length cur) in W by lia.
  rewrite Nat2Z.id, drop_app_length, take_app_length in W. apply W; [done|lia|rewrite !length_app; lia|].
  unfold disj in *. rewrite ?length_app. lia.
Qed.

Lemma char_behind m str pre cur c rest :
  cstr m str (pre ++ cur ++ c :: rest) → rd m (str + Z.of_nat (length pre + length cur)) = c ∧ c ≠ 0.
Proof.
  intros Hs. rewrite <- length_app. rewrite app_assoc in Hs. eapply cstr_rd; [exact Hs|].
  by rewrite lookup_app_r, Nat.sub_diag by lia.
Qed.

Lemma end_behind m str pre cur : cstr m str (pre ++ cur ++ []) → rd m (str + Z.of_nat (length pre + length cur)) = 0.
Proof. rewrite app_nil_r, <- length_app. apply cstr_end. Qed.

Lemma split_loop_spec rest : ∀ pre cur fuel m str d out ctr,
  cstr m str (pre ++ cur ++ rest) → (length rest < fuel)%nat → 0 <= ctr →
  Forall (λ p, Z.of_nat (length p) < FMT_LEN) (pieces d cur rest) →
  disj str (Z.of_nat (length (pre ++ cur ++ rest)) + 1)
       (out + FMT_LEN * ctr) (FMT_LEN * Z.of_nat (length (pieces d cur rest))) →
  ∃ m', split_loop fuel m str d out (Z.of_nat (length pre))
          (Z.of_nat (length pre + length cur)) ctr =
        Some (ctr + Z.of_nat (length (pieces d cur rest)), m') ∧
    (∀ k p, pieces d cur rest !! k = Some p → cstr m' (out + FMT_LEN * (ctr + Z.of_nat k)) p) ∧
    (∀ b, b < out + FMT_LEN * ctr ∨
          out + FMT_LEN * (ctr + Z.of_nat (length (pieces d cur rest))) <= b → rd m' b = rd m b).
Proof.
  unfold disj, FMT_LEN.
  induction rest as [|c rest IH]; intros pre cur [|fuel] m str d out ctr Hs Hf Hctr Hp Hd;
    cbn [length] in Hf; try lia; cbn [split_loop pieces] in *.
  - rewrite (end_behind m str pre cur Hs). cbn [Z.eqb length] in *. apply Forall_cons in Hp as [Hp1 _].
    destruct (substr_middle m str pre cur [] (out + 100 * ctr) Hs) as [W1 W2]; [unfold disj; lia|].
    eexists. split; [done|]. split.
    + intros [|k] p Hk; simplify_eq/=. by rewrite Z.add_0_r.
    + intros b Hb. apply W2. lia.
  - destruct (char_behind m str pre cur c rest Hs) as [-> Hc0]. destruct (Z.eqb_spec c 0); [done|].
    destruct (Z.eqb_spec c d) as [->|Hne].
    + apply Forall_cons in Hp as [Hp1 Hp2]. cbn [length] in *.
      destruct (substr_middle m str pre cur (d :: rest) (out + 100 * ctr) Hs) as [W1 W2]; [unfold disj; lia|].
      set (m1 := str_substr _ _ _ _ _) in *.
      destruct (IH (pre ++ cur) [d] fuel m1 str d out (ctr + 1)) as (m' & E & Q1 & Q2);
        [|lia|lia|done|rewrite !length_app in *; simpl in *; lia|].
      { rewrite <- !app_assoc. eapply cstr_agree; [exact Hs|]. intros b Hb. apply W2. rewrite !length_app in *. simpl in *. lia. }
      exists m'. rewrite !length_app in E. cbn [length] in E. rewrite ?Nat.add_0_r, ?Nat.add_assoc, ?Nat2Z.inj_add in E. change (Z.of_nat 1) with 1 in E.
      rewrite ?Nat2Z.inj_add. split; [rewrite E; f_equal; f_equal; lia|]. split.
      * intros [|k] p Hk; simplify_eq/=.
        { rewrite Z.add_0_r. eapply cstr_agree; [exact W1|]. intros b Hb. apply Q2. lia. }
        replace (ctr + Z.of_nat (S k)) with (ctr + 1 + Z.of_nat k) by lia. by apply Q1.
      * intros b Hb. rewrite Q2 by lia. apply W2. lia.
    + destruct (IH pre (cur ++ [c]) fuel m str d out ctr) as (m' & E & Q1 & Q2);
        [by rewrite <- app_assoc|lia|done|done|rewrite !length_app in *; simpl in *; lia|].
      exists m'. rewrite length_app, Nat.add_assoc, (Nat2Z.inj_add _ (length [c])) in E. done.
Qed.

(** ** str_reverse *)

Lemma reverse_loop_rd n : ∀ m str dest len i b,
  0 <= i → len = i + Z.of_nat n → disj str len dest (len + 1) →
  rd (reverse_loop n m str dest len i) b =
  if decide (dest + i <= b < dest + len) then rd m (str + (len - 1 - (b - dest)))
  else if decide (b = dest + len) then 0 else rd m b.
Proof.
  unfold disj. induction n as [|n IH]; intros m str dest len i b Hi Hl Hd; cbn [reverse_loop].
  - rewrite rd_wr. repeat case_decide; try lia; done.
  - rewrite IH by lia. rewrite !rd_wr. repeat case_decide; try lia; try done.
    subst b. replace (dest + i - dest) with i by lia. apply u8_small, rd_range.
Qed.

Lemma str_reverse_spec fuel m str dest s :
  cstr m str s → (length s < fuel)%nat →
  disj str (Z.of_nat (length s)) dest (Z.of_nat (length s) + 1) →
  ∃ m', str_reverse fuel m str dest = Some m' ∧ cstr_written m m' dest (reverse s).
Proof.
  intros Hs Hf Hd. unfold str_reverse. rewrite (str_len_spec _ _ _ s) by done.
  cbn [mbind option_bind]. eexists. split; [done|]. rewrite Nat2Z.id.
  assert (Hrd := λ b, reverse_loop_rd (length s) m str dest (Z.of_nat (length s)) 0 b
                   ltac:(lia) ltac:(lia) Hd).
  split.
  - apply cstr_intro.
    + intros i c Hi. apply lookup_lt_Some in Hi as Hl. rewrite length_reverse in Hl.
      rewrite Hrd. case_decide; [|lia].
      rewrite reverse_lookup in Hi by lia.
      replace (str + _) with (str + Z.of_nat (length s - S i)) by lia. by eapply cstr_rd.
    + rewrite length_reverse, Hrd. repeat case_decide; try lia; done.
  - intros b Hb. rewrite length_reverse in Hb. rewrite Hrd. repeat case_decide; try lia; done.
Qed.

(** ** str_contains *)

(** [q] occurs in [s] at index [k]. *)
Definition occurs_at (s q : list Z) (k : nat) : Prop := take (length q) (drop k s) = q.


(** The loop keeps the last [j] characters read equal to the first [j] of the
    query, so a positive answer is an occurrence. *)
Lemma contains_loop_sound fl fuel : ∀ m str query s q (i j : nat) start r,
  cstr m str s → cstr m query q → (length q < fl)%nat →
  (i <= length s)%nat → (j < length q)%nat → (j <= i)%nat →
  take j (drop (i - j) s) = take j q → (j = 0%nat ∨ 0 <= start) →
  contains_loop fl fuel m str query (Z.of_nat i) (Z.of_nat j) start = Some (r, true) →
  ∃ k : nat, r - Z.of_nat (length q) + 1 = Z.of_nat k ∧ occurs_at s q k.
Proof.
  induction fuel as [|fuel IH]; intros m str query s q i j start r Hs Hq Hfl Hi Hj Hji Hm Hst; [done|].
  cbn [contains_loop].
  destruct (Z.eqb_spec (rd m (str + Z.of_nat i)) 0) as [|Hnz]; [done|].
  assert (Hlt : (i < length s)%nat).
  { destruct (decide (i = length s)) as [->|]; [|lia]. by rewrite (cstr_end m s str Hs) in Hnz. }
  destruct (lookup_lt_is_Some_2 s i Hlt) as [c Hc].
  destruct (lookup_lt_is_Some_2 q j Hj) as [d Hd].
  destruct (cstr_rd m s str i c Hs Hc) as [Ec Hc0].
  destruct (cstr_rd m q query j d Hq Hd) as [Ed Hd0]. rewrite Ec, Ed.
  replace (Z.of_nat i + 1) with (Z.of_nat (S i)) by lia.
  replace (Z.of_nat j + 1) with (Z.of_nat (S j)) by lia.
  destruct (Z.eqb_spec c d) as [<-|Hne].
  - rewrite (str_len_spec _ _ _ q) by done. cbn [mbind option_bind].
    assert (Hm' : take (S j) (drop (i - j) s) = take (S j) q).
    { rewrite (take_S_r q j c) by done. rewrite (take_S_r _ j c); [by rewrite Hm|].
      rewrite lookup_drop. by replace (i - j + j)%nat with i by lia. }
    destruct (Z.eqb_spec (Z.of_nat (S j)) (Z.of_nat (length q))) as [Hl|Hl].
    + intros [= <-]. exists (i - j)%nat. split; [lia|]. unfold occurs_at.
      replace (length q) with (S j) by lia. rewrite Hm'. by rewrite take_ge by lia.
    + apply IH; try done; lia.
  - destruct (Z.leb_spec 0 start).
    + apply (IH m str query s q (S i) 0%nat); try done; try lia; by left.
    + destruct Hst as [->|]; [|lia]. apply (IH m str query s q (S i) 0%nat); try done; try lia; by left.
Qed.

(** A match reported by [str_contains] is an occurrence of the query. *)
Lemma str_contains_sound fuel m str query s q r :
  cstr m str s → cstr m query q → (length q < fuel)%nat → q ≠ [] →
  str_contains fuel m str query = Some r → r ≠ -1 →
  ∃ k : nat, r = Z.of_nat k ∧ occurs_at s q k.
Proof.
  intros Hs Hq Hf Hne. unfold str_contains.
  destruct (contains_loop fuel fuel m str query 0 0 (-1)) as [[st [|]]|] eqn:E;
    cbn [mbind option_bind]; [|by intros [= <-]|done].
  rewrite (str_len_spec _ _ _ q) by done. cbn [mbind option_bind]. intros [= <-] _.
  eapply (contains_loop_sound fuel fuel m str query s q 0 0 (-1)); try done; try lia.
  destruct q; [done|]. simpl; lia.
Qed.

(** For a one-character query the answer is exact: the first occurrence, or
    -1 when the character does not occur. *)
Lemma contains_loop_char s : ∀ fl fuel m str query d (i : Z),
  cstr m (str + i) s → cstr m query [d] → (length s < fuel)%nat → (1 < fl)%nat → 0 <= i →
  contains_loop fl fuel m str query i 0 (-1) =
  Some (match list_find (λ c, c = d) s with
        | Some (k, _) => (i + Z.of_nat k, true)
        | None => (-1, false)
        end).
Proof.
  induction s as [|c s IH]; intros fl [|fuel] m str query d i Hs Hq Hf Hfl Hi; cbn [length] in Hf; try lia.
  - simpl in *. by rewrite Hs.
  - destruct Hs as (H1 & H2 & H3), Hq as (Q1 & Q2 & Q3). cbn [contains_loop].
    rewrite H1, Z.add_0_r, Q1. destruct (Z.eqb_spec c 0); [done|].
    cbn [list_find]. destruct (Z.eqb_spec c d) as [<-|Hne].
    + rewrite decide_True by done. rewrite (str_len_spec _ _ _ [c]) by (done || (simpl; lia)).
      cbn. by rewrite Z.add_0_r.
    + rewrite decide_False by done. cbn [Z.leb Z.compare].
      rewrite (IH fl fuel m str query d (i + 1)) by (done || lia || by rewrite Z.add_assoc).
      destruct (list_find _ s) as [[k e]|]; cbn; [|done]. f_equal. f_equal. lia.
Qed.

Lemma str_contains_char fuel m str query s d :
  cstr m str s → cstr m query [d] → (length s + 1 < fuel)%nat →
  str_contains fuel m str query =
  Some (match list_find (λ c, c = d) s with Some (k, _) => Z.of_nat k | None => -1 end).
Proof.
  intros Hs Hq Hf. unfold str_contains.
  rewrite (contains_loop_char s fuel fuel m str query d 0)
    by (done || lia || by rewrite Z.add_0_r).
  destruct (list_find _ s) as [[k e]|]; cbn [mbind option_bind]; [|done].
  rewrite (str_len_spec _ _ _ [d]) by (done || (simpl; lia)). cbn. f_equal. lia.
Qed.
