(* ===== verification/StringsProps.v ===== *)
(** * StringsProps: the string and number routines the kernel relies on

    The theorems about [Strings] and [Utils]: splitting, copying, comparing and
    searching strings, the octal sizes of the tar headers and the decimal
    round trip. *)
From S2P Require Import Prelude Memory Utils Strings.

(** A memory holding [s] at [a], for the concrete instances. *)
Fixpoint put_str (m : mem) (a : Z) (s : list Z) : mem :=
  match s with
  | [] => wr m a 0
  | c :: s' => put_str (wr m a c) (a + 1) s'
  end.

(** [str_split_delim] cuts the string at the delimiter: it returns the
    number of pieces and stores piece [k] in row [k] of [out]; concatenated in
    order the rows give the string back, and every piece but the first starts
    with the delimiter; nothing outside the rows is written. *)
Theorem str_split_delim_pieces fuel m str d out s :
  cstr m str s → (length s < fuel)%nat →
  Forall (λ p, Z.of_nat (length p) < FMT_LEN) (pieces d [] s) →
  disj str (Z.of_nat (length s) + 1) out (FMT_LEN * Z.of_nat (length (pieces d [] s))) →
  ∃ m' ps, str_split_delim fuel m str d out = Some (Z.of_nat (length ps), m') ∧
    concat ps = s ∧ (∀ k p, ps !! S k = Some p → head p = Some d) ∧
    (∀ k p, ps !! k = Some p → cstr m' (out + FMT_LEN * Z.of_nat k) p) ∧
    (∀ b, b < out ∨ out + FMT_LEN * Z.of_nat (length ps) <= b → rd m' b = rd m b).
Proof.
  intros Hs Hf Hl Hd. unfold str_split_delim.
  destruct (split_loop_spec s [] [] fuel m str d out 0) as (m' & E & Hp & Hr); try done.
  { unfold disj in *. cbn [app]. lia. }
  exists m', (pieces d [] s). split_and!; [done|apply pieces_concat|apply pieces_heads|done|].
  intros b Hb. apply Hr. lia.
Qed.

Lemma str_split_delim_pieces_witness :
  ∃ m' ps, str_split_delim 9 (put_str ∅ 0 [98; 47; 99]) 0 47 1000 = Some (Z.of_nat (length ps), m') ∧
    concat ps = [98; 47; 99].
Proof.
  destruct (str_split_delim_pieces 9 (put_str ∅ 0 [98; 47; 99]) 0 47 1000 [98; 47; 99])
    as (m' & ps & E & Hc & _).
  - vm_compute. repeat split; discriminate.
  - simpl. lia.
  - repeat constructor.
  - left. vm_compute. discriminate.
  - exists m', ps. split; [exact E|exact Hc].
Defined.

(** [str_concat] and [str_cpy] leave at the destination exactly the
    concatenation, or the copy, terminated, and write no other byte. *)
Theorem str_concat_correct fuel m prev cur dest s t :
  cstr m prev s → cstr m cur t → (length s < fuel)%nat → (length t < fuel)%nat →
  disj prev (Z.of_nat (length s) + 1) dest (Z.of_nat (length s + length t) + 1) →
  disj cur (Z.of_nat (length t) + 1) dest (Z.of_nat (length s + length t) + 1) →
  (∃ m', str_concat fuel m prev cur dest = Some m' ∧ cstr_written m m' dest (s ++ t)) ∧
  (∃ m', str_cpy fuel m dest prev = Some m' ∧ cstr_written m m' dest s).
Proof.
  intros Hs Ht Hf1 Hf2 Hd1 Hd2. split; [by apply str_concat_spec|].
  apply str_cpy_spec; [done..|]. unfold disj in *. lia.
Qed.

Lemma str_concat_correct_witness :
  ∃ m', str_concat 5 (put_str (put_str ∅ 0 [97]) 10 [98; 99]) 0 10 100 = Some m' ∧ cstr m' 100 [97; 98; 99].
Proof.
  destruct (str_concat_correct 5 (put_str (put_str ∅ 0 [97]) 10 [98; 99]) 0 10 100 [97] [98; 99])
    as [(m' & E & [Hc _]) _]; try (simpl; lia).
  - vm_compute. repeat split; discriminate.
  - vm_compute. repeat split; discriminate.
  - left. vm_compute. discriminate.
  - left. vm_compute. discriminate.
  - exists m'. split; [exact E|exact Hc].
Defined.

(** [str_cmp] answers 1 exactly on equal strings and -1 otherwise, and
    [strn_cmp] answers 0 exactly when the first [n] characters agree. *)
Theorem str_cmp_decides fuel m a b s t n :
  cstr m a s → cstr m b t → (length s < fuel)%nat →
  str_cmp fuel m a b = Some (if decide (s = t) then 1 else -1) ∧
  (strn_cmp m a b n = 0 ↔ take n s = take n t).
Proof. intros. split; [by apply str_cmp_spec|by apply strn_cmp_spec]. Qed.

Lemma str_cmp_decides_witness :
  str_cmp 5 (put_str (put_str ∅ 0 [97; 98]) 10 [97; 99]) 0 10 = Some (-1).
Proof.
  refine (proj1 (str_cmp_decides 5 (put_str (put_str ∅ 0 [97; 98]) 10 [97; 99]) 0 10 [97; 98] [97; 99] 2 _ _ _)).
  - vm_compute. repeat split; discriminate.
  - vm_compute. repeat split; discriminate.
  - simpl. lia.
Defined.

Lemma contains_loop_total s : ∀ fl fuel m str query q i j start,
  cstr m (str + i) s → cstr m query q → (length s < fuel)%nat → (length q < fl)%nat →
  ∃ r, contains_loop fl fuel m str query i j start = Some r.
Proof.
  induction s as [|c s IH]; intros fl [|fuel] m str query q i j start Hs Hq Hf Hfl; simpl in Hf; try lia.
  - cbn [contains_loop]. simpl in Hs. rewrite Hs. eauto.
  - destruct Hs as (H1 & H2 & H3). cbn [contains_loop]. rewrite H1.
    destruct (Z.eqb_spec c 0); [done|]. rewrite (str_len_spec _ _ _ q) by done. cbn [mbind option_bind].
    assert (Hn : ∀ j start, ∃ r, contains_loop fl fuel m str query (i + 1) j start = Some r).
    { intros. eapply IH; [by rewrite Z.add_assoc|done|lia|lia]. }
    repeat case_match; eauto.
Qed.

Lemma str_contains_total fuel m str query s q :
  cstr m str s → cstr m query q → (length s + length q < fuel)%nat →
  ∃ r, str_contains fuel m str query = Some r.
Proof.
  intros Hs Hq Hf. unfold str_contains.
  destruct (contains_loop_total s fuel fuel m str query q 0 0 (-1)) as [[st [|]] ->];
    [by rewrite Z.add_0_r|done|lia|lia|..]; cbn [mbind option_bind]; [|eauto].
  rewrite (str_len_spec _ _ _ q) by (done || lia). eauto.
Qed.

(** [str_contains] terminates; an index it returns is an occurrence of the
    query, and for a one-character query it is the first one, or -1. *)
Theorem str_contains_correct fuel m str query s q :
  cstr m str s → cstr m query q → (length s + length q < fuel)%nat → q ≠ [] →
  ∃ r, str_contains fuel m str query = Some r ∧
  (r ≠ -1 → ∃ k : nat, r = Z.of_nat k ∧ occurs_at s q k) ∧
  (∀ d, q = [d] → r = match list_find (λ c, c = d) s with Some (k, _) => Z.of_nat k | None => -1 end).
Proof.
  intros Hs Hq Hf Hne. destruct (str_contains_total fuel m str query s q Hs Hq Hf) as [r E].
  exists r. split_and!; [done|..].
  - intros Hr. eapply (str_contains_sound fuel m str query s q r); try done. lia.
  - intros d ->. rewrite (str_contains_char fuel m str query s d) in E by (done || simpl in Hf; lia).
    by simplify_eq.
Qed.

Lemma str_contains_correct_witness :
  ∃ r, str_contains 9 (put_str (put_str ∅ 0 [97; 98; 99]) 10 [98; 99]) 0 10 = Some r.
Proof.
  destruct (str_contains_correct 9 (put_str (put_str ∅ 0 [97; 98; 99]) 10 [98; 99]) 0 10
    [97; 98; 99] [98; 99]) as (r & E & _); try discriminate.
  - vm_compute. repeat split; discriminate.
  - vm_compute. repeat split; discriminate.
  - simpl. lia.
  - exists r. exact E.
Defined.

(** [str_contains] misses occurrences: on a mismatch it restarts the query
    with the next character, without trying the mismatching one, so the ab of
    aab is not found. *)
Theorem str_contains_misses :
  let m := put_str (put_str ∅ 0 [97; 97; 98]) 10 [97; 98] in
  cstr m 0 [97; 97; 98] ∧ cstr m 10 [97; 98] ∧
  occurs_at [97; 97; 98] [97; 98] 1 ∧ str_contains 9 m 0 10 = Some (-1).
Proof. vm_compute. repeat split; discriminate. Qed.

(** The size field of a tar header, octal digits read with [atoi] as if
    they were decimal and converted with [octTodec], is the octal number, as
    long as the decimal reading fits an [int]. *)
Theorem octTodec_atoi_size fuel m a ds :
  Forall (λ d, 0 <= d < 8) ds → digits_val 10 ds < 2 ^ 31 →
  cstr m a (digit_chars ds) → (length ds < fuel)%nat →
  octTodec <$> atoi fuel m a = Some (u64 (digits_val 8 ds)).
Proof.
  intros Hd Hb Hs Hf. rewrite (atoi_spec fuel m a ds) by
    (done || by eapply Forall_impl; [exact Hd|]; simpl; lia).
  simpl. by rewrite octTodec_spec by (done || lia).
Qed.

Lemma octTodec_atoi_size_witness :
  octTodec <$> atoi 9 (put_str ∅ 0 [49; 55; 53]) 0 = Some 125.
Proof.
  refine (octTodec_atoi_size 9 (put_str ∅ 0 [49; 55; 53]) 0 [1; 7; 5] _ _ _ _).
  - repeat constructor; lia.
  - vm_compute. reflexivity.
  - vm_compute. repeat split; discriminate.
  - simpl. lia.
Defined.

(** Printing a number with [itoa] in base 10 and reading it back with
    [atoi] gives the number, for every non-negative [int]. *)
Theorem itoa_atoi_roundtrip m v str fuel :
  0 <= v < 2 ^ 31 → (20 < fuel)%nat →
  let '(p, m') := itoa m v str 10 in atoi fuel m' p = Some v.
Proof. apply itoa_atoi. Qed.

Lemma itoa_atoi_roundtrip_witness :
  let '(p, m') := itoa ∅ 90210 100 10 in atoi 21 m' p = Some 90210.
Proof. apply (itoa_atoi_roundtrip ∅ 90210 100 21); lia. Defined.
