(* ===== verification/PageSource.v ===== *)
(** * PageSource: what the page-frame allocator promises to the paging code

    The paging code of src/sys/paging.c asks [kmalloc(1)] or [kmalloc_init(1)]
    for one zeroed page at a time.  [PageSource] holds the two operations and
    [PageSourceLaws] what the client relies on; [Mem] provides the instance
    built from the allocator of src/sys/mem.c. *)
From S2P Require Import Prelude Memory.

Definition in_page (p b : Z) : Prop := p <= b < p + PAGE_SIZE.

(** [kmalloc1 m] and [kmalloc_init1 m] return the kernel virtual address of a
    page and the new memory; [None] is a search that does not end. *)
Class PageSource := {
  kmalloc1 : mem → option (Z * mem);
  kmalloc_init1 : mem → option (Z * mem);
}.

(** The effect of handing out the physical page [p]. *)
Record page_granted {G : Type} (inv : G → mem → Prop) (free_page : G → Z → Prop)
    (private : Z → Prop) (avail : G → nat)
    (g : G) (m : mem) (p : Z) (g' : G) (m' : mem) : Prop := {
  pg_inv : inv g' m';
  pg_free : free_page g p;
  pg_taken : ∀ q, free_page g' q ↔ free_page g q ∧ q ≠ p;
  pg_zero : ∀ b, in_page p b → rd m' b = 0;
  pg_frame : ∀ b, ¬ in_page p b → ¬ private b → rd m' b = rd m b;
  pg_avail : (avail g <= S (avail g'))%nat;
}.

Class PageSourceLaws (P : PageSource) := {
  ghost : Type;
  (** the invariant, indexed by a ghost description of the pool *)
  ps_inv : ghost → mem → Prop;
  ps_free : ghost → Z → Prop;
  (** the allocator's own bytes *)
  ps_private : Z → Prop;
  (** how many single pages can certainly still be had *)
  ps_avail : ghost → nat;
  ps_free_page : ∀ g m p, ps_inv g m → ps_free g p →
    p mod PAGE_SIZE = 0 ∧ 0 <= p ∧ p + PAGE_SIZE <= 2 ^ 31 ∧
    ∀ b, in_page p b → ¬ ps_private b;
  (** only writes to private bytes can break the invariant *)
  ps_stable : ∀ g m m', ps_inv g m → (∀ b, ps_private b → rd m' b = rd m b) → ps_inv g m';
  ps_kmalloc : ∀ g m, ps_inv g m → (0 < ps_avail g)%nat →
    ∃ p g' m', kmalloc1 m = Some (VADDR p, m') ∧
      page_granted ps_inv ps_free ps_private ps_avail g m p g' m';
  ps_kmalloc_init : ∀ g m, ps_inv g m → (0 < ps_avail g)%nat →
    ∃ p g' m', kmalloc_init1 m = Some (VADDR p, m') ∧
      page_granted ps_inv ps_free ps_private ps_avail g m p g' m';
}.
