(* ===== verification/Mem.v ===== *)
(** * Mem: the page-frame allocator, src/sys/mem.c

    One [struct page] per physical page, in an array at [free_list] that the
    kernel walks through the [next] pointers.  The array itself lives in the
    memory the allocator hands out, so the model keeps it there: descriptors
    are read and written in the flat byte memory.

    The theorems relate this to an abstract list of descriptors: [kmalloc] is
    first fit on that list, keeps the free runs consistent, never hands out a
    page twice and zeroes what it hands out. *)
From S2P Require Import Prelude Memory Utils PageSource.

(** ** struct page (src/include/sys/paging.h): next, used, block_size, ref_count *)

Definition sizeof_page : Z := 24.

Definition page_next (m : mem) (p : Z) : Z := load64 m (phys p).
Definition page_used (m : mem) (p : Z) : Z := load_int m (phys p + 8).
Definition page_block_size (m : mem) (p : Z) : Z := load_int m (phys p + 12).
Definition page_ref_count (m : mem) (p : Z) : Z := load_int m (phys p + 16).
Definition set_next (m : mem) (p v : Z) : mem := store64 m (phys p) v.
Definition set_used (m : mem) (p v : Z) : mem := store_int m (phys p + 8) v.
Definition set_block_size (m : mem) (p v : Z) : mem := store_int m (phys p + 12) v.
Definition set_ref_count (m : mem) (p v : Z) : mem := store_int m (phys p + 16) v.

(** The three assignments that every marking site makes together. *)
Definition set_page (m : mem) (p used block_size ref_count : Z) : mem :=
  set_ref_count (set_block_size (set_used m p used) p block_size) p ref_count.

(** ** calculate_free_list *)

(** The two initial loops differ in the flag and the count they write;
    [n] is the number of pages left, the loop variable of the source. *)
Fixpoint init_loop (n : nat) (m : mem) (free_list used ref_count : Z) : Z * mem :=
  match n with
  | O => (free_list, m)
  | S n' =>
      let m := set_page m free_list used (Z.of_nat n) ref_count in
      let m := set_next m free_list (free_list +64 sizeof_page) in
      init_loop n' m (page_next m free_list) used ref_count
  end.

(** The loop that marks the pages of the array itself.  It writes
    [free_list->ref_count], the terminator's count, not [free_ptr]'s. *)
Fixpoint mark_array_loop (n : nat) (m : mem) (free_list free_ptr : Z) : mem :=
  match n with
  | O => m
  | S n' =>
      let m := set_used m free_ptr 1 in
      let m := set_block_size m free_ptr (Z.of_nat n) in
      let m := set_ref_count m free_list 1 in
      mark_array_loop n' m free_list (page_next m free_ptr)
  end.

(** Answers the new value of the global [free_list] and the memory. *)
Definition calculate_free_list (m : mem) (num_pages physfree : Z) : Z * mem :=
  let used_pages := physfree / 0x1000 in
  let free_pages := num_pages -64 used_pages in
  let '(free_ptr, m) := init_loop (Z.to_nat used_pages) m physfree 1 1 in
  let '(free_list, m) := init_loop (Z.to_nat free_pages) m free_ptr 0 0 in
  let m := set_used m free_list (-1) in
  let used_flspace := i32 (num_pages *64 sizeof_page / PAGE_SIZE) in
  let m := mark_array_loop (Z.to_nat (u32 used_flspace)) m free_list free_ptr in
  (physfree, m).

(** ** kmalloc_init and kmalloc *)

Definition pages_of_size (size : Z) : Z :=
  if 0 <? size mod PAGE_SIZE then i32 (size / PAGE_SIZE + 1) else i32 (size / PAGE_SIZE).

(** The loop that marks [n] consecutive descriptors, counting [n] down in
    their block sizes.  [win] is how the function turns a stored pointer into
    one it can follow: the identity in [kmalloc_init] and [free], [VADDR] in
    [kmalloc].  The allocators run it for [while (--pages != 0)], with [n] the
    value of [pages] after the decrement. *)
Fixpoint mark_loop (win : Z → Z) (used ref_count : Z) (n : nat) (m : mem) (temp : Z) : mem :=
  match n with
  | O => m
  | S n' =>
      let m := set_page m temp used (Z.of_nat n) ref_count in
      mark_loop win used ref_count n' m (win (page_next m temp))
  end.

(** The search loop with its body.  [None]: out of fuel; [Some (None, _)]: the
    function returns NULL; [Some (Some ret, _)]: a block at physical [ret]. *)
Fixpoint kmalloc_loop (win : Z → Z) (fuel : nat) (m : mem) (pages temp count : Z)
    : option (option Z * mem) :=
  match fuel with
  | O => None
  | S f =>
      if temp =? 0 then Some (None, m)
      else if (page_used m temp =? 0) && (pages <=? page_block_size m temp) then
        let m := set_page m temp 1 pages 1 in
        let ret := count *64 PAGE_SIZE in
        let m := memset m (phys (win ret)) 0 (u32 (pages * PAGE_SIZE)) in
        let temp := win (page_next m temp) in
        let m := mark_loop win 1 1 (Z.to_nat (u32 (pages - 1))) m temp in
        Some (Some ret, m)
      else kmalloc_loop win f m pages (win (page_next m temp)) (count +64 1)
  end.

(** NULL is 0; a block is returned at its kernel virtual address. *)
Definition kmalloc_init (fuel : nat) (free_list : Z) (m : mem) (size : Z) : option (Z * mem) :=
  '(r, m) ← kmalloc_loop (λ p, p) fuel m (pages_of_size size) free_list 0;
  Some (match r with Some ret => VADDR ret | None => 0 end, m).

Definition kmalloc (fuel : nat) (free_list : Z) (m : mem) (size : Z) : option (Z * mem) :=
  '(r, m) ← kmalloc_loop VADDR fuel m (pages_of_size size) (VADDR free_list) 0;
  Some (match r with Some ret => VADDR ret | None => 0 end, m).

(** ** Descriptor lookup, free and the reference counts *)

(** [free_list + page_num*sizeof(struct page)] scales by the size twice. *)
Definition get_page_at_address (free_list address : Z) : Z :=
  let addr := if KERNEL_VADDR <? address then get_starting_page (PADDR address)
              else get_starting_page address in
  let page_num := addr / PAGE_SIZE in
  free_list +64 (page_num * sizeof_page) *64 sizeof_page.

Definition dec_ref_count (free_list : Z) (m : mem) (addr : Z) : mem :=
  let p := get_page_at_address free_list addr in
  set_ref_count m p (page_ref_count m p - 1).

Definition inc_ref_count (free_list : Z) (m : mem) (addr : Z) : mem :=
  let p := get_page_at_address free_list addr in
  set_ref_count m p (page_ref_count m p - 1).

Definition get_page_ref_count (free_list : Z) (m : mem) (addr : Z) : Z :=
  page_ref_count m (get_page_at_address free_list addr).

Definition get_num_pages_allocated (free_list : Z) (m : mem) (ptr : Z) : Z :=
  let page_num := ptr / PAGE_SIZE in
  page_block_size m (free_list +64 (page_num * sizeof_page) *64 sizeof_page).

Definition free (free_list : Z) (m : mem) (ptr : Z) : mem :=
  let address_page := get_page_at_address free_list ptr in
  let num_pages := page_block_size m address_page in
  let m := memset m (phys ptr) 0 (u32 (num_pages * PAGE_SIZE)) in
  mark_loop (λ p, p) 0 0 (Z.to_nat (u32 num_pages)) m address_page.

(** ** vma_malloc *)

(** mm_struct: count (32 bits) at 0, mmap at 8; vm_area_struct: vm_next at 56. *)
Definition sizeof_vma : Z := 64.
Definition vm_next (m : mem) (vma : Z) : Z := load64 m (phys vma + 56).

Fixpoint vma_last (fuel : nat) (m : mem) (vma : Z) : option Z :=
  match fuel with
  | O => None
  | S f => if vm_next m vma =? 0 then Some vma else vma_last f m (vm_next m vma)
  end.

(** [vma + sizeof(struct vm_area_struct)] again scales by the size twice. *)
Definition vma_malloc (fuel : nat) (free_list : Z) (m : mem) (mm : Z) : option (Z * mem) :=
  let mmap := load64 m (phys mm + 8) in
  let bump m := store 4 m (phys mm) (load 4 m (phys mm) + 1) in
  if negb (mmap =? 0) then
    vma ← vma_last fuel m mmap;
    let m := store64 m (phys vma + 56) (vma +64 sizeof_vma * sizeof_vma) in
    let m := bump m in
    Some (vm_next m vma, m)
  else
    '(vma, m) ← kmalloc fuel free_list m sizeof_vma;
    let m := store64 m (phys mm + 8) vma in
    Some (vma, bump m).

(** ** The abstract pool: a list of descriptors *)

Record page := Page { used : Z; block_size : Z; ref_count : Z }.

#[export] Instance page_eq_dec : EqDecision page.
Proof. solve_decision. Defined.

Definition is_free (p : page) : bool := used p =? 0.
Definition fits (n : Z) (p : page) : bool := is_free p && (n <=? block_size p).

(** Marking [n] pages from index [i] with the flag [u] and reference count
    [r]; the block sizes count down to the end of the block. *)
Fixpoint mark_with (u r : Z) (l : list page) (i n : nat) : list page :=
  match n with
  | O => l
  | S n' => mark_with u r (<[i := Page u (Z.of_nat n) r]> l) (S i) n'
  end.

(** The abstract allocation of [n] pages at index [i]. *)
Abbreviation mark := (mark_with 1 1).

(** First fit, the specification of the search. *)
Definition first_fit (l : list page) (n : Z) (i : nat) : Prop :=
  (∃ p, l !! i = Some p ∧ fits n p = true) ∧
  (∀ j q, (j < i)%nat → l !! j = Some q → fits n q = false).

Definition desc (fl : Z) (i : nat) : Z := fl + sizeof_page * Z.of_nat i.

(** The bytes of descriptor [i] hold [p] and link to descriptor [i+1]. *)
Definition desc_at (m : mem) (fl : Z) (i : nat) (p : page) : Prop :=
  load64 m (desc fl i) = desc fl (S i) ∧
  load_int m (desc fl i + 8) = used p ∧
  load_int m (desc fl i + 12) = block_size p ∧
  load_int m (desc fl i + 16) = ref_count p.

Definition pages_at (m : mem) (fl : Z) (l : list page) : Prop :=
  ∀ i p, l !! i = Some p → desc_at m fl i p.

(** Free runs: a free page of block size [b > 1] is followed by a free page of
    block size [b - 1]. *)
Definition runs_ok (l : list page) : Prop :=
  ∀ i p, l !! i = Some p → is_free p = true →
    1 <= block_size p ∧
    (1 < block_size p → ∀ q, l !! S i = Some q →
       is_free q = true ∧ block_size q = block_size p - 1).

(** No free page overlaps the descriptor array. *)
Definition array_safe (fl : Z) (l : list page) : Prop :=
  ∀ i p, l !! i = Some p → is_free p = true →
    PAGE_SIZE * Z.of_nat i + PAGE_SIZE <= fl ∨
    fl + sizeof_page * Z.of_nat (length l) <= PAGE_SIZE * Z.of_nat i.

(** The array and the pages it describes lie in the low 2 GiB that both
    windows map. *)
Definition geometry (fl : Z) (l : list page) : Prop :=
  0 < fl ∧ fl + sizeof_page * Z.of_nat (length l) < 2 ^ 31 ∧
  PAGE_SIZE * Z.of_nat (length l) < 2 ^ 31.

(** The allocator's invariant. *)
Record pool (m : mem) (fl : Z) (l : list page) : Prop := {
  pool_geometry : geometry fl l;
  pool_pages : pages_at m fl l;
  pool_runs : runs_ok l;
  pool_array : array_safe fl l;
}.

(** ** Lemmas on the abstract list *)

Lemma length_mark u r n : ∀ l i, length (mark_with u r l i n) = length l.
Proof. induction n as [|n IH]; intros l i; simpl; [done|]. by rewrite IH, length_insert. Qed.

Lemma lookup_mark u r n : ∀ l i j, (i + n <= length l)%nat →
  mark_with u r l i n !! j =
  if decide (i <= j < i + n)%nat then Some (Page u (Z.of_nat (i + n - j)) r) else l !! j.
Proof.
  induction n as [|n IH]; intros l i j Hl; cbn [mark_with]; [case_decide; [lia|done]|].
  rewrite IH by (rewrite length_insert; lia). repeat case_decide; try lia.
  - do 2 f_equal. lia.
  - replace j with i by lia. rewrite list_lookup_insert_eq by lia.
    do 2 f_equal. lia.
  - by rewrite list_lookup_insert_ne by lia.
Qed.

(** Along a run every page is free and the block sizes count down. *)
Lemma runs_ok_run l i p (k : nat) :
  runs_ok l → l !! i = Some p → is_free p = true → Z.of_nat k < block_size p →
  (i + k < length l)%nat →
  ∃ q, l !! (i + k)%nat = Some q ∧ is_free q = true ∧ block_size q = block_size p - Z.of_nat k.
Proof.
  intros Hr Hi Hfree. induction k as [|k IH]; intros Hk Hl.
  - exists p. rewrite Nat.add_0_r. split_and!; [done..|lia].
  - destruct IH as (q & Hq & Hqf & Hqb); [lia|lia|].
    destruct (lookup_lt_is_Some_2 l (i + S k) Hl) as [q' Hq'].
    destruct (Hr _ _ Hq Hqf) as [_ Hstep].
    replace (i + S k)%nat with (S (i + k)) in * by lia.
    destruct (Hstep ltac:(lia) q' Hq') as [? ?]. exists q'. split_and!; [done..|lia].
Qed.

Lemma first_fit_lt l n i : first_fit l n i → (i < length l)%nat.
Proof. intros [(p & Hp & _) _]. by eapply lookup_lt_Some. Qed.

Lemma fits_true n p : fits n p = true ↔ is_free p = true ∧ n <= block_size p.
Proof. unfold fits. rewrite andb_true_iff, Z.leb_le. done. Qed.

(** First fit keeps the free runs consistent: a free page just below the block
    could only point into it if it had fitted itself. *)
Lemma mark_runs_ok l n i :
  runs_ok l → (0 < n)%nat → first_fit l (Z.of_nat n) i → (i + n <= length l)%nat →
  runs_ok (mark l i n).
Proof.
  intros Hr Hn Hff Hl j p Hj Hfree. rewrite lookup_mark in Hj by done.
  case_decide; simplify_eq.
  destruct (Hr j p Hj Hfree) as [Hb Hstep]. split; [done|].
  intros Hb1 q. rewrite lookup_mark by done. case_decide; [|by apply Hstep].
  assert (S j = i) as Hji by lia. intros [= <-]. exfalso.
  destruct Hff as [(pi & Hpi & Hfit) Hmin]. apply fits_true in Hfit as [_ Hfit].
  destruct (Hstep Hb1 pi) as [_ Hbi]; [by rewrite Hji|].
  specialize (Hmin j p ltac:(lia) Hj). apply not_true_iff_false in Hmin.
  apply Hmin, fits_true. split; [done|lia].
Qed.

Lemma mark_array_safe fl l n i :
  array_safe fl l → (i + n <= length l)%nat → array_safe fl (mark l i n).
Proof.
  intros Ha Hl j p Hj Hfree. rewrite length_mark. rewrite lookup_mark in Hj by done.
  case_decide; simplify_eq. by eapply Ha.
Qed.

(** ** Descriptors in memory *)

(** A descriptor depends on its own 24 bytes only. *)
Lemma desc_at_agree m m' fl i p :
  desc_at m fl i p → agree_on m m' (desc fl i) sizeof_page → desc_at m' fl i p.
Proof.
  intros (H1 & H2 & H3 & H4) Hag. unfold sizeof_page in Hag.
  unfold desc_at, load64, load_int in *.
  assert (Hsub : ∀ o k, 0 <= o → o + Z.of_nat k <= 24 →
    load k m' (desc fl i + o) = load k m (desc fl i + o)).
  { intros o k Ho Hk. apply load_agree. eapply agree_on_sub; [exact Hag|..]; lia. }
  pose proof (Hsub 0 8%nat) as Hs0. rewrite !Z.add_0_r in Hs0.
  rewrite Hs0, !Hsub by lia. done.
Qed.

Lemma pages_at_agree m m' fl l :
  pages_at m fl l → agree_on m m' fl (sizeof_page * Z.of_nat (length l)) → pages_at m' fl l.
Proof.
  intros Hp Hag i p Hi. apply lookup_lt_Some in Hi as Hl.
  eapply desc_at_agree; [by apply Hp|]. eapply agree_on_sub; [exact Hag|..];
    unfold desc, sizeof_page; lia.
Qed.

(** What [set_page] does to the bytes. *)
Lemma set_page_agree m p u b r a n :
  0 <= phys p → a + n <= phys p + 8 ∨ phys p + 20 <= a → agree_on m (set_page m p u b r) a n.
Proof.
  intros H0 H. unfold set_page, set_ref_count, set_block_size, set_used, store_int.
  eapply agree_on_trans; [|apply store_agree; lia].
  eapply agree_on_trans; apply store_agree; lia.
Qed.

Lemma set_page_fields m p u b r :
  page_used (set_page m p u b r) p = i32 u ∧
  page_block_size (set_page m p u b r) p = i32 b ∧
  page_ref_count (set_page m p u b r) p = i32 r ∧
  page_next (set_page m p u b r) p = page_next m p.
Proof.
  unfold set_page, set_ref_count, set_block_size, set_used, page_used, page_block_size,
    page_ref_count, page_next.
  split_and!;
    repeat first [rewrite load_int_store_int_eq | rewrite load_int_store_int_ne by lia
                 | rewrite load64_store_int_ne by lia]; done.
Qed.

Lemma desc_succ fl i : desc fl (S i) = desc fl i + 24.
Proof. unfold desc, sizeof_page. lia. Qed.

Lemma pages_at_set_page m fl l i p u b r :
  pages_at m fl l → phys p = desc fl i → 0 <= fl → (i < length l)%nat →
  i32 u = u → i32 b = b → i32 r = r →
  pages_at (set_page m p u b r) fl (<[i := Page u b r]> l).
Proof.
  intros Hp Hphys H0 Hi Hu Hb Hr j q Hj.
  destruct (decide (i = j)) as [<-|Hne].
  - rewrite list_lookup_insert_eq in Hj by done. simplify_eq.
    destruct (lookup_lt_is_Some_2 l i Hi) as [q' Hq'].
    destruct (Hp i q' Hq') as (H1 & _).
    destruct (set_page_fields m p u b r) as (E1 & E2 & E3 & E4).
    unfold page_used, page_block_size, page_ref_count, page_next in *. rewrite Hphys in *.
    split_and!; simpl; congruence.
  - rewrite list_lookup_insert_ne in Hj by done. eapply desc_at_agree; [by apply Hp|].
    apply set_page_agree; rewrite Hphys; unfold desc, sizeof_page; lia.
Qed.

(** ** kmalloc refines first fit *)

Lemma run_array_disjoint fl l i p (n : nat) :
  runs_ok l → array_safe fl l → (0 < length l)%nat →
  l !! i = Some p → is_free p = true → Z.of_nat n <= block_size p → (i + n <= length l)%nat →
  PAGE_SIZE * Z.of_nat (i + n) <= fl ∨
  fl + sizeof_page * Z.of_nat (length l) <= PAGE_SIZE * Z.of_nat i.
Proof.
  intros Hr Ha Hlen Hi Hfree Hb Hl. unfold PAGE_SIZE, sizeof_page.
  destruct (Ha i p Hi Hfree) as [Hlow|]; [|by right]. left.
  unfold PAGE_SIZE, sizeof_page in *.
  induction n as [|n IH]; [lia|].
  destruct (decide (n = 0%nat)) as [->|]; [lia|].
  destruct (runs_ok_run l i p n Hr Hi Hfree) as (q & Hq & Hqf & _); [lia|lia|].
  destruct (Ha _ _ Hq Hqf) as [|]; unfold PAGE_SIZE, sizeof_page in *; lia.
Qed.

Section Window.
  Context (win : Z → Z).
  Context (win_phys : ∀ p, 0 <= p < 2 ^ 31 → phys (win p) = p).
  Context (win_nonzero : ∀ p, 0 < p < 2 ^ 31 → win p ≠ 0).

Lemma mark_loop_spec u r n : i32 u = u → i32 r = r → ∀ m fl l i,
    pages_at m fl l → 0 < fl → fl + sizeof_page * Z.of_nat (length l) < 2 ^ 31 →
    (i + n <= length l)%nat → Z.of_nat n < 2 ^ 31 →
    pages_at (mark_loop win u r n m (win (desc fl i))) fl (mark_with u r l i n) ∧
    ∀ a k, a + k <= desc fl i ∨ desc fl (i + n) <= a →
      agree_on m (mark_loop win u r n m (win (desc fl i))) a k.
  Proof.
    intros Hu Hr. induction n as [|n IH]; intros m fl l i Hp H0 H1 Hl Hn; cbn [mark_loop mark_with].
    { split; [done|]. intros. apply agree_on_refl. }
    assert (Hph : phys (win (desc fl i)) = desc fl i)
      by (apply win_phys; unfold desc, sizeof_page in *; lia).
    set (m1 := set_page m _ _ _ _).
    assert (Hp1 : pages_at m1 fl (<[i := Page u (Z.of_nat (S n)) r]> l)).
    { apply pages_at_set_page; try done; try lia. rewrite i32_small; lia. }
    assert (Hnext : page_next m1 (win (desc fl i)) = desc fl (S i)).
    { unfold page_next. rewrite Hph.
      destruct (Hp1 i (Page u (Z.of_nat (S n)) r)) as [E _]; [|exact E].
      apply list_lookup_insert_eq. lia. }
    rewrite Hnext.
    destruct (IH m1 fl (<[i := Page u (Z.of_nat (S n)) r]> l) (S i)) as [IH1 IH2];
      [done|done|by rewrite length_insert|rewrite length_insert; lia|lia|].
    split; [done|]. intros a k Hak.
    eapply agree_on_trans; [|apply IH2].
    - apply set_page_agree; rewrite Hph; unfold desc, sizeof_page in *; lia.
    - replace (S i + n)%nat with (i + S n)%nat by lia. rewrite desc_succ. lia.
  Qed.

Lemma desc_at_fits m fl l i p n :
    pages_at m fl l → l !! i = Some p → phys (win (desc fl i)) = desc fl i →
    (page_used m (win (desc fl i)) =? 0) && (n <=? page_block_size m (win (desc fl i))) = fits n p ∧
    page_next m (win (desc fl i)) = desc fl (S i).
  Proof.
    intros Hp Hi Hph. destruct (Hp i p Hi) as (H1 & H2 & H3 & _).
    unfold page_used, page_block_size, page_next, fits, is_free. rewrite Hph. split; [|done].
    congruence.
  Qed.

Lemma kmalloc_loop_skip d : ∀ fuel m fl l n k,
    pages_at m fl l → geometry fl l → (k + d <= length l)%nat →
    (∀ j q, (k <= j < k + d)%nat → l !! j = Some q → fits n q = false) →
    kmalloc_loop win (d + fuel) m n (win (desc fl k)) (Z.of_nat k) =
    kmalloc_loop win fuel m n (win (desc fl (k + d))) (Z.of_nat (k + d)).
  Proof.
    induction d as [|d IH]; intros fuel m fl l n k Hp Hg Hl Hno.
    { by rewrite Nat.add_0_r. }
    pose proof Hg as (G1 & G2 & G3). unfold PAGE_SIZE in G3.
    destruct (lookup_lt_is_Some_2 l k ltac:(lia)) as [q Hq].
    assert (Hr : 0 < desc fl k < 2 ^ 31) by (unfold desc, sizeof_page in *; lia).
    destruct (desc_at_fits m fl l k q n Hp Hq) as [Hf Hnext]; [apply win_phys; lia|].
    cbn [Nat.add kmalloc_loop].
    destruct (Z.eqb_spec (win (desc fl k)) 0) as [E|_]; [by apply win_nonzero in E|].
    rewrite Hf, (Hno k q), Hnext by (done || lia). rewrite u64_small by lia.
    replace (Z.of_nat k + 1) with (Z.of_nat (S k)) by lia.
    rewrite (IH fuel m fl l n (S k)); try done; try lia.
    - by replace (S k + d)%nat with (k + S d)%nat by lia.
    - intros j q' Hj. apply Hno. lia.
  Qed.

Lemma kmalloc_loop_spec fuel m fl l (n i : nat) :
    pool m fl l → (0 < n)%nat → first_fit l (Z.of_nat n) i → (i + n <= length l)%nat →
    (i < fuel)%nat →
    ∃ m', kmalloc_loop win fuel m (Z.of_nat n) (win fl) 0 = Some (Some (PAGE_SIZE * Z.of_nat i), m') ∧
      pool m' fl (mark l i n) ∧
      (∀ b, PAGE_SIZE * Z.of_nat i <= b < PAGE_SIZE * Z.of_nat (i + n) → rd m' b = 0) ∧
      (∀ b, ¬ (PAGE_SIZE * Z.of_nat i <= b < PAGE_SIZE * Z.of_nat (i + n)) →
            ¬ (fl <= b < fl + sizeof_page * Z.of_nat (length l)) → rd m' b = rd m b).
  Proof.
    intros Hpool Hn Hff Hl Hfuel. pose proof Hpool as [Hg Hp Hruns Harr].
    pose proof Hg as (G1 & G2 & G3).
    pose proof Hff as [(p & Hi & Hfit) Hmin]. pose proof Hfit as [Hfree Hblk]%fits_true.
    pose proof (run_array_disjoint fl l i p n Hruns Harr ltac:(lia) Hi Hfree Hblk Hl) as Hdis.
    unfold PAGE_SIZE, sizeof_page in *.
    assert (Hr : 0 < desc fl i < 2 ^ 31) by (unfold desc, sizeof_page; lia).
    assert (Hph : phys (win (desc fl i)) = desc fl i) by (apply win_phys; lia).
    destruct (desc_at_fits m fl l i p (Z.of_nat n) Hp Hi Hph) as [Hf _].
    replace fuel with (i + S (fuel - S i))%nat by lia.
    assert (Hfl : desc fl 0 = fl) by (unfold desc; lia).
    replace (win fl) with (win (desc fl 0)) by congruence.
    rewrite (kmalloc_loop_skip i _ m fl l (Z.of_nat n) 0 Hp Hg) by (done || lia || by intros; eapply Hmin; eauto; lia).
    cbn [Nat.add kmalloc_loop].
    destruct (Z.eqb_spec (win (desc fl i)) 0) as [E|_]; [by apply win_nonzero in E|].
    rewrite Hf, Hfit. unfold PAGE_SIZE. rewrite (u64_small (Z.of_nat i * 4096)), (u32_small (Z.of_nat n * 4096)),
      (u32_small (Z.of_nat n - 1)), win_phys by lia.
    set (m1 := set_page m _ _ _ _).
    set (m2 := memset m1 _ _ _).
    assert (Hp1 : pages_at m1 fl (<[i := Page 1 (Z.of_nat n) 1]> l)).
    { apply pages_at_set_page; try done; try lia. rewrite i32_small; lia. }
    assert (Hp2 : pages_at m2 fl (<[i := Page 1 (Z.of_nat n) 1]> l)).
    { eapply pages_at_agree; [exact Hp1|]. apply memset_agree.
      rewrite length_insert. unfold sizeof_page. lia. }
    assert (Hnext : page_next m2 (win (desc fl i)) = desc fl (S i)).
    { unfold page_next. rewrite Hph.
      destruct (Hp2 i (Page 1 (Z.of_nat n) 1)) as [E _]; [|exact E].
      apply list_lookup_insert_eq. lia. }
    rewrite Hnext. replace (Z.to_nat (Z.of_nat n - 1)) with (n - 1)%nat by lia.
    destruct (mark_loop_spec 1 1 (n - 1) eq_refl eq_refl m2 fl (<[i := Page 1 (Z.of_nat n) 1]> l) (S i)) as [Hp3 Hag3];
      [done|lia|rewrite length_insert; unfold sizeof_page; lia|rewrite length_insert; lia|lia|].
    set (m3 := mark_loop win 1 1 (n - 1) m2 _) in *.
    assert (Hmark : mark (<[i := Page 1 (Z.of_nat n) 1]> l) (S i) (n - 1) = mark l i n).
    { destruct n as [|n']; [lia|]. by replace (S n' - 1)%nat with n' by lia. }
    rewrite Hmark in Hp3.
    assert (Hrd : ∀ b, ¬ (fl <= b < fl + 24 * Z.of_nat (length l)) →
      rd m3 b = if decide (4096 * Z.of_nat i <= b < 4096 * Z.of_nat (i + n)) then 0 else rd m b).
    { intros b Hb. rewrite (Hag3 b 1) by (unfold desc, sizeof_page; lia).
      unfold m2. rewrite memset_rd. repeat case_decide; try lia; [done|].
      apply (set_page_agree m (win (desc fl i)) 1 (Z.of_nat n) 1 b 1);
        rewrite ?Hph; unfold desc, sizeof_page; lia. }
    exists m3. split; [by rewrite (Z.mul_comm (Z.of_nat i))|]. split_and!.
    - constructor; [|done|by apply mark_runs_ok|by apply mark_array_safe].
      unfold geometry, sizeof_page, PAGE_SIZE. rewrite length_mark. lia.
    - intros b Hb. rewrite Hrd by lia. by case_decide.
    - intros b Hb1 Hb2. rewrite Hrd by lia. by case_decide.
  Qed.
End Window.

(** ** calculate_free_list *)

(** The descriptors as [calculate_free_list] leaves them: [up] used pages, then
    [fs] pages that hold the array, then the free ones. *)
Definition init_page (up fs np i : nat) : page :=
  if decide (i < up)%nat then Page 1 (Z.of_nat (up - i)) 1
  else if decide (i < up + fs)%nat then Page 1 (Z.of_nat (up + fs - i)) 0
  else Page 0 (Z.of_nat (np - i)) 0.

Definition init_pages (up fs np : nat) : list page := init_page up fs np <$> seq 0 np.

Lemma lookup_init_pages up fs np i :
  init_pages up fs np !! i = if decide (i < np)%nat then Some (init_page up fs np i) else None.
Proof.
  unfold init_pages. rewrite list_lookup_fmap. case_decide.
  - by rewrite lookup_seq_lt.
  - rewrite lookup_seq_ge by lia. done.
Qed.

Lemma phys_desc fl i k : 0 < fl → desc fl (i + k) < 2 ^ 31 → phys (desc fl i) = desc fl i.
Proof. intros. apply phys_low. unfold desc, sizeof_page in *. lia. Qed.

Lemma init_loop_spec n : ∀ m fl k u r,
  0 < fl → desc fl (k + n) < 2 ^ 31 → Z.of_nat n < 2 ^ 31 → i32 u = u → i32 r = r →
  ∃ m', init_loop n m (desc fl k) u r = (desc fl (k + n), m') ∧
    (∀ j, (j < n)%nat → desc_at m' fl (k + j) (Page u (Z.of_nat (n - j)) r)) ∧
    (∀ a c, a + c <= desc fl k ∨ desc fl (k + n) <= a → agree_on m m' a c).
Proof.
  induction n as [|n IH]; intros m fl k u r H0 H1 Hn Hu Hr; cbn [init_loop].
  { exists m. rewrite Nat.add_0_r. split_and!; [done|intros; lia|intros; apply agree_on_refl]. }
  pose proof (phys_desc fl k (S n) H0 H1) as Hph.
  set (m1 := set_page m _ _ _ _). set (m2 := set_next m1 _ _).
  assert (Hag : ∀ a c, a + c <= desc fl k ∨ desc fl (S k) <= a → agree_on m m2 a c).
  { intros a c Hac. rewrite desc_succ in Hac. eapply agree_on_trans.
    - apply set_page_agree; rewrite Hph; [unfold desc, sizeof_page|]; lia.
    - unfold m2, set_next, store64. rewrite Hph. apply store_agree. lia. }
  assert (Hd : desc_at m2 fl k (Page u (Z.of_nat (S n)) r)).
  { destruct (set_page_fields m (desc fl k) u (Z.of_nat (S n)) r) as (E1 & E2 & E3 & _).
    unfold page_used, page_block_size, page_ref_count in *. rewrite Hph in *.
    fold m1 in E1, E2, E3. unfold m2, set_next, desc_at. rewrite Hph.
    rewrite load64_store64_eq, !load_int_store64_ne, E1, E2, E3 by lia.
    rewrite (u64_small (desc fl k + sizeof_page)) by (unfold desc, sizeof_page in *; lia).
    rewrite u64_small by (unfold desc, sizeof_page in *; lia).
    rewrite desc_succ. unfold sizeof_page. rewrite (i32_small (Z.of_nat (S n))) by lia.
    split_and!; done. }
  assert (Hnext : page_next m2 (desc fl k) = desc fl (S k))
    by (unfold page_next; rewrite Hph; apply Hd).
  rewrite Hnext.
  destruct (IH m2 fl (S k) u r) as (m' & E & Hj & Ha);
    [done|by replace (S k + n)%nat with (k + S n)%nat by lia|lia|done|done|].
  exists m'. replace (k + S n)%nat with (S k + n)%nat by lia. split; [done|]. split.
  - intros [|j] Hlt.
    + rewrite Nat.add_0_r, Nat.sub_0_r. eapply desc_at_agree; [exact Hd|]. apply Ha.
      left. rewrite desc_succ. unfold sizeof_page. lia.
    + replace (k + S j)%nat with (S k + j)%nat by lia. apply Hj. lia.
  - intros a c Hac. eapply agree_on_trans; [apply Hag|apply Ha];
      unfold desc, sizeof_page in *; lia.
Qed.

Lemma pages_at_mark_one m fl l k p n :
  pages_at m fl l → l !! k = Some p → 0 < fl → desc fl k < 2 ^ 31 → 0 <= n < 2 ^ 31 →
  let m' := set_block_size (set_used m (desc fl k) 1) (desc fl k) n in
  pages_at m' fl (<[k := Page 1 n (ref_count p)]> l) ∧
  ∀ a c, a + c <= desc fl k ∨ desc fl (S k) <= a → agree_on m m' a c.
Proof.
  intros Hp Hk H0 H1 Hn m'.
  assert (Hph : phys (desc fl k) = desc fl k) by (apply phys_low; unfold desc, sizeof_page in *; lia).
  assert (Hag : ∀ a c, a + c <= desc fl k ∨ desc fl (S k) <= a → agree_on m m' a c).
  { intros a c Hac. rewrite desc_succ in Hac. unfold m', set_block_size, set_used, store_int.
    rewrite Hph. eapply agree_on_trans; apply store_agree; lia. }
  split; [|done]. intros j q Hj. destruct (decide (k = j)) as [<-|Hne].
  - rewrite list_lookup_insert_eq in Hj by (by eapply lookup_lt_Some). simplify_eq.
    destruct (Hp k p Hk) as (E1 & E2 & E3 & E4). unfold desc_at, m', set_block_size, set_used.
    rewrite Hph. repeat first [rewrite load_int_store_int_eq | rewrite load_int_store_int_ne by lia
                 | rewrite load64_store_int_ne by lia]. rewrite !i32_small by lia. done.
  - rewrite list_lookup_insert_ne in Hj by done. eapply desc_at_agree; [by apply Hp|].
    apply Hag. unfold desc, sizeof_page. lia.
Qed.

Lemma mark_array_loop_spec n : ∀ m fl l k np,
  pages_at m fl l → 0 < fl → desc fl (S np) < 2 ^ 31 → (length l <= np)%nat →
  (k + n <= length l)%nat → Z.of_nat n < 2 ^ 31 →
  (∀ i p, (k <= i < k + n)%nat → l !! i = Some p → ref_count p = 0) →
  pages_at (mark_array_loop n m (desc fl np) (desc fl k)) fl (mark_with 1 0 l k n) ∧
  ∀ b, b < fl ∨ desc fl np <= b < desc fl np + 16 ∨ desc fl (S np) <= b →
    rd (mark_array_loop n m (desc fl np) (desc fl k)) b = rd m b.
Proof.
  induction n as [|n IH]; intros m fl l k np Hp H0 H1 Hnp Hl Hn Href;
    cbn [mark_array_loop mark_with]; [done|].
  destruct (lookup_lt_is_Some_2 l k ltac:(lia)) as [p Hk].
  assert (Hk31 : desc fl k < 2 ^ 31) by (unfold desc, sizeof_page in *; lia).
  destruct (pages_at_mark_one m fl l k p (Z.of_nat (S n)) Hp Hk H0 Hk31 ltac:(lia)) as [Hp1 Hag1].
  rewrite (Href k p) in Hp1 by (done || lia).
  set (m1 := set_block_size _ _ _) in *. set (m2 := set_ref_count m1 _ _).
  assert (Hph : phys (desc fl np) = desc fl np) by (apply phys_low; unfold desc, sizeof_page in *; lia).
  assert (Hag2 : ∀ a c, a + c <= desc fl np + 16 ∨ desc fl (S np) <= a → agree_on m1 m2 a c).
  { intros a c Hac. rewrite desc_succ in Hac. unfold m2, set_ref_count, store_int.
    rewrite Hph. apply store_agree. lia. }
  set (l1 := <[k := Page 1 (Z.of_nat (S n)) 0]> l) in *.
  assert (Hl1 : length l1 = length l) by apply length_insert.
  assert (Hp2 : pages_at m2 fl l1).
  { eapply pages_at_agree; [exact Hp1|]. apply Hag2. rewrite Hl1. unfold desc, sizeof_page. lia. }
  assert (Hnext : page_next m2 (desc fl k) = desc fl (S k)).
  { unfold page_next. rewrite phys_low by (unfold desc, sizeof_page in *; lia).
    eapply (Hp2 k). apply list_lookup_insert_eq. lia. }
  rewrite Hnext. destruct (IH m2 fl l1 (S k) np) as [IH1 IH2]; try done; try lia.
  { intros i q Hi Hq. unfold l1 in Hq. rewrite list_lookup_insert_ne in Hq by lia.
    eapply Href; [|exact Hq]. lia. }
  split; [done|]. intros b Hb. rewrite IH2 by done.
  rewrite (Hag2 b 1), (Hag1 b 1); [done|unfold desc, sizeof_page in *; lia..].
Qed.

(** The number of whole pages that the first [np] descriptors fill. *)
Definition array_pages (np : nat) : nat := Z.to_nat (Z.of_nat np * sizeof_page / PAGE_SIZE).

Lemma calculate_free_list_spec m (up np : nat) :
  let physfree := PAGE_SIZE * Z.of_nat up in
  (0 < up)%nat → (up + array_pages np <= np)%nat →
  PAGE_SIZE * Z.of_nat np < 2 ^ 31 → physfree + sizeof_page * Z.of_nat (S np) < 2 ^ 31 →
  ∃ m', calculate_free_list m (Z.of_nat np) physfree = (physfree, m') ∧
    pages_at m' physfree (init_pages up (array_pages np) np) ∧
    page_used m' (desc physfree np) = -1 ∧
    ∀ b, b < physfree ∨ physfree + sizeof_page * Z.of_nat (S np) <= b → rd m' b = rd m b.
Proof.
  intros physfree Hup Hle Hg1 Hg2. unfold physfree, PAGE_SIZE, sizeof_page in *.
  unfold calculate_free_list, PAGE_SIZE, sizeof_page.
  set (fl := 4096 * Z.of_nat up). replace (fl / 0x1000) with (Z.of_nat up) by lia.
  rewrite u64_small by lia. replace (Z.to_nat (Z.of_nat np - Z.of_nat up)) with (np - up)%nat by lia.
  rewrite Nat2Z.id. assert (E0 : desc fl 0 = fl) by (unfold desc; lia).
  destruct (init_loop_spec up m fl 0 1 1) as (m1 & E1 & D1 & A1);
    [lia|unfold desc, sizeof_page; lia|lia|done|done|].
  rewrite E0 in E1. rewrite E1. rewrite Nat.add_0_l in *.
  destruct (init_loop_spec (np - up) m1 fl up 0 0) as (m2 & E2 & D2 & A2);
    [lia|unfold desc, sizeof_page; lia|lia|done|done|].
  rewrite E2. replace (up + (np - up))%nat with np in * by lia.
  set (m3 := set_used m2 _ _).
  assert (Hph : phys (desc fl np) = desc fl np) by (apply phys_low; unfold desc, sizeof_page; lia).
  assert (A3 : ∀ a c, a + c <= desc fl np ∨ desc fl (S np) <= a → agree_on m2 m3 a c).
  { intros a c Hac. rewrite desc_succ in Hac. unfold m3, set_used, store_int. rewrite Hph.
    apply store_agree. lia. }
  set (fs := array_pages np) in *.
  assert (Hfs : Z.of_nat fs = Z.of_nat np * 24 / 4096) by (unfold fs, array_pages, sizeof_page, PAGE_SIZE; lia).
  rewrite (u64_small (Z.of_nat np * 24)) by lia. rewrite <- Hfs.
  rewrite i32_small, u32_small, Nat2Z.id by lia.
  assert (Hp3 : pages_at m3 fl (init_pages up 0 np)).
  { intros i p Hi. rewrite lookup_init_pages in Hi. case_decide as Hin; [|done]. simplify_eq.
    eapply desc_at_agree; [|apply A3; unfold desc, sizeof_page; lia].
    unfold init_page. repeat case_decide; try lia.
    - eapply desc_at_agree; [by apply (D1 i)|]. apply A2. unfold desc, sizeof_page. lia.
    - specialize (D2 (i - up)%nat ltac:(lia)).
      by replace (up + (i - up))%nat with i in D2 by lia;
         replace (np - up - (i - up))%nat with (np - i)%nat in D2 by lia. }
  assert (Hlen : length (init_pages up 0 np) = np) by (unfold init_pages; rewrite length_fmap, length_seq; done).
  destruct (mark_array_loop_spec fs m3 fl (init_pages up 0 np) up np) as [Hp4 Hrd];
    [done|lia|unfold desc, sizeof_page; lia|lia|lia|lia| |].
  { intros i p Hi Hlk. rewrite lookup_init_pages in Hlk. case_decide; [|done]. simplify_eq.
    unfold init_page. repeat case_decide; try lia; done. }
  eexists. split; [done|]. split_and!.
  - intros i p Hi. apply Hp4. rewrite lookup_mark by lia. rewrite lookup_init_pages in *.
    unfold init_page in *. repeat case_decide; simplify_eq; try lia; done.
  - unfold page_used. rewrite Hph. unfold load_int. rewrite (load_agree 4 m3) by (intros b Hb; apply Hrd; lia).
    fold (load_int m3 (desc fl np + 8)). unfold m3, set_used. rewrite Hph. apply load_int_store_int_eq.
  - intros b Hb. rewrite Hrd by (unfold desc, sizeof_page; lia).
    rewrite (A3 b 1), (A2 b 1), (A1 b 1); [done|unfold desc, sizeof_page; lia..].
Qed.

(** ** The allocator's contract *)

(** Pages a request of [size] bytes takes. *)
Definition npages (size : Z) : nat := Z.to_nat ((size + (PAGE_SIZE - 1)) / PAGE_SIZE).

Lemma pages_of_size_npages size :
  0 < size < 2 ^ 31 → pages_of_size size = Z.of_nat (npages size) ∧ (0 < npages size)%nat.
Proof.
  intros H. unfold pages_of_size, npages, PAGE_SIZE.
  destruct (Z.ltb_spec 0 (size mod 4096)); rewrite i32_small by lia; lia.
Qed.

(** Physical bytes of the block of [n] pages at index [i], and of the array. *)
Definition in_block (i n : nat) (b : Z) : Prop :=
  PAGE_SIZE * Z.of_nat i <= b < PAGE_SIZE * Z.of_nat (i + n).
Definition in_array (fl : Z) (l : list page) (b : Z) : Prop :=
  fl <= b < fl + sizeof_page * Z.of_nat (length l).

(** What a successful allocation of block [i], [n] guarantees. *)
Record alloc_post (m : mem) (fl : Z) (l : list page) (i n : nat) (m' : mem) : Prop := {
  ap_pool : pool m' fl (mark l i n);
  ap_fits : first_fit l (Z.of_nat n) i;
  ap_range : (i + n <= length l)%nat;
  ap_zero : ∀ b, in_block i n b → rd m' b = 0;
  ap_frame : ∀ b, ¬ in_block i n b → ¬ in_array fl l b → rd m' b = rd m b;
}.

Lemma VADDR_window_phys p : 0 <= p < 2 ^ 31 → phys (VADDR p) = p.
Proof. apply phys_VADDR. Qed.

Lemma VADDR_window_nonzero p : 0 < p < 2 ^ 31 → VADDR p ≠ 0.
Proof. intros. apply VADDR_nonzero. lia. Qed.

Lemma kmalloc_ok fuel m fl l size i :
  pool m fl l → 0 < size < 2 ^ 31 →
  first_fit l (Z.of_nat (npages size)) i → (i + npages size <= length l)%nat → (i < fuel)%nat →
  ∃ m', kmalloc fuel fl m size = Some (VADDR (PAGE_SIZE * Z.of_nat i), m') ∧
        alloc_post m fl l i (npages size) m'.
Proof.
  intros Hp Hs Hff Hl Hf. destruct (pages_of_size_npages size Hs) as [E Hn].
  destruct (kmalloc_loop_spec VADDR VADDR_window_phys VADDR_window_nonzero
    fuel m fl l (npages size) i Hp Hn Hff Hl Hf) as (m' & Em & H1 & H2 & H3).
  exists m'. unfold kmalloc. rewrite E, Em. split; [done|]. by constructor.
Qed.

Lemma kmalloc_init_ok fuel m fl l size i :
  pool m fl l → 0 < size < 2 ^ 31 →
  first_fit l (Z.of_nat (npages size)) i → (i + npages size <= length l)%nat → (i < fuel)%nat →
  ∃ m', kmalloc_init fuel fl m size = Some (VADDR (PAGE_SIZE * Z.of_nat i), m') ∧
        alloc_post m fl l i (npages size) m'.
Proof.
  intros Hp Hs Hff Hl Hf. destruct (pages_of_size_npages size Hs) as [E Hn].
  destruct (kmalloc_loop_spec (λ p, p) phys_low ltac:(simpl; lia)
    fuel m fl l (npages size) i Hp Hn Hff Hl Hf) as (m' & Em & H1 & H2 & H3).
  exists m'. unfold kmalloc_init. rewrite E, Em. split; [done|]. by constructor.
Qed.

(** The block index only grows along the search. *)
Lemma kmalloc_loop_count win fuel : ∀ m n temp count ret m',
  0 <= count → count + Z.of_nat fuel < 2 ^ 52 →
  kmalloc_loop win fuel m n temp count = Some (Some ret, m') →
  PAGE_SIZE * count <= ret.
Proof.
  induction fuel as [|fuel IH]; intros m n temp count ret m' H0 H1; [done|].
  cbn [kmalloc_loop]. case_match; [done|]. case_match.
  - intros [= <- <-]. unfold PAGE_SIZE. rewrite u64_small by lia. lia.
  - rewrite (u64_small (count + 1)) by lia. intros Hr%IH; unfold PAGE_SIZE in *; lia.
Qed.

Lemma kmalloc_loop_ret_range win fuel : ∀ m n temp count ret m',
  kmalloc_loop win fuel m n temp count = Some (Some ret, m') → 0 <= ret < 2 ^ 64.
Proof.
  induction fuel as [|f IH]; intros m n temp count ret m'; [done|]. cbn [kmalloc_loop].
  case_match; [done|]. case_match; [intros [= <- <-]; apply u64_range|]. apply IH.
Qed.

(** Conversely, every block [kmalloc] returns inside the described pages is a
    first-fit block. *)
Lemma kmalloc_sound fuel m fl l size v m' :
  pool m fl l → 0 < size < 2 ^ 31 → Z.of_nat fuel < 2 ^ 31 →
  kmalloc fuel fl m size = Some (v, m') → v ≠ 0 →
  PADDR v + PAGE_SIZE * Z.of_nat (npages size) <= PAGE_SIZE * Z.of_nat (length l) →
  ∃ i, v = VADDR (PAGE_SIZE * Z.of_nat i) ∧ alloc_post m fl l i (npages size) m'.
Proof.
  intros Hp Hs Hf Hk Hv Hb. destruct (pages_of_size_npages size Hs) as [E Hn].
  pose proof Hp as [Hg Hpg _ _]. pose proof Hg as (G1 & G2 & G3).
  assert (E0 : desc fl 0 = fl) by (unfold desc; lia).
  unfold kmalloc in Hk. rewrite E in Hk.
  destruct (kmalloc_loop VADDR fuel m _ _ 0) as [[[ret|] m1]|] eqn:Eloop;
    cbn [mbind option_bind] in Hk; simplify_eq.
  set (N := Z.of_nat (npages size)) in *.
  assert (Hskip : ∀ d f, fuel = (d + f)%nat → (d <= length l)%nat →
    (∀ j q, (j < d)%nat → l !! j = Some q → fits N q = false) →
    kmalloc_loop VADDR f m N (VADDR (desc fl d)) (Z.of_nat d) = Some (Some ret, m')).
  { intros d f -> Hd Hno. rewrite <- Eloop.
    replace (VADDR fl) with (VADDR (desc fl 0)) by congruence. symmetry.
    apply (kmalloc_loop_skip VADDR VADDR_window_phys VADDR_window_nonzero d f m fl l N 0);
      try done. intros j q Hj. apply Hno. lia. }
  assert (Hcount : ∀ d, (d <= fuel)%nat → (d <= length l)%nat →
    (∀ j q, (j < d)%nat → l !! j = Some q → fits N q = false) → 4096 * Z.of_nat d <= ret).
  { intros d Hd1 Hd2 Hno. eapply (kmalloc_loop_count VADDR (fuel - d)); [| |apply Hskip]; try lia. done. }
  pose proof (kmalloc_loop_ret_range _ _ _ _ _ _ _ _ Eloop) as Hret.
  rewrite PADDR_VADDR in Hb by done. unfold PAGE_SIZE in *.
  destruct (list_first_dec (fits N) l) as [(i & p & Hi & Hfit & Hmin)|Hnone].
  - assert (Hff : first_fit l N i) by (split; eauto).
    apply lookup_lt_Some in Hi as Hlt.
    destruct (decide (i < fuel)%nat) as [Hfu|Hfu].
    + assert (4096 * Z.of_nat i <= ret) by (apply Hcount; [lia|lia|done]).
      destruct (kmalloc_ok fuel m fl l size i) as (m2 & E2 & Hpost); try done.
      { unfold N in *. lia. }
      unfold kmalloc in E2. rewrite E, Eloop in E2. cbn in E2. simplify_eq.
      exists i. split; [done|]. done.
    + exfalso. specialize (Hskip fuel 0%nat ltac:(lia) ltac:(lia)). cbn [kmalloc_loop] in Hskip.
      specialize (Hskip ltac:(intros j q Hj; apply Hmin; lia)). done.
  - exfalso. destruct (decide (length l <= fuel)%nat).
    + assert (4096 * Z.of_nat (length l) <= ret); [|unfold N in *; lia].
      apply Hcount; [lia|lia|]. intros j q _. apply Hnone.
    + specialize (Hskip fuel 0%nat ltac:(lia) ltac:(lia)). cbn [kmalloc_loop] in Hskip.
      specialize (Hskip ltac:(intros j q _; apply Hnone)). done.
Qed.

(** ** The instance of [PageSource] *)

#[export] Instance mem_page_source (fuel : nat) (free_list : Z) : PageSource := {
  kmalloc1 m := kmalloc fuel free_list m 1;
  kmalloc_init1 m := kmalloc_init fuel free_list m 1;
}.

Section Instance.
  Context (fuel : nat) (fl : Z) (N : nat).

Definition pool_inv (l : list page) (m : mem) : Prop := pool m fl l ∧ length l = N.
Definition pool_free (l : list page) (p : Z) : Prop :=
    ∃ i q, p = PAGE_SIZE * Z.of_nat i ∧ l !! i = Some q ∧ is_free q = true.
Definition pool_private (b : Z) : Prop := fl <= b < fl + sizeof_page * Z.of_nat N.
Definition pool_avail (l : list page) : nat := length (filter (λ p, is_free p = true) (take fuel l)).

Lemma pool_free_page l m p : pool_inv l m → pool_free l p →
    p mod PAGE_SIZE = 0 ∧ 0 <= p ∧ p + PAGE_SIZE <= 2 ^ 31 ∧
    ∀ b, in_page p b → ¬ pool_private b.
  Proof.
    intros [[Hg _ _ Ha] Hlen] (i & q & -> & Hi & Hq). apply lookup_lt_Some in Hi as Hlt.
    destruct Hg as (G1 & G2 & G3). specialize (Ha i q Hi Hq).
    unfold PAGE_SIZE, in_page, pool_private, sizeof_page in *. split_and!; try lia.
    unfold PAGE_SIZE. intros b Hb. lia.
  Qed.

Lemma pool_stable l m m' :
    pool_inv l m → (∀ b, pool_private b → rd m' b = rd m b) → pool_inv l m'.
  Proof.
    intros [[Hg Hp Hr Ha] Hlen] Hag. split; [|done]. constructor; try done.
    eapply pages_at_agree; [exact Hp|]. intros b Hb. apply Hag. unfold pool_private. by rewrite <- Hlen.
  Qed.

  (** A pool with a free page among the first [fuel] has a first fit for one. *)
Lemma pool_avail_fit l m : pool_inv l m → (0 < pool_avail l)%nat →
    ∃ i, first_fit l 1 i ∧ (i < fuel)%nat.
  Proof.
    intros [[_ _ Hr _] _] Hav. unfold pool_avail in Hav.
    assert (∃ p, p ∈ filter (λ p, is_free p = true) (take fuel l)) as [p Hp].
    { destruct (filter _ (take fuel l)) as [|p ?]; [simpl in Hav; lia|]. exists p. by left. }
    apply list_elem_of_filter in Hp as [Hpf Hin]. apply list_elem_of_lookup in Hin as [j Hj].
    apply lookup_take_Some in Hj as [Hj Hjf].
    destruct (list_first_dec (fits 1) l) as [(i & q & Hi & Hq & Hmin)|Hno].
    - exists i. split; [split; eauto|]. destruct (decide (i <= j)%nat); [lia|].
      specialize (Hmin j p ltac:(lia) Hj). apply not_true_iff_false in Hmin. exfalso.
      apply Hmin, fits_true. split; [done|]. by eapply Hr.
    - specialize (Hno j p Hj). apply not_true_iff_false in Hno. exfalso.
      apply Hno, fits_true. split; [done|]. by eapply Hr.
  Qed.

Lemma filter_insert_length (l : list page) i p :
    (length (filter (λ q, is_free q = true) l) <= S (length (filter (λ q, is_free q = true) (<[i := p]> l))))%nat.
  Proof.
    revert i. induction l as [|q l IH]; intros [|i]; simpl; try lia.
    - rewrite !filter_cons. repeat case_decide; simpl; lia.
    - rewrite !filter_cons. specialize (IH i). case_decide; simpl; lia.
  Qed.

Lemma alloc_post_granted l m i m' : pool_inv l m → alloc_post m fl l i 1 m' →
    page_granted pool_inv pool_free pool_private pool_avail l m (PAGE_SIZE * Z.of_nat i) (mark l i 1) m'.
  Proof.
    intros [Hpool Hlen] [H1 H2 H3 H4 H5]. constructor.
    - split; [done|]. by rewrite length_mark.
    - destruct H2 as [(p & Hp & [Hf _]%fits_true) _]. by exists i, p.
    - intros q. split.
      + intros (j & r & -> & Hj & Hr). rewrite lookup_mark in Hj by done.
        case_decide; simplify_eq. split; [by exists j, r|]. unfold PAGE_SIZE. lia.
      + intros [(j & r & -> & Hj & Hr) Hne]. exists j, r. split_and!; try done.
        rewrite lookup_mark by done. case_decide; [|done].
        replace j with i in Hne by lia. done.
    - intros b Hb. apply H4. unfold in_block, in_page, PAGE_SIZE in *. lia.
    - intros b Hb1 Hb2. apply H5; unfold in_block, in_array, in_page, pool_private, PAGE_SIZE in *; [lia|].
      by rewrite Hlen.
    - unfold pool_avail. cbn [mark_with]. rewrite take_insert.
      case_decide; [apply filter_insert_length|lia].
  Qed.

Lemma npages_1 : npages 1 = 1%nat.
  Proof. done. Qed.

Lemma pool_kmalloc l m : pool_inv l m → (0 < pool_avail l)%nat →
    ∃ p l' m', kmalloc fuel fl m 1 = Some (VADDR p, m') ∧
      page_granted pool_inv pool_free pool_private pool_avail l m p l' m'.
  Proof.
    intros Hinv Hav. destruct (pool_avail_fit l m Hinv Hav) as (i & Hff & Hi).
    pose proof (first_fit_lt _ _ _ Hff). pose proof Hinv as [Hp _].
    destruct (kmalloc_ok fuel m fl l 1 i Hp) as (m' & E & Hpost); rewrite ?npages_1; try done; try lia.
    eexists _, _, m'. split; [exact E|]. by apply alloc_post_granted.
  Qed.

Lemma pool_kmalloc_init l m : pool_inv l m → (0 < pool_avail l)%nat →
    ∃ p l' m', kmalloc_init fuel fl m 1 = Some (VADDR p, m') ∧
      page_granted pool_inv pool_free pool_private pool_avail l m p l' m'.
  Proof.
    intros Hinv Hav. destruct (pool_avail_fit l m Hinv Hav) as (i & Hff & Hi).
    pose proof (first_fit_lt _ _ _ Hff). pose proof Hinv as [Hp _].
    destruct (kmalloc_init_ok fuel m fl l 1 i Hp) as (m' & E & Hpost); rewrite ?npages_1; try done; try lia.
    eexists _, _, m'. split; [exact E|]. by apply alloc_post_granted.
  Qed.

#[export] Instance mem_page_source_laws : PageSourceLaws (mem_page_source fuel fl) := {
    ghost := list page;
    ps_inv := pool_inv;
    ps_free := pool_free;
    ps_private := pool_private;
    ps_avail := pool_avail;
    ps_free_page := pool_free_page;
    ps_stable := pool_stable;
    ps_kmalloc := pool_kmalloc;
    ps_kmalloc_init := pool_kmalloc_init;
  }.
End Instance.

(** ** The pool that calculate_free_list establishes *)

(** Descriptors that lie entirely in the pages marked for the array. *)
Definition protected_prefix (np : nat) : nat :=
  Z.to_nat (PAGE_SIZE * Z.of_nat (array_pages np) / sizeof_page).

Lemma array_pages_bound np :
  PAGE_SIZE * Z.of_nat (array_pages np) <= sizeof_page * Z.of_nat np < PAGE_SIZE * Z.of_nat (array_pages np) + PAGE_SIZE.
Proof. unfold array_pages, PAGE_SIZE, sizeof_page. lia. Qed.

Lemma protected_prefix_bound np :
  (protected_prefix np <= np)%nat ∧
  sizeof_page * Z.of_nat (protected_prefix np) <= PAGE_SIZE * Z.of_nat (array_pages np).
Proof.
  pose proof (array_pages_bound np). unfold protected_prefix, PAGE_SIZE, sizeof_page in *. lia.
Qed.

Lemma init_pages_runs up fs np N : runs_ok (take N (init_pages up fs np)).
Proof.
  intros i p Hi Hfree. apply lookup_take_Some in Hi as [Hi HN].
  rewrite lookup_init_pages in Hi. case_decide; simplify_eq.
  unfold init_page in *. repeat case_decide; try done. simpl. split; [lia|].
  intros Hb q Hq. apply lookup_take_Some in Hq as [Hq _]. rewrite lookup_init_pages in Hq.
  case_decide; simplify_eq. unfold init_page. repeat case_decide; try lia. simpl. split; [done|lia].
Qed.

Lemma init_pages_array_safe up np :
  (0 < up)%nat → (up + array_pages np <= np)%nat →
  array_safe (PAGE_SIZE * Z.of_nat up) (take (protected_prefix np) (init_pages up (array_pages np) np)).
Proof.
  intros Hup Hle i p Hi Hfree. apply lookup_take_Some in Hi as [Hi HN].
  rewrite lookup_init_pages in Hi. case_decide; simplify_eq.
  unfold init_page in Hfree. repeat case_decide; try done. right.
  destruct (protected_prefix_bound np). rewrite length_take.
  unfold init_pages. rewrite length_fmap, length_seq, Nat.min_l by lia.
  unfold PAGE_SIZE, sizeof_page in *. lia.
Qed.

Lemma length_protected up np :
  length (take (protected_prefix np) (init_pages up (array_pages np) np)) = protected_prefix np.
Proof.
  destruct (protected_prefix_bound np).
  rewrite length_take. unfold init_pages. rewrite length_fmap, length_seq. lia.
Qed.

(** The boot parameters for which the allocator is set up sensibly. *)
Definition boot_params (up np : nat) : Prop :=
  (0 < up)%nat ∧ (up + array_pages np <= np)%nat ∧
  PAGE_SIZE * Z.of_nat np < 2 ^ 31 ∧
  PAGE_SIZE * Z.of_nat up + sizeof_page * Z.of_nat (S np) < 2 ^ 31.

Lemma calculate_free_list_pool m up np :
  boot_params up np →
  let '(fl, m') := calculate_free_list m (Z.of_nat np) (PAGE_SIZE * Z.of_nat up) in
  fl = PAGE_SIZE * Z.of_nat up ∧
  pool m' fl (take (protected_prefix np) (init_pages up (array_pages np) np)) ∧
  page_used m' (desc fl np) = -1 ∧
  ∀ b, b < fl ∨ desc fl (S np) <= b → rd m' b = rd m b.
Proof.
  intros (H1 & H2 & H3 & H4).
  destruct (calculate_free_list_spec m up np H1 H2 H3 H4) as (m' & E & Hp & Ht & Hrd).
  rewrite E. split_and!; [done| |done|done].
  destruct (protected_prefix_bound np). constructor.
  - unfold geometry. rewrite length_protected. unfold PAGE_SIZE, sizeof_page in *. lia.
  - intros i p Hi. apply lookup_take_Some in Hi as [Hi _]. by apply Hp.
  - apply init_pages_runs.
  - by apply init_pages_array_safe.
Qed.

Lemma init_pages_first_fit up np :
  boot_params up np → (up + array_pages np < protected_prefix np)%nat →
  first_fit (take (protected_prefix np) (init_pages up (array_pages np) np)) 1 (up + array_pages np).
Proof.
  intros (H1 & H2 & _) Hlt. destruct (protected_prefix_bound np) as [Hb _]. split.
  - exists (init_page up (array_pages np) np (up + array_pages np)). split.
    + rewrite lookup_take_lt, lookup_init_pages by lia. by rewrite decide_True by lia.
    + unfold init_page. repeat case_decide; try lia. apply fits_true. simpl. split; [done|lia].
  - intros j q Hj Hq. apply lookup_take_Some in Hq as [Hq _]. rewrite lookup_init_pages in Hq.
    case_decide; simplify_eq. unfold init_page. repeat case_decide; try lia; done.
Qed.

(** ** Sequences of allocations *)

(** [kmalloc_trace fuel fl N m bs m']: starting from [m], the calls to [kmalloc]
    returned the blocks [bs] (physical address and number of pages) inside the
    [N] described pages and left the memory [m']. *)
Inductive kmalloc_trace (fuel : nat) (fl : Z) (N : nat) : mem → list (Z * nat) → mem → Prop :=
  | kmalloc_trace_nil m : kmalloc_trace fuel fl N m [] m
  | kmalloc_trace_cons m size v m1 bs m2 :
      0 < size < 2 ^ 31 → kmalloc fuel fl m size = Some (v, m1) → v ≠ 0 →
      PADDR v + PAGE_SIZE * Z.of_nat (npages size) <= PAGE_SIZE * Z.of_nat N →
      kmalloc_trace fuel fl N m1 bs m2 →
      kmalloc_trace fuel fl N m ((PADDR v, npages size) :: bs) m2.

(** The pages of a block, all free in [l]. *)
Definition block_free (l : list page) (blk : Z * nat) : Prop :=
  ∃ i, blk.1 = PAGE_SIZE * Z.of_nat i ∧ (0 < blk.2)%nat ∧
    ∀ k, (k < blk.2)%nat → ∃ q, l !! (i + k)%nat = Some q ∧ is_free q = true.

Definition blocks_disjoint (x y : Z * nat) : Prop :=
  disj x.1 (PAGE_SIZE * Z.of_nat x.2) y.1 (PAGE_SIZE * Z.of_nat y.2).

Lemma alloc_post_block_free m fl l i n m' :
  pool m fl l → (0 < n)%nat → alloc_post m fl l i n m' → block_free l (PAGE_SIZE * Z.of_nat i, n).
Proof.
  intros Hp Hn Hpost. destruct (ap_fits _ _ _ _ _ _ Hpost) as [(p & Hi & [Hf Hb]%fits_true) _].
  pose proof (ap_range _ _ _ _ _ _ Hpost). exists i. split_and!; [done..|]. simpl. intros k Hk.
  destruct (runs_ok_run l i p k (pool_runs _ _ _ Hp) Hi Hf) as (q & Hq & Hqf & _); [lia|lia|eauto].
Qed.

Lemma mark_block_disjoint l i n blk :
  (0 < n)%nat → (i + n <= length l)%nat → block_free (mark l i n) blk →
  block_free l blk ∧ blocks_disjoint (PAGE_SIZE * Z.of_nat i, n) blk.
Proof.
  intros Hn Hl (j & Hj & Hpos & Hk).
  assert (Hfree : ∀ k, (k < blk.2)%nat → ¬ (i <= j + k < i + n)%nat ∧
    ∃ q, l !! (j + k)%nat = Some q ∧ is_free q = true).
  { intros k Hlt. destruct (Hk k Hlt) as (q & Hq & Hqf). rewrite lookup_mark in Hq by done.
    case_decide; simplify_eq. eauto. }
  split.
  - exists j. split_and!; [done..|]. intros k Hlt. by apply Hfree.
  - unfold blocks_disjoint, disj. simpl. rewrite Hj. unfold PAGE_SIZE.
    destruct (decide (i + n <= j)%nat); [left; lia|].
    destruct (decide (j + blk.2 <= i)%nat); [right; lia|].
    exfalso. destruct (decide (i <= j)%nat).
    + destruct (Hfree 0%nat) as [? _]; lia.
    + destruct (Hfree (i - j)%nat) as [? _]; lia.
Qed.

Lemma kmalloc_trace_spec fuel fl N m bs m' :
  kmalloc_trace fuel fl N m bs m' → Z.of_nat fuel < 2 ^ 31 →
  ∀ l, pool m fl l → length l = N →
  (∃ l', pool m' fl l' ∧ length l' = N) ∧ Forall (block_free l) bs ∧
  (∀ i j x y, (i < j)%nat → bs !! i = Some x → bs !! j = Some y → blocks_disjoint x y).
Proof.
  intros Ht Hf. induction Ht as [m|m size v m1 bs m2 Hs Hk Hv Hb Ht IH]; intros l Hp Hlen.
  { split_and!; [by eauto|constructor|done]. }
  subst N. destruct (kmalloc_sound fuel m fl l size v m1 Hp Hs Hf Hk Hv Hb) as (i & -> & Hpost).
  destruct (pages_of_size_npages size Hs) as [_ Hn].
  pose proof (ap_range _ _ _ _ _ _ Hpost) as Hr.
  destruct (IH (mark l i (npages size))) as (IH1 & IH2 & IH3);
    [apply Hpost|apply length_mark|].
  pose proof (pool_geometry _ _ _ Hp) as (_ & _ & G3).
  rewrite PADDR_VADDR by (unfold PAGE_SIZE in *; lia).
  rewrite Forall_forall in IH2.
  split_and!; [done| |].
  - constructor; [by eapply alloc_post_block_free|]. apply Forall_forall. intros x Hx.
    by eapply mark_block_disjoint, IH2.
  - intros [|a] [|c] x y Hac Hx Hy; try lia; simplify_eq/=.
    + apply list_elem_of_lookup_2 in Hy. by eapply mark_block_disjoint, IH2.
    + eapply (IH3 a c); [lia|done|done].
Qed.
