(* ===== verification/MemProps.v ===== *)
(** * MemProps: what the page-frame allocator of src/sys/mem.c guarantees

    The theorems about [Mem]: the pool the boot code sets up, first fit, the
    disjointness of the blocks handed out, and the behaviours at the end of the
    list and in the routines that compute a descriptor from an address. *)
From S2P Require Import Prelude Memory Utils PageSource Mem.

(** ** A concrete boot: 400 pages, the kernel image in the first one *)

Definition boot_mem : mem := (calculate_free_list ∅ 400 4096).2.
Definition boot_pages : list page := take (protected_prefix 400) (init_pages 1 (array_pages 400) 400).

Lemma boot_params_ex : boot_params 1 400.
Proof. unfold boot_params. vm_compute. repeat split; intros; discriminate || lia. Qed.

Lemma boot_pool : pool boot_mem 4096 boot_pages.
Proof.
  unfold boot_mem. pose proof (calculate_free_list_pool ∅ 1 400 boot_params_ex) as H.
  change (PAGE_SIZE * Z.of_nat 1) with 4096 in H. change (Z.of_nat 400) with 400 in H.
  destruct (calculate_free_list ∅ 400 4096) as [fl m']. by destruct H as (-> & ? & _).
Qed.

Lemma boot_first_fit : first_fit boot_pages 1 3.
Proof. apply (init_pages_first_fit 1 400 boot_params_ex). vm_compute. lia. Qed.

Lemma length_boot_pages : length boot_pages = 341%nat.
Proof. vm_compute. done. Qed.

(** The descriptors of the pool, read from memory. *)
Definition pages_check (m : mem) (fl : Z) (l : list page) : bool :=
  forallb (λ ip, (load64 m (desc fl ip.1) =? desc fl (S ip.1)) && (load_int m (desc fl ip.1 + 8) =? used ip.2) &&
    (load_int m (desc fl ip.1 + 12) =? block_size ip.2) && (load_int m (desc fl ip.1 + 16) =? ref_count ip.2)) (imap pair l).

Lemma pages_check_at m fl l : pages_check m fl l = true → pages_at m fl l.
Proof.
  unfold pages_check. rewrite forallb_forall. intros H i p Hi.
  assert (Hin : In (i, p) (imap pair l)).
  { apply list_elem_of_In, list_elem_of_lookup. exists i. by rewrite list_lookup_imap, Hi. }
  specialize (H _ Hin). cbn [fst snd] in H. rewrite !andb_true_iff, !Z.eqb_eq in H. unfold desc_at. tauto.
Qed.

(** Memory with the same descriptors has the same pool. *)
Lemma pool_checked m m' fl l : pool m fl l → pages_check m' fl l = true → pool m' fl l.
Proof. intros [H1 _ H3 H4] Hc. constructor; [exact H1|by apply pages_check_at|exact H3|exact H4]. Qed.

(** ** Boot *)

(** C29: [calculate_free_list] builds the descriptor array at [physfree]: on the
    descriptors that lie in the pages it marks for the array, the allocator's
    invariant holds (links, flags and counts in memory, consistent free runs,
    no free page over the array), the terminator has [used = -1], and no byte
    outside the array is written. *)
Theorem calculate_free_list_establishes_pool m up np :
  boot_params up np →
  let '(fl, m') := calculate_free_list m (Z.of_nat np) (PAGE_SIZE * Z.of_nat up) in
  fl = PAGE_SIZE * Z.of_nat up ∧
  pool m' fl (take (protected_prefix np) (init_pages up (array_pages np) np)) ∧
  page_used m' (desc fl np) = -1 ∧
  ∀ b, b < fl ∨ desc fl (S np) <= b → rd m' b = rd m b.
Proof. apply calculate_free_list_pool. Qed.

Lemma calculate_free_list_establishes_pool_witness :
  boot_params 1 400 ∧ page_used boot_mem (desc 4096 400) = -1.
Proof.
  split; [apply boot_params_ex|].
  pose proof (calculate_free_list_establishes_pool ∅ 1 400 boot_params_ex) as H.
  change (PAGE_SIZE * Z.of_nat 1) with 4096 in H. change (Z.of_nat 400) with 400 in H.
  unfold boot_mem. destruct (calculate_free_list ∅ 400 4096) as [fl m'].
  destruct H as (-> & _ & H & _). exact H.
Defined.

(** [used_flspace] is rounded down, so the page that holds the terminator
    descriptor stays free, and it is the first page [kmalloc_init] hands out:
    the request zeroes the terminator's [used = -1], which then reads as free. *)
Theorem first_page_overwrites_terminator m up np fuel :
  boot_params up np → (up + array_pages np < protected_prefix np)%nat →
  (up + array_pages np < fuel)%nat →
  (sizeof_page * Z.of_nat np) mod PAGE_SIZE <= 4080 →
  let '(fl, m1) := calculate_free_list m (Z.of_nat np) (PAGE_SIZE * Z.of_nat up) in
  page_used m1 (desc fl np) = -1 ∧
  ∃ m2, kmalloc_init fuel fl m1 1 = Some (VADDR (PAGE_SIZE * Z.of_nat (up + array_pages np)), m2) ∧
    page_used m2 (desc fl np) = 0.
Proof.
  intros Hb Hlt Hf Hmod. pose proof Hb as (B1 & B2 & B3 & B4).
  pose proof (calculate_free_list_pool m up np Hb) as H.
  destruct (calculate_free_list _ _ _) as [fl m1]. destruct H as (-> & Hp & Ht & _).
  split; [done|]. pose proof (array_pages_bound np) as Hab.
  destruct (kmalloc_init_ok fuel m1 _ _ 1 (up + array_pages np) Hp) as (m2 & E & Hpost);
    rewrite ?npages_1, ?length_protected; [lia|by apply init_pages_first_fit|lia|lia|].
  exists m2. split; [done|]. rewrite npages_1 in Hpost.
  unfold page_used, load_int. rewrite phys_low by (unfold desc, sizeof_page, PAGE_SIZE in *; lia).
  rewrite load_zeros; [done|]. intros b Hb'. apply (ap_zero _ _ _ _ _ _ Hpost).
  unfold in_block, desc, sizeof_page, PAGE_SIZE in *. lia.
Qed.

Lemma first_page_overwrites_terminator_witness :
  let '(fl, m1) := calculate_free_list ∅ 400 4096 in
  page_used m1 (desc fl 400) = -1 ∧
  ∃ m2, kmalloc_init 10 fl m1 1 = Some (VADDR (PAGE_SIZE * 3), m2) ∧ page_used m2 (desc fl 400) = 0.
Proof.
  apply (first_page_overwrites_terminator ∅ 1 400 10); [apply boot_params_ex|..]; vm_compute; [lia|lia|done].
Defined.

(** ** Allocation *)

(** C1: [kmalloc] and [kmalloc_init] are first fit: on a pool with a first
    fitting run at index [i], both return the kernel address of page [i], with
    the run marked in the descriptors, its bytes zeroed, every other byte
    outside the array unchanged and the invariant kept. *)
Theorem kmalloc_refines_first_fit fuel m fl l size i :
  pool m fl l → 0 < size < 2 ^ 31 →
  first_fit l (Z.of_nat (npages size)) i → (i + npages size <= length l)%nat → (i < fuel)%nat →
  (∃ m', kmalloc fuel fl m size = Some (VADDR (PAGE_SIZE * Z.of_nat i), m') ∧
         alloc_post m fl l i (npages size) m') ∧
  (∃ m', kmalloc_init fuel fl m size = Some (VADDR (PAGE_SIZE * Z.of_nat i), m') ∧
         alloc_post m fl l i (npages size) m').
Proof. intros. split; [by apply kmalloc_ok|by apply kmalloc_init_ok]. Qed.

Lemma kmalloc_refines_first_fit_witness :
  ∃ m', kmalloc 4 4096 boot_mem 100 = Some (VADDR (PAGE_SIZE * 3), m') ∧
        alloc_post boot_mem 4096 boot_pages 3 1 m'.
Proof.
  assert (Hff : first_fit boot_pages (Z.of_nat (npages 100)) 3) by exact boot_first_fit.
  assert (Hle : (3 + npages 100 <= length boot_pages)%nat)
    by (rewrite length_boot_pages; change (npages 100) with 1%nat; lia).
  exact (proj1 (kmalloc_refines_first_fit 4 boot_mem 4096 boot_pages 100 3 boot_pool ltac:(lia) Hff Hle ltac:(lia))).
Defined.

(** C28: no page is handed out twice: in any sequence of allocations from a
    pool, the blocks returned are pairwise disjoint, were free at the start,
    lie apart from the descriptor array, and the invariant holds at the end. *)
Theorem kmalloc_blocks_disjoint fuel fl m bs m' l :
  kmalloc_trace fuel fl (length l) m bs m' → Z.of_nat fuel < 2 ^ 31 → pool m fl l →
  (∃ l', pool m' fl l' ∧ length l' = length l) ∧
  (∀ i j x y, (i < j)%nat → bs !! i = Some x → bs !! j = Some y → blocks_disjoint x y) ∧
  ∀ x k, x ∈ bs → (k < x.2)%nat →
    disj (x.1 + PAGE_SIZE * Z.of_nat k) PAGE_SIZE fl (sizeof_page * Z.of_nat (length l)).
Proof.
  intros Ht Hf Hp. destruct (kmalloc_trace_spec _ _ _ _ _ _ Ht Hf l Hp eq_refl) as (H1 & H2 & H3).
  split_and!; [done..|]. intros x k Hx Hk. rewrite Forall_forall in H2.
  destruct (H2 x Hx) as (i & -> & _ & Hfree). destruct (Hfree k Hk) as (q & Hq & Hqf).
  pose proof (pool_array _ _ _ Hp _ _ Hq Hqf). unfold disj, PAGE_SIZE in *. lia.
Qed.

Lemma kmalloc_blocks_disjoint_witness :
  ∃ v m', kmalloc 4 4096 boot_mem 100 = Some (v, m') ∧
    disj (PADDR v + PAGE_SIZE * 0) PAGE_SIZE 4096 (sizeof_page * 341).
Proof.
  destruct (kmalloc_ok 4 boot_mem 4096 boot_pages 100 3 boot_pool) as (m' & E & _);
    change (npages 100) with 1%nat; rewrite ?length_boot_pages; try lia; [apply boot_first_fit|].
  exists (VADDR (PAGE_SIZE * Z.of_nat 3)), m'. split; [exact E|].
  refine (proj2 (proj2 (kmalloc_blocks_disjoint 4 4096 boot_mem _ m' boot_pages _ _ boot_pool)) (_, 1%nat) 0%nat _ _).
  - eapply kmalloc_trace_cons; [|exact E|by vm_compute|vm_compute; discriminate|apply kmalloc_trace_nil]. lia.
  - lia.
  - apply list_elem_of_singleton. done.
  - simpl. lia.
Defined.

(** The state in which the list has run out: a terminator whose link is NULL
    and no descriptor that fits. *)
Definition exhausted (m : mem) (fl : Z) (l : list page) (n : Z) : Prop :=
  geometry fl l ∧ pages_at m fl l ∧ desc fl (S (length l)) < 2 ^ 31 ∧
  (∀ i p, l !! i = Some p → fits n p = false) ∧
  load_int m (desc fl (length l) + 8) = -1 ∧ load64 m (desc fl (length l)) = 0.

Lemma exhausted_walk win (Hw1 : ∀ p, 0 <= p < 2 ^ 31 → phys (win p) = p)
    (Hw2 : ∀ p, 0 < p < 2 ^ 31 → win p ≠ 0) fuel m fl l n :
  exhausted m fl l n →
  kmalloc_loop win (length l + S fuel) m n (win fl) 0 =
  kmalloc_loop win fuel m n (win 0) (Z.of_nat (S (length l))).
Proof.
  intros (Hg & Hp & Hd & Hno & Hu & Hnx). pose proof Hg as (G1 & G2 & G3).
  assert (E0 : desc fl 0 = fl) by (unfold desc; lia).
  replace (win fl) with (win (desc fl 0)) by congruence.
  etrans; [apply (kmalloc_loop_skip win Hw1 Hw2 (length l) (S fuel) m fl l n 0 Hp Hg); [done|eauto]|].
  rewrite Nat.add_0_l. cbn [kmalloc_loop]. unfold page_used, page_next.
  rewrite Hw1 by (unfold desc, sizeof_page in *; lia). rewrite Hu, Hnx.
  destruct (Z.eqb_spec (win (desc fl (length l))) 0) as [E|_].
  { exfalso. eapply Hw2; [|exact E]. unfold desc, sizeof_page in *; lia. }
  simpl. rewrite u64_small by (unfold PAGE_SIZE in *; lia). do 2 f_equal; lia.
Qed.

Lemma kmalloc_loop_cycle fuel m n : ∀ count, load64 m 0 = 0 → load_int m 12 = 0 → 0 < n →
  kmalloc_loop VADDR fuel m n (VADDR 0) count = None.
Proof.
  induction fuel as [|fuel IH]; intros count H0 H1 Hn; [done|]. cbn [kmalloc_loop].
  unfold page_block_size, page_next. rewrite phys_VADDR by lia. change (0 + 12) with 12. rewrite H0, H1.
  destruct (Z.leb_spec n 0); [lia|]. rewrite andb_false_r. simpl. by rewrite IH.
Qed.

(** C37: at the end of the list the two allocators differ: [kmalloc_init] tests
    the raw link and returns NULL; [kmalloc] tests [VADDR(NULL)], which is not
    NULL, goes on at physical address 0 and, over zeroed memory, never ends. *)
Theorem kmalloc_exhausted fuel m fl l size :
  0 < size < 2 ^ 31 → exhausted m fl l (Z.of_nat (npages size)) →
  load64 m 0 = 0 → load_int m 12 = 0 →
  kmalloc_init (length l + S (S fuel)) fl m size = Some (0, m) ∧
  ∀ fuel', kmalloc fuel' fl m size = None.
Proof.
  intros Hs He H0 H1. destruct (pages_of_size_npages size Hs) as [E Hn]. split.
  - unfold kmalloc_init. rewrite E.
    by rewrite (exhausted_walk (λ p, p) phys_low ltac:(simpl; lia) (S fuel) m fl l _ He).
  - intros fuel'. unfold kmalloc. rewrite E.
    enough (kmalloc_loop VADDR fuel' m (Z.of_nat (npages size)) (VADDR fl) 0 = None) as ->; [done|].
    destruct (decide (length l < fuel')%nat) as [Hlt|Hge].
    + replace fuel' with (length l + S (fuel' - S (length l)))%nat by lia.
      rewrite (exhausted_walk VADDR VADDR_window_phys VADDR_window_nonzero _ _ _ _ _ He).
      apply kmalloc_loop_cycle; [done..|lia].
    + destruct He as (Hg & Hp & _ & Hno & _). replace fuel' with (fuel' + 0)%nat by lia.
      assert (E0 : desc fl 0 = fl) by (unfold desc; lia).
      replace (VADDR fl) with (VADDR (desc fl 0)) by congruence.
      by etrans; [apply (kmalloc_loop_skip VADDR VADDR_window_phys VADDR_window_nonzero fuel' 0 m fl l _ 0 Hp Hg);
        [lia|eauto]|].
Qed.

Definition full_mem : mem := (calculate_free_list ∅ 1 4096).2.

Lemma full_mem_exhausted : exhausted full_mem 4096 (init_pages 1 0 1) 1.
Proof.
  destruct (calculate_free_list_spec ∅ 1 1) as (m' & E & Hp & _); [lia|vm_compute; lia|done|done|].
  change (PAGE_SIZE * Z.of_nat 1) with 4096 in E, Hp. change (Z.of_nat 1) with 1 in E.
  assert (full_mem = m') as -> by (unfold full_mem; by rewrite E).
  unfold exhausted. split_and!; [vm_compute; split_and!; done|done|vm_compute; done|..].
  - intros [|[|i]] p Hi; [|done..]. vm_compute in Hi. by simplify_eq.
  - assert (m' = full_mem) as -> by (unfold full_mem; by rewrite E). vm_compute. done.
  - assert (m' = full_mem) as -> by (unfold full_mem; by rewrite E). vm_compute. done.
Qed.

Lemma kmalloc_exhausted_witness :
  kmalloc_init 3 4096 full_mem 10 = Some (0, full_mem) ∧ ∀ f, kmalloc f 4096 full_mem 10 = None.
Proof.
  apply (kmalloc_exhausted 0 full_mem 4096 (init_pages 1 0 1) 10); [lia|apply full_mem_exhausted|..];
    vm_compute; reflexivity.
Defined.

(** ** Descriptors from addresses *)

Lemma get_page_at_address_VADDR fl (k : nat) :
  0 < fl → 0 < Z.of_nat k < 2 ^ 19 → fl + 576 * Z.of_nat k < 2 ^ 64 →
  get_page_at_address fl (VADDR (PAGE_SIZE * Z.of_nat k)) = desc fl (24 * k).
Proof.
  intros H0 Hk Hfl. unfold get_page_at_address.
  assert (Ha : get_starting_page (PAGE_SIZE * Z.of_nat k) / PAGE_SIZE = Z.of_nat k).
  { rewrite get_starting_page_spec by (unfold PAGE_SIZE; lia). unfold PAGE_SIZE. lia. }
  unfold PAGE_SIZE, sizeof_page, desc in *.
  destruct (Z.ltb_spec KERNEL_VADDR (VADDR (4096 * Z.of_nat k))) as [Hlt|Hge].
  - rewrite PADDR_VADDR by lia. rewrite Ha. rewrite (u64_small (Z.of_nat k * 24 * 24)), u64_small by lia.
    unfold sizeof_page. lia.
  - unfold VADDR, KERNEL_VADDR in Hge. rewrite u64_small in Hge by lia. lia.
Qed.

(** [free] marks the wrong descriptors: the index of the page is scaled by
    [sizeof(struct page)] and then again by the pointer arithmetic, so freeing
    the page at physical [4096 k] reads and rewrites descriptor [24 k] and
    leaves descriptor [k] and its [used] flag as they were. *)
Theorem free_leaves_page_used m fl l (k : nat) p q :
  pool m fl l → (0 < k)%nat → (24 * k < length l)%nat →
  l !! k = Some p → l !! (24 * k)%nat = Some q → block_size q = 1 →
  fl + sizeof_page * Z.of_nat (length l) <= PAGE_SIZE * Z.of_nat k →
  let m' := free fl m (VADDR (PAGE_SIZE * Z.of_nat k)) in
  desc_at m' fl k p ∧ desc_at m' fl (24 * k) (Page 0 1 0).
Proof.
  intros [Hg Hp _ _] Hk Hl Hpk Hq Hb Harr m'. pose proof Hg as (G1 & G2 & G3).
  unfold PAGE_SIZE, sizeof_page in G2, G3, Harr.
  assert (Ep : get_page_at_address fl (VADDR (PAGE_SIZE * Z.of_nat k)) = desc fl (24 * k))
    by (apply get_page_at_address_VADDR; lia).
  assert (Hph : phys (desc fl (24 * k)) = desc fl (24 * k))
    by (apply phys_low; unfold desc, sizeof_page; lia).
  assert (Ebs : page_block_size m (desc fl (24 * k)) = 1).
  { unfold page_block_size. rewrite Hph. destruct (Hp _ _ Hq) as (_ & _ & E & _). by rewrite E. }
  assert (Em : m' = set_page (memset m (PAGE_SIZE * Z.of_nat k) 0 4096) (desc fl (24 * k)) 0 1 0).
  { unfold m', free. rewrite Ep, Ebs. rewrite phys_VADDR by (unfold PAGE_SIZE; lia). done. }
  assert (Hp1 : pages_at (memset m (PAGE_SIZE * Z.of_nat k) 0 4096) fl l).
  { eapply pages_at_agree; [exact Hp|]. apply memset_agree. unfold PAGE_SIZE, sizeof_page. lia. }
  pose proof (pages_at_set_page _ fl l (24 * k) (desc fl (24 * k)) 0 1 0 Hp1 Hph ltac:(lia) Hl
    eq_refl eq_refl eq_refl) as Hp2. rewrite <- Em in Hp2. split.
  - apply Hp2. by rewrite list_lookup_insert_ne by lia.
  - apply Hp2. by apply list_lookup_insert_eq.
Qed.

Lemma free_leaves_page_used_witness :
  ∃ m1, kmalloc 4 4096 boot_mem (4096 * 70) = Some (VADDR (PAGE_SIZE * 3), m1) ∧
    desc_at (free 4096 m1 (VADDR (PAGE_SIZE * Z.of_nat 3))) 4096 3 (Page 1 70 1).
Proof.
  assert (Hff : first_fit boot_pages (Z.of_nat (npages (4096 * 70))) 3).
  { split; [eexists; split; vm_compute; reflexivity|].
    intros [|[|[|j]]] q Hj Hq; [vm_compute in Hq; by simplify_eq..|lia]. }
  assert (Hle : (3 + npages (4096 * 70) <= length boot_pages)%nat)
    by (rewrite length_boot_pages; change (npages (4096 * 70)) with 70%nat; lia).
  destruct (kmalloc_ok 4 boot_mem 4096 boot_pages (4096 * 70) 3 boot_pool ltac:(lia) Hff Hle ltac:(lia))
    as (m1 & E & Hpost).
  exists m1. split; [exact E|].
  assert (Hl : length (mark boot_pages 3 70) = 341%nat) by (rewrite length_mark; apply length_boot_pages).
  refine (proj1 (free_leaves_page_used m1 4096 (mark boot_pages 3 70) 3 (Page 1 70 1) (Page 1 1 1)
    (ap_pool _ _ _ _ _ _ Hpost) _ _ _ _ _ _)); rewrite ?Hl; try lia; try (vm_compute; reflexivity).
  vm_compute. discriminate.
Defined.

(** [inc_ref_count] and [dec_ref_count] are the same function, and the
    count they update is that of descriptor [24 k], not of page [k]. *)
Theorem inc_ref_count_decrements m fl (k : nat) :
  0 < fl → 0 < Z.of_nat k < 2 ^ 19 → desc fl (24 * k) < 2 ^ 31 →
  - 2 ^ 31 < page_ref_count m (desc fl (24 * k)) →
  let va := VADDR (PAGE_SIZE * Z.of_nat k) in
  let m' := inc_ref_count fl m va in
  m' = dec_ref_count fl m va ∧
  page_ref_count m' (desc fl (24 * k)) = page_ref_count m (desc fl (24 * k)) - 1 ∧
  page_ref_count m' (desc fl k) = page_ref_count m (desc fl k).
Proof.
  intros H0 Hk Hd Hr va m'. split; [done|]. unfold m', inc_ref_count, va.
  rewrite get_page_at_address_VADDR by (unfold desc, sizeof_page in *; lia).
  unfold page_ref_count, set_ref_count in *. unfold desc, sizeof_page in *.
  rewrite !phys_low in * by lia. rewrite load_int_store_int_eq, load_int_store_int_ne by lia.
  split; [|done]. pose proof (load_int_range m (fl + 24 * Z.of_nat (24 * k) + 16)).
  rewrite i32_small; lia.
Qed.

Lemma inc_ref_count_decrements_witness :
  page_ref_count (inc_ref_count 4096 ∅ (VADDR (PAGE_SIZE * Z.of_nat 3))) (desc 4096 (24 * 3)) = -1.
Proof.
  refine (proj1 (proj2 (inc_ref_count_decrements ∅ 4096 3 _ _ _ _))); try lia; vm_compute; reflexivity.
Defined.

(** ** vma_malloc *)

Lemma pool_frame m m' fl l :
  pool m fl l → agree_on m m' fl (sizeof_page * Z.of_nat (length l)) → pool m' fl l.
Proof. intros [H1 H2 H3 H4] Hag. constructor; try done. by eapply pages_at_agree. Qed.

Lemma first_fit_next l i q :
  runs_ok l → first_fit l 1 i → l !! S i = Some q → is_free q = true → first_fit (mark l i 1) 1 (S i).
Proof.
  intros Hr Hff Hq Hf. pose proof (lookup_lt_Some _ _ _ Hq). split.
  - exists q. rewrite lookup_mark by lia. rewrite decide_False by lia. split; [done|].
    apply fits_true. split; [done|]. by eapply Hr.
  - intros j r Hj Hr'. rewrite lookup_mark in Hr' by lia. case_decide; simplify_eq; [done|].
    destruct Hff as [_ Hmin]. apply (Hmin j); [lia|done].
Qed.

(** The memory after the first [vma_malloc] of an address space. *)
Lemma vma_malloc_first fuel m fl l pm i :
  pool m fl l → first_fit l 1 i → (i < fuel)%nat →
  0 <= pm → pm + 16 < 2 ^ 31 → load64 m (pm + 8) = 0 →
  disj pm 16 fl (sizeof_page * Z.of_nat (length l)) → disj pm 16 (PAGE_SIZE * Z.of_nat i) PAGE_SIZE →
  ∃ m1, vma_malloc fuel fl m (VADDR pm) = Some (VADDR (PAGE_SIZE * Z.of_nat i), m1) ∧
    pool m1 fl (mark l i 1) ∧ load64 m1 (pm + 8) = VADDR (PAGE_SIZE * Z.of_nat i) ∧
    (∀ o, 0 <= o <= 4088 → load64 m1 (PAGE_SIZE * Z.of_nat i + o) = 0).
Proof.
  intros Hp Hff Hi H0 H1 Hz Hd1 Hd2. pose proof (first_fit_lt _ _ _ Hff) as Hlt.
  destruct (kmalloc_ok fuel m fl l 64 i Hp) as (m' & E & Hpost); change (npages 64) with 1%nat in *; try done; try lia.
  pose proof (pool_geometry _ _ _ Hp) as (G1 & G2 & G3).
  unfold vma_malloc. rewrite !phys_VADDR by lia. rewrite Hz. simpl negb. cbn iota.
  unfold sizeof_vma. rewrite E. cbn [mbind option_bind].
  set (v := VADDR (PAGE_SIZE * Z.of_nat i)).
  set (m1 := store 4 _ pm _). exists m1. split; [done|].
  assert (Hag : ∀ a k, disj pm 16 a k → agree_on m' m1 a k).
  { intros a k Hak. unfold m1, disj in *. eapply agree_on_trans; apply store_agree; lia. }
  split_and!.
  - eapply pool_frame; [apply Hpost|]. apply Hag. by rewrite length_mark.
  - unfold m1, load64. rewrite load_store_ne by lia. fold (load64 (store64 m' (pm + 8) v) (pm + 8)).
    rewrite load64_store64_eq. apply u64_small, u64_range.
  - intros o Ho. unfold load64. rewrite (load_agree 8 m' m1).
    + apply load_zeros. intros b Hb. apply Hpost. unfold in_block, PAGE_SIZE in *. lia.
    + apply Hag. unfold disj, PAGE_SIZE in *. lia.
Qed.

(** [vma + sizeof(struct vm_area_struct)] advances by 64 structures, so the
    second [vma_malloc] of an address space returns the address one page above
    the page that was allocated for the list; that page is still free, and the
    next [kmalloc(1)] hands out the very same address. *)
Theorem vma_malloc_second_is_unallocated fuel m fl l pm i q :
  pool m fl l → first_fit l 1 i → l !! S i = Some q → is_free q = true → (S i < fuel)%nat →
  0 <= pm → pm + 16 < 2 ^ 31 → load64 m (pm + 8) = 0 →
  disj pm 16 fl (sizeof_page * Z.of_nat (length l)) → disj pm 16 (PAGE_SIZE * Z.of_nat i) PAGE_SIZE →
  ∃ m1 m2 m3,
    vma_malloc fuel fl m (VADDR pm) = Some (VADDR (PAGE_SIZE * Z.of_nat i), m1) ∧
    vma_malloc fuel fl m1 (VADDR pm) = Some (VADDR (PAGE_SIZE * Z.of_nat (S i)), m2) ∧
    kmalloc fuel fl m2 1 = Some (VADDR (PAGE_SIZE * Z.of_nat (S i)), m3).
Proof.
  intros Hp Hff Hq Hqf Hfu H0 H1 Hz Hd1 Hd2.
  destruct (vma_malloc_first fuel m fl l pm i) as (m1 & E1 & Hp1 & Hmm & Hzero); try done; try lia.
  pose proof (pool_geometry _ _ _ Hp) as (G1 & G2 & G3). pose proof (lookup_lt_Some _ _ _ Hq) as Hlt.
  set (b := PAGE_SIZE * Z.of_nat i) in *. unfold PAGE_SIZE in b, G3.
  assert (Hvp : phys (VADDR b) = b) by (apply phys_VADDR; unfold b; lia).
  assert (Enx : vm_next m1 (VADDR b) = 0) by (unfold vm_next; rewrite Hvp; apply Hzero; lia).
  set (v' := VADDR (PAGE_SIZE * Z.of_nat (S i))).
  assert (Ev : u64 (VADDR b + sizeof_vma * sizeof_vma) = v').
  { unfold v', VADDR, sizeof_vma, b, PAGE_SIZE, u64, KERNEL_VADDR. lia. }
  set (m1' := store64 m1 (b + 56) v').
  set (m2 := store 4 m1' pm (load 4 m1' pm + 1)).
  assert (E2 : vma_malloc fuel fl m1 (VADDR pm) = Some (v', m2)).
  { unfold vma_malloc. rewrite !phys_VADDR by lia. rewrite Hmm.
    destruct (Z.eqb_spec (VADDR b) 0) as [Ez|_]; [exfalso; eapply VADDR_nonzero; [|exact Ez]; unfold b; lia|].
    simpl negb. cbn iota. destruct fuel as [|f]; [lia|]. cbn [vma_last]. rewrite Enx. simpl (0 =? 0). cbn iota.
    cbn [mbind option_bind]. rewrite Hvp, Ev. fold m1' m2. do 2 f_equal.
    unfold vm_next, m2. rewrite Hvp. unfold load64.
    rewrite load_store_ne by (unfold disj, PAGE_SIZE, b in *; lia).
    fold (load64 m1' (b + 56)). unfold m1'. rewrite load64_store64_eq. apply u64_small, u64_range. }
  assert (Hpi : fl + sizeof_page * Z.of_nat (length l) <= b ∨ b + 4096 <= fl).
  { destruct Hff as [(p & Hpi & [Hpf _]%fits_true) _].
    pose proof (pool_array _ _ _ Hp _ _ Hpi Hpf). unfold b, PAGE_SIZE in *. lia. }
  assert (Hp2 : pool m2 fl (mark l i 1)).
  { eapply pool_frame; [exact Hp1|]. rewrite length_mark. unfold m2, m1'.
    eapply agree_on_trans; apply store_agree; unfold disj in *; lia. }
  destruct (kmalloc_ok fuel m2 fl (mark l i 1) 1 (S i) Hp2) as (m3 & E3 & _);
    rewrite ?npages_1, ?length_mark; try lia.
  { eapply first_fit_next; [apply Hp|done..]. }
  eauto 6.
Qed.

Lemma vma_malloc_second_is_unallocated_witness :
  ∃ m1 m2 m3,
    vma_malloc 5 4096 boot_mem (VADDR 0) = Some (VADDR (PAGE_SIZE * Z.of_nat 3), m1) ∧
    vma_malloc 5 4096 m1 (VADDR 0) = Some (VADDR (PAGE_SIZE * Z.of_nat 4), m2) ∧
    kmalloc 5 4096 m2 1 = Some (VADDR (PAGE_SIZE * Z.of_nat 4), m3).
Proof.
  apply (vma_malloc_second_is_unallocated 5 boot_mem 4096 boot_pages 0 3 (Page 0 396 0) boot_pool boot_first_fit);
    try lia; try (vm_compute; reflexivity).
  - left. vm_compute. discriminate.
  - left. vm_compute. discriminate.
Defined.
