(* ===== verification/Paging.v ===== *)
(** * Paging: the page tables, src/sys/paging.c

    [init_map_virt_phys_addr] walks and extends the four-level tables in
    physical memory, asking the page-frame allocator (through [PageSource]) for
    the tables it lacks.  The specification is [translate], what the processor
    does with the tables; the theorems say which translations a mapping adds,
    and that it changes no other.  The invariant [wf] says that the tables form
    a tree: [T] names the table page at every path of indices. *)
From S2P Require Import Prelude Memory PageSource.

(** ** Constants and macros of src/include/sys/paging.h *)

Definition ENTRIES_PER_PTE : Z := 512.
Definition RW_KERNEL_FLAGS : Z := 3.
Definition RW_USER_FLAGS : Z := 7.
Definition PAGE_TABLE_INDEX (x : Z) : Z := Z.land (Z.shiftr x 12) 0x1ff.
Definition PAGE_DIR_INDEX (x : Z) : Z := Z.land (Z.shiftr x 21) 0x1ff.
Definition PAGE_PDP_INDEX (x : Z) : Z := Z.land (Z.shiftr x 30) 0x1ff.
Definition PAGE_PML4_INDEX (x : Z) : Z := Z.land (Z.shiftr x 39) 0x1ff.
Definition IS_PRESENT_PAGE (e : Z) : bool := negb (Z.land e 1 =? 0).
Definition IS_PAGE_WRITABLE (e : Z) : bool := negb (Z.land e 2 =? 0).

(** [e >> 12 << 12] *)
Definition frame (e : Z) : Z := u64 (Z.shiftl (Z.shiftr e 12) 12).

(** Reading and writing [table[off]] through a pointer to the table. *)
Definition pt_get (m : mem) (table off : Z) : Z := load64 m (phys (table +64 8 * off)).
Definition pt_set (m : mem) (table off v : Z) : mem := store64 m (phys (table +64 8 * off)) v.

(** ** What the processor does with the tables *)

(** The physical frame that virtual address [va] translates to under the
    tables at physical [cr3]; the frame field of an entry is bits 12 to 51. *)
Definition hw_frame (e : Z) : Z := Z.land e 0x000FFFFFFFFFF000.
Definition entry (m : mem) (t i : Z) : Z := load64 m (t + 8 * i).
Definition hw_step (m : mem) (t i : Z) : option Z :=
  if IS_PRESENT_PAGE (entry m t i) then Some (hw_frame (entry m t i)) else None.
Definition translate (m : mem) (cr3 va : Z) : option Z :=
  t ← hw_step m cr3 (PAGE_PML4_INDEX va);
  t ← hw_step m t (PAGE_PDP_INDEX va);
  t ← hw_step m t (PAGE_DIR_INDEX va);
  hw_step m t (PAGE_TABLE_INDEX va).

(** ** The operations *)

(** Kernel entries of the upper tables are followed through the identity
    window before paging is switched on, user ones through the other. *)
Definition window (access p : Z) : Z := if access =? 1 then VADDR p else p.
Definition rw_flags (access : Z) : Z := if access =? 1 then RW_USER_FLAGS else RW_KERNEL_FLAGS.

Section Operations.
Context {P : PageSource}.

(** The three functions below differ in the level of the parent only. *)
Definition alloc_table (m : mem) (parent off access : Z) : option (Z * mem) :=
  '(v, m) ← (if access =? 1 then kmalloc1 m else kmalloc_init1 m);
  let table := PADDR v in
  let m := pt_set m parent off (Z.lor table (rw_flags access)) in
  Some (VADDR table, m).

Definition alloc_pte (m : mem) (pde_table pde_off access : Z) : option (Z * mem) :=
  alloc_table m pde_table pde_off access.
Definition alloc_pde (m : mem) (pdpe_table pdpe_off access : Z) : option (Z * mem) :=
  alloc_table m pdpe_table pdpe_off access.
Definition alloc_pdpe (m : mem) (pml4_table pml4_off access : Z) : option (Z * mem) :=
  alloc_table m pml4_table pml4_off access.

(** The first half of [init_map_virt_phys_addr]: find or make the page table;
    answers [pde_table] and [pte_table]. *)
Definition find_pte_table (m : mem) (vaddr pml4_table access : Z) : option (Z * Z * mem) :=
  let pde_off := PAGE_DIR_INDEX vaddr in
  let pdpe_off := PAGE_PDP_INDEX vaddr in
  let pml4_off := PAGE_PML4_INDEX vaddr in
  let phys_addr := pt_get m pml4_table pml4_off in
  if IS_PRESENT_PAGE phys_addr then
    let pdpe_table := window access (frame phys_addr) in
    let phys_addr := pt_get m pdpe_table pdpe_off in
    if IS_PRESENT_PAGE phys_addr then
      let pde_table := window access (frame phys_addr) in
      let phys_addr := pt_get m pde_table pde_off in
      if IS_PRESENT_PAGE phys_addr then
        Some (pde_table, VADDR (frame phys_addr), m)
      else
        '(pte_table, m) ← alloc_pte m pde_table pde_off access;
        Some (pde_table, pte_table, m)
    else
      '(pde_table, m) ← alloc_pde m pdpe_table pdpe_off access;
      '(pte_table, m) ← alloc_pte m pde_table pde_off access;
      Some (pde_table, pte_table, m)
  else
    '(pdpe_table, m) ← alloc_pdpe m pml4_table pml4_off access;
    '(pde_table, m) ← alloc_pde m pdpe_table pdpe_off access;
    '(pte_table, m) ← alloc_pte m pde_table pde_off access;
    Some (pde_table, pte_table, m).

(** [for (i = ...; ...; i++) { pte_table[i] = ...; phys_addr += PAGE_SIZE; }] *)
Fixpoint fill (n : nat) (m : mem) (pte_table i phys_addr flags : Z) : mem :=
  match n with
  | O => m
  | S n' =>
      fill n' (pt_set m pte_table i (Z.lor phys_addr flags)) pte_table (i + 1)
        (phys_addr +64 PAGE_SIZE) flags
  end.

(** The loop over whole tables, [j] counting up from 1. *)
Fixpoint fill_tables (n : nat) (m : mem) (pde_table pde_off j phys_addr access : Z)
    : option (Z * Z * mem) :=
  match n with
  | O => Some (j, phys_addr, m)
  | S n' =>
      '(pte_table, m) ← alloc_pte m pde_table (i32 (pde_off + j)) access;
      let m := fill (Z.to_nat ENTRIES_PER_PTE) m pte_table 0 phys_addr (rw_flags access) in
      fill_tables n' m pde_table pde_off (j + 1) (phys_addr +64 ENTRIES_PER_PTE * PAGE_SIZE) access
  end.

(** The aligned address that the user loop of the first branch stores. *)
Definition first_phys (access paddr : Z) : Z := if access =? 1 then frame paddr else paddr.

Definition init_map_virt_phys_addr (m : mem) (vaddr paddr no_of_pages pml4_table access : Z)
    : option mem :=
  let pte_off := PAGE_TABLE_INDEX vaddr in
  let pde_off := PAGE_DIR_INDEX vaddr in
  '(pde_table, pte_table, m) ← find_pte_table m vaddr pml4_table access;
  if no_of_pages +64 pte_off <=? ENTRIES_PER_PTE then
    Some (fill (Z.to_nat no_of_pages) m pte_table pte_off (first_phys access paddr) (rw_flags access))
  else
    let lno_of_pages := i32 no_of_pages in
    let n0 := ENTRIES_PER_PTE - pte_off in
    let m := fill (Z.to_nat n0) m pte_table pte_off paddr (rw_flags access) in
    let phys_addr := paddr +64 n0 * PAGE_SIZE in
    let lno_of_pages := i32 (lno_of_pages - n0) in
    let no_of_pte_t := Z.quot lno_of_pages ENTRIES_PER_PTE in
    '(j, phys_addr, m) ← fill_tables (Z.to_nat (u64 no_of_pte_t)) m pde_table pde_off 1 phys_addr access;
    let lno_of_pages := i32 (lno_of_pages - ENTRIES_PER_PTE * pte_off) in
    '(pte_table, m) ← alloc_pte m pde_table (i32 (pde_off + j)) access;
    Some (fill (Z.to_nat (u64 lno_of_pages)) m pte_table 0 phys_addr (rw_flags access)).

(** The globals of paging.c and the register %cr3 that [init_paging] sets. *)
Record paging_state := PagingState { ker_cr3 : Z; ker_pml4_t : Z; cr3 : Z; topVAddr : Z }.

Definition set_highest_virtaddr (st : paging_state) (addr : Z) : paging_state :=
  PagingState (ker_cr3 st) (ker_pml4_t st) (cr3 st) addr.
Definition get_highest_virtaddr (st : paging_state) : Z := topVAddr st.
Definition LOAD_CR3 (st : paging_state) (addr : Z) : paging_state :=
  PagingState (ker_cr3 st) (ker_pml4_t st) addr (topVAddr st).

Definition init_paging (m : mem) (st : paging_state) (kernmem physbase num_pages : Z)
    : option (paging_state * mem) :=
  '(v, m) ← kmalloc_init1 m;
  let cr3_page := PADDR v in
  let pml4_t := VADDR cr3_page in
  let st := PagingState cr3_page pml4_t (cr3 st) (topVAddr st) in
  m ← init_map_virt_phys_addr m 0 0 num_pages pml4_t 0;
  m ← init_map_virt_phys_addr m kernmem physbase (num_pages -64 physbase / PAGE_SIZE +64 1) pml4_t 0;
  m ← init_map_virt_phys_addr m 0xFFFFFFFF800B8000 0xB8000 1 pml4_t 0;
  let st := LOAD_CR3 st cr3_page in
  let st := set_highest_virtaddr st (kernmem +64 num_pages *64 PAGE_SIZE) in
  Some (st, m).
End Operations.

(** ** The page-fault report *)

(** What [handle_page_fault] prints; it has no other effect. *)
Inductive fault_report :=
  | AboveKernel
  | PEntry (p_entry vaddr : Z)
  | Entry (pte_e paddr : Z)
  | SegmentationFault.

(** The address of an entry in a recursive mapping at the top of memory, and what
    is printed on the way. *)
Definition fetch_pte_entry (vaddr : Z) : Z * list fault_report :=
  let p_entry := u64 (Z.shiftl (Z.shiftr (u64 (Z.shiftl vaddr 16)) 28) 3) in
  (Z.lor p_entry 0xFFFFFF0000000000, [PEntry p_entry vaddr]).

Definition handle_page_fault (addr err_code : Z) : list fault_report :=
  if KERNEL_VADDR <=? addr then [AboveKernel]
  else if negb (Z.land err_code 1 =? 0) then
    let '(pte_e, printed) := fetch_pte_entry addr in
    let paddr := Z.land pte_e 0x000FFFFFFFFFF000 in
    printed ++ Entry pte_e paddr :: (if IS_PAGE_WRITABLE pte_e then [SegmentationFault] else [])
  else [].

(** [-1] as a 64-bit value. *)
Definition NOT_MAPPED : Z := 2 ^ 64 - 1.

(** [walk_page_table] with the value of the register %cr3; it does not test
    the present bit of the last entry. *)
Definition walk_page_table (m : mem) (cr3 vaddr : Z) : Z :=
  let pml4b := VADDR cr3 in
  let phys_addr := pt_get m pml4b (PAGE_PML4_INDEX vaddr) in
  if IS_PRESENT_PAGE phys_addr then
    let pdpe_table := VADDR (frame phys_addr) in
    let phys_addr := pt_get m pdpe_table (PAGE_PDP_INDEX vaddr) in
    if IS_PRESENT_PAGE phys_addr then
      let pde_table := VADDR (frame phys_addr) in
      let phys_addr := pt_get m pde_table (PAGE_DIR_INDEX vaddr) in
      if IS_PRESENT_PAGE phys_addr then
        let pte_table := VADDR (frame phys_addr) in
        frame (pt_get m pte_table (PAGE_TABLE_INDEX vaddr))
      else NOT_MAPPED
    else NOT_MAPPED
  else NOT_MAPPED.

(** ** Entries *)

Lemma index_range x k : 0 <= Z.land (Z.shiftr x k) 0x1ff < 512.
Proof. change 0x1ff with (2 ^ 9 - 1). rewrite land_ones_mod by done. lia. Qed.

Lemma PAGE_TABLE_INDEX_range x : 0 <= PAGE_TABLE_INDEX x < 512.
Proof. apply index_range. Qed.
Lemma PAGE_DIR_INDEX_range x : 0 <= PAGE_DIR_INDEX x < 512.
Proof. apply index_range. Qed.
Lemma PAGE_PDP_INDEX_range x : 0 <= PAGE_PDP_INDEX x < 512.
Proof. apply index_range. Qed.
Lemma PAGE_PML4_INDEX_range x : 0 <= PAGE_PML4_INDEX x < 512.
Proof. apply index_range. Qed.

#[export] Hint Resolve PAGE_TABLE_INDEX_range PAGE_DIR_INDEX_range PAGE_PDP_INDEX_range
  PAGE_PML4_INDEX_range : kmem.

Lemma frame_small e : 0 <= e < 2 ^ 64 → frame e = e - e mod 4096.
Proof.
  intros H. unfold frame. rewrite shiftr_shiftl_align by done.
  change (2 ^ 12) with 4096. apply u64_small. lia.
Qed.

Lemma hw_frame_small e : 0 <= e < 2 ^ 52 → hw_frame e = e - e mod 4096.
Proof.
  intros H. change 4096 with (2 ^ 12). rewrite <- shiftr_shiftl_align by done. unfold hw_frame.
  change 0x000FFFFFFFFFF000 with (Z.shiftl (Z.ones 40) 12).
  apply Z.bits_inj'. intros n Hn. rewrite Z.land_spec.
  destruct (Z.lt_ge_cases n 12).
  { rewrite !Z.shiftl_spec_low by done. apply andb_false_r. }
  rewrite !Z.shiftl_spec by lia. rewrite Z.shiftr_spec, Z.testbit_ones_nonneg by lia.
  replace (n - 12 + 12) with n by lia. destruct (Z.ltb_spec (n - 12) 40); [apply andb_true_r|].
  rewrite andb_false_r, <- (Z.mod_small e (2 ^ 52)), Z.mod_pow2_bits_high by lia. done.
Qed.

(** An entry made of a page address and flags with the present bit. *)
Lemma entry_of_page p f :
  0 <= p < 2 ^ 52 → p mod 4096 = 0 → f = RW_USER_FLAGS ∨ f = RW_KERNEL_FLAGS →
  IS_PRESENT_PAGE (Z.lor p f) = true ∧ hw_frame (Z.lor p f) = p ∧ frame (Z.lor p f) = p ∧
  u64 (Z.lor p f) = Z.lor p f ∧ Z.lor p f < 2 ^ 52.
Proof.
  intros Hp Ha Hf. assert (0 <= f < 4096 ∧ f mod 2 = 1) as [Hr Ho]
    by (destruct Hf as [-> | ->]; split; done).
  rewrite (lor_disjoint_add p f 12) by done. change (2 ^ 12) with 4096 in *.
  split_and!.
  - unfold IS_PRESENT_PAGE. rewrite testbit0_odd_add by lia. by rewrite Ho.
  - rewrite hw_frame_small; lia.
  - rewrite frame_small; lia.
  - apply u64_small. lia.
  - lia.
Qed.

Lemma rw_flags_cases access : rw_flags access = RW_USER_FLAGS ∨ rw_flags access = RW_KERNEL_FLAGS.
Proof. unfold rw_flags. case_match; auto. Qed.

(** A pointer [tp] to the table at physical page [t]. *)
Definition points_to (tp t : Z) : Prop := ∀ i, 0 <= i < 512 → phys (tp +64 8 * i) = t + 8 * i.

Lemma points_to_VADDR t : 0 <= t → t + PAGE_SIZE <= 2 ^ 31 → points_to (VADDR t) t.
Proof.
  unfold PAGE_SIZE. intros H0 H1 i Hi. unfold VADDR.
  replace (u64 (u64 (KERNEL_VADDR + t) + 8 * i)) with (VADDR (t + 8 * i)).
  - apply phys_VADDR. lia.
  - unfold VADDR, KERNEL_VADDR, u64. lia.
Qed.

Lemma points_to_window access t :
  0 <= t → t + PAGE_SIZE <= 2 ^ 31 → points_to (window access t) t.
Proof.
  intros H0 H1. unfold window. case_match; [by apply points_to_VADDR|].
  unfold PAGE_SIZE in *. intros i Hi. rewrite u64_small by lia. apply phys_low. lia.
Qed.

Lemma pt_get_entry m tp t i : points_to tp t → 0 <= i < 512 → pt_get m tp i = entry m t i.
Proof. intros Hp Hi. unfold pt_get, entry. by rewrite Hp. Qed.

Lemma pt_set_entry m tp t i v : points_to tp t → 0 <= i < 512 → pt_set m tp i v = store64 m (t + 8 * i) v.
Proof. intros Hp Hi. unfold pt_set. by rewrite Hp. Qed.

Lemma entry_range m t i : 0 <= entry m t i < 2 ^ 64.
Proof. apply load64_range. Qed.

Lemma entry_agree m m' t i : agree_on m m' (t + 8 * i) 8 → entry m' t i = entry m t i.
Proof. intros H. unfold entry, load64. by apply load_agree. Qed.

(** ** The tree of tables *)

Section Tree.
Context {P : PageSource} {L : PageSourceLaws P}.

(** [T] gives the physical page of the table at every path of indices from the
    root; paths of length 3 are page tables. *)
Record wf (g : ghost) (m : mem) (root : Z) (T : gmap (list Z) Z) : Prop := {
  wf_inv : ps_inv g m;
  wf_root : T !! [] = Some root;
  wf_page : ∀ π t, T !! π = Some t →
    t mod PAGE_SIZE = 0 ∧ 0 <= t ∧ t + PAGE_SIZE <= 2 ^ 31 ∧ ¬ ps_free g t ∧
    ∀ b, in_page t b → ¬ ps_private b;
  wf_inj : ∀ π π' t, T !! π = Some t → T !! π' = Some t → π = π';
  wf_parent : ∀ π i, is_Some (T !! (π ++ [i])) → is_Some (T !! π);
  wf_child : ∀ π t i, T !! π = Some t → (length π < 3)%nat → 0 <= i < 512 →
    T !! (π ++ [i]) = if IS_PRESENT_PAGE (entry m t i) then Some (frame (entry m t i)) else None;
  (** no entry uses the bits above the frame field *)
  wf_small : ∀ π t i, T !! π = Some t → 0 <= i < 512 → entry m t i < 2 ^ 52;
}.

(** The translation recorded at index [i] of the page table at path [π]. *)
Definition leaf (m : mem) (T : gmap (list Z) Z) (π : list Z) (i : Z) : option Z :=
  t ← T !! π; hw_step m t i.

Definition path (va : Z) : list Z := [PAGE_PML4_INDEX va; PAGE_PDP_INDEX va; PAGE_DIR_INDEX va].

Lemma wf_hw_step g m root T π t i :
  wf g m root T → T !! π = Some t → (length π < 3)%nat → 0 <= i < 512 →
  hw_step m t i = T !! (π ++ [i]).
Proof.
  intros Hwf Ht Hl Hi. pose proof (wf_child _ _ _ _ Hwf π t i Ht Hl Hi) as Hc.
  unfold hw_step. rewrite Hc. case_match eqn:E; [|done]. f_equal.
  destruct (wf_page _ _ _ _ Hwf _ _ Hc) as (H1 & H2 & H3 & _).
  pose proof (entry_range m t i) as Hr. rewrite frame_small in H3 |- * by done. rewrite hw_frame_small; [done|].
  unfold PAGE_SIZE in *. lia.
Qed.

(** Under the invariant the processor's walk is the lookup of the path. *)
Lemma translate_leaf g m root T va :
  wf g m root T → translate m root va = leaf m T (path va) (PAGE_TABLE_INDEX va).
Proof.
  intros Hwf. unfold translate, leaf, path.
  rewrite (wf_hw_step g m root T []) by (done || apply Hwf || auto with kmem). cbn [app].
  destruct (T !! [_]) as [t1|] eqn:E1; cbn [mbind option_bind].
  - rewrite (wf_hw_step g m root T _ t1 _ Hwf E1) by (simpl; lia || auto with kmem). cbn [app].
    destruct (T !! [_; _]) as [t2|] eqn:E2; cbn [mbind option_bind].
    + rewrite (wf_hw_step g m root T _ t2 _ Hwf E2) by (simpl; lia || auto with kmem). done.
    + destruct (T !! [_; _; _]) eqn:E3; [|done].
      destruct (wf_parent _ _ _ _ Hwf [PAGE_PML4_INDEX va; PAGE_PDP_INDEX va] (PAGE_DIR_INDEX va)) as [? ?];
        [eauto|congruence].
  - destruct (T !! [_; _; _]) eqn:E3; [|done].
    destruct (wf_parent _ _ _ _ Hwf [PAGE_PML4_INDEX va; PAGE_PDP_INDEX va] (PAGE_DIR_INDEX va)) as [? ?]; [eauto|].
    destruct (wf_parent _ _ _ _ Hwf [PAGE_PML4_INDEX va] (PAGE_PDP_INDEX va)) as [? ?]; [eauto|congruence].
Qed.

(** Distinct table pages do not overlap. *)
Lemma pages_apart a b :
  a mod PAGE_SIZE = 0 → b mod PAGE_SIZE = 0 → a ≠ b → disj a PAGE_SIZE b PAGE_SIZE.
Proof. unfold PAGE_SIZE, disj. lia. Qed.

Lemma entry_store_other m t i v t' j :
  t mod PAGE_SIZE = 0 → t' mod PAGE_SIZE = 0 → 0 <= i < 512 → 0 <= j < 512 → (t ≠ t' ∨ i ≠ j) →
  entry (store64 m (t + 8 * i) v) t' j = entry m t' j.
Proof.
  intros H1 H2 Hi Hj Hne. unfold entry. apply load64_store64_ne.
  destruct (decide (t = t')) as [->|Hd]; [lia|].
  pose proof (pages_apart _ _ H1 H2 Hd). unfold disj, PAGE_SIZE in *. lia.
Qed.

Lemma entry_store_same m t i v : entry (store64 m (t + 8 * i) v) t i = u64 v.
Proof. apply load64_store64_eq. Qed.

(** Writing in a table page does not disturb the allocator. *)
Lemma wf_store_inv g m root T π t i v :
  wf g m root T → T !! π = Some t → 0 <= i < 512 → ps_inv g (store64 m (t + 8 * i) v).
Proof.
  intros Hwf Ht Hi. destruct (wf_page _ _ _ _ Hwf _ _ Ht) as (_ & _ & _ & _ & Hpr).
  eapply ps_stable; [apply Hwf|]. intros b Hb. apply (store_agree 8 m _ _ b 1); [|lia].
  destruct (decide (in_page t b)) as [Hin|Hin]; [by apply Hpr in Hin|].
  unfold in_page, PAGE_SIZE in Hin. lia.
Qed.

(** ** One new table *)

(** [extends k]: the tables grew, at most [k] pages were taken, and no
    translation changed. *)
Record extends (k : nat) (root : Z) (g : ghost) (m : mem) (T : gmap (list Z) Z)
    (g' : ghost) (m' : mem) (T' : gmap (list Z) Z) : Prop := {
  ext_wf : wf g' m' root T';
  ext_sub : T ⊆ T';
  ext_leaf : ∀ π i, length π = 3%nat → 0 <= i < 512 → leaf m' T' π i = leaf m T π i;
  ext_new : ∀ π t, T' !! π = Some t → T !! π = Some t ∨ ps_free g t;
  ext_free : ∀ p, ps_free g' p → ps_free g p;
  ext_frame : ∀ b, ¬ ps_private b → (∀ π t, T' !! π = Some t → ¬ in_page t b) → rd m' b = rd m b;
  ext_avail : (ps_avail g <= k + ps_avail g')%nat;
}.

Lemma extends_refl root g m T : wf g m root T → extends 0 root g m T g m T.
Proof. constructor; auto. Qed.

Lemma extends_trans j k root g1 m1 T1 g2 m2 T2 g3 m3 T3 :
  extends j root g1 m1 T1 g2 m2 T2 → extends k root g2 m2 T2 g3 m3 T3 →
  extends (j + k) root g1 m1 T1 g3 m3 T3.
Proof.
  intros [A1 A2 A3 N1 A4 A5 A6] [B1 B2 B3 N2 B4 B5 B6]. constructor; [done|by etrans|..|lia].
  - intros π i Hl Hi. by rewrite B3, A3.
  - intros π t [Hs|Hf]%N2; [by apply N1|right; eauto].
  - eauto.
  - intros b Hb Ho. rewrite B5, A5 by (done || eauto using lookup_weaken). done.
Qed.

Lemma extends_weaken j k root g1 m1 T1 g2 m2 T2 :
  extends j root g1 m1 T1 g2 m2 T2 → (j <= k)%nat → extends k root g1 m1 T1 g2 m2 T2.
Proof. intros [A1 A2 A3 N1 A4 A5 A6] H. constructor; [done..|lia]. Qed.

(** The pages of the tables are untouched by the grant of another page. *)
Lemma granted_entry g m root T p g' m1 π t i :
  wf g m root T → page_granted ps_inv ps_free ps_private ps_avail g m p g' m1 →
  T !! π = Some t → 0 <= i < 512 → t ≠ p ∧ entry m1 t i = entry m t i.
Proof.
  intros Hwf Hg Ht Hi. destruct (wf_page _ _ _ _ Hwf _ _ Ht) as (H1 & H2 & H3 & H4 & H5).
  pose proof (pg_free _ _ _ _ _ _ _ _ _ Hg) as Hfree.
  destruct (ps_free_page _ _ _ (wf_inv _ _ _ _ Hwf) Hfree) as (F1 & _).
  assert (t ≠ p) as Hne by (intros ->; done). split; [done|].
  apply entry_agree. intros b Hb. apply Hg; [|apply H5; unfold in_page, PAGE_SIZE; lia].
  pose proof (pages_apart _ _ H1 F1 Hne). unfold disj, in_page, PAGE_SIZE in *. lia.
Qed.

Lemma granted_zero g m p g' m1 i :
  page_granted ps_inv ps_free ps_private ps_avail g m p g' m1 → 0 <= i < 512 → entry m1 p i = 0.
Proof.
  intros Hg Hi. apply load_zeros. intros b Hb. apply Hg. unfold in_page, PAGE_SIZE. lia.
Qed.

(** The memory after a fresh page [p] was linked at index [i] of table [t]. *)
Record linked (root : Z) (g : ghost) (m : mem) (T : gmap (list Z) Z) (π : list Z) (t i p : Z)
    (g' : ghost) (m' : mem) : Prop := {
  ln_wf : wf g m root T;
  ln_parent : T !! π = Some t;
  ln_short : (length π < 3)%nat;
  ln_index : 0 <= i < 512;
  ln_none : T !! (π ++ [i]) = None;
  ln_inv : ps_inv g' m';
  ln_page : p mod PAGE_SIZE = 0 ∧ 0 <= p ∧ p + PAGE_SIZE <= 2 ^ 31 ∧ ∀ b, in_page p b → ¬ ps_private b;
  ln_fresh : ∀ σ t', T !! σ = Some t' → t' ≠ p;
  ln_taken : ∀ q, ps_free g' q ↔ ps_free g q ∧ q ≠ p;
  ln_zero : ∀ j, 0 <= j < 512 → entry m' p j = 0;
  ln_link : IS_PRESENT_PAGE (entry m' t i) = true ∧ frame (entry m' t i) = p ∧ entry m' t i < 2 ^ 52;
  ln_other : ∀ σ t' j, T !! σ = Some t' → 0 <= j < 512 → (σ ≠ π ∨ j ≠ i) → entry m' t' j = entry m t' j;
}.

Lemma linked_wf root g m T π t i p g' m' :
  linked root g m T π t i p g' m' → wf g' m' root (<[π ++ [i] := p]> T).
Proof.
  intros [Hwf Hπ Hl Hi Hn Hinv Hpg Hfr Htk Hz (Hl1 & Hl2 & Hl3) Ho]. constructor; [done|..].
  - rewrite lookup_insert_ne by (by destruct π). apply Hwf.
  - intros σ t' [[<- <-]|[_ Hσ]]%lookup_insert_Some.
    + destruct Hpg as (? & ? & ? & ?). split_and!; [done..| |done]. rewrite Htk. tauto.
    + destruct (wf_page _ _ _ _ Hwf _ _ Hσ) as (? & ? & ? & ? & ?). split_and!; [done..| |done].
      rewrite Htk. tauto.
  - intros σ σ' t' [[<- <-]|[_ H1]]%lookup_insert_Some [[<- E]|[_ H2]]%lookup_insert_Some; [done|..].
    + by destruct (Hfr _ _ H2).
    + subst. by destruct (Hfr _ _ H1).
    + by eapply Hwf.
  - intros σ j Hs. rewrite lookup_insert_is_Some. destruct (decide (π ++ [i] = σ)); [by left|right].
    split; [done|]. rewrite lookup_insert_is_Some in Hs. destruct Hs as [Hs|[_ Hs]].
    + apply app_inj_tail in Hs as [<- _]. eauto.
    + by eapply wf_parent.
  - intros σ t' j [[<- <-]|[Hne Hσ]]%lookup_insert_Some Hls Hj.
    + rewrite Hz by done. rewrite lookup_insert_ne by (intros E%(f_equal length); rewrite !length_app in E; simpl in E; lia).
      simpl. apply eq_None_not_Some. intros Hs%(wf_parent _ _ _ _ Hwf). rewrite Hn in Hs. by destruct Hs.
    + destruct (decide (σ = π ∧ j = i)) as [[-> ->]|Hd].
      * rewrite Hπ in Hσ. injection Hσ as <-. by rewrite Hl1, Hl2, lookup_insert_eq.
      * rewrite lookup_insert_ne by (by intros [-> ->]%app_inj_tail; apply Hd).
        rewrite (Ho σ) by (done || destruct (decide (σ = π)); subst; tauto). by apply Hwf.
  - intros σ t' j [[<- <-]|[_ Hσ]]%lookup_insert_Some Hj; [by rewrite Hz|].
    destruct (decide (σ = π ∧ j = i)) as [[-> ->]|Hd]; [congruence|].
    rewrite (Ho σ) by (done || destruct (decide (σ = π)); subst; tauto). by eapply wf_small.
Qed.

Lemma linked_leaf root g m T π t i p g' m' σ j :
  linked root g m T π t i p g' m' → length σ = 3%nat → 0 <= j < 512 →
  leaf m' (<[π ++ [i] := p]> T) σ j = leaf m T σ j.
Proof.
  intros [Hwf Hπ Hl Hi Hn Hinv Hpg Hfr Htk Hz Hl1 Ho] Hσ Hj. unfold leaf.
  destruct (decide (π ++ [i] = σ)) as [<-|Hne].
  - rewrite lookup_insert_eq, Hn. simpl. unfold hw_step. by rewrite Hz.
  - rewrite lookup_insert_ne by done. destruct (T !! σ) as [t'|] eqn:E; [|done]. simpl.
    unfold hw_step. rewrite (Ho σ) by (done || left; intros ->; lia). done.
Qed.

Lemma alloc_table_extends g m root T π t tp i access :
  wf g m root T → T !! π = Some t → (length π < 3)%nat → 0 <= i < 512 → points_to tp t →
  IS_PRESENT_PAGE (entry m t i) = false → (0 < ps_avail g)%nat →
  ∃ p g' m', alloc_table m tp i access = Some (VADDR p, m') ∧
    extends 1 root g m T g' m' (<[π ++ [i] := p]> T).
Proof.
  intros Hwf Ht Hl Hi Htp Hnp Hav.
  assert (∃ p g' m1, (if access =? 1 then kmalloc1 m else kmalloc_init1 m) = Some (VADDR p, m1) ∧
    page_granted ps_inv ps_free ps_private ps_avail g m p g' m1) as (p & g' & m1 & E & Hg).
  { case_match; [apply ps_kmalloc|apply ps_kmalloc_init]; try done; apply Hwf. }
  pose proof (pg_free _ _ _ _ _ _ _ _ _ Hg) as Hfree.
  pose proof (ps_free_page _ _ _ (wf_inv _ _ _ _ Hwf) Hfree) as Hpg. pose proof Hpg as (F1 & F2 & F3 & F4).
  destruct (wf_page _ _ _ _ Hwf _ _ Ht) as (T1 & T2 & T3 & T4 & T5).
  destruct (granted_entry _ _ _ _ _ _ _ π t i Hwf Hg Ht Hi) as [Hne _].
  unfold PAGE_SIZE in F3, T3.
  destruct (entry_of_page p (rw_flags access)) as (L1 & L2 & L3 & L4 & L5); [lia|done|apply rw_flags_cases|].
  set (m' := store64 m1 (t + 8 * i) (Z.lor p (rw_flags access))).
  assert (Hln : linked root g m T π t i p g' m').
  { constructor; try done.
    - rewrite (wf_child _ _ _ _ Hwf _ _ _ Ht Hl Hi). by rewrite Hnp.
    - eapply ps_stable; [apply Hg|]. intros b Hb. apply (store_agree 8 m1 _ _ b 1); [|lia].
      destruct (decide (in_page t b)) as [Hin|Hin]; [by apply T5 in Hin|]. unfold in_page, PAGE_SIZE in Hin. lia.
    - intros σ t' Hσ. by eapply (granted_entry _ _ _ _ _ _ _ σ t' 0).
    - apply Hg.
    - intros j Hj. unfold m'. rewrite entry_store_other by (done || by left). by eapply granted_zero.
    - unfold m'. rewrite entry_store_same, L4. done.
    - intros σ t' j Hσ Hj Hd. destruct (wf_page _ _ _ _ Hwf _ _ Hσ) as (S1 & _).
      unfold m'. rewrite entry_store_other; try done.
      + by eapply (granted_entry _ _ _ _ _ _ _ σ t' j).
      + destruct (decide (t = t')) as [<-|]; [|by left]. right.
        pose proof (wf_inj _ _ _ _ Hwf _ _ _ Ht Hσ). subst. destruct Hd; [done|]. done. }
  exists p, g', m'. split.
  - unfold alloc_table. rewrite E. cbn [mbind option_bind]. rewrite PADDR_VADDR by lia.
    by rewrite (pt_set_entry _ _ t).
  - constructor; [by eapply linked_wf|by apply insert_subseteq, Hln|..|apply Hg].
    + intros σ j Hσ Hj. by eapply linked_leaf.
    + intros σ t' [[_ <-]|[_ Hσ]]%lookup_insert_Some; auto.
    + intros q. rewrite (ln_taken _ _ _ _ _ _ _ _ _ _ Hln). tauto.
    + intros b Hb Ho. pose proof (Ho (π ++ [i]) p (lookup_insert_eq _ _ _)) as Hbp.
      assert (¬ in_page t b) as Hbt.
      { apply (Ho π). rewrite lookup_insert_ne; [done|]. intros Hc%(f_equal length).
        rewrite length_app in Hc. simpl in Hc. lia. }
      etrans; [apply (store_agree 8 m1 _ _ b 1); unfold in_page, PAGE_SIZE in Hbt; lia|].
      by apply Hg.
Qed.

Lemma wf_points_to g m root T π t access :
  wf g m root T → T !! π = Some t → points_to (window access t) t ∧ points_to (VADDR t) t.
Proof.
  intros Hwf Ht. destruct (wf_page _ _ _ _ Hwf _ _ Ht) as (_ & ? & ? & _).
  split; [by apply points_to_window|by apply points_to_VADDR].
Qed.

Lemma wf_present_child g m root T π t i :
  wf g m root T → T !! π = Some t → (length π < 3)%nat → 0 <= i < 512 →
  IS_PRESENT_PAGE (entry m t i) = true → T !! (π ++ [i]) = Some (frame (entry m t i)).
Proof. intros Hwf Ht Hl Hi Hp. rewrite (wf_child _ _ _ _ Hwf _ _ _ Ht Hl Hi). by rewrite Hp. Qed.

(** A table just linked by [alloc_table] is empty: nothing below it is present. *)
Lemma wf_fresh_child g m root T π t i :
  wf g m root T → T !! π = Some t → (length π < 3)%nat → 0 <= i < 512 →
  T !! (π ++ [i]) = None → IS_PRESENT_PAGE (entry m t i) = false.
Proof.
  intros Hwf Ht Hl Hi Hn. rewrite (wf_child _ _ _ _ Hwf _ _ _ Ht Hl Hi) in Hn. by case_match.
Qed.

(** The tables of [va] found or made, from the page directory pointer on. *)
Lemma alloc_chain2 g m root T π t tp i j access :
  wf g m root T → T !! π = Some t → (length π < 2)%nat → 0 <= i < 512 → 0 <= j < 512 → points_to tp t →
  IS_PRESENT_PAGE (entry m t i) = false → (2 <= ps_avail g)%nat →
  ∃ p1 p2 g' m1 m2 T', alloc_table m tp i access = Some (VADDR p1, m1) ∧
    alloc_table m1 (VADDR p1) j access = Some (VADDR p2, m2) ∧
    extends 2 root g m T g' m2 T' ∧ T' !! (π ++ [i]) = Some p1 ∧ T' !! (π ++ [i; j]) = Some p2.
Proof.
  intros Hwf Ht Hl Hi Hj Htp Hnp Hav.
  destruct (alloc_table_extends g m root T π t tp i access) as (p1 & g1 & m1 & E1 & X1); try done; try lia.
  pose proof (ext_wf _ _ _ _ _ _ _ _ X1) as W1. pose proof (ext_avail _ _ _ _ _ _ _ _ X1) as A1.
  assert (T !! ((π ++ [i]) ++ [j]) = None) as Hn.
  { apply eq_None_not_Some. intros Hs%(wf_parent _ _ _ _ Hwf).
    rewrite (wf_child _ _ _ _ Hwf _ _ _ Ht ltac:(lia) Hi), Hnp in Hs. by destruct Hs. }
  assert (Hlen : length (π ++ [i]) = S (length π)) by (rewrite length_app; simpl; lia).
  destruct (alloc_table_extends g1 m1 root _ (π ++ [i]) p1 (VADDR p1) j access W1) as (p2 & g2 & m2 & E2 & X2);
    [apply lookup_insert_eq|lia|done|by eapply (wf_points_to _ _ _ _ _ _ 1 W1), lookup_insert_eq| |lia|].
  { eapply wf_fresh_child; [exact W1|apply lookup_insert_eq|lia|done|].
    rewrite lookup_insert_ne; [done|]. intros Hc%(f_equal length). rewrite !length_app in Hc. simpl in Hc. lia. }
  exists p1, p2, g2, m1, m2, (<[(π ++ [i]) ++ [j] := p2]> (<[π ++ [i] := p1]> T)).
  split_and!; [done..|by eapply (extends_trans 1 1)| |].
  - eapply lookup_weaken; [|apply X2]. apply lookup_insert_eq.
  - replace (π ++ [i; j]) with ((π ++ [i]) ++ [j]) by (by rewrite <- app_assoc). apply lookup_insert_eq.
Qed.

(** [find_pte_table] gives pointers to the page directory and the page table of
    [va], extending the tree by the tables that were missing. *)
Lemma find_pte_table_spec g m root T va access :
  wf g m root T → (3 <= ps_avail g)%nat →
  ∃ g' m' T' pdt d t, find_pte_table m va (VADDR root) access = Some (pdt, VADDR t, m') ∧
    extends 3 root g m T g' m' T' ∧
    T' !! [PAGE_PML4_INDEX va; PAGE_PDP_INDEX va] = Some d ∧ points_to pdt d ∧
    T' !! path va = Some t.
Proof.
  intros Hwf Hav. pose proof (wf_root _ _ _ _ Hwf) as Hr. unfold find_pte_table, path, alloc_pdpe, alloc_pde, alloc_pte.
  pose proof (PAGE_PML4_INDEX_range va) as I4. pose proof (PAGE_PDP_INDEX_range va) as I3.
  pose proof (PAGE_DIR_INDEX_range va) as I2.
  set (i4 := PAGE_PML4_INDEX va) in *. set (i3 := PAGE_PDP_INDEX va) in *. set (i2 := PAGE_DIR_INDEX va) in *.
  destruct (wf_points_to _ _ _ _ _ _ access Hwf Hr) as [_ Pr].
  rewrite (pt_get_entry m _ root) by done.
  destruct (IS_PRESENT_PAGE (entry m root i4)) eqn:E4.
  2: { destruct (alloc_table_extends g m root T [] root (VADDR root) i4 access)
         as (p1 & g1 & m1 & -> & X1); try done; try (simpl; lia).
       pose proof (ext_wf _ _ _ _ _ _ _ _ X1) as W1. pose proof (ext_avail _ _ _ _ _ _ _ _ X1) as A1.
       destruct (alloc_chain2 g1 m1 root _ [i4] p1 (VADDR p1) i3 i2 access W1)
         as (p2 & p3 & g2 & m2 & m3 & T' & E2 & E3 & X2 & L2 & L3);
         [apply lookup_insert_eq|simpl; lia|done|done|by eapply (wf_points_to _ _ _ _ _ _ 1 W1), lookup_insert_eq| |lia|].
       { eapply wf_fresh_child; [exact W1|apply lookup_insert_eq|simpl; lia|done|].
         rewrite lookup_insert_ne by done. apply eq_None_not_Some. intros Hs%(wf_parent _ _ _ _ Hwf).
         rewrite (wf_child _ _ _ _ Hwf [] root i4 Hr), E4 in Hs by (simpl; lia). by destruct Hs. }
       cbn [mbind option_bind]. rewrite E2. cbn [mbind option_bind].
       rewrite E3. cbn [mbind option_bind]. exists g2, m3, T', (VADDR p2), p2, p3.
       split_and!; [done|by eapply (extends_trans 1 2)|done| |done].
       by eapply (wf_points_to _ _ _ _ _ _ 1 (ext_wf _ _ _ _ _ _ _ _ X2)). }
  pose proof (wf_present_child _ _ _ _ [] root i4 Hwf Hr ltac:(simpl; lia) I4 E4) as L4. cbn [app] in L4.
  set (t4 := frame (entry m root i4)) in *.
  destruct (wf_points_to _ _ _ _ _ _ access Hwf L4) as [P4 _]. rewrite (pt_get_entry m _ t4) by done.
  destruct (IS_PRESENT_PAGE (entry m t4 i3)) eqn:E3.
  2: { destruct (alloc_chain2 g m root T [i4] t4 (window access t4) i3 i2 access)
         as (p2 & p3 & g2 & m2 & m3 & T' & E2' & E3' & X2 & L2 & L3); try done; try (simpl; lia).
       rewrite E2'. cbn [mbind option_bind]. rewrite E3'. cbn [mbind option_bind].
       exists g2, m3, T', (VADDR p2), p2, p3. split_and!; [done|eapply extends_weaken; [done|lia]|done| |done].
       by eapply (wf_points_to _ _ _ _ _ _ 1 (ext_wf _ _ _ _ _ _ _ _ X2)). }
  pose proof (wf_present_child _ _ _ _ [i4] t4 i3 Hwf L4 ltac:(simpl; lia) I3 E3) as L3. cbn [app] in L3.
  set (t3 := frame (entry m t4 i3)) in *.
  destruct (wf_points_to _ _ _ _ _ _ access Hwf L3) as [P3 _]. rewrite (pt_get_entry m _ t3) by done.
  destruct (IS_PRESENT_PAGE (entry m t3 i2)) eqn:E2.
  - exists g, m, T, (window access t3), t3, (frame (entry m t3 i2)).
    split_and!; [done|eapply extends_weaken; [by apply extends_refl|lia]|done..|].
    by apply (wf_present_child _ _ _ _ [i4; i3] t3 i2 Hwf L3 ltac:(simpl; lia) I2 E2).
  - destruct (alloc_table_extends g m root T [i4; i3] t3 (window access t3) i2 access)
      as (p & g' & m' & E & X); try done; try (simpl; lia).
    rewrite E. cbn [mbind option_bind].
    exists g', m', (<[[i4; i3] ++ [i2] := p]> T), (window access t3), t3, p.
    split_and!; [done|eapply extends_weaken; [done|lia]|by rewrite lookup_insert_ne|done|apply lookup_insert_eq].
Qed.

(** ** Filling a page table *)

(** Writing an entry of a page table changes that translation only. *)
Lemma leaf_store g m root T π t i v :
  wf g m root T → T !! π = Some t → length π = 3%nat → 0 <= i < 512 → u64 v < 2 ^ 52 →
  let m' := store64 m (t + 8 * i) v in
  wf g m' root T ∧
  ∀ σ j, 0 <= j < 512 → leaf m' T σ j =
    if decide (σ = π ∧ j = i) then (if IS_PRESENT_PAGE (u64 v) then Some (hw_frame (u64 v)) else None)
    else leaf m T σ j.
Proof.
  intros Hwf Ht Hl Hi Hv m'. destruct (wf_page _ _ _ _ Hwf _ _ Ht) as (T1 & _).
  assert (Ho : ∀ σ t' j, T !! σ = Some t' → 0 <= j < 512 → ¬ (σ = π ∧ j = i) → entry m' t' j = entry m t' j).
  { intros σ t' j Hσ Hj Hd. destruct (wf_page _ _ _ _ Hwf _ _ Hσ) as (S1 & _).
    apply entry_store_other; try done. destruct (decide (t = t')) as [<-|]; [|by left]. right.
    pose proof (wf_inj _ _ _ _ Hwf _ _ _ Ht Hσ). subst. intros ->. by apply Hd. }
  split.
  - pose proof (wf_store_inv _ _ _ _ _ _ _ v Hwf Ht Hi) as Hinv. destruct Hwf as [W1 W2 W3 W4 W5 W6 W7].
    constructor; try done.
    + intros σ t' j Hσ Hls Hj. rewrite (Ho σ) by (done || intros [-> _]; lia). by apply W6.
    + intros σ t' j Hσ Hj. destruct (decide (σ = π ∧ j = i)) as [[-> ->]|Hd].
      * rewrite Ht in Hσ. injection Hσ as <-. unfold m'. by rewrite entry_store_same.
      * rewrite (Ho σ) by done. by eapply W7.
  - intros σ j Hj. unfold leaf. case_decide as Hd.
    + destruct Hd as [-> ->]. rewrite Ht. cbn [mbind option_bind]. unfold hw_step, m'. by rewrite entry_store_same.
    + destruct (T !! σ) as [t'|] eqn:E; [|done]. cbn [mbind option_bind]. unfold hw_step.
      by rewrite (Ho σ).
Qed.

Lemma fill_spec n : ∀ g m root T π t off pa access,
  wf g m root T → T !! π = Some t → length π = 3%nat →
  0 <= off → off + Z.of_nat n <= 512 → 0 <= pa → pa + 4096 * Z.of_nat n < 2 ^ 52 → pa mod 4096 = 0 →
  let m' := fill n m (VADDR t) off pa (rw_flags access) in
  wf g m' root T ∧
  (∀ σ j, 0 <= j < 512 → leaf m' T σ j =
    if decide (σ = π ∧ off <= j < off + Z.of_nat n) then Some (pa + 4096 * (j - off)) else leaf m T σ j) ∧
  (∀ b, ¬ in_page t b → rd m' b = rd m b).
Proof.
  induction n as [|n IH]; intros g m root T π t off pa access Hwf Ht Hl Ho Hon Hpa Hpn Hal; cbn [fill].
  { split_and!; [done| |done]. intros σ j Hj. case_decide; [lia|done]. }
  destruct (wf_points_to _ _ _ _ _ _ 1 Hwf Ht) as [_ Hpt]. rewrite (pt_set_entry _ _ t) by (done || lia).
  destruct (entry_of_page pa (rw_flags access)) as (L1 & L2 & _ & L4 & L5); [lia|done|apply rw_flags_cases|].
  destruct (leaf_store g m root T π t off (Z.lor pa (rw_flags access)) Hwf Ht Hl ltac:(lia) ltac:(lia)) as [Hwf1 Hlf].
  set (m1 := store64 m _ _) in *. unfold PAGE_SIZE. rewrite u64_small by lia.
  destruct (IH g m1 root T π t (off + 1) (pa + 4096) access) as (H1 & H2 & H3); try done; try lia.
  split_and!; [done|..].
  - intros σ j Hj. rewrite H2, Hlf, L4, L1, L2 by done.
    clear IH Hlf H2. repeat case_decide; intuition (lia || (f_equal; lia)).
  - intros b Hb. rewrite H3 by done. apply (store_agree 8 m _ _ b 1); [|lia].
    unfold in_page, PAGE_SIZE in Hb. lia.
Qed.

(** ** What a mapping does *)

(** [maps k va n pa]: the [n] pages from [va] (in one page table) translate to
    [pa], [pa + 4096], ..., every other translation is as before, at most [k]
    pages were taken, and only table pages and the allocator were written. *)
Record maps (k : nat) (va n pa root : Z) (g : ghost) (m : mem) (T : gmap (list Z) Z)
    (g' : ghost) (m' : mem) (T' : gmap (list Z) Z) : Prop := {
  maps_wf : wf g' m' root T';
  maps_sub : T ⊆ T';
  maps_translate : ∀ va', translate m' root va' =
    if decide (path va' = path va ∧ PAGE_TABLE_INDEX va <= PAGE_TABLE_INDEX va' < PAGE_TABLE_INDEX va + n)
    then Some (pa + PAGE_SIZE * (PAGE_TABLE_INDEX va' - PAGE_TABLE_INDEX va))
    else translate m root va';
  maps_new : ∀ π t, T' !! π = Some t → T !! π = Some t ∨ ps_free g t;
  maps_free : ∀ p, ps_free g' p → ps_free g p;
  maps_frame : ∀ b, ¬ ps_private b → (∀ π t, T' !! π = Some t → ¬ in_page t b) → rd m' b = rd m b;
  maps_avail : (ps_avail g <= k + ps_avail g')%nat;
}.

Lemma first_phys_aligned access pa :
  0 <= pa < 2 ^ 52 → (access ≠ 1 → pa mod PAGE_SIZE = 0) →
  0 <= first_phys access pa <= pa ∧ first_phys access pa mod 4096 = 0.
Proof.
  intros Hp Ha. unfold first_phys. destruct (Z.eqb_spec access 1) as [->|Hne].
  - rewrite frame_small; lia.
  - specialize (Ha Hne). unfold PAGE_SIZE in Ha. lia.
Qed.

Lemma init_map_spec g m root T va pa n access :
  wf g m root T → (3 <= ps_avail g)%nat →
  0 <= n → n + PAGE_TABLE_INDEX va <= ENTRIES_PER_PTE →
  0 <= pa → pa + PAGE_SIZE * n < 2 ^ 52 → (access ≠ 1 → pa mod PAGE_SIZE = 0) →
  ∃ g' m' T', init_map_virt_phys_addr m va pa n (VADDR root) access = Some m' ∧
    maps 3 va n (first_phys access pa) root g m T g' m' T'.
Proof.
  intros Hwf Hav Hn Hfit Hpa Hpn Hal. pose proof (PAGE_TABLE_INDEX_range va) as I1.
  unfold ENTRIES_PER_PTE, PAGE_SIZE in *.
  destruct (find_pte_table_spec g m root T va access Hwf Hav) as (g' & m1 & T' & pdt & d & t & E & X & _ & _ & Ht).
  destruct X as [X1 X2 X3 XN X4 X5 X6].
  unfold init_map_virt_phys_addr. rewrite E. cbn [mbind option_bind].
  rewrite u64_small by lia. unfold ENTRIES_PER_PTE. destruct (Z.leb_spec (n + PAGE_TABLE_INDEX va) 512); [|lia].
  destruct (first_phys_aligned access pa) as [F1 F2]; [lia|done|].
  destruct (fill_spec (Z.to_nat n) g' m1 root T' (path va) t (PAGE_TABLE_INDEX va) (first_phys access pa) access)
    as (W & Lf & Fr); try done; try lia.
  eexists g', _, T'. split; [done|]. constructor; try done.
  - intros va'. rewrite (translate_leaf g' _ root T') by done.
    rewrite (translate_leaf g m root T) by done. pose proof (PAGE_TABLE_INDEX_range va').
    rewrite Lf by done. rewrite Z2Nat.id by lia. unfold PAGE_SIZE. case_decide; [done|]. by apply X3.
  - intros b Hb Ho. rewrite Fr by (by eapply Ho). by apply X5.
Qed.

(** [walk_page_table] reads the frame of the last entry whether or not it is
    present; on mapped addresses it agrees with the processor. *)
Lemma walk_page_table_spec g m root T va :
  wf g m root T →
  match T !! path va with
  | Some t => walk_page_table m root va = frame (entry m t (PAGE_TABLE_INDEX va))
  | None => walk_page_table m root va = NOT_MAPPED ∧ translate m root va = None
  end.
Proof.
  intros Hwf. rewrite (translate_leaf _ _ _ _ _ Hwf). unfold walk_page_table, leaf, path.
  pose proof (wf_root _ _ _ _ Hwf) as Hr.
  assert (Hstep : ∀ π t i, T !! π = Some t → (length π < 3)%nat → 0 <= i < 512 →
    pt_get m (VADDR t) i = entry m t i ∧
    T !! (π ++ [i]) = if IS_PRESENT_PAGE (entry m t i) then Some (frame (entry m t i)) else None).
  { intros π t i Ht Hl Hi. split; [|by apply Hwf]. apply pt_get_entry; [|done].
    by eapply (wf_points_to _ _ _ _ _ _ 1 Hwf). }
  destruct (Hstep [] root (PAGE_PML4_INDEX va) Hr) as [-> C4]; [simpl; lia|auto with kmem|]. cbn [app] in C4.
  destruct (IS_PRESENT_PAGE (entry m root _)).
  2: { destruct (T !! [_; _; _]) eqn:E3; [|done].
       destruct (wf_parent _ _ _ _ Hwf [PAGE_PML4_INDEX va; PAGE_PDP_INDEX va] (PAGE_DIR_INDEX va)) as [? ?]; [eauto|].
       destruct (wf_parent _ _ _ _ Hwf [PAGE_PML4_INDEX va] (PAGE_PDP_INDEX va)) as [? ?]; [eauto|congruence]. }
  destruct (Hstep _ _ (PAGE_PDP_INDEX va) C4) as [-> C3]; [simpl; lia|auto with kmem|]. cbn [app] in C3.
  destruct (IS_PRESENT_PAGE (entry m (frame _) _)).
  2: { destruct (T !! [_; _; _]) eqn:E3; [|done].
       destruct (wf_parent _ _ _ _ Hwf [PAGE_PML4_INDEX va; PAGE_PDP_INDEX va] (PAGE_DIR_INDEX va)) as [? ?];
         [eauto|congruence]. }
  destruct (Hstep _ _ (PAGE_DIR_INDEX va) C3) as [-> C2]; [simpl; lia|auto with kmem|]. cbn [app] in C2.
  destruct (IS_PRESENT_PAGE (entry m (frame (entry m _ _)) _)); rewrite C2; [|done].
  f_equal. apply pt_get_entry; [by eapply (wf_points_to _ _ _ _ _ _ 1 Hwf)|auto with kmem].
Qed.

(** A page fresh from the allocator is an empty address space. *)
Lemma wf_fresh_root g m p g' m' :
  ps_inv g m → page_granted ps_inv ps_free ps_private ps_avail g m p g' m' →
  wf g' m' p {[ [] := p ]}.
Proof.
  intros Hinv Hg. destruct (ps_free_page _ _ _ Hinv (pg_free _ _ _ _ _ _ _ _ _ Hg)) as (F1 & F2 & F3 & F4).
  constructor; [apply Hg|by rewrite lookup_singleton_eq|..].
  - intros π t [<- <-]%lookup_singleton_Some. split_and!; try done.
    rewrite (pg_taken _ _ _ _ _ _ _ _ _ Hg). tauto.
  - by intros π π' t [<- _]%lookup_singleton_Some [<- _]%lookup_singleton_Some.
  - intros π i [t [E _]%lookup_singleton_Some]. by destruct π.
  - intros π t i [<- <-]%lookup_singleton_Some _ Hi. rewrite (granted_zero _ _ _ _ _ _ Hg) by done.
    by rewrite lookup_singleton_ne.
  - intros π t i [<- <-]%lookup_singleton_Some Hi. by rewrite (granted_zero _ _ _ _ _ _ Hg).
Qed.

(** ** Filling past the end of a table *)

Lemma phys_entry_ptr t i : 0 <= t → 0 <= i → t + 8 * i < 2 ^ 31 → phys (VADDR t +64 8 * i) = t + 8 * i.
Proof.
  intros H0 Hi H1. replace (VADDR t +64 8 * i) with (VADDR (t + 8 * i)); [apply phys_VADDR; lia|].
  unfold VADDR, KERNEL_VADDR, u64. lia.
Qed.

(** The loop writes one entry after the other, wherever they fall. *)
Lemma fill_bytes n : ∀ m t off pa flags,
  0 <= t → 0 <= off → t + 8 * (off + Z.of_nat n) <= 2 ^ 31 →
  let m' := fill n m (VADDR t) off pa flags in
  (∀ b, b < t + 8 * off ∨ t + 8 * (off + Z.of_nat n) <= b → rd m' b = rd m b) ∧
  (∀ k : nat, (k < n)%nat → 0 <= pa → pa + 4096 * Z.of_nat n < 2 ^ 64 →
     load64 m' (t + 8 * (off + Z.of_nat k)) = u64 (Z.lor (pa + 4096 * Z.of_nat k) flags)).
Proof.
  induction n as [|n IH]; intros m t off pa flags H0 Ho H1; cbn [fill]; [split; [done|lia]|].
  unfold pt_set. rewrite phys_entry_ptr by lia. set (m1 := store64 m _ _). unfold PAGE_SIZE.
  destruct (IH m1 t (off + 1) (pa +64 4096) flags) as [A B]; [lia..|]. split.
  - intros b Hb. rewrite A by lia. apply (store_agree 8 m _ _ b 1); lia.
  - intros [|k] Hk Hp Hpn.
    + replace (off + Z.of_nat 0) with off by lia. rewrite Z.mul_0_r, Z.add_0_r.
      transitivity (load64 m1 (t + 8 * off)); [|apply load64_store64_eq].
      apply load_agree. intros b Hb. apply A. lia.
    + rewrite u64_small in B |- * by lia.
      replace (off + Z.of_nat (S k)) with (off + 1 + Z.of_nat k) by lia. rewrite B by lia. do 2 f_equal. lia.
Qed.

(** Making [n] more tables under the page directory [d]. *)
Lemma fill_tables_spec n : ∀ g m pdt d pde_off j pa access,
  ps_inv g m → points_to pdt d → (∀ b, in_page d b → ¬ ps_private b) → (n <= ps_avail g)%nat →
  0 <= pde_off → 0 <= j → pde_off + j + Z.of_nat n <= 512 → 0 <= pa →
  pa + 512 * 4096 * Z.of_nat n < 2 ^ 64 →
  ∃ g' m', fill_tables n m pdt pde_off j pa access =
      Some (j + Z.of_nat n, pa + 512 * 4096 * Z.of_nat n, m') ∧
    ps_inv g' m' ∧ (∀ q, ps_free g' q → ps_free g q) ∧ (ps_avail g <= n + ps_avail g')%nat.
Proof.
  induction n as [|n IH]; intros g m pdt d pde_off j pa access Hinv Hpt Hpr Hav Ho Hj Hn Hpa Hpn; cbn [fill_tables].
  { exists g, m. replace (j + Z.of_nat 0) with j by lia. rewrite Z.mul_0_r, Z.add_0_r. auto with lia. }
  assert (∃ p g' m1, (if access =? 1 then kmalloc1 m else kmalloc_init1 m) = Some (VADDR p, m1) ∧
    page_granted ps_inv ps_free ps_private ps_avail g m p g' m1) as (p & g1 & m1 & E & Hg).
  { case_match; [apply ps_kmalloc|apply ps_kmalloc_init]; done || lia. }
  destruct (ps_free_page _ _ _ Hinv (pg_free _ _ _ _ _ _ _ _ _ Hg)) as (F1 & F2 & F3 & F4).
  unfold PAGE_SIZE in F3. unfold alloc_pte, alloc_table. rewrite E. cbn [mbind option_bind].
  rewrite PADDR_VADDR by lia. rewrite (i32_small (pde_off + j)) by lia.
  rewrite (pt_set_entry _ _ d) by (done || lia). set (m2 := store64 m1 _ _).
  change (Z.to_nat ENTRIES_PER_PTE) with 512%nat.
  destruct (fill_bytes 512 m2 p 0 pa (rw_flags access)) as [Hb _]; [lia..|].
  assert (Hi2 : ps_inv g1 (fill 512 m2 (VADDR p) 0 pa (rw_flags access))).
  { eapply ps_stable; [apply Hg|]. intros b Hbp. etrans; [apply Hb|].
    - destruct (decide (in_page p b)) as [Hin|Hin]; [by apply F4 in Hin|].
      unfold in_page, PAGE_SIZE in Hin. lia.
    - apply (store_agree 8 m1 _ _ b 1); [|lia].
      destruct (decide (in_page d b)) as [Hin|Hin]; [by apply Hpr in Hin|]. unfold in_page, PAGE_SIZE in Hin. lia. }
  pose proof (pg_avail _ _ _ _ _ _ _ _ _ Hg). unfold ENTRIES_PER_PTE, PAGE_SIZE in *. rewrite (u64_small (pa + 512 * 4096)) by lia.
  destruct (IH g1 _ pdt d pde_off (j + 1) (pa + 512 * 4096) access Hi2) as (g' & m' & E' & I1 & I2 & I3); try done; try lia.
  exists g', m'. split_and!; [etrans; [exact E'|]; do 3 f_equal; lia|done| |lia].
  intros q Hq%I2. by apply (pg_taken _ _ _ _ _ _ _ _ _ Hg) in Hq as [? _].
Qed.
End Tree.
