(* ===== verification/Region.v ===== *)
(** * Region: allocating and mapping memory, region_alloc and kmalloc_stack

    The two routines of src/sys/mem.c that take pages from the allocator and
    map them.  [region_alloc] is verified against the interface of the
    allocator and the theorems on the page tables. *)
From S2P Require Import Prelude Memory Utils PageSource Mem Paging.

(** ** region_alloc *)

Section Region.
Context {P : PageSource}.

(** The loop [for (v = start; v < end; v += PAGE_SIZE)]. *)
Fixpoint region_loop (fuel : nat) (m : mem) (pml4 v end_ : Z) : option mem :=
  match fuel with
  | O => None
  | S f =>
      if v <? end_ then
        '(addr, m) ← kmalloc1 m;
        m ← init_map_virt_phys_addr m v (PADDR addr) 1 pml4 1;
        region_loop f m pml4 (v +64 PAGE_SIZE) end_
      else Some m
  end.

(** [pml4] is the [pml4] field of the process. *)
Definition region_alloc (fuel : nat) (m : mem) (pml4 va size : Z) : option mem :=
  let start := get_starting_page va in
  let end_ := get_ending_page (va +64 size) in
  region_loop fuel m pml4 start end_.
End Region.

(** ** kmalloc_stack *)

(** The initial value of the static [bumpPtr], which is never changed. *)
Definition bumpPtr : Z := 0xFFFFF0F080700000.

(** The search and marking are those of [kmalloc]; the block is then mapped at
    [bumpPtr] plus its physical address, one page of it. *)
Definition kmalloc_stack (fuel : nat) (free_list : Z) (m : mem) (size pml4e : Z) : option (Z * mem) :=
  '(r, m) ← kmalloc_loop VADDR fuel m (pages_of_size size) (VADDR free_list) 0;
  match r with
  | None => Some (0, m)
  | Some ret =>
      m ← init_map_virt_phys_addr (P := mem_page_source fuel free_list) m (bumpPtr +64 ret) ret 1 pml4e 1;
      Some (bumpPtr +64 ret, m)
  end.

(** ** Virtual pages and their indices *)

Lemma index_div_mod x k : 0 <= k → Z.land (Z.shiftr x k) 0x1ff = (x / 2 ^ k) mod 512.
Proof. intros. change 0x1ff with (2 ^ 9 - 1). rewrite land_ones_mod by done. by rewrite Z.shiftr_div_pow2. Qed.

(** The indices are the base-512 digits of the page number. *)
Lemma indices_digits va :
  PAGE_TABLE_INDEX va = (va / 4096) mod 512 ∧
  path va = [(va / 4096 / 512 / 512 / 512) mod 512; (va / 4096 / 512 / 512) mod 512; (va / 4096 / 512) mod 512].
Proof.
  unfold path, PAGE_TABLE_INDEX, PAGE_DIR_INDEX, PAGE_PDP_INDEX, PAGE_PML4_INDEX.
  rewrite !index_div_mod by lia. rewrite !Z.div_div by lia. done.
Qed.

(** Below 2^48 the four indices determine the page. *)
Lemma same_page_indices va va' :
  0 <= va < 2 ^ 48 → 0 <= va' < 2 ^ 48 →
  path va' = path va ∧ PAGE_TABLE_INDEX va <= PAGE_TABLE_INDEX va' < PAGE_TABLE_INDEX va + 1 ↔
  va' / PAGE_SIZE = va / PAGE_SIZE.
Proof.
  intros H H'. destruct (indices_digits va) as [-> ->], (indices_digits va') as [-> ->]. unfold PAGE_SIZE.
  assert (0 <= va / 4096 < 2 ^ 36 ∧ 0 <= va' / 4096 < 2 ^ 36) as [Hq Hq'] by lia.
  set (q := va / 4096) in *. set (q' := va' / 4096) in *. clearbody q q'. clear va va' H H'. split.
  - intros [[= E4 E3 E2] E1]. lia.
  - intros ->. split; [done|lia].
Qed.

Section RegionSpec.
Context {P : PageSource} {L : PageSourceLaws P}.

(** What allocating the pages of [v, end_) does to an address space: each page
    gets a zeroed frame that was free, different pages get different frames,
    and every other address translates as before. *)
Record region_post (v end_ root : Z) (g : ghost) (m : mem) (T : gmap (list Z) Z)
    (g' : ghost) (m' : mem) (T' : gmap (list Z) Z) : Prop := {
  rp_wf : wf g' m' root T';
  rp_new : ∀ va, v <= va < end_ → ∃ p, translate m' root va = Some p ∧ ps_free g p ∧
    ∀ b, in_page p b → rd m' b = 0;
  rp_inj : ∀ va va' p, v <= va < end_ → v <= va' < end_ →
    translate m' root va = Some p → translate m' root va' = Some p → va / PAGE_SIZE = va' / PAGE_SIZE;
  rp_old : ∀ va, 0 <= va < 2 ^ 48 → va < v ∨ end_ <= va → translate m' root va = translate m root va;
  rp_frame : ∀ b, ¬ ps_private b → (∀ q, ps_free g q → ¬ in_page q b) →
    (∀ π t, T !! π = Some t → ¬ in_page t b) → rd m' b = rd m b;
  rp_sub : T ⊆ T';
  rp_tables : ∀ π t, T' !! π = Some t → T !! π = Some t ∨ ps_free g t;
  rp_apart : ∀ va p, v <= va < end_ → translate m' root va = Some p →
    p mod PAGE_SIZE = 0 ∧ (∀ π t, T' !! π = Some t → t ≠ p) ∧ ∀ b, in_page p b → ¬ ps_private b;
  rp_free : ∀ q, ps_free g' q → ps_free g q;
  rp_avail : (ps_avail g <= 4 * Z.to_nat ((end_ - v) / PAGE_SIZE) + ps_avail g')%nat;
  rp_taken : ∀ va p, v <= va < end_ → translate m' root va = Some p → ¬ ps_free g' p;
}.

(** A page granted by the allocator leaves the address space as it is. *)
Lemma granted_wf g m root T p g1 m1 :
  wf g m root T → page_granted ps_inv ps_free ps_private ps_avail g m p g1 m1 →
  wf g1 m1 root T ∧ ∀ va, translate m1 root va = translate m root va.
Proof.
  intros Hwf Hg. pose proof Hg as [G1 G2 G3 G4 G5 G6].
  assert (Hwf1 : wf g1 m1 root T).
  { constructor; try apply Hwf; [done|..].
    - intros π t Ht. destruct (wf_page _ _ _ _ Hwf _ _ Ht) as (? & ? & ? & ? & ?).
      split_and!; try done. rewrite G3. tauto.
    - intros π t i Ht Hl Hi. destruct (granted_entry _ _ _ _ _ _ _ π t i Hwf Hg Ht Hi) as [_ ->]. by apply Hwf.
    - intros π t i Ht Hi. destruct (granted_entry _ _ _ _ _ _ _ π t i Hwf Hg Ht Hi) as [_ ->]. by eapply wf_small. }
  split; [done|]. intros va. rewrite (translate_leaf _ _ _ _ _ Hwf1), (translate_leaf _ _ _ _ _ Hwf).
  unfold leaf, hw_step. destruct (T !! path va) as [t|] eqn:Ht; [|done]. cbn [mbind option_bind].
  by destruct (granted_entry _ _ _ _ _ _ _ _ t (PAGE_TABLE_INDEX va) Hwf Hg Ht) as [_ ->]; [auto with kmem|].
Qed.

(** One round of the loop. *)
Lemma region_step g m root T v :
  wf g m root T → (4 <= ps_avail g)%nat → 0 <= v < 2 ^ 48 →
  ∃ p g2 m1 m2 T', kmalloc1 m = Some (VADDR p, m1) ∧
    init_map_virt_phys_addr m1 v (PADDR (VADDR p)) 1 (VADDR root) 1 = Some m2 ∧
    wf g2 m2 root T' ∧ T ⊆ T' ∧ (ps_avail g <= 4 + ps_avail g2)%nat ∧
    ps_free g p ∧ ¬ ps_free g2 p ∧ (∀ π t, T' !! π = Some t → t ≠ p) ∧
    p mod PAGE_SIZE = 0 ∧ (∀ b, in_page p b → ¬ ps_private b ∧ rd m2 b = 0) ∧
    (∀ q, ps_free g2 q → ps_free g q) ∧
    (∀ π t, T' !! π = Some t → T !! π = Some t ∨ ps_free g t) ∧
    (∀ va, 0 <= va < 2 ^ 48 → translate m2 root va =
       if decide (va / PAGE_SIZE = v / PAGE_SIZE) then Some p else translate m root va) ∧
    (∀ b, ¬ ps_private b → (∀ q, ps_free g q → ¬ in_page q b) →
       (∀ π t, T !! π = Some t → ¬ in_page t b) → rd m2 b = rd m b).
Proof.
  intros Hwf Hav Hv. pose proof (wf_inv _ _ _ _ Hwf) as Hinv.
  destruct (ps_kmalloc g m Hinv) as (p & g1 & m1 & E1 & Hg); [lia|].
  destruct (granted_wf _ _ _ _ _ _ _ Hwf Hg) as [Hwf1 Htr]. pose proof Hg as [G1 G2 G3 G4 G5 G6].
  destruct (ps_free_page _ _ _ Hinv G2) as (F1 & F2 & F3 & F4).
  assert (Hp1 : ¬ ps_free g1 p) by (rewrite G3; tauto).
  pose proof (PAGE_TABLE_INDEX_range v). unfold PAGE_SIZE in F3.
  destruct (init_map_spec g1 m1 root T v p 1 1 Hwf1) as (g2 & m2 & T' & E2 & M);
    [lia|done|unfold ENTRIES_PER_PTE; lia|done|unfold PAGE_SIZE; lia|done|].
  destruct M as [M1 M2 M3 M4 M5 M6 M7].
  assert (Hpt : ∀ π t, T' !! π = Some t → t ≠ p).
  { intros π t Ht ->. destruct (M4 π p Ht) as [Ht'|]; [|done].
    by destruct (wf_page _ _ _ _ Hwf _ _ Ht') as (_ & _ & _ & ? & _). }
  assert (Hbt : ∀ b π t, in_page p b → T' !! π = Some t → ¬ in_page t b).
  { intros b π t Hb Ht. destruct (wf_page _ _ _ _ M1 _ _ Ht) as (S1 & _).
    pose proof (pages_apart _ _ S1 F1 (Hpt _ _ Ht)). unfold disj, in_page in *. lia. }
  exists p, g2, m1, m2, T'. rewrite PADDR_VADDR by lia.
  split_and!; try done; try lia; eauto.
  - intros b Hb. split; [by apply F4|]. rewrite M6; eauto.
  - intros q Hq%M5. by apply G3.
  - intros π t Ht. destruct (M4 π t Ht) as [|Hf]; [by left|right]. by apply G3.
  - intros va Hva. rewrite M3. pose proof (same_page_indices v va Hv Hva) as Hsame.
    repeat case_decide; try tauto; [f_equal|apply Htr].
    unfold first_phys. simpl (1 =? 1). cbn iota. rewrite frame_small by lia. unfold PAGE_SIZE in *. lia.
  - intros b Hb Hf Ht. rewrite M6; [apply G5; [by apply Hf|done]|done|].
    intros π t Hπ. destruct (M4 π t Hπ) as [Hπ'|Hq]; [by eapply Ht|]. apply Hf. by apply G3.
Qed.

Lemma region_loop_spec n : ∀ fuel g m root T v,
  wf g m root T → (4 * n <= ps_avail g)%nat → (n < fuel)%nat →
  v mod PAGE_SIZE = 0 → 0 <= v → v + PAGE_SIZE * Z.of_nat n <= 2 ^ 48 →
  let end_ := v + PAGE_SIZE * Z.of_nat n in
  ∃ g' m' T', region_loop fuel m (VADDR root) v end_ = Some m' ∧
    region_post v end_ root g m T g' m' T'.
Proof.
  induction n as [|n IH]; intros [|fuel] g m root T v Hwf Hav Hfu Hal H0 H1 end_; unfold end_; clear end_; try lia;
    cbn [region_loop]; unfold PAGE_SIZE in Hal, H1.
  { replace (v + PAGE_SIZE * Z.of_nat 0) with v by lia. rewrite Z.ltb_irrefl.
    exists g, m, T. split; [done|]. constructor; try done; try (by left); try lia; intros; lia. }
  destruct (Z.ltb_spec v (v + PAGE_SIZE * Z.of_nat (S n))) as [_|]; [|unfold PAGE_SIZE in *; lia].
  destruct (region_step g m root T v Hwf) as
    (p & g2 & m1 & m2 & T2 & -> & E2 & W2 & Hsub & A2 & Fp & Np & Tp & Pa & Pz & Fm & Tm & Tr & Fr); [lia|lia|].
  cbn [mbind option_bind]. rewrite E2. cbn [mbind option_bind]. unfold PAGE_SIZE at 1. rewrite u64_small by lia.
  replace (v + PAGE_SIZE * Z.of_nat (S n)) with (v + 4096 + PAGE_SIZE * Z.of_nat n) by (unfold PAGE_SIZE; lia).
  destruct (IH fuel g2 m2 root T2 (v + 4096) W2) as (g' & m' & T' & E & [R1 R2 R3 R4 R5 Rs R6 R7 R8 R9 R10]);
    try lia; try (unfold PAGE_SIZE; lia).
  exists g', m', T'. split; [done|]. unfold PAGE_SIZE in *.
  assert (Hv : ∀ va, v <= va < v + 4096 → translate m' root va = Some p).
  { intros va Hva. rewrite R4, Tr by lia. rewrite decide_True by lia. done. }
  assert (Hkeep : ∀ b, in_page p b → rd m' b = 0).
  { intros b Hb. destruct (Pz b Hb) as [Hpr Hz]. rewrite R5; try done.
    - intros q Hq Hqb. destruct (ps_free_page _ _ _ (wf_inv _ _ _ _ W2) Hq) as (Q1 & _).
      assert (q ≠ p) as Hne by (intros ->; done).
      pose proof (pages_apart q p Q1 Pa Hne). unfold disj, in_page, PAGE_SIZE in *. lia.
    - intros π t Ht Htb. destruct (wf_page _ _ _ _ W2 _ _ Ht) as (S1 & _).
      pose proof (pages_apart t p S1 Pa (Tp _ _ Ht)). unfold disj, in_page, PAGE_SIZE in *. lia. }
  assert (Hnp : ∀ va q, v + 4096 <= va < v + 4096 + 4096 * Z.of_nat n → translate m' root va = Some q → q ≠ p).
  { intros va q Hva Hq ->. destruct (R2 va Hva) as (q' & Eq & Hq' & _). congruence. }
  constructor; [done|..].
  - intros va Hva. destruct (decide (va < v + 4096)) as [Hlt|Hge]; [exists p; rewrite Hv by lia; done|].
    destruct (R2 va) as (q & Eq & Hq & Hz); [lia|]. eauto.
  - intros va va' q Hva Hva' Eq Eq'. unfold PAGE_SIZE in *.
    destruct (decide (va < v + 4096)), (decide (va' < v + 4096)); [lia| | |by apply (R3 va va' q); try lia].
    + exfalso. rewrite Hv in Eq by lia. simplify_eq. by eapply (Hnp va'); [lia|..].
    + exfalso. rewrite Hv in Eq' by lia. simplify_eq. by eapply (Hnp va); [lia|..].
  - intros va Hr Hva. rewrite R4, Tr by lia. rewrite decide_False by lia. done.
  - intros b Hb Hf Ht. rewrite R5; [by apply Fr|done|eauto|].
    intros π t Hπ. destruct (Tm π t Hπ); eauto.
  - by trans T2.
  - intros π t Ht. destruct (R6 π t Ht) as [Ht2|Hf2]; [by apply Tm|right; by apply Fm].
  - intros va q Hva Eq. destruct (decide (va < v + 4096)) as [Hlt|Hge]; [|by apply (R7 va q); try lia].
    rewrite Hv in Eq by lia. injection Eq as <-. split_and!; [done| |intros b Hb; by apply Pz].
    intros π t Ht ->. destruct (R6 π p Ht) as [Ht2|Hf2]; [by eapply Tp|done].
  - eauto.
  - unfold PAGE_SIZE in *. clear -A2 R9. lia.
  - intros va q Hva Eq. destruct (decide (va < v + 4096)) as [Hlt|Hge]; [|by apply (R10 va q); try lia].
    rewrite Hv in Eq by lia. injection Eq as <-. intros Hq%R8. done.
Qed.

Lemma page_span a b : 0 <= a <= b →
  b + (- b) mod PAGE_SIZE = a - a mod PAGE_SIZE +
  PAGE_SIZE * Z.of_nat (Z.to_nat ((b + (- b) mod PAGE_SIZE - (a - a mod PAGE_SIZE)) / PAGE_SIZE)).
Proof. intros H. unfold PAGE_SIZE. rewrite Z2Nat.id by lia. lia. Qed.

Lemma region_alloc_spec fuel g m root T va size :
  wf g m root T → 0 <= va → 0 <= size → va + size <= 2 ^ 48 - PAGE_SIZE →
  let start := va - va mod PAGE_SIZE in
  let end_ := va + size + (- (va + size)) mod PAGE_SIZE in
  let n := Z.to_nat ((end_ - start) / PAGE_SIZE) in
  (4 * n <= ps_avail g)%nat → (n < fuel)%nat →
  ∃ g' m' T', region_alloc fuel m (VADDR root) va size = Some m' ∧
    region_post start end_ root g m T g' m' T'.
Proof.
  intros Hwf Hv Hs Hb start end_ n Hav Hfu. unfold region_alloc. unfold PAGE_SIZE in Hb.
  rewrite get_starting_page_spec by lia. rewrite (u64_small (va + size)), get_ending_page_spec by lia.
  fold start end_. pose proof (page_span va (va + size) ltac:(lia)) as E. fold start end_ n in E.
  rewrite E. apply region_loop_spec; [exact Hwf|exact Hav|exact Hfu|..]; rewrite <- ?E;
    clear E Hav Hfu; subst n; unfold end_, start, PAGE_SIZE; clear start end_; lia.
Qed.
End RegionSpec.
