(* ===== verification/PagingProps.v ===== *)
(** * PagingProps: what the mapping routines guarantee

    The theorems about [Paging] and [Region], for any page source that keeps
    its laws, with the instances at the allocator of [Mem]. *)
From S2P Require Import Prelude Memory Utils PageSource Mem MemProps Paging Region.

(** ** A concrete address space

    400 pages, the allocator of [MemProps.boot_mem]; the first free page is the
    root of the tables. *)

#[export] Instance boot_source : PageSource := mem_page_source 341 4096.
#[export] Instance boot_laws : PageSourceLaws boot_source := mem_page_source_laws 341 4096 341.

Lemma boot_inv : ps_inv (PageSourceLaws := boot_laws) boot_pages boot_mem.
Proof. split; [apply boot_pool|apply length_boot_pages]. Qed.

Lemma boot_avail : ps_avail (PageSourceLaws := boot_laws) boot_pages = 338%nat.
Proof. vm_compute. done. Qed.

Lemma boot_space : ∃ g m root, wf (L := boot_laws) g m root {[ [] := root ]} ∧ (337 <= ps_avail g)%nat ∧
  (∀ p, ps_free g p → p + 4096 <= 341 * 4096) ∧ root + 4096 <= 341 * 4096.
Proof.
  destruct (ps_kmalloc_init (PageSourceLaws := boot_laws) boot_pages boot_mem boot_inv) as (p & g & m & E & Hg); [rewrite boot_avail; lia|].
  assert (Hb : ∀ q, ps_free (PageSourceLaws := boot_laws) boot_pages q → q + 4096 <= 341 * 4096).
  { intros q (i & r & -> & Hi & _). apply lookup_lt_Some in Hi. rewrite length_boot_pages in Hi. unfold PAGE_SIZE. lia. }
  exists g, m, p. split_and!; [eapply wf_fresh_root; [apply boot_inv|exact Hg]| | |apply Hb, Hg].
  - pose proof (pg_avail _ _ _ _ _ _ _ _ _ Hg) as Ha. rewrite boot_avail in Ha. lia.
  - intros q (Hq & _)%(pg_taken _ _ _ _ _ _ _ _ _ Hg). by apply Hb.
Qed.

Section Claims.
Context {P : PageSource} {L : PageSourceLaws P}.

(** C2: mapping [n] pages that stay within one page table succeeds when three
    pages are available: afterwards the processor translates those pages to
    consecutive frames from [paddr] (rounded down for user mappings), every
    other address translates as before, the tables are still a tree of disjoint
    pages, and only table pages and the allocator's bytes were written. *)
Theorem init_map_virt_phys_addr_maps g m root T va pa n access :
  wf g m root T → (3 <= ps_avail g)%nat →
  0 <= n → n + PAGE_TABLE_INDEX va <= ENTRIES_PER_PTE →
  0 <= pa → pa + PAGE_SIZE * n < 2 ^ 52 → (access ≠ 1 → pa mod PAGE_SIZE = 0) →
  ∃ g' m' T', init_map_virt_phys_addr m va pa n (VADDR root) access = Some m' ∧
    maps 3 va n (first_phys access pa) root g m T g' m' T'.
Proof. apply init_map_spec. Qed.

(** C34: [walk_page_table] returns the frame of every address the processor
    translates; it answers -1 exactly when the address has no page table, so an
    absent entry of an existing table is not reported as unmapped (the present
    bit of the last entry is not tested). *)
Theorem walk_page_table_agrees g m root T va :
  wf g m root T →
  (∀ p, translate m root va = Some p → walk_page_table m root va = p) ∧
  (walk_page_table m root va = NOT_MAPPED ↔ T !! path va = None).
Proof.
  intros Hwf. pose proof (walk_page_table_spec g m root T va Hwf) as Hw.
  rewrite (translate_leaf _ _ _ _ _ Hwf) in *. unfold leaf in *.
  destruct (T !! path va) as [t|] eqn:Ht; cbn [mbind option_bind] in *; [|split; [done|tauto]].
  pose proof (entry_range m t (PAGE_TABLE_INDEX va)) as Hr.
  pose proof (wf_small _ _ _ _ Hwf _ _ _ Ht (PAGE_TABLE_INDEX_range va)) as Hs.
  rewrite frame_small in Hw by done. split.
  - intros p. unfold hw_step. case_match; [|done]. intros [= <-]. rewrite hw_frame_small by lia. done.
  - rewrite Hw. unfold NOT_MAPPED. split; [lia|done].
Qed.

(** C11: [region_alloc] backs every page that meets [va, va+size) with its own
    zeroed frame, which was free before; different pages get different frames,
    no other user address changes its translation, and no byte outside the
    tables, the allocator and the new frames is written. *)
Theorem region_alloc_maps_fresh_pages fuel g m root T va size :
  wf g m root T → 0 <= va → 0 <= size → va + size <= 2 ^ 48 - PAGE_SIZE →
  let start := va - va mod PAGE_SIZE in
  let end_ := va + size + (- (va + size)) mod PAGE_SIZE in
  let n := Z.to_nat ((end_ - start) / PAGE_SIZE) in
  (4 * n <= ps_avail g)%nat → (n < fuel)%nat →
  ∃ g' m' T', region_alloc fuel m (VADDR root) va size = Some m' ∧
    region_post start end_ root g m T g' m' T'.
Proof. apply region_alloc_spec. Qed.

(** In the branch for more than one table the last loop runs over all the
    pages left after the first table instead of the remainder: with a start at
    the beginning of a table and more than 1024 pages it writes entries behind
    the last table, into the physical page that follows it. *)
Theorem init_map_overflows_last_table g m root T va pa n :
  wf g m root T → PAGE_TABLE_INDEX va = 0 → 1024 < n < 2 ^ 31 →
  PAGE_DIR_INDEX va + n / 512 < 512 → (4 + Z.to_nat (n / 512) <= ps_avail g)%nat →
  (∀ p, ps_free g p → p + 8 * n <= 2 ^ 31) → 0 <= pa → pa mod PAGE_SIZE = 0 → pa + 4096 * (2 * n) < 2 ^ 52 →
  ∃ m' p, init_map_virt_phys_addr m va pa n (VADDR root) 0 = Some m' ∧ ps_free g p ∧
    load64 m' (p + PAGE_SIZE) = Z.lor (pa + 4096 * (512 * (n / 512) + 512)) RW_KERNEL_FLAGS.
Proof.
  intros Hwf Hi Hn Hd Hav Hp Hpa Hal Hpn. pose proof (PAGE_DIR_INDEX_range va) as I2.
  destruct (find_pte_table_spec g m root T va 0 Hwf ltac:(lia)) as (g1 & m1 & T1 & pdt & d & t & E & X & Hpd & Hpt & Ht).
  destruct X as [W1 _ _ _ X4 _ X6].
  unfold init_map_virt_phys_addr. rewrite E. cbn [mbind option_bind]. rewrite Hi. unfold ENTRIES_PER_PTE.
  rewrite (u64_small (n + 0)) by lia. destruct (Z.leb_spec (n + 0) 512); [lia|].
  destruct (wf_page _ _ _ _ W1 _ _ Ht) as (S1 & S2 & S3 & S4 & S5). unfold PAGE_SIZE in S3.
  change (Z.to_nat (512 - 0)) with 512%nat. destruct (fill_bytes 512 m1 t 0 pa (rw_flags 0)) as [Hb _]; [lia..|].
  rewrite !(i32_small n), (i32_small (n - (512 - 0))) by lia. rewrite Z.quot_div_nonneg by lia.
  rewrite (u64_small (_ / 512)) by lia. unfold PAGE_SIZE at 1. rewrite (u64_small (pa + _)) by lia.
  set (k := Z.to_nat ((n - (512 - 0)) / 512)).
  assert (Hk : Z.of_nat k = n / 512 - 1) by (unfold k; lia).
  destruct (wf_page _ _ _ _ W1 _ _ Hpd) as (_ & _ & _ & _ & D5).
  destruct (fill_tables_spec k g1 (fill 512 m1 (VADDR t) 0 pa (rw_flags 0)) pdt d (PAGE_DIR_INDEX va) 1
    (pa + (512 - 0) * 4096) 0) as (g2 & m2 & E2 & I & F2 & A2); try done; try lia.
  { eapply ps_stable; [apply W1|]. intros b Hbp. apply Hb.
    destruct (decide (in_page t b)) as [Hin|Hin]; [by apply S5 in Hin|]. unfold in_page, PAGE_SIZE in Hin. lia. }
  rewrite E2. cbn [mbind option_bind]. rewrite (i32_small (PAGE_DIR_INDEX va + _)) by lia.
  rewrite (i32_small (n - _ - _)), (u64_small (n - _ - _)) by lia.
  destruct (ps_kmalloc_init g2 m2 I) as (p & g3 & m3 & E3 & Hg); [lia|].
  pose proof (F2 _ (pg_free _ _ _ _ _ _ _ _ _ Hg)) as Hfp. apply X4 in Hfp.
  destruct (ps_free_page _ _ _ (wf_inv _ _ _ _ Hwf) Hfp) as (P1 & P2 & P3 & _).
  unfold alloc_pte, alloc_table. change (0 =? 1) with false. cbn iota. rewrite E3. cbn [mbind option_bind].
  rewrite PADDR_VADDR by (unfold PAGE_SIZE in *; lia). eexists _, p. split; [done|]. split; [done|].
  set (m4 := pt_set m3 _ _ _). specialize (Hp p Hfp).
  destruct (fill_bytes (Z.to_nat (n - (512 - 0) - 512 * 0)) m4 p 0
    (pa + (512 - 0) * 4096 + 512 * 4096 * Z.of_nat k) (rw_flags 0)) as [_ Hl]; [lia..|].
  specialize (Hl 512%nat ltac:(lia) ltac:(lia) ltac:(lia)).
  etrans; [|etrans; [exact Hl|]]; [f_equal; unfold PAGE_SIZE; lia|].
  replace (pa + _ + _ + _) with (pa + 4096 * (512 * (n / 512) + 512)) by lia.
  apply entry_of_page; [lia| |by right]. unfold PAGE_SIZE in Hal. lia.
Qed.
End Claims.

Lemma init_map_virt_phys_addr_maps_witness :
  ∃ m root m', init_map_virt_phys_addr (P := boot_source) m 0x400000 0x7000 3 (VADDR root) 1 = Some m' ∧
    translate m' root 0x401abc = Some 0x8000.
Proof.
  destruct boot_space as (g & m & root & Hwf & Hav & _).
  destruct (init_map_virt_phys_addr_maps g m root _ 0x400000 0x7000 3 1 Hwf) as (g' & m' & T' & E & M);
    [lia|lia|vm_compute; discriminate|lia|unfold PAGE_SIZE; lia|lia|].
  exists m, root, m'. split; [exact E|]. rewrite (maps_translate _ _ _ _ _ _ _ _ _ _ _ M).
  rewrite decide_True; [reflexivity|]. vm_compute. split; [reflexivity|split; [discriminate|reflexivity]].
Defined.

Lemma walk_page_table_agrees_witness :
  ∃ m root, walk_page_table m root 0x400000 = NOT_MAPPED.
Proof.
  destruct boot_space as (g & m & root & Hwf & _ & _). exists m, root.
  apply (proj2 (walk_page_table_agrees g m root _ 0x400000 Hwf)). reflexivity.
Defined.

Lemma region_alloc_maps_fresh_pages_witness :
  ∃ m root m' p, region_alloc (P := boot_source) 3 m (VADDR root) 0x400100 0x1000 = Some m' ∧
    translate m' root 0x401fff = Some p.
Proof.
  destruct boot_space as (g & m & root & Hwf & Hav & _).
  destruct (region_alloc_maps_fresh_pages 3 g m root _ 0x400100 0x1000 Hwf) as (g' & m' & T' & E & R);
    [lia|lia|unfold PAGE_SIZE; lia| |vm_compute; lia|].
  - change (4 * 2 <= ps_avail g)%nat. lia.
  - destruct (rp_new _ _ _ _ _ _ _ _ _ R 0x401fff) as (p & Hp & _).
    + vm_compute. split; [discriminate|reflexivity].
    + exists m, root, m', p. split; [exact E|exact Hp].
Defined.

Lemma init_map_overflows_last_table_witness :
  ∃ m root m' p, init_map_virt_phys_addr (P := boot_source) m 0 0 2000 (VADDR root) 0 = Some m' ∧
    load64 m' (p + PAGE_SIZE) = Z.lor (4096 * (512 * 3 + 512)) 3.
Proof.
  destruct boot_space as (g & m & root & Hwf & Hav & Hfree).
  destruct (init_map_overflows_last_table g m root _ 0 0 2000 Hwf) as (m' & p & E & _ & Hl);
    [reflexivity|lia|reflexivity| | |lia|reflexivity|lia|].
  - change (4 + 3 <= ps_avail g)%nat. lia.
  - intros p Hp%Hfree. lia.
  - exists m, root, m', p. split; [exact E|exact Hl].
Defined.
