(* ===== verification/Process.v ===== *)
(** * Process: the task list and the scheduler, src/sys/process.c

    [ready_task] nodes and [task_struct]s come from [kmalloc], whose blocks
    never overlap ([MemProps]), so they are modelled as two typed stores from
    addresses to structures; a pointer that is not an object of the right
    store, NULL in particular, crashes when followed.  The three globals
    [queue_head], [running_task] and [previous], the saved stack pointers and
    the registers the context switch changes are the rest of the state.

    The abstraction is the list of node addresses from [queue_head]; the
    operations append, remove and select on it. *)
From S2P Require Import Prelude.

(** ** struct task_struct and struct ready_task (src/include/sys/process.h) *)

Record task := Task {
  pid : Z;
  ppid : Z;
  tname : list Z;
  rsp : Z;
  cr3 : Z;
  is_waiting : Z;
  sleep_time : Z;
  is_sleeping : Z;
  is_bg : Z;
}.

Record ready_task := ReadyTask { process : Z; next : Z }.

#[export] Instance task_eq_dec : EqDecision task.
Proof. solve_decision. Defined.
#[export] Instance ready_task_eq_dec : EqDecision ready_task.
Proof. solve_decision. Defined.

Definition with_is_waiting (t : task) (v : Z) : task :=
  Task (pid t) (ppid t) (tname t) (rsp t) (cr3 t) v (sleep_time t) (is_sleeping t) (is_bg t).
Definition with_sleep (t : task) (time sleeping : Z) : task :=
  Task (pid t) (ppid t) (tname t) (rsp t) (cr3 t) (is_waiting t) time sleeping (is_bg t).
Definition with_rsp (t : task) (v : Z) : task :=
  Task (pid t) (ppid t) (tname t) v (cr3 t) (is_waiting t) (sleep_time t) (is_sleeping t) (is_bg t).

(** ** The state and its monad *)

Record sched := Sched {
  nodes : gmap Z ready_task;
  tasks : gmap Z task;
  queue_head : Z;
  running_task : Z;
  previous : Z;
  task_count : Z;
  tss_rsp0 : Z;
  cpu_rsp : Z;
  cpu_cr3 : Z;
}.

(** [Crash]: a pointer that is no object was followed; [Fuel]: a loop did not
    end within the fuel. *)
Inductive res (A : Type) := Ret (a : A) | Crash | Fuel.
Arguments Ret {A}. Arguments Crash {A}. Arguments Fuel {A}.

Definition SM (A : Type) : Type := sched → res (A * sched).

#[export] Instance sm_ret : MRet SM := λ A a s, Ret (a, s).
#[export] Instance sm_bind : MBind SM := λ A B f x s,
  match x s with Ret (a, s') => f a s' | Crash => Crash | Fuel => Fuel end.

Definition gets {A} (f : sched → A) : SM A := λ s, Ret (f s, s).
Definition crash {A} : SM A := λ _, Crash.
Definition no_fuel {A} : SM A := λ _, Fuel.

Definition get_node (p : Z) : SM ready_task := λ s,
  match nodes s !! p with Some n => Ret (n, s) | None => Crash end.
Definition get_task (p : Z) : SM task := λ s,
  match tasks s !! p with Some t => Ret (t, s) | None => Crash end.
(** Updates of one component. *)
Definition with_nodes (s : sched) (v : gmap Z ready_task) : sched :=
  Sched v (tasks s) (queue_head s) (running_task s) (previous s) (task_count s) (tss_rsp0 s) (cpu_rsp s) (cpu_cr3 s).
Definition with_tasks (s : sched) (v : gmap Z task) : sched :=
  Sched (nodes s) v (queue_head s) (running_task s) (previous s) (task_count s) (tss_rsp0 s) (cpu_rsp s) (cpu_cr3 s).
Definition with_head (s : sched) (v : Z) : sched :=
  Sched (nodes s) (tasks s) v (running_task s) (previous s) (task_count s) (tss_rsp0 s) (cpu_rsp s) (cpu_cr3 s).
Definition with_running (s : sched) (v : Z) : sched :=
  Sched (nodes s) (tasks s) (queue_head s) v (previous s) (task_count s) (tss_rsp0 s) (cpu_rsp s) (cpu_cr3 s).
Definition with_previous (s : sched) (v : Z) : sched :=
  Sched (nodes s) (tasks s) (queue_head s) (running_task s) v (task_count s) (tss_rsp0 s) (cpu_rsp s) (cpu_cr3 s).
Definition with_count (s : sched) (v : Z) : sched :=
  Sched (nodes s) (tasks s) (queue_head s) (running_task s) (previous s) v (tss_rsp0 s) (cpu_rsp s) (cpu_cr3 s).
Definition with_tss (s : sched) (v : Z) : sched :=
  Sched (nodes s) (tasks s) (queue_head s) (running_task s) (previous s) (task_count s) v (cpu_rsp s) (cpu_cr3 s).
Definition with_cpu (s : sched) (r c : Z) : sched :=
  Sched (nodes s) (tasks s) (queue_head s) (running_task s) (previous s) (task_count s) (tss_rsp0 s) r c.

Definition put_nodes (f : gmap Z ready_task → gmap Z ready_task) : SM unit := λ s,
  Ret (tt, with_nodes s (f (nodes s))).
Definition put_task (p : Z) (t : task) : SM unit := λ s, Ret (tt, with_tasks s (<[p := t]> (tasks s))).
Definition put_queue_head (p : Z) : SM unit := λ s, Ret (tt, with_head s p).
Definition put_running (p : Z) : SM unit := λ s, Ret (tt, with_running s p).
Definition put_previous (p : Z) : SM unit := λ s, Ret (tt, with_previous s p).
Definition put_count (c : Z) : SM unit := λ s, Ret (tt, with_count s c).
Definition put_tss (v : Z) : SM unit := λ s, Ret (tt, with_tss s v).
Definition put_cpu (r c : Z) : SM unit := λ s, Ret (tt, with_cpu s r c).

(** [p->next = v] *)
Definition set_node_next (p v : Z) : SM unit :=
  n ← get_node p; put_nodes (<[p := ReadyTask (process n) v]>).

(** ** Loops over the list *)

(** [while (temp != NULL) { if (temp->process->pid == pid) break; temp = temp->next; }] *)
Fixpoint find_pid (fuel : nat) (wanted temp : Z) : SM Z :=
  match fuel with
  | O => no_fuel
  | S f =>
      if temp =? 0 then mret 0
      else
        n ← get_node temp;
        t ← get_task (process n);
        if pid t =? wanted then mret temp else find_pid f wanted (next n)
  end.

(** [while (temp->next != target) temp = temp->next;] *)
Fixpoint find_before (fuel : nat) (target temp : Z) : SM Z :=
  match fuel with
  | O => no_fuel
  | S f => n ← get_node temp; if next n =? target then mret temp else find_before f target (next n)
  end.

(** ** The operations *)

Definition get_running_task : SM Z := r ← gets running_task; n ← get_node r; mret (process n).

(** The lines [print_task_list] prints: pid, name and status. *)
Inductive task_status := Waiting | Sleeping | Running.

Definition status_of (t : task) : task_status :=
  if 0 <? is_waiting t then Waiting else if is_sleeping t =? 1 then Sleeping else Running.

Fixpoint print_loop (fuel : nat) (temp : Z) (out : list (Z * list Z * task_status))
    : SM (list (Z * list Z * task_status)) :=
  match fuel with
  | O => no_fuel
  | S f =>
      if temp =? 0 then mret out
      else
        n ← get_node temp;
        t ← get_task (process n);
        print_loop f (next n) (out ++ [(pid t, tname t, status_of t)])
  end.

Definition print_task_list (fuel : nat) : SM (list (Z * list Z * task_status)) :=
  q ← gets queue_head; print_loop fuel q [].

(** One pass over the list, [dec_sleep_count]. *)
Definition dec_sleep (t : task) : task :=
  if is_sleeping t =? 1 then
    let time := u64 (sleep_time t - 1) in
    with_sleep t time (if time =? 0 then 0 else is_sleeping t)
  else t.

Fixpoint dec_sleep_loop (fuel : nat) (temp : Z) : SM unit :=
  match fuel with
  | O => no_fuel
  | S f =>
      if temp =? 0 then mret tt
      else
        n ← get_node temp;
        t ← get_task (process n);
        _ ← put_task (process n) (dec_sleep t);
        dec_sleep_loop f (next n)
  end.

Definition dec_sleep_count (fuel : nat) : SM unit := q ← gets queue_head; dec_sleep_loop fuel q.

Definition delete_curr_from_task_list (fuel : nat) : SM unit :=
  q ← gets queue_head;
  r ← gets running_task;
  temp ← find_before fuel r q;
  n ← get_node r;
  _ ← (if negb (next n =? 0) then set_node_next temp (next n) else set_node_next temp 0);
  _ ← put_running 0;
  c ← gets task_count;
  put_count (i32 (c - 1)).

Definition delete_from_task_list (fuel : nat) (wanted : Z) : SM unit :=
  q ← gets queue_head;
  p ← gets previous;
  temp ← find_pid fuel wanted q;
  if temp =? 0 then mret tt
  else if temp =? p then
    temp ← find_before fuel p q;
    n ← get_node p;
    (if negb (next n =? 0) then set_node_next temp (next n) else set_node_next temp 0)
  else if temp =? q then
    n ← get_node temp; put_queue_head (next n)
  else
    let del := temp in
    temp ← find_before fuel del q;
    n ← get_node del;
    (if negb (next n =? 0) then set_node_next temp (next n) else set_node_next temp 0).

(** The loop of [add_to_task_list] moves [queue_head] itself. *)
Fixpoint seek_last (fuel : nat) : SM unit :=
  match fuel with
  | O => no_fuel
  | S f =>
      q ← gets queue_head;
      n ← get_node q;
      if next n =? 0 then mret tt else _ ← put_queue_head (next n); seek_last f
  end.

(** Where [kmalloc(sizeof(ready_task))] puts a new node. *)
Class NodeAlloc := node_alloc : gmap Z ready_task → Z.

Definition add_to_task_list `{NodeAlloc} (fuel : nat) (proc : Z) : SM unit :=
  q ← gets queue_head;
  if q =? 0 then
    new_task ← gets (λ s, node_alloc (nodes s));
    _ ← put_queue_head new_task;
    _ ← put_nodes (<[new_task := ReadyTask proc 0]>);
    _ ← put_running new_task;
    put_count 1
  else
    let temp := q in
    _ ← seek_last fuel;
    new_task ← gets (λ s, node_alloc (nodes s));
    _ ← put_nodes (<[new_task := ReadyTask proc 0]>);
    last ← gets queue_head;
    _ ← set_node_next last new_task;
    _ ← put_queue_head temp;
    c ← gets task_count;
    put_count (i32 (c + 1)).

Definition is_child_done (fuel : nat) (wanted : Z) : SM bool :=
  q ← gets queue_head;
  temp ← find_pid fuel wanted q;
  if temp =? 0 then mret true
  else
    n ← get_node temp;
    t ← get_task (process n);
    mret (is_sleeping t =? 0).

(** [if (temp->process->is_waiting > 0 && is_child_done(...)) temp->process->is_waiting = 0;] *)
Definition clear_waiting (fuel : nat) (temp : Z) : SM unit :=
  n ← get_node temp;
  t ← get_task (process n);
  if 0 <? is_waiting t then
    d ← is_child_done fuel (is_waiting t);
    if (d : bool) then put_task (process n) (with_is_waiting t 0) else mret tt
  else mret tt.

Definition blocked (t : task) : bool := negb (is_sleeping t =? 0) || (0 <? is_waiting t).

(** Skip the tasks after [temp] that sleep or wait. *)
Fixpoint skip_loop (fl fuel : nat) (temp : Z) : SM Z :=
  match fuel with
  | O => no_fuel
  | S f =>
      n ← get_node temp;
      if next n =? 0 then mret temp
      else
        n' ← get_node (next n);
        t' ← get_task (process n');
        if blocked t' then
          _ ← clear_waiting fl temp;
          skip_loop fl f (next n)
        else mret temp
  end.

(** Stores the stack pointer of [me] unless [first_switch], then loads the
    address space and the stack of [next_task]. *)
Definition switch_to (next_task me first_switch : Z) : SM unit :=
  _ ← (if first_switch =? 0 then
         t ← get_task me;
         r ← gets cpu_rsp;
         put_task me (with_rsp t r)
       else mret tt);
  t ← get_task next_task;
  put_cpu (rsp t) (cr3 t).

(** The offset of [kstack[511]] in a task_struct. *)
Definition kstack_top : Z := 8 + 8 * 511.

Definition pick_next (fuel : nat) (from : Z) : SM Z :=
  temp ← skip_loop fuel fuel from;
  _ ← clear_waiting fuel temp;
  n ← get_node temp;
  if negb (next n =? 0) then mret (next n) else gets queue_head.

Definition schedule (fuel : nat) (first_switch : Z) : SM unit :=
  r ← gets running_task;
  p ← gets previous;
  _ ← (if r =? 0 then
         n ← get_node p;
         if next n =? 0 then q ← gets queue_head; put_running q
         else x ← pick_next fuel p; put_running x
       else
         x ← pick_next fuel r;
         _ ← put_previous r;
         put_running x);
  r ← gets running_task;
  n ← get_node r;
  _ ← put_tss (u64 (process n + kstack_top));
  p ← gets previous;
  np ← get_node p;
  switch_to (process n) (process np) first_switch.

(** ** System calls on tasks *)

Definition sys_exit (fuel : nat) (status : Z) : SM unit :=
  _ ← delete_curr_from_task_list fuel; schedule fuel 1.

(** What the loop of [sys_kill] finds: the kernel's task under this pid, the
    running task, or neither. *)
Inductive kill_case := KillKernel | KillCurrent | KillOther.

Fixpoint kill_loop (kernel : list Z) (fuel : nat) (wanted temp : Z) : SM kill_case :=
  match fuel with
  | O => no_fuel
  | S f =>
      if temp =? 0 then mret KillOther
      else
        n ← get_node temp;
        t ← get_task (process n);
        r ← gets running_task;
        if (pid t =? wanted) && bool_decide (tname t = kernel) then mret KillKernel
        else if (pid t =? wanted) && (temp =? r) then mret KillCurrent
        else kill_loop kernel f wanted (next n)
  end.

Definition sys_kill (kernel : list Z) (fuel : nat) (wanted : Z) : SM unit :=
  q ← gets queue_head;
  me ← get_running_task;
  t ← get_task me;
  if ppid t =? wanted then _ ← delete_from_task_list fuel wanted; schedule fuel 0
  else
    c ← kill_loop kernel fuel wanted q;
    match c with
    | KillKernel => schedule fuel 0
    | KillCurrent => _ ← delete_curr_from_task_list fuel; schedule fuel 1
    | KillOther => _ ← delete_from_task_list fuel wanted; schedule fuel 0
    end.

(** The first task of the list that is a foreground child of [parent]. *)
Fixpoint find_child (fuel : nat) (parent temp : Z) : SM Z :=
  match fuel with
  | O => no_fuel
  | S f =>
      if temp =? 0 then mret 0
      else
        n ← get_node temp;
        t ← get_task (process n);
        if (ppid t =? parent) && negb (is_bg t =? 1) then mret temp else find_child f parent (next n)
  end.

(** The value is returned when the caller is switched back in. *)
Definition sys_waitpid (fuel : nat) (wanted bg : Z) : SM Z :=
  if bg =? 1 then mret 0
  else
    me ← get_running_task;
    t ← get_task me;
    q ← gets queue_head;
    temp ← (if wanted =? 0 then find_child fuel (pid t) q else find_pid fuel wanted q);
    if temp =? 0 then mret 0
    else
      n ← get_node temp;
      child ← get_task (process n);
      t ← get_task me;
      _ ← put_task me (with_is_waiting t (pid child));
      _ ← schedule fuel 0;
      child ← get_task (process n);
      mret (pid child).

Definition sys_sleep (fuel : nat) (time : Z) : SM unit :=
  me ← get_running_task;
  t ← get_task me;
  _ ← put_task me (with_sleep t (u64 time) 1);
  schedule fuel 0.

(** ** Running the monad *)

Lemma bind_ret {A B} (x : SM A) (f : A → SM B) s a s' : x s = Ret (a, s') → (x ≫= f) s = f a s'.
Proof. intros E. unfold mbind, sm_bind. by rewrite E. Qed.

Lemma get_node_ret p s n : nodes s !! p = Some n → get_node p s = Ret (n, s).
Proof. intros E. unfold get_node. by rewrite E. Qed.

Lemma get_task_ret p s t : tasks s !! p = Some t → get_task p s = Ret (t, s).
Proof. intros E. unfold get_task. by rewrite E. Qed.

Lemma set_node_next_ret p v s n :
  nodes s !! p = Some n →
  set_node_next p v s = Ret (tt, with_nodes s (<[p := ReadyTask (process n) v]> (nodes s))).
Proof. intros E. unfold set_node_next. by rewrite (bind_ret _ _ _ _ _ (get_node_ret _ _ _ E)). Qed.

(** [step]: run the next operation of a sequence whose result is known. *)
Ltac step :=
  match goal with
  | |- context [(gets ?f ≫= _) ?s] => rewrite (bind_ret (gets f) _ s (f s) s eq_refl)
  | |- context [(put_nodes ?f ≫= _) ?s] => rewrite (bind_ret (put_nodes f) _ s _ _ eq_refl)
  | |- context [(put_task ?p ?t ≫= _) ?s] => rewrite (bind_ret (put_task p t) _ s _ _ eq_refl)
  | |- context [(put_queue_head ?p ≫= _) ?s] => rewrite (bind_ret (put_queue_head p) _ s _ _ eq_refl)
  | |- context [(put_running ?p ≫= _) ?s] => rewrite (bind_ret (put_running p) _ s _ _ eq_refl)
  | |- context [(put_previous ?p ≫= _) ?s] => rewrite (bind_ret (put_previous p) _ s _ _ eq_refl)
  | |- context [(put_count ?p ≫= _) ?s] => rewrite (bind_ret (put_count p) _ s _ _ eq_refl)
  | |- context [(put_tss ?p ≫= _) ?s] => rewrite (bind_ret (put_tss p) _ s _ _ eq_refl)
  | |- context [(mret ?a ≫= _) ?s] => rewrite (bind_ret (mret a) _ s a s eq_refl)
  | H : nodes ?s !! ?p = Some ?n |- context [(get_node ?p ≫= _) ?s] =>
      rewrite (bind_ret (get_node p) _ s n s (get_node_ret _ _ _ H))
  | H : tasks ?s !! ?p = Some ?t |- context [(get_task ?p ≫= _) ?s] =>
      rewrite (bind_ret (get_task p) _ s t s (get_task_ret _ _ _ H))
  end; cbn beta.

(** ** The list that the nodes represent *)

Definition ptr (l : list Z) (i : nat) : Z := default 0 (l !! i).

Definition linked (N : gmap Z ready_task) (l : list Z) : Prop :=
  ∀ i a, l !! i = Some a → a ≠ 0 ∧ ∃ n, N !! a = Some n ∧ next n = ptr l (S i).

(** The task of node [a]. *)
Definition task_at (s : sched) (a : Z) : option task := n ← nodes s !! a; tasks s !! process n.

Definition has_pid (s : sched) (w : Z) (a : Z) : Prop := pid <$> task_at s a = Some w.
#[export] Instance has_pid_dec s w a : Decision (has_pid s w a).
Proof. unfold has_pid. apply _. Defined.

(** The invariant: [l] are the nodes from [queue_head] to NULL, without a
    repetition, each node has its task, and no two nodes of the list share
    one. *)
Record queue (s : sched) (l : list Z) : Prop := {
  q_head : queue_head s = ptr l 0;
  q_linked : linked (nodes s) l;
  q_nodup : NoDup l;
  q_null : nodes s !! 0 = None;
  q_tasks : ∀ a n, nodes s !! a = Some n → is_Some (tasks s !! process n);
  q_procs : ∀ a b n n', a ∈ l → b ∈ l → nodes s !! a = Some n → nodes s !! b = Some n' →
    process n = process n' → a = b;
}.

Lemma linked_cons N a l :
  linked N (a :: l) ↔ a ≠ 0 ∧ (∃ n, N !! a = Some n ∧ next n = ptr l 0) ∧ linked N l.
Proof.
  split.
  - intros H. destruct (H 0%nat a eq_refl) as [H0 Hn]. split_and!; [done|done|].
    intros i b Hi. exact (H (S i) b Hi).
  - intros (H0 & Hn & Hl) [|i] b Hi; simplify_eq/=; [done|]. exact (Hl i b Hi).
Qed.

Lemma linked_elem N l a : linked N l → a ∈ l → ∃ n, N !! a = Some n.
Proof. intros Hl [i Hi]%list_elem_of_lookup. destruct (Hl i a Hi) as (_ & n & Hn & _). eauto. Qed.

Lemma linked_app_r N l1 l2 : linked N (l1 ++ l2) → linked N l2.
Proof. induction l1 as [|a l1 IH]; [done|]. simpl. rewrite linked_cons. intros (_ & _ & H). by apply IH. Qed.

(** Changing nodes outside the list keeps it. *)
Lemma linked_insert_notin N l a n : linked N l → a ∉ l → linked (<[a := n]> N) l.
Proof.
  intros Hl Ha i b Hi. destruct (Hl i b Hi) as (H0 & n' & Hn & Hx). split; [done|].
  exists n'. rewrite lookup_insert_ne; [done|]. intros ->. apply Ha. by eapply list_elem_of_lookup_2.
Qed.

(** Redirecting the link of [a] drops or adds what follows it. *)
Lemma linked_redirect N l1 a l2 l2' n :
  linked N (l1 ++ a :: l2) → NoDup (l1 ++ a :: l2) → N !! a = Some n →
  linked N l2' → a ∉ l2' → linked (<[a := ReadyTask (process n) (ptr l2' 0)]> N) (l1 ++ a :: l2').
Proof.
  intros Hl Hnd Hn Hl2 Ha2. induction l1 as [|b l1 IH]; simpl in *.
  - apply linked_cons in Hl as (H0 & _ & _). apply linked_cons. split_and!; [done| |by apply linked_insert_notin].
    eexists. rewrite lookup_insert_eq. done.
  - apply linked_cons in Hl as (H0 & (nb & Hb & Hbx) & Hl). apply NoDup_cons in Hnd as [Hb1 Hnd].
    apply linked_cons. split_and!; [done| |by apply IH]. exists nb. rewrite lookup_insert_ne.
    + split; [done|]. rewrite Hbx. by destruct l1.
    + intros ->. apply Hb1. rewrite elem_of_app, elem_of_cons. auto.
Qed.

Lemma queue_ext s s' l :
  nodes s' = nodes s → queue_head s' = queue_head s →
  (∀ p, is_Some (tasks s !! p) → is_Some (tasks s' !! p)) → queue s l → queue s' l.
Proof.
  intros En Eh Et [Q1 Q2 Q3 Q4 Q5 Q6]. constructor; rewrite ?En, ?Eh; try done.
  intros a n Hn. by eapply Et, Q5.
Qed.

Lemma has_pid_iff s w a n t :
  nodes s !! a = Some n → tasks s !! process n = Some t → has_pid s w a ↔ pid t = w.
Proof. intros Hn Ht. unfold has_pid, task_at. rewrite Hn. simpl. rewrite Ht. simpl. split; congruence. Qed.

(** ** The loops *)

Lemma find_pid_spec l : ∀ fuel s w,
  linked (nodes s) l → (∀ a n, nodes s !! a = Some n → is_Some (tasks s !! process n)) →
  (length l < fuel)%nat →
  find_pid fuel w (ptr l 0) s =
  Ret (match list_find (has_pid s w) l with Some (_, a) => a | None => 0 end, s).
Proof.
  induction l as [|a l IH]; intros [|fuel] s w Hl Ht Hf; simpl in Hf; try lia; [done|].
  apply linked_cons in Hl as (H0 & (n & Hn & Hx) & Hl). cbn [find_pid ptr default lookup list_lookup].
  unfold ptr. simpl. destruct (Z.eqb_spec a 0); [done|]. step.
  destruct (Ht a n Hn) as [t Htk]. step.
  pose proof (has_pid_iff s w a n t Hn Htk) as Hpid. destruct (Z.eqb_spec (pid t) w) as [E|E].
  - rewrite decide_True by tauto. done.
  - rewrite decide_False by tauto. rewrite Hx, IH by (done || lia).
    destruct (list_find (has_pid s w) l) as [[k b]|]; done.
Qed.

Lemma find_before_spec l1 : ∀ fuel s a x l2,
  linked (nodes s) (l1 ++ a :: x :: l2) → NoDup (l1 ++ a :: x :: l2) → (length l1 < fuel)%nat →
  find_before fuel x (ptr (l1 ++ a :: x :: l2) 0) s = Ret (a, s).
Proof.
  induction l1 as [|b l1 IH]; intros [|fuel] s a x l2 Hl Hnd Hf; simpl in Hf; try lia; simpl in *.
  - apply linked_cons in Hl as (H0 & (n & Hn & Hx) & _). unfold ptr in *. simpl in *. step.
    by rewrite Hx, Z.eqb_refl.
  - apply linked_cons in Hl as (H0 & (n & Hn & Hx) & Hl). apply NoDup_cons in Hnd as [Hb Hnd].
    unfold ptr at 1. simpl. step. rewrite Hx.
    destruct (Z.eqb_spec (ptr (l1 ++ a :: x :: l2) 0) x) as [E|_]; [|by apply IH; [..|lia]].
    exfalso. apply NoDup_app in Hnd as (_ & Hd & Hnd). destruct l1 as [|c l1]; unfold ptr in E; simpl in E; subst.
    + apply NoDup_cons in Hnd as [Hnd _]. apply Hnd. left.
    + apply (Hd x); [left|]. right. left.
Qed.

(** Looking for the predecessor of a node that has none runs off the list. *)
Lemma find_before_crash l : ∀ fuel s x,
  linked (nodes s) l → nodes s !! 0 = None → x ≠ 0 → x ∉ tail l → (length l < fuel)%nat →
  find_before fuel x (ptr l 0) s = Crash.
Proof.
  induction l as [|a l IH]; intros [|fuel] s x Hl H0 Hx Hni Hf; simpl in Hf; try lia.
  - simpl. unfold mbind, sm_bind, get_node, ptr. simpl. by rewrite H0.
  - apply linked_cons in Hl as (Ha & (n & Hn & Hnx) & Hl). simpl. unfold ptr at 1. simpl. step. rewrite Hnx.
    destruct (Z.eqb_spec (ptr l 0) x) as [E|_].
    + exfalso. destruct l as [|b l]; unfold ptr in E; simpl in E; [by subst|]. apply Hni. subst. left.
    + apply IH; try done; [|lia]. destruct l as [|b l]; [apply not_elem_of_nil|]. simpl in *.
      intros Hin. apply Hni. by right.
Qed.

Lemma seek_last_spec l : ∀ fuel s z,
  linked (nodes s) (l ++ [z]) → queue_head s = ptr (l ++ [z]) 0 → (length l < fuel)%nat →
  seek_last fuel s = Ret (tt, with_head s z).
Proof.
  induction l as [|a l IH]; intros [|fuel] s z Hl Hh Hf; simpl in Hf; try lia; simpl in *.
  - apply linked_cons in Hl as (H0 & (n & Hn & Hx) & _). step. rewrite Hh. unfold ptr in *. simpl in *. step.
    rewrite Hx, Z.eqb_refl. unfold mret, sm_ret. rewrite <- Hh. by destruct s.
  - apply linked_cons in Hl as (H0 & (n & Hn & Hx) & Hl). step. rewrite Hh. unfold ptr at 1. simpl. step.
    assert (next n ≠ 0) as Hnz.
    { rewrite Hx. destruct l as [|b l]; unfold ptr; simpl in *; by apply linked_cons in Hl as (? & _). }
    destruct (Z.eqb_spec (next n) 0); [done|]. step. by rewrite (IH fuel _ z) by (done || lia).
Qed.

(** ** Appending *)

(** What [kmalloc] promises for a node: an address that is no node yet. *)
Class NodeAllocLaws (A : NodeAlloc) := {
  node_alloc_nonnull : ∀ N, node_alloc (NodeAlloc := A) N ≠ 0;
  node_alloc_fresh : ∀ N, N !! node_alloc (NodeAlloc := A) N = None;
}.

(** The tasks of the nodes in [l] are not [proc]. *)
Definition not_queued (s : sched) (l : list Z) (proc : Z) : Prop :=
  ∀ a n, a ∈ l → nodes s !! a = Some n → process n ≠ proc.

Section Add.
Context `{A : NodeAlloc} {AL : NodeAllocLaws A}.

Lemma fresh_notin s l : linked (nodes s) l → node_alloc (nodes s) ∉ l.
Proof.
  intros Hl Hin. destruct (linked_elem _ _ _ Hl Hin) as [n Hn]. by rewrite node_alloc_fresh in Hn.
Qed.

Lemma queue_add s l proc N' :
  queue s l → is_Some (tasks s !! proc) → not_queued s l proc →
  let x := node_alloc (nodes s) in
  (∀ a, a ≠ x → process <$> N' !! a = process <$> nodes s !! a) → N' !! x = Some (ReadyTask proc 0) →
  linked N' (l ++ [x]) →
  ∀ s', nodes s' = N' → queue_head s' = ptr (l ++ [x]) 0 → tasks s' = tasks s → queue s' (l ++ [x]).
Proof.
  intros [Q1 Q2 Q3 Q4 Q5 Q6] Hp Hnq x HN Hx Hl s' En Eh Et.
  assert (Hxl : x ∉ l) by by apply fresh_notin.
  assert (Hold : ∀ a n, a ≠ x → N' !! a = Some n → ∃ n0, nodes s !! a = Some n0 ∧ process n0 = process n).
  { intros a n Ha Hn. specialize (HN a Ha). rewrite Hn in HN. destruct (nodes s !! a) as [n0|] eqn:E; [|done].
    exists n0. split; [done|]. by simplify_eq/=. }
  constructor; rewrite ?En, ?Et; try done.
  - apply NoDup_app. split_and!; [done| |apply NoDup_singleton].
    intros a Ha ->%list_elem_of_singleton. done.
  - specialize (HN 0 (not_eq_sym (node_alloc_nonnull _))). rewrite Q4 in HN. by destruct (N' !! 0).
  - intros a n Hn. destruct (decide (a = x)) as [->|Hax]; [rewrite Hx in Hn; by injection Hn as <-|].
    destruct (Hold a n Hax Hn) as (n0 & Hn0 & <-). by eapply Q5.
  - intros a b n n' Ha Hb Hna Hnb E. rewrite !elem_of_app, !list_elem_of_singleton in *.
    destruct (decide (a = x)) as [->|Hax], (decide (b = x)) as [->|Hbx]; [done|..].
    + destruct Hb as [Hb|]; [|done]. destruct (Hold b n' Hbx Hnb) as (n0 & Hn0 & E0). exfalso.
      eapply (Hnq b n0); [done..|]. rewrite E0, <- E. rewrite Hx in Hna. by injection Hna as <-.
    + destruct Ha as [Ha|]; [|done]. destruct (Hold a n Hax Hna) as (n0 & Hn0 & E0). exfalso.
      eapply (Hnq a n0); [done..|]. rewrite E0, E. rewrite Hx in Hnb. by injection Hnb as <-.
    + destruct Ha as [Ha|]; [|done]. destruct Hb as [Hb|]; [|done].
      destruct (Hold a n Hax Hna) as (n1 & Hn1 & E1). destruct (Hold b n' Hbx Hnb) as (n2 & Hn2 & E2).
      eapply (Q6 a b n1 n2); congruence.
Qed.

(** [add_to_task_list] appends a node for the process. *)
Lemma add_to_task_list_spec fuel s l proc :
  queue s l → is_Some (tasks s !! proc) → not_queued s l proc → (length l < fuel)%nat →
  let x := node_alloc (nodes s) in
  ∃ s', add_to_task_list fuel proc s = Ret (tt, s') ∧ queue s' (l ++ [x]) ∧
    process <$> nodes s' !! x = Some proc ∧ tasks s' = tasks s ∧ previous s' = previous s ∧
    running_task s' = (if decide (l = []) then x else running_task s) ∧
    task_count s' = (if decide (l = []) then 1 else i32 (task_count s + 1)) ∧
    ∀ a, a ≠ x → process <$> nodes s' !! a = process <$> nodes s !! a.
Proof.
  intros Hq Hp Hnq Hf x. pose proof (fresh_notin s l (q_linked _ _ Hq)) as Hxl. fold x in Hxl.
  unfold add_to_task_list. step. rewrite (q_head _ _ Hq).
  destruct (decide (l = [])) as [->|Hne].
  - unfold ptr at 1. simpl. repeat step. eexists. split; [done|].
    split_and!; try done; [|simpl; by rewrite lookup_insert_eq|intros a Ha; simpl; by rewrite lookup_insert_ne].
    eapply (queue_add s [] proc (<[x := ReadyTask proc 0]> (nodes s))); try done.
    + intros a Ha. by rewrite lookup_insert_ne.
    + by rewrite lookup_insert_eq.
    + apply linked_cons. split_and!; [apply node_alloc_nonnull| |done].
      eexists. rewrite lookup_insert_eq. done.
  - destruct (exists_last Hne) as (l0 & z & ->).
    assert (ptr (l0 ++ [z]) 0 ≠ 0) as Hh.
    { unfold ptr. destruct ((l0 ++ [z]) !! 0%nat) eqn:E; simpl; [|by destruct l0].
      by destruct (q_linked _ _ Hq _ _ E). }
    destruct (Z.eqb_spec (ptr (l0 ++ [z]) 0) 0); [done|].
    rewrite (bind_ret _ _ _ _ _ (seek_last_spec l0 fuel s z (q_linked _ _ Hq) (q_head _ _ Hq)
      ltac:(rewrite length_app in Hf; simpl in Hf; lia))). cbn beta. step. step. step.
    change (node_alloc (nodes (with_head s z))) with x.
    destruct (linked_elem _ _ z (q_linked _ _ Hq)) as [nz Hz]; [rewrite elem_of_app; right; left|].
    set (s1 := with_nodes (with_head s z) _). change (queue_head s1) with z.
    assert (Hzx : z ≠ x) by (intros ->; apply Hxl; rewrite elem_of_app; right; left).
    assert (Hz1 : nodes s1 !! z = Some nz) by (unfold s1; simpl; by rewrite lookup_insert_ne).
    rewrite (bind_ret _ _ _ _ _ (set_node_next_ret z x s1 nz Hz1)). cbn beta. repeat step.
    assert (Hproc : ∀ a, a ≠ x → process <$> <[z := ReadyTask (process nz) x]> (<[x := ReadyTask proc 0]> (nodes s)) !! a
      = process <$> nodes s !! a).
    { intros a Ha. destruct (decide (a = z)) as [->|]; [by rewrite lookup_insert_eq, Hz|].
      by rewrite !lookup_insert_ne. }
    eexists. split; [done|]. split_and!; try done; [|simpl; by rewrite lookup_insert_ne, lookup_insert_eq].
    eapply (queue_add s (l0 ++ [z]) proc (<[z := ReadyTask (process nz) x]> (<[x := ReadyTask proc 0]> (nodes s)))); try done.
    + by rewrite lookup_insert_ne, lookup_insert_eq.
    + rewrite <- app_assoc. eapply (linked_redirect _ l0 z [] [x] nz).
      * apply linked_insert_notin; [apply Hq|done].
      * apply Hq.
      * by rewrite lookup_insert_ne.
      * apply linked_cons. split_and!; [apply node_alloc_nonnull| |done]. eexists. by rewrite lookup_insert_eq.
      * by intros ->%list_elem_of_singleton.
    + simpl. unfold ptr. by destruct l0.
Qed.
End Add.

(** ** Removing *)

(** The node before [x] is made to skip it. *)
Lemma unlink_ret s l1 a x l2 :
  queue s (l1 ++ a :: x :: l2) →
  ∃ na nx, nodes s !! a = Some na ∧ nodes s !! x = Some nx ∧
    (if negb (next nx =? 0) then set_node_next a (next nx) else set_node_next a 0) s =
    Ret (tt, with_nodes s (<[a := ReadyTask (process na) (ptr l2 0)]> (nodes s))).
Proof.
  intros Hq. pose proof (linked_app_r _ _ _ (q_linked _ _ Hq)) as Hl.
  apply linked_cons in Hl as (_ & (na & Ha & _) & Hl). apply linked_cons in Hl as (_ & (nx & Hx & Enx) & _).
  exists na, nx. split_and!; [done..|]. rewrite <- Enx.
  destruct (Z.eqb_spec (next nx) 0) as [->|]; simpl; by apply set_node_next_ret.
Qed.

Lemma queue_unlink s l1 a x l2 na s' :
  queue s (l1 ++ a :: x :: l2) → nodes s !! a = Some na →
  nodes s' = <[a := ReadyTask (process na) (ptr l2 0)]> (nodes s) →
  queue_head s' = queue_head s → tasks s' = tasks s → queue s' (l1 ++ a :: l2).
Proof.
  intros [Q1 Q2 Q3 Q4 Q5 Q6] Ha En Eh Et.
  assert (Hsub : ∀ b, b ∈ l1 ++ a :: l2 → b ∈ l1 ++ a :: x :: l2) by (intros b; rewrite !elem_of_app, !elem_of_cons; tauto).
  assert (Hproc : ∀ b n, nodes s' !! b = Some n → ∃ n0, nodes s !! b = Some n0 ∧ process n0 = process n).
  { intros b n Hb. rewrite En in Hb. apply lookup_insert_Some in Hb as [[<- <-]|[_ Hb]]; eauto. }
  pose proof (linked_app_r _ _ _ Q2) as Hl. apply linked_cons in Hl as (Ha0 & _ & Hl).
  apply linked_cons in Hl as (_ & _ & Hl).
  pose proof (NoDup_app l1 (a :: x :: l2)) as Hnd. apply Hnd in Q3 as (N1 & N2 & N3).
  apply NoDup_cons in N3 as [N3 N4]. apply NoDup_cons in N4 as [N4 N5].
  constructor.
  - rewrite Eh, Q1. unfold ptr. by destruct l1.
  - rewrite En. eapply (linked_redirect _ l1 a (x :: l2) l2); [done| |done..|intros ?; apply N3; by right].
    apply Hnd. split_and!; [done..|]. apply NoDup_cons. split; [done|]. by apply NoDup_cons.
  - apply NoDup_app. split_and!; [done| |].
    + intros b Hb Hb'. apply (N2 b Hb). rewrite elem_of_cons in *. rewrite elem_of_cons. tauto.
    + apply NoDup_cons. split; [|done]. intros ?. apply N3. by right.
  - rewrite En, lookup_insert_ne; [done|]. intros ->. done.
  - intros b n (n0 & Hn0 & <-)%Hproc. rewrite Et. by eapply Q5.
  - intros b c n n' Hb Hc (n1 & Hn1 & <-)%Hproc (n2 & Hn2 & <-)%Hproc. eapply Q6; eauto.
Qed.

(** [delete_curr_from_task_list] removes the running node, wherever it is but
    at the head. *)
Lemma delete_curr_spec fuel s l1 a x l2 :
  queue s (l1 ++ a :: x :: l2) → running_task s = x → (length l1 < fuel)%nat →
  ∃ s', delete_curr_from_task_list fuel s = Ret (tt, s') ∧ queue s' (l1 ++ a :: l2) ∧
    running_task s' = 0 ∧ previous s' = previous s ∧ tasks s' = tasks s ∧
    task_count s' = i32 (task_count s - 1) ∧ ∀ b, process <$> nodes s' !! b = process <$> nodes s !! b.
Proof.
  intros Hq Hr Hf. destruct (unlink_ret s l1 a x l2 Hq) as (na & nx & Ha & Hx & E).
  unfold delete_curr_from_task_list. step. step. rewrite Hr, (q_head _ _ Hq).
  rewrite (bind_ret _ _ _ _ _ (find_before_spec l1 fuel s a x l2 (q_linked _ _ Hq) (q_nodup _ _ Hq) Hf)). cbn beta.
  step. rewrite (bind_ret _ _ _ _ _ E). cbn beta. repeat step.
  eexists. split; [done|]. split_and!; try done.
  - eapply queue_unlink; done.
  - intros b. simpl. destruct (decide (b = a)) as [->|]; [|by rewrite lookup_insert_ne].
    by rewrite lookup_insert_eq, Ha.
Qed.

(** Removing the running task when it is the head runs off the list. *)
Lemma delete_curr_head_crash fuel s x l :
  queue s (x :: l) → running_task s = x → (S (length l) < fuel)%nat →
  delete_curr_from_task_list fuel s = Crash.
Proof.
  intros Hq Hr Hf. unfold delete_curr_from_task_list. step. step. rewrite Hr, (q_head _ _ Hq).
  unfold mbind, sm_bind at 1. rewrite (find_before_crash (x :: l)); try done.
  - apply Hq.
  - apply Hq.
  - pose proof (q_linked _ _ Hq) as Hl. by apply linked_cons in Hl as (? & _).
  - pose proof (q_nodup _ _ Hq) as Hn. simpl. by apply NoDup_cons in Hn as [? _].
Qed.

(** The nodes of [l] without the first of pid [w]. *)
Definition remove_pid (s : sched) (w : Z) (l : list Z) : list Z :=
  match list_find (has_pid s w) l with
  | Some (k, _) => take k l ++ drop (S k) l
  | None => l
  end.

Lemma remove_pid_split s w l k x :
  list_find (has_pid s w) l = Some (k, x) →
  l = take k l ++ x :: drop (S k) l ∧ remove_pid s w l = take k l ++ drop (S k) l.
Proof.
  intros E. unfold remove_pid. rewrite E. split; [|done].
  apply list_find_Some in E as (Hk & _ & _). by rewrite take_drop_middle.
Qed.

(** [delete_from_task_list] removes the first node with the pid; the node that
    [previous] points to must not be the head. *)
Lemma delete_from_spec fuel s l w :
  queue s l → (S (length l) < fuel)%nat →
  (previous s = queue_head s → ∀ a, l !! 0%nat = Some a → ¬ has_pid s w a) →
  ∃ s', delete_from_task_list fuel w s = Ret (tt, s') ∧ queue s' (remove_pid s w l) ∧
    running_task s' = running_task s ∧ previous s' = previous s ∧ tasks s' = tasks s ∧
    task_count s' = task_count s ∧ ∀ a, process <$> nodes s' !! a = process <$> nodes s !! a.
Proof.
  intros Hq Hf Hprev. unfold delete_from_task_list. step. step. rewrite (q_head _ _ Hq).
  rewrite (bind_ret _ _ _ _ _ (find_pid_spec l fuel s w (q_linked _ _ Hq) (q_tasks _ _ Hq) ltac:(lia))). cbn beta.
  destruct (list_find (has_pid s w) l) as [[k x]|] eqn:E.
  2: { unfold remove_pid. rewrite E. simpl. exists s. done. }
  destruct (remove_pid_split s w l k x E) as [El Er]. rewrite Er.
  apply list_find_Some in E as (Hk & Hpid & _). destruct (q_linked _ _ Hq k x Hk) as (Hx0 & nx & Hx & Hxn).
  destruct (Z.eqb_spec x 0); [done|].
  set (l1 := take k l) in *. set (l2 := drop (S k) l) in *. clearbody l1 l2. subst l.
  destruct (decide (l1 = [])) as [->|Hne].
  - assert (x = queue_head s) as Exq by (rewrite (q_head _ _ Hq); done).
    assert (x ≠ previous s) as Hxp. { intros Hxp. eapply (Hprev ltac:(congruence) x); done. }
    destruct (Z.eqb_spec x (previous s)); [done|]. unfold ptr. simpl. rewrite Z.eqb_refl. step.
    eexists. split; [done|]. simpl. split_and!; try done. destruct Hq as [Q1 Q2 Q3 Q4 Q5 Q6].
    apply linked_cons in Q2 as (_ & (n' & Hn' & Hnx) & Q2). simplify_eq.
    apply NoDup_cons in Q3 as [_ Q3]. constructor; simpl in *; try done.
    intros b c n1 n2 Hb Hc. eapply Q6; by right.
  - destruct (exists_last Hne) as (l0 & a & ->). rewrite <- app_assoc in *. simpl in *.
    destruct (unlink_ret s l0 a x l2 Hq) as (na & nx' & Ha & Hx' & Eu).
    assert (Hres : ∃ s', (temp ← find_before fuel x (ptr (l0 ++ a :: x :: l2) 0);
      n ← get_node x; (if negb (next n =? 0) then set_node_next temp (next n) else set_node_next temp 0)) s =
      Ret (tt, s') ∧ s' = with_nodes s (<[a := ReadyTask (process na) (ptr l2 0)]> (nodes s))).
    { eexists. split; [|done]. rewrite !length_app in Hf. simpl in Hf.
      rewrite (bind_ret _ _ _ _ _ (find_before_spec l0 fuel s a x l2 (q_linked _ _ Hq) (q_nodup _ _ Hq) ltac:(lia))).
      cbn beta. step. simplify_eq. exact Eu. }
    destruct Hres as (s' & Es & Es'). exists s'. split.
    + destruct (Z.eqb_spec x (previous s)) as [<-|]; [exact Es|].
      destruct (Z.eqb_spec x (ptr (l0 ++ a :: x :: l2) 0)) as [Ex|]; [|exact Es].
      exfalso. pose proof (q_nodup _ _ Hq) as Hnd. destruct l0 as [|b l0]; unfold ptr in Ex; simpl in *; subst.
      * apply NoDup_cons in Hnd as [Hnd _]. apply Hnd. left.
      * apply NoDup_cons in Hnd as [Hnd _]. apply Hnd. rewrite elem_of_app. right. right. left.
    + subst s'. rewrite <- app_assoc. split_and!; try done; [by eapply queue_unlink|].
      intros b. simpl. destruct (decide (b = a)) as [->|]; [|by rewrite lookup_insert_ne].
      by rewrite lookup_insert_eq, Ha.
Qed.

(** ** Selecting *)

Definition child_done (s : sched) (l : list Z) (w : Z) : bool :=
  match list_find (has_pid s w) l with
  | None => true
  | Some (_, a) => match task_at s a with Some t => is_sleeping t =? 0 | None => true end
  end.

Definition runnable (s : sched) (a : Z) : Prop := blocked <$> task_at s a = Some false.
#[export] Instance runnable_dec s a : Decision (runnable s a).
Proof. unfold runnable. apply _. Defined.

(** The first runnable node of a list; the head of the queue if there is none. *)
Definition next_task (s : sched) (rest : list Z) : Z :=
  match list_find (runnable s) rest with Some (_, x) => x | None => queue_head s end.

Lemma is_child_done_spec fuel s l w :
  queue s l → (length l < fuel)%nat → is_child_done fuel w s = Ret (child_done s l w, s).
Proof.
  intros Hq Hf. unfold is_child_done, child_done. step. rewrite (q_head _ _ Hq).
  rewrite (bind_ret _ _ _ _ _ (find_pid_spec l fuel s w (q_linked _ _ Hq) (q_tasks _ _ Hq) Hf)). cbn beta.
  destruct (list_find (has_pid s w) l) as [[k a]|] eqn:E; [|done].
  apply list_find_Some in E as (Hk & _). destruct (q_linked _ _ Hq k a Hk) as (Ha & n & Hn & _).
  destruct (Z.eqb_spec a 0); [done|]. step. destruct (q_tasks _ _ Hq a n Hn) as [t Ht]. step.
  unfold task_at. rewrite Hn. simpl. by rewrite Ht.
Qed.

(** Only [is_waiting] fields change, from a finished child to 0. *)
Definition cleared1 (s : sched) (l : list Z) (t t' : task) : Prop :=
  t' = t ∨ (0 < is_waiting t ∧ child_done s l (is_waiting t) = true ∧ t' = with_is_waiting t 0).

Definition waits_cleared (l : list Z) (s s' : sched) : Prop :=
  s' = with_tasks s (tasks s') ∧ map_relation (λ _, cleared1 s l) (λ _ _, False) (λ _ _, False) (tasks s) (tasks s').

Lemma cleared_lookup l s s' p t :
  waits_cleared l s s' → tasks s !! p = Some t → ∃ t', tasks s' !! p = Some t' ∧ cleared1 s l t t'.
Proof. intros [_ H] Hp. specialize (H p). rewrite Hp in H. destruct (tasks s' !! p); simpl in H; [eauto|done]. Qed.

Lemma cleared_task_at l s s' a :
  waits_cleared l s s' → option_relation (cleared1 s l) (λ _, False) (λ _, False) (task_at s a) (task_at s' a).
Proof.
  intros [E H]. unfold task_at. assert (nodes s' = nodes s) as -> by (by rewrite E).
  destruct (nodes s !! a) as [n|]; simpl; [|done]. apply H.
Qed.

Lemma cleared_ids l s s' a :
  waits_cleared l s s' →
  pid <$> task_at s' a = pid <$> task_at s a ∧ is_sleeping <$> task_at s' a = is_sleeping <$> task_at s a.
Proof.
  intros H%(cleared_task_at l s s' a). destruct (task_at s a), (task_at s' a); simpl in *; try done.
  destruct H as [->|(_ & _ & ->)]; done.
Qed.

Lemma cleared_child_done l s s' w : waits_cleared l s s' → child_done s' l w = child_done s l w.
Proof.
  intros H. unfold child_done.
  rewrite (list_find_ext (has_pid s' w) (has_pid s w)).
  2: { intros a. unfold has_pid. by rewrite (proj1 (cleared_ids _ _ _ a H)). }
  destruct (list_find _ l) as [[k a]|]; [|done]. destruct (cleared_ids _ _ _ a H) as [_ E].
  destruct (task_at s a), (task_at s' a); simplify_eq/=; try done. congruence.
Qed.

Lemma waits_cleared_refl l s : waits_cleared l s s.
Proof. split; [by destruct s|]. intros p. destruct (tasks s !! p); simpl; [by left|done]. Qed.

Lemma waits_cleared_trans l s1 s2 s3 :
  waits_cleared l s1 s2 → waits_cleared l s2 s3 → waits_cleared l s1 s3.
Proof.
  intros H12 H23. pose proof H12 as [E1 R1]. pose proof H23 as [E2 R2]. split; [rewrite E2, E1; done|].
  intros p. specialize (R1 p). specialize (R2 p).
  destruct (tasks s1 !! p) as [t1|], (tasks s2 !! p) as [t2|], (tasks s3 !! p) as [t3|]; simpl in *; try done.
  destruct R1 as [->|(P1 & C1 & ->)], R2 as [->|(P2 & C2 & ->)].
  - by left.
  - right. by rewrite <- (cleared_child_done l s1 s2) by done.
  - by right.
  - simpl in P2. lia.
Qed.

Lemma cleared_queue l s s' : waits_cleared l s s' → queue s l → queue s' l.
Proof.
  intros H. pose proof H as [E _]. apply queue_ext; [by rewrite E|by rewrite E|].
  intros p [t Ht]. destruct (cleared_lookup _ _ _ _ _ H Ht) as (t' & -> & _). eauto.
Qed.

Lemma clear_waiting_spec fuel s l a n :
  queue s l → (length l < fuel)%nat → nodes s !! a = Some n →
  ∃ s', clear_waiting fuel a s = Ret (tt, s') ∧ waits_cleared l s s' ∧
    ∀ p, p ≠ process n → tasks s' !! p = tasks s !! p.
Proof.
  intros Hq Hf Hn. unfold clear_waiting. step. destruct (q_tasks _ _ Hq a n Hn) as [t Ht]. step.
  destruct (Z.ltb_spec 0 (is_waiting t)); [|by exists s; split_and!; [|apply waits_cleared_refl|]].
  rewrite (bind_ret _ _ _ _ _ (is_child_done_spec fuel s l (is_waiting t) Hq Hf)). cbn beta.
  destruct (child_done s l (is_waiting t)) eqn:Ed; [|by exists s; split_and!; [|apply waits_cleared_refl|]].
  eexists. split; [done|]. split.
  - split; [done|]. intros p. simpl. destruct (decide (p = process n)) as [->|Hne].
    + rewrite lookup_insert_eq, Ht. simpl. by right.
    + rewrite lookup_insert_ne by done. destruct (tasks s !! p); simpl; [by left|done].
  - intros p Hp. simpl. by rewrite lookup_insert_ne.
Qed.

Lemma skip_loop_spec fl l rest : ∀ fuel l1 a s,
  queue s l → l = l1 ++ a :: rest → (length l < fl)%nat → (length rest < fuel)%nat →
  ∃ b nb s', skip_loop fl fuel a s = Ret (b, s') ∧ waits_cleared l s s' ∧ nodes s !! b = Some nb ∧
    next nb = match list_find (runnable s) rest with Some (_, x) => x | None => 0 end.
Proof.
  induction rest as [|c rest IH]; intros [|fuel] l1 a s Hq El Hfl Hf; simpl in Hf; try lia; cbn [skip_loop].
  all: pose proof (q_linked _ _ Hq) as Hl; rewrite El in Hl; apply linked_app_r in Hl.
  all: apply linked_cons in Hl as (Ha & (na & Hna & Enx) & Hl); step.
  { unfold ptr in Enx. simpl in Enx. rewrite Enx, Z.eqb_refl. exists a, na, s.
    split_and!; [done|apply waits_cleared_refl|done|done]. }
  apply linked_cons in Hl as (Hc & (nc & Hnc & _) & _). change (ptr (c :: rest) 0) with c in Enx. rewrite Enx.
  destruct (Z.eqb_spec c 0); [done|]. step. destruct (q_tasks _ _ Hq c nc Hnc) as [tc Htc]. step.
  assert (Hrun : runnable s c ↔ blocked tc = false).
  { unfold runnable, task_at. rewrite Hnc. simpl. rewrite Htc. simpl. split; congruence. }
  simpl. destruct (blocked tc) eqn:Eb.
  2: { rewrite decide_True by tauto. exists a, na, s. split_and!; [done|apply waits_cleared_refl|done|done]. }
  rewrite decide_False by (rewrite Hrun; done).
  destruct (clear_waiting_spec fl s l a na Hq Hfl Hna) as (s1 & E1 & W1 & Hoth).
  rewrite (bind_ret _ _ _ _ _ E1). cbn beta.
  assert (En1 : nodes s1 = nodes s) by (destruct W1 as [-> _]; done).
  destruct (IH fuel (l1 ++ [a]) c s1) as (b & nb & s2 & E2 & W2 & Hb & Hnb);
    [by eapply cleared_queue|by rewrite <- app_assoc|done|lia|].
  exists b, nb, s2. rewrite En1 in Hb. split_and!; [done|by eapply waits_cleared_trans|done|].
  rewrite Hnb. assert (Hext : list_find (runnable s1) rest = list_find (runnable s) rest).
  { apply list_find_ext_in. intros x Hx. unfold runnable, task_at. rewrite En1.
    destruct (nodes s !! x) as [nx|] eqn:Ex; [|done]. simpl. rewrite Hoth; [done|]. intros E.
    assert (x = a) as ->.
    { eapply (q_procs _ _ Hq x a nx na); try done; rewrite El, elem_of_app; right; [by do 2 right|left]. }
    pose proof (q_nodup _ _ Hq) as Hnd. rewrite El in Hnd. apply NoDup_app in Hnd as (_ & _ & Hnd).
    apply NoDup_cons in Hnd as [Hnd _]. apply Hnd. by right. }
  rewrite Hext. by destruct (list_find (runnable s) rest) as [[j x]|].
Qed.

Lemma pick_next_spec fuel s l l1 a rest :
  queue s l → l = l1 ++ a :: rest → (length l < fuel)%nat →
  ∃ s', pick_next fuel a s = Ret (next_task s rest, s') ∧ waits_cleared l s s'.
Proof.
  intros Hq El Hf. unfold pick_next, next_task.
  destruct (skip_loop_spec fuel l rest fuel l1 a s Hq El Hf) as (b & nb & s1 & E1 & W1 & Hb & Hnb).
  { rewrite El, length_app in Hf. simpl in Hf. lia. }
  rewrite (bind_ret _ _ _ _ _ E1). cbn beta. pose proof (cleared_queue _ _ _ W1 Hq) as Hq1.
  assert (Hb1 : nodes s1 !! b = Some nb) by (destruct W1 as [-> _]; done).
  destruct (clear_waiting_spec fuel s1 l b nb Hq1 Hf Hb1) as (s2 & E2 & W2 & _).
  rewrite (bind_ret _ _ _ _ _ E2). cbn beta. pose proof (waits_cleared_trans _ _ _ _ W1 W2) as W.
  assert (Hb2 : nodes s2 !! b = Some nb) by (destruct W2 as [-> _]; done). step. rewrite Hnb.
  exists s2. split; [|done]. destruct (list_find (runnable s) rest) as [[j x]|] eqn:E.
  - apply list_find_Some in E as (Hj & _ & _).
    assert (x ∈ l) as [k Hk]%list_elem_of_lookup.
    { rewrite El, elem_of_app. right. right. by eapply list_elem_of_lookup_2. }
    destruct (q_linked _ _ Hq k x Hk) as [Hx _]. destruct (Z.eqb_spec x 0); done.
  - simpl. unfold gets. by destruct W as [-> _].
Qed.

(** What [schedule] does when it leaves from node [a] of the list: the next
    runnable node is chosen, the registers are loaded from its task, and the
    stack pointer of the task that gives up the processor is saved. *)
Record scheduled (first_switch : Z) (s : sched) (l : list Z) (me : Z) (rest : list Z) (s' : sched) : Prop := {
  sc_queue : queue s' l;
  sc_nodes : nodes s' = nodes s;
  sc_count : task_count s' = task_count s;
  sc_running : running_task s' = next_task s rest;
  sc_previous : previous s' = me;
  sc_cpu : ∃ n t, nodes s' !! running_task s' = Some n ∧ tasks s' !! process n = Some t ∧
    cpu_rsp s' = rsp t ∧ cpu_cr3 s' = cr3 t ∧ tss_rsp0 s' = u64 (process n + kstack_top);
  sc_saved : first_switch = 0 → rsp <$> task_at s' me = Some (cpu_rsp s);
  sc_tasks : ∀ p t, tasks s !! p = Some t → ∃ t', tasks s' !! p = Some t' ∧
    ∃ t1, cleared1 s l t t1 ∧ (t' = t1 ∨ (∃ n, nodes s !! me = Some n ∧ p = process n) ∧ t' = with_rsp t1 (cpu_rsp s));
}.

Lemma next_task_elem s l l1 a rest : queue s l → l = l1 ++ a :: rest → next_task s rest ∈ l.
Proof.
  intros Hq El. unfold next_task. destruct (list_find (runnable s) rest) as [[j x]|] eqn:E.
  - apply list_find_Some in E as (Hj & _ & _). rewrite El, elem_of_app. right. right.
    by eapply list_elem_of_lookup_2.
  - rewrite (q_head _ _ Hq), El. unfold ptr. destruct l1; simpl; left.
Qed.

Lemma switch_to_spec s l nxt me fs n np :
  queue s l → nodes s !! nxt = Some n → nodes s !! me = Some np →
  ∃ s' t, switch_to (process n) (process np) fs s = Ret (tt, s') ∧
    tasks s' !! process n = Some t ∧
    s' = with_cpu (with_tasks s (tasks s')) (rsp t) (cr3 t) ∧
    (∀ p t, tasks s !! p = Some t → ∃ t', tasks s' !! p = Some t' ∧
       (t' = t ∨ p = process np ∧ t' = with_rsp t (cpu_rsp s))) ∧
    (fs = 0 → rsp <$> tasks s' !! process np = Some (cpu_rsp s)).
Proof.
  intros Hq Hn Hp. destruct (q_tasks _ _ Hq _ _ Hn) as [t Ht]. destruct (q_tasks _ _ Hq _ _ Hp) as [tp Htp].
  unfold switch_to. destruct (Z.eqb_spec fs 0) as [->|Hfs].
  - set (s1 := with_tasks s (<[process np := with_rsp tp (cpu_rsp s)]> (tasks s))).
    rewrite (bind_ret _ _ s tt s1) by (step; by step). cbn beta.
    assert (∃ t1, tasks s1 !! process n = Some t1) as [t1 Ht1].
    { unfold s1. simpl. destruct (decide (process np = process n)) as [->|];
        [rewrite lookup_insert_eq|rewrite lookup_insert_ne by done]; eauto. }
    step. exists (with_cpu s1 (rsp t1) (cr3 t1)), t1. split_and!; try done.
    + intros p q Hq'. simpl. destruct (decide (process np = p)) as [<-|].
      * rewrite lookup_insert_eq. rewrite Hq' in Htp. injection Htp as ->. eauto.
      * rewrite lookup_insert_ne by done. eauto.
    + intros _. simpl. by rewrite lookup_insert_eq.
  - step. step. exists (with_cpu s (rsp t) (cr3 t)), t. split_and!; try done. eauto.
Qed.

(** The common end of [schedule], after [running_task] was chosen. *)
Lemma schedule_end fs s l l1 me rest s1 s2 np :
  queue s l → l = l1 ++ me :: rest → nodes s !! me = Some np → waits_cleared l s s1 →
  s2 = with_running (with_previous s1 me) (next_task s rest) →
  ∃ s', (r ← gets running_task; n ← get_node r; _ ← put_tss (u64 (process n + kstack_top));
    p ← gets previous; np ← get_node p; switch_to (process n) (process np) fs) s2 = Ret (tt, s') ∧
    scheduled fs s l me rest s'.
Proof.
  intros Hq El Hnp W ->. pose proof W as [Es1 _].
  destruct (linked_elem _ _ _ (q_linked _ _ Hq) (next_task_elem s l l1 me rest Hq El)) as [n Hn].
  set (s2 := with_running _ _). assert (En : nodes s2 = nodes s) by (unfold s2; simpl; rewrite Es1; done).
  assert (Hn2 : nodes s2 !! running_task s2 = Some n) by (rewrite En; exact Hn).
  step. step. step. set (s3 := with_tss s2 _).
  assert (Hp3 : nodes s3 !! previous s3 = Some np) by (unfold s3; simpl; rewrite Es1; exact Hnp). step. step.
  assert (Hq3 : queue s3 l).
  { eapply (queue_ext s1); [done|done|done|by eapply cleared_queue]. }
  destruct (switch_to_spec s3 l (running_task s3) me fs n np Hq3) as (s' & t & E & Ht & Es & Hts & Hsv); [done|done|].
  exists s'. split; [exact E|].
  assert (Hq' : queue s' l).
  { eapply (queue_ext s3); [by rewrite Es|by rewrite Es| |done].
    intros p [q Hpq]. destruct (Hts p q Hpq) as (q' & -> & _). eauto. }
  assert (Hc3 : cpu_rsp s3 = cpu_rsp s) by (unfold s3, s2; simpl; by rewrite Es1).
  assert (En' : nodes s' = nodes s) by (rewrite Es; unfold s3, s2; simpl; by rewrite Es1).
  constructor; try done.
  - rewrite Es. unfold s3, s2. simpl. by rewrite Es1.
  - by rewrite Es.
  - by rewrite Es.
  - exists n, t. rewrite En'. assert (running_task s' = next_task s rest) as -> by (by rewrite Es).
    split_and!; try done; by rewrite Es.
  - intros Hfs. unfold task_at. rewrite En', Hnp. simpl. rewrite Hsv by done. by f_equal.
  - intros p q Hpq. destruct (cleared_lookup _ _ _ _ _ W Hpq) as (q1 & Hq1 & Hc).
    destruct (Hts p q1 Hq1) as (q' & Hq'' & Hor). exists q'. split; [done|]. exists q1. split; [done|].
    destruct Hor as [->|[-> ->]]; [by left|right]. split; [eauto|]. by rewrite Hc3.
Qed.

Lemma schedule_spec fuel fs s l l1 me rest :
  queue s l → l = l1 ++ me :: rest → (length l < fuel)%nat →
  running_task s = me ∨ running_task s = 0 ∧ previous s = me →
  ∃ s', schedule fuel fs s = Ret (tt, s') ∧ scheduled fs s l me rest s'.
Proof.
  intros Hq El Hf Hor. unfold schedule. step. step.
  assert (me ∈ l) as Hin by (rewrite El, elem_of_app; right; left).
  destruct (linked_elem _ _ _ (q_linked _ _ Hq) Hin) as [np Hnp].
  apply list_elem_of_lookup in Hin as [k Hk]. destruct (q_linked _ _ Hq k me Hk) as [Hme _].
  destruct (pick_next_spec fuel s l l1 me rest Hq El Hf) as (s1 & E1 & W1).
  destruct Hor as [Hr|[Hr Hp]]; rewrite Hr.
  - destruct (Z.eqb_spec me 0); [done|].
    erewrite (bind_ret _ _ s); [|rewrite (bind_ret _ _ _ _ _ E1); cbn beta; step; done]. cbn beta.
    by eapply schedule_end.
  - simpl. rewrite Hp. destruct (decide (next np = 0)) as [En|En].
    + erewrite (bind_ret _ _ s); [|step; rewrite En, Z.eqb_refl; step; done]. cbn beta.
      assert (rest = []) as ->.
      { pose proof (q_linked _ _ Hq) as Hl. rewrite El in Hl. apply linked_app_r, linked_cons in Hl as (_ & (n' & Hn' & Hx) & Hl).
        destruct rest as [|c rest]; [done|]. apply linked_cons in Hl as (Hc & _). unfold ptr in Hx. simpl in Hx. congruence. }
      eapply (schedule_end fs s l l1 me [] s); try done; [apply waits_cleared_refl|].
      unfold next_task, with_running, with_previous. simpl. by rewrite Hp.
    + erewrite (bind_ret _ _ s); [|step; apply Z.eqb_neq in En; rewrite En;
        rewrite (bind_ret _ _ _ _ _ E1); cbn beta; done]. cbn beta.
      eapply (schedule_end fs s l l1 me rest s1); try done. destruct W1 as [-> _]. unfold with_running, with_previous. simpl. by rewrite Hp.
Qed.

(** ** The clock *)

Lemma dec_sleep_loop_spec rest : ∀ fuel s,
  linked (nodes s) rest → NoDup rest →
  (∀ a n, nodes s !! a = Some n → is_Some (tasks s !! process n)) →
  (∀ a b n n', a ∈ rest → b ∈ rest → nodes s !! a = Some n → nodes s !! b = Some n' →
     process n = process n' → a = b) →
  (length rest < fuel)%nat →
  ∃ T, dec_sleep_loop fuel (ptr rest 0) s = Ret (tt, with_tasks s T) ∧
    (∀ a n, a ∈ rest → nodes s !! a = Some n → T !! process n = dec_sleep <$> tasks s !! process n) ∧
    (∀ p, (∀ a n, a ∈ rest → nodes s !! a = Some n → process n ≠ p) → T !! p = tasks s !! p).
Proof.
  induction rest as [|a rest IH]; intros [|fuel] s Hl Hnd Ht Hp Hf; simpl in Hf; try lia; cbn [dec_sleep_loop].
  { exists (tasks s). simpl. split_and!; [by destruct s|by intros ? ? ?%not_elem_of_nil|done]. }
  apply linked_cons in Hl as (Ha & (n & Hn & Hx) & Hl). apply NoDup_cons in Hnd as [Har Hnd].
  change (ptr (a :: rest) 0) with a. destruct (Z.eqb_spec a 0); [done|]. step.
  destruct (Ht a n Hn) as [t Htk]. step. step. rewrite Hx. set (s1 := with_tasks s _).
  assert (Hdiff : ∀ b n', b ∈ rest → nodes s !! b = Some n' → process n ≠ process n').
  { intros b n' Hb Hn' E. apply Har. rewrite (Hp a b n n'); [done|left|by right|done..]. }
  destruct (IH fuel s1) as (T & E & H1 & H2); [done|done| | |lia|].
  { intros b n' Hn'. simpl. destruct (Ht b n' Hn') as [t' Ht'].
    destruct (decide (process n = process n')) as [->|]; [rewrite lookup_insert_eq|rewrite lookup_insert_ne by done]; eauto. }
  { intros b c n1 n2 Hb Hc. apply Hp; by right. }
  exists T. split; [exact E|]. split.
  - intros b n' [->|Hb]%elem_of_cons Hn'.
    + rewrite Hn in Hn'. injection Hn' as <-. rewrite H2 by (intros c nc Hc Hnc E'; by eapply Hdiff).
      simpl. by rewrite lookup_insert_eq, Htk.
    + rewrite (H1 b n') by done. simpl. by rewrite lookup_insert_ne by (by eapply Hdiff).
  - intros p Hpn. rewrite H2.
    + simpl. rewrite lookup_insert_ne; [done|]. apply (Hpn a); [left|done].
    + intros b n' Hb Hn'. apply (Hpn b); [by right|done].
Qed.

Lemma dec_sleep_count_spec fuel s l :
  queue s l → (length l < fuel)%nat →
  ∃ s', dec_sleep_count fuel s = Ret (tt, s') ∧ queue s' l ∧ s' = with_tasks s (tasks s') ∧
    (∀ a, a ∈ l → task_at s' a = dec_sleep <$> task_at s a) ∧
    (∀ p, (∀ a n, a ∈ l → nodes s !! a = Some n → process n ≠ p) → tasks s' !! p = tasks s !! p).
Proof.
  intros Hq Hf. unfold dec_sleep_count. step. rewrite (q_head _ _ Hq).
  destruct (dec_sleep_loop_spec l fuel s) as (T & E & H1 & H2);
    [apply Hq|apply Hq|by eapply q_tasks|by eapply q_procs|done|].
  exists (with_tasks s T). split; [exact E|].
  assert (Hta : ∀ a, a ∈ l → task_at (with_tasks s T) a = dec_sleep <$> task_at s a).
  { intros a Ha. destruct (linked_elem _ _ _ (q_linked _ _ Hq) Ha) as [n Hn]. unfold task_at. simpl.
    rewrite Hn. simpl. by apply (H1 a). }
  split_and!; try done. eapply (queue_ext s); try done. intros p [t Hp]. simpl.
  destruct (decide (Exists (λ a, process <$> nodes s !! a = Some p) l)) as [(a & Ha & Hap)%Exists_exists|Hno].
  - destruct (nodes s !! a) as [n|] eqn:Hn; simplify_eq/=. rewrite (H1 a n), Hp by done. eauto.
  - rewrite H2; [eauto|]. intros a n Ha Hn <-. apply Hno, Exists_exists. exists a. by rewrite Hn.
Qed.

(** [n] calls of [dec_sleep_count]. *)
Fixpoint sleep_counts (n fuel : nat) : SM unit :=
  match n with O => mret tt | S k => _ ← dec_sleep_count fuel; sleep_counts k fuel end.

Lemma sleep_counts_spec n : ∀ fuel s l,
  queue s l → (length l < fuel)%nat →
  ∃ s', sleep_counts n fuel s = Ret (tt, s') ∧ queue s' l ∧
    ∀ a, a ∈ l → task_at s' a = Nat.iter n dec_sleep <$> task_at s a.
Proof.
  induction n as [|n IH]; intros fuel s l Hq Hf; cbn [sleep_counts].
  { exists s. split_and!; try done. intros a _. by destruct (task_at s a). }
  destruct (dec_sleep_count_spec fuel s l Hq Hf) as (s1 & E1 & Hq1 & _ & H1 & _).
  rewrite (bind_ret _ _ _ _ _ E1). cbn beta. destruct (IH fuel s1 l Hq1 Hf) as (s2 & E2 & Hq2 & H2).
  exists s2. split_and!; try done. intros a Ha. rewrite H2, H1 by done.
  destruct (task_at s a); [|done]. cbn [fmap option_fmap option_map]. f_equal.
  symmetry. apply Nat.iter_succ_r.
Qed.

(** A task put to sleep for [time] such calls. *)
Lemma dec_sleep_iter n : ∀ t time,
  is_sleeping t = 1 → sleep_time t = time → 0 <= time < 2 ^ 64 → Z.of_nat n < 2 ^ 64 →
  let t' := Nat.iter n dec_sleep t in
  if decide (time ≠ 0 ∧ time <= Z.of_nat n) then is_sleeping t' = 0
  else is_sleeping t' = 1 ∧ sleep_time t' = u64 (time - Z.of_nat n).
Proof.
  induction n as [|n IH]; intros t time Hs Ht Hr Hn.
  { rewrite decide_False by lia. simpl. rewrite Z.sub_0_r, u64_small; done. }
  specialize (IH t time Hs Ht Hr ltac:(lia)). cbn zeta in *. set (t1 := Nat.iter n dec_sleep t) in *.
  change (Nat.iter (S n) dec_sleep t) with (dec_sleep t1). unfold dec_sleep at 1 2 3.
  destruct (decide (time ≠ 0 ∧ time <= Z.of_nat n)) as [Hd|Hd].
  - rewrite decide_True by lia. rewrite IH. done.
  - destruct IH as [-> E]. simpl. rewrite E.
    destruct (Z.eqb_spec (u64 (u64 (time - Z.of_nat n) - 1)) 0) as [Ez|Ez]; unfold u64 in *.
    + rewrite decide_True by lia. done.
    + rewrite decide_False by lia. split; [done|]. lia.
Qed.
