(* ===== verification/ProcessProps.v ===== *)
(** * ProcessProps: the task list under the system calls

    What the operations of [Process] do to the list of tasks, the invariant of
    every state they can reach, and the selection of the next task. *)
From S2P Require Import Prelude Process.

(** ** The system calls on a well-formed list *)

Lemma task_at_process s s' a :
  tasks s' = tasks s → process <$> nodes s' !! a = process <$> nodes s !! a → task_at s' a = task_at s a.
Proof.
  intros Et Ep. unfold task_at. rewrite Et. destruct (nodes s' !! a), (nodes s !! a); simplify_eq/=; [|done].
  congruence.
Qed.

Lemma next_task_ext s s' rest :
  (∀ a, task_at s' a = task_at s a) → queue_head s' = queue_head s → next_task s' rest = next_task s rest.
Proof.
  intros Ht Eh. unfold next_task. rewrite (list_find_ext (runnable s') (runnable s)).
  - by rewrite Eh.
  - intros a. unfold runnable. by rewrite Ht.
Qed.

Lemma elem_split (l : list Z) x : x ∈ l → ∃ l1 l2, l = l1 ++ x :: l2.
Proof. apply list_elem_of_split. Qed.

(** A node that is not the head has a predecessor. *)
Lemma split_nonhead l x : x ∈ l → ptr l 0 ≠ x → ∃ l1 a l2, l = l1 ++ a :: x :: l2.
Proof.
  intros (l1 & l2 & ->)%elem_split Hh. destruct (decide (l1 = [])) as [->|Hne]; [done|].
  destruct (exists_last Hne) as (l0 & a & ->). exists l0, a, l2. by rewrite <- app_assoc.
Qed.

(** [sys_exit]: the running task leaves the list and the next runnable task
    after [previous] runs. *)
Lemma sys_exit_spec fuel st s l1 a me l2 :
  queue s (l1 ++ a :: me :: l2) → running_task s = me →
  previous s ∈ l1 ++ a :: l2 → (length (l1 ++ a :: me :: l2) < fuel)%nat →
  ∃ s' k1 rest, l1 ++ a :: l2 = k1 ++ previous s :: rest ∧
    sys_exit fuel st s = Ret (tt, s') ∧ queue s' (l1 ++ a :: l2) ∧
    running_task s' = next_task s rest ∧ previous s' = previous s.
Proof.
  intros Hq Hr Hp Hf. rewrite length_app in Hf. simpl in Hf.
  destruct (delete_curr_spec fuel s l1 a me l2 Hq Hr) as (s1 & E1 & Hq1 & R1 & P1 & T1 & C1 & N1); [lia|].
  destruct (elem_split _ _ Hp) as (k1 & rest & El).
  destruct (schedule_spec fuel 1 s1 (l1 ++ a :: l2) k1 (previous s) rest Hq1 El) as (s' & E' & Hs);
    [rewrite length_app; simpl; lia|by right|].
  exists s', k1, rest. split_and!; [done| |apply Hs| |apply Hs].
  - unfold sys_exit. rewrite (bind_ret _ _ _ _ _ E1). done.
  - rewrite (sc_running _ _ _ _ _ _ Hs). apply next_task_ext.
    + intros b. by apply task_at_process.
    + rewrite (q_head _ _ Hq), (q_head _ _ Hq1). unfold ptr. by destruct l1.
Qed.

Lemma kill_loop_spec kernel l : ∀ fuel s w,
  linked (nodes s) l → (∀ a n, nodes s !! a = Some n → is_Some (tasks s !! process n)) → (length l < fuel)%nat →
  ∃ c, kill_loop kernel fuel w (ptr l 0) s = Ret (c, s) ∧
    match c with
    | KillKernel => ∃ a, a ∈ l ∧ has_pid s w a ∧ tname <$> task_at s a = Some kernel
    | KillCurrent => running_task s ∈ l ∧ has_pid s w (running_task s)
    | KillOther => ∀ a, a ∈ l → has_pid s w a → a ≠ running_task s ∧ tname <$> task_at s a ≠ Some kernel
    end.
Proof.
  induction l as [|a l IH]; intros [|fuel] s w Hl Ht Hf; simpl in Hf; try lia; cbn [kill_loop].
  { exists KillOther. split; [done|]. intros a Ha. by apply not_elem_of_nil in Ha. }
  apply linked_cons in Hl as (Ha & (n & Hn & Hx) & Hl). change (ptr (a :: l) 0) with a.
  destruct (Z.eqb_spec a 0); [done|]. step. destruct (Ht a n Hn) as [t Htk]. step. step. rewrite Hx.
  pose proof (has_pid_iff s w a n t Hn Htk) as Hp.
  assert (Hta : task_at s a = Some t) by (unfold task_at; rewrite Hn; exact Htk).
  destruct (Z.eqb_spec (pid t) w) as [E|E]; simpl.
  2: { destruct (IH fuel s w Hl Ht ltac:(lia)) as (c & Ec & Hc). exists c. split; [exact Ec|].
       destruct c; [destruct Hc as (b & ? & ?); exists b; split; [by right|done]|destruct Hc; split; [by right|done]|].
       intros b [->|Hb]%elem_of_cons Hpb; [tauto|by apply Hc]. }
  destruct (bool_decide_reflect (tname t = kernel)) as [Ek|Ek].
  { exists KillKernel. split; [done|]. exists a. rewrite Hta. split_and!; [left|tauto|]. simpl. congruence. }
  destruct (Z.eqb_spec a (running_task s)) as [Er|Er].
  { exists KillCurrent. split; [done|]. rewrite <- Er. split; [left|tauto]. }
  destruct (IH fuel s w Hl Ht ltac:(lia)) as (c & Ec & Hc). exists c. split; [exact Ec|].
  destruct c; [destruct Hc as (b & ? & ?); exists b; split; [by right|done]|destruct Hc; split; [by right|done]|].
  intros b [->|Hb]%elem_of_cons Hpb; [|by apply Hc]. split; [done|]. rewrite Hta. simpl. congruence.
Qed.

(** ** The states the kernel can reach *)

Definition ids (s : sched) (a : Z) : option (Z * Z) := (λ t, (pid t, ppid t)) <$> task_at s a.

(** The running node and the one before it are nodes of the list, and they
    differ unless the head runs alone; before the first switch [previous] is
    NULL and the head is the running task. *)
Record sched_inv (s : sched) (l : list Z) : Prop := {
  inv_queue : queue s l;
  inv_running : running_task s ∈ l ∨ l = [] ∧ running_task s = 0;
  inv_previous : previous s = 0 ∧ running_task s = queue_head s ∨
    previous s ∈ l ∧ (previous s = running_task s → running_task s = queue_head s);
  inv_ids : ∀ a x y, a ∈ l → ids s a = Some (x, y) → x ≠ y;
}.

(** The invariant does not depend on what the processor has loaded. *)
Lemma inv_cpu s l r c : sched_inv s l → sched_inv (with_cpu s r c) l.
Proof. intros [[] I2 I3 I4]. constructor; [by constructor|done..]. Qed.

Lemma inv_empty c t r cr : sched_inv (Sched ∅ ∅ 0 0 0 c t r cr) [].
Proof.
  constructor; [|by right|by left|by intros a x y Ha%not_elem_of_nil].
  constructor; [done|by intros i a Hi|apply NoDup_nil_2|done|by intros a n Hn|].
  by intros a b n n' Ha%not_elem_of_nil.
Qed.

(** Enough fuel for every loop over the list. *)
Definition fuel_of (s : sched) : nat := (size (nodes s) + 2)%nat.

Lemma queue_length s l : queue s l → (S (length l) < fuel_of s)%nat.
Proof.
  intros Hq. unfold fuel_of. enough (length l <= size (nodes s))%nat by lia.
  rewrite <- size_dom, <- (size_list_to_set (C := gset Z) l) by apply Hq. apply subseteq_size.
  intros a Ha. apply elem_of_list_to_set in Ha. apply elem_of_dom.
  destruct (linked_elem _ _ _ (q_linked _ _ Hq) Ha) as [n Hn]. eauto.
Qed.

(** One event: a new task, a switch, a system call or a timer interrupt. *)
Inductive sched_step `{NodeAlloc} (kernel : list Z) : sched → sched → Prop :=
  | step_new s p t s' : tasks s !! p = None → pid t ≠ ppid t →
      add_to_task_list (fuel_of s) p (with_tasks s (<[p := t]> (tasks s))) = Ret (tt, s') → sched_step kernel s s'
  | step_schedule s fs s' : schedule (fuel_of s) fs s = Ret (tt, s') → sched_step kernel s s'
  | step_exit s st s' : sys_exit (fuel_of s) st s = Ret (tt, s') → sched_step kernel s s'
  | step_kill s w s' : sys_kill kernel (fuel_of s) w s = Ret (tt, s') → sched_step kernel s s'
  | step_sleep s time s' : sys_sleep (fuel_of s) time s = Ret (tt, s') → sched_step kernel s s'
  | step_wait s w bg v s' : sys_waitpid (fuel_of s) w bg s = Ret (v, s') → sched_step kernel s s'
  | step_tick s s' : dec_sleep_count (fuel_of s) s = Ret (tt, s') → sched_step kernel s s'.

Lemma scheduled_ids fs s l me rest s' a :
  queue s l → scheduled fs s l me rest s' → a ∈ l → ids s' a = ids s a.
Proof.
  intros Hq Hs Ha. destruct (linked_elem _ _ _ (q_linked _ _ Hq) Ha) as [n Hn].
  destruct (q_tasks _ _ Hq a n Hn) as [t Ht]. unfold ids, task_at.
  rewrite (sc_nodes _ _ _ _ _ _ Hs), Hn. simpl. rewrite Ht.
  destruct (sc_tasks _ _ _ _ _ _ Hs _ _ Ht) as (t' & -> & t1 & Hc & Hr).
  destruct Hc as [->|(_ & _ & ->)], Hr as [->|[_ ->]]; done.
Qed.

(** The stack pointer and the address space that the next switch to a task loads;
    only those of the task that leaves change. *)
Definition regs (s : sched) (a : Z) : option (Z * Z) := (λ t, (rsp t, cr3 t)) <$> task_at s a.

Lemma scheduled_regs fs s l me rest s' a :
  queue s l → scheduled fs s l me rest s' → me ∈ l → a ∈ l → a ≠ me → regs s' a = regs s a.
Proof.
  intros Hq Hs Hm Ha Hne. destruct (linked_elem _ _ _ (q_linked _ _ Hq) Ha) as [n Hn].
  destruct (q_tasks _ _ Hq a n Hn) as [t Ht]. unfold regs, task_at.
  rewrite (sc_nodes _ _ _ _ _ _ Hs), Hn. simpl. rewrite Ht.
  destruct (sc_tasks _ _ _ _ _ _ Hs _ _ Ht) as (t' & -> & t1 & Hc & Hr).
  destruct Hr as [->|[(n' & Hn' & Ep) _]]; [by destruct Hc as [->|(_ & _ & ->)]|].
  exfalso. apply Hne. by apply (q_procs _ _ Hq a me n n').
Qed.

(** [next_task] never picks the node it leaves from, unless that is the head. *)
Lemma next_task_moves s l l1 me rest :
  queue s l → l = l1 ++ me :: rest → me = next_task s rest → next_task s rest = queue_head s.
Proof.
  intros Hq El E. unfold next_task in *. destruct (list_find (runnable s) rest) as [[j x]|] eqn:Ef; [|done].
  apply list_find_Some in Ef as (Hj & _ & _). exfalso. pose proof (q_nodup _ _ Hq) as Hnd. rewrite El in Hnd.
  apply NoDup_app in Hnd as (_ & _ & Hnd). apply NoDup_cons in Hnd as [Hnd _]. apply Hnd.
  subst x. by eapply list_elem_of_lookup_2.
Qed.

Lemma scheduled_inv fs s l l1 me rest s' :
  queue s l → (∀ a x y, a ∈ l → ids s a = Some (x, y) → x ≠ y) →
  l = l1 ++ me :: rest → scheduled fs s l me rest s' → sched_inv s' l.
Proof.
  intros Hq Hid El Hs. constructor.
  - apply Hs.
  - left. rewrite (sc_running _ _ _ _ _ _ Hs). by eapply next_task_elem.
  - right. rewrite (sc_previous _ _ _ _ _ _ Hs), (sc_running _ _ _ _ _ _ Hs). split.
    + rewrite El, elem_of_app. right. left.
    + intros E. rewrite (q_head _ _ (sc_queue _ _ _ _ _ _ Hs)), <- (q_head _ _ Hq). by eapply next_task_moves.
  - intros a x y Ha. rewrite (scheduled_ids _ _ _ _ _ _ _ Hq Hs Ha). by apply Hid.
Qed.

Lemma schedule_empty fuel fs s : queue s [] → running_task s = 0 → previous s = 0 → schedule fuel fs s = Crash.
Proof.
  intros Hq Hr Hp. unfold schedule. step. step. rewrite Hr, Hp. unfold mbind, sm_bind, get_node. simpl.
  by rewrite (q_null _ _ Hq).
Qed.

Lemma inv_schedule fuel s l fs u s' :
  sched_inv s l → (length l < fuel)%nat → schedule fuel fs s = Ret (u, s') → sched_inv s' l.
Proof.
  intros [Hq Hr Hp Hid] Hf E. destruct Hr as [Hr|[-> Hr]].
  - destruct (elem_split _ _ Hr) as (l1 & rest & El).
    destruct (schedule_spec fuel fs s l l1 (running_task s) rest Hq El Hf) as (s1 & E1 & Hs); [by left|].
    rewrite E1 in E. injection E as _ <-. by eapply scheduled_inv.
  - destruct Hp as [[Hp _]|[Hp _]]; [|by apply not_elem_of_nil in Hp]. by rewrite (schedule_empty fuel fs s Hq Hr Hp) in E.
Qed.

(** Updates of a task that keep its ids keep the invariant. *)
Lemma inv_put_task s l p t t' :
  sched_inv s l → tasks s !! p = Some t → pid t' = pid t → ppid t' = ppid t →
  sched_inv (with_tasks s (<[p := t']> (tasks s))) l.
Proof.
  intros [Hq Hr Hp Hid] Ht E1 E2. constructor; try done.
  - eapply (queue_ext s); try done. intros q Hqs. simpl. rewrite lookup_insert_is_Some.
    destruct (decide (p = q)); [by left|by right].
  - intros a x y Ha Hxy. apply (Hid a x y Ha). rewrite <- Hxy. unfold ids, task_at. simpl.
    destruct (nodes s !! a) as [n|]; [|done]. simpl. destruct (decide (p = process n)) as [->|];
      [rewrite lookup_insert_eq, Ht; simpl; congruence|by rewrite lookup_insert_ne].
Qed.

(** Removing a node other than the running one, then leaving from the running one. *)
Lemma inv_delete_schedule s l w s1 fuel fs u s' :
  sched_inv s l → (S (length l) < fuel)%nat → running_task s ∈ l →
  (∀ a, a ∈ l → list_find (has_pid s w) l ≠ None → has_pid s w a → a ≠ running_task s) →
  delete_from_task_list fuel w s = Ret (tt, s1) → schedule fuel fs s1 = Ret (u, s') → ∃ l', sched_inv s' l'.
Proof.
  intros [Hq Hr Hp Hid] Hf Hrl Hnr E1 E2.
  assert (Hcase : (previous s = queue_head s → ∀ a, l !! 0%nat = Some a → ¬ has_pid s w a) ∨
    ∃ a l0, l = a :: l0 ∧ previous s = a ∧ has_pid s w a).
  { destruct l as [|a l0]; [by left|]. destruct (decide (has_pid s w a)) as [Ha|Ha], (decide (previous s = a)) as [Epa|Epa].
    - right. eauto.
    - left. intros E. exfalso. apply Epa. rewrite E, (q_head _ _ Hq). done.
    - left. by intros _ b [= <-].
    - left. by intros _ b [= <-]. }
  destruct Hcase as [Hok|(a & l0 & -> & Epa & Ha)].
  - destruct (delete_from_spec fuel s l w Hq Hf Hok) as (s2 & E & Hq2 & R2 & P2 & T2 & C2 & N2).
    rewrite E in E1. injection E1 as <-.
    assert (Hin : running_task s ∈ remove_pid s w l ∧ (∀ a, a ∈ remove_pid s w l → a ∈ l) ∧
      (length (remove_pid s w l) <= length l)%nat).
    { destruct (list_find (has_pid s w) l) as [[k x]|] eqn:Ef; [|unfold remove_pid; rewrite Ef; auto].
      destruct (remove_pid_split s w l k x Ef) as [El ->]. apply list_find_Some in Ef as (Hk & Hpid & _).
      specialize (Hnr x (list_elem_of_lookup_2 _ _ _ Hk) ltac:(done) Hpid). split_and!.
      - rewrite El, elem_of_app, elem_of_cons in Hrl. rewrite elem_of_app.
        destruct Hrl as [?|[?|?]]; [by left|congruence|by right].
      - intros a Ha. rewrite El, elem_of_app, elem_of_cons. rewrite elem_of_app in Ha. tauto.
      - rewrite length_app, length_take, length_drop. lia. }
    destruct Hin as (Hin & Hsub & Hlen). exists (remove_pid s w l).
    destruct (elem_split _ _ Hin) as (k1 & rest & El').
    destruct (schedule_spec fuel fs s2 _ k1 (running_task s) rest Hq2 El') as (s3 & E3 & Hs); [lia|left; congruence|].
    rewrite E3 in E2. injection E2 as _ <-. eapply scheduled_inv; try done.
    intros a x y Ha Hxy. apply (Hid a x y); [by apply Hsub|]. rewrite <- Hxy. unfold ids.
    by rewrite (task_at_process s s2).
  - exfalso. revert E1. unfold delete_from_task_list. step. step. rewrite (q_head _ _ Hq).
    rewrite (bind_ret _ _ _ _ _ (find_pid_spec _ fuel s w (q_linked _ _ Hq) (q_tasks _ _ Hq) ltac:(lia))). cbn beta.
    simpl. rewrite decide_True by done. destruct (q_linked _ _ Hq 0%nat a eq_refl) as [Ha0 _].
    destruct (Z.eqb_spec a 0); [done|]. rewrite Epa, Z.eqb_refl. unfold mbind, sm_bind at 1.
    rewrite (find_before_crash (a :: l0)); try done; [apply Hq|apply Hq| |simpl in *; lia].
    pose proof (q_nodup _ _ Hq) as Hnd. simpl. by apply NoDup_cons in Hnd as [? _].
Qed.

Lemma inv_get_running s l me s1 :
  sched_inv s l → get_running_task s = Ret (me, s1) →
  s1 = s ∧ running_task s ∈ l ∧ ∃ n, nodes s !! running_task s = Some n ∧ me = process n.
Proof.
  intros [Hq Hr _ _]. unfold get_running_task. step. unfold mbind, sm_bind, get_node.
  destruct (nodes s !! running_task s) as [n|] eqn:Hn; [|done]. intros [= <- <-].
  split_and!; [done| |eauto]. destruct Hr as [|[_ E]]; [done|]. rewrite E, (q_null _ _ Hq) in Hn. done.
Qed.

(** Taking the running task out of the list leaves a list that still has
    [previous], and no running task. *)
Lemma inv_delete_curr fuel s l s1 :
  sched_inv s l → (S (length l) < fuel)%nat → running_task s ∈ l →
  delete_curr_from_task_list fuel s = Ret (tt, s1) →
  ∃ l', queue s1 l' ∧ running_task s1 = 0 ∧ previous s1 ∈ l' ∧ tasks s1 = tasks s ∧
    (∀ a, process <$> nodes s1 !! a = process <$> nodes s !! a) ∧
    (∀ a, a ∈ l' ↔ a ∈ l ∧ a ≠ running_task s) ∧ S (length l') = length l.
Proof.
  intros [Hq _ Hp _] Hf Hrl E1.
  destruct (decide (queue_head s = running_task s)) as [Eh|Eh].
  { exfalso. rewrite (q_head _ _ Hq) in Eh. destruct l as [|x l]; [by apply not_elem_of_nil in Hrl|].
    rewrite (delete_curr_head_crash fuel s x l Hq) in E1; [done|by rewrite <- Eh|simpl in Hf; lia]. }
  destruct (split_nonhead l (running_task s) Hrl) as (l1 & a & l2 & El); [by rewrite <- (q_head _ _ Hq)|].
  destruct Hp as [[_ Hp]|[Hpl Hp]]; [done|]. subst l.
  assert (Hiff : ∀ b, b ∈ l1 ++ a :: l2 ↔ b ∈ l1 ++ a :: running_task s :: l2 ∧ b ≠ running_task s).
  { pose proof (q_nodup _ _ Hq) as Hnd. apply NoDup_app in Hnd as (_ & Hnd & Hnd2).
    apply NoDup_cons in Hnd2 as [Hna Hnd2]. apply NoDup_cons in Hnd2 as [Hnr _].
    intros b. rewrite !elem_of_app, !elem_of_cons in *. split; [|tauto].
    intros Hb. split; [tauto|]. intros ->. destruct Hb as [Hb|[Hb|Hb]]; [|subst; tauto|done].
    apply (Hnd _ Hb). rewrite !elem_of_cons. tauto. }
  rewrite length_app in *. cbn [length] in *.
  destruct (delete_curr_spec fuel s l1 a (running_task s) l2 Hq eq_refl ltac:(lia))
    as (s2 & E & Hq1 & R1 & P1 & T1 & C1 & N1).
  rewrite E in E1. injection E1 as <-. exists (l1 ++ a :: l2). rewrite length_app, P1. cbn [length].
  do 2 (split; [done|]). split; [|do 3 (split; [done|]); lia].
  apply Hiff. split; [done|]. intros E'. apply Eh. symmetry. auto.
Qed.

Lemma delete_curr_returns s l :
  sched_inv s l → running_task s ∈ l → running_task s ≠ queue_head s →
  ∃ s1, delete_curr_from_task_list (fuel_of s) s = Ret (tt, s1).
Proof.
  intros [Hq _ _ _] Hrl Hne. pose proof (queue_length _ _ Hq) as Hf.
  destruct (split_nonhead l (running_task s) Hrl) as (l1 & a & l2 & ->); [by rewrite <- (q_head _ _ Hq); apply not_eq_sym|].
  rewrite length_app in Hf. cbn [length] in Hf.
  destruct (delete_curr_spec (fuel_of s) s l1 a (running_task s) l2 Hq eq_refl ltac:(lia)) as (s1 & E & _). eauto.
Qed.
Lemma leave_returns s l :
  queue s l → running_task s = 0 → previous s ∈ l → ∃ s', schedule (fuel_of s) 1 s = Ret (tt, s').
Proof.
  intros Hq Hr Hpl. pose proof (queue_length _ _ Hq) as Hf. destruct (elem_split _ _ Hpl) as (k1 & rest & El).
  destruct (schedule_spec (fuel_of s) 1 s _ k1 (previous s) rest Hq El ltac:(lia)) as (s' & E & _); [by right|eauto].
Qed.
(** Both together, as in [sys_exit]. *)
Lemma exit_returns s l :
  sched_inv s l → running_task s ∈ l → running_task s ≠ queue_head s →
  ∃ s1 s', delete_curr_from_task_list (fuel_of s) s = Ret (tt, s1) ∧ schedule (fuel_of s1) 1 s1 = Ret (tt, s').
Proof.
  intros Hi Hrl Hne. destruct (delete_curr_returns s l Hi Hrl Hne) as [s1 E1].
  destruct (inv_delete_curr _ s l s1 Hi (queue_length _ _ (inv_queue _ _ Hi)) Hrl E1) as (l' & Hq & R1 & P1 & _).
  destruct (leave_returns s1 l' Hq R1 P1) as [s' E2]. eauto.
Qed.

(** Switching away when no task runs. *)
Lemma inv_leave fuel s l u s' :
  queue s l → running_task s = 0 → previous s ∈ l → (length l < fuel)%nat →
  (∀ a x y, a ∈ l → ids s a = Some (x, y) → x ≠ y) → schedule fuel 1 s = Ret (u, s') →
  sched_inv s' l ∧ nodes s' = nodes s ∧ (∀ a, a ∈ l → ids s' a = ids s a) ∧
  ∀ a, a ∈ l → a ≠ previous s → regs s' a = regs s a.
Proof.
  intros Hq Hr Hpl Hf Hid E. destruct (elem_split _ _ Hpl) as (k1 & rest & El).
  destruct (schedule_spec fuel 1 s _ k1 (previous s) rest Hq El Hf) as (s3 & E3 & Hs); [by right|].
  rewrite E3 in E. injection E as _ <-. split; [by eapply scheduled_inv|]. split; [apply Hs|].
  split; [intros a Ha; by eapply scheduled_ids|intros a Ha Hne; by eapply scheduled_regs].
Qed.

(** [sys_exit] and [sys_kill] on the running task. *)
Lemma inv_exit_list fuel fuel' s l s1 u s' :
  sched_inv s l → (S (length l) < fuel)%nat → (length l <= fuel')%nat → running_task s ∈ l →
  delete_curr_from_task_list fuel s = Ret (tt, s1) → schedule fuel' 1 s1 = Ret (u, s') →
  ∃ l', sched_inv s' l' ∧ (∀ a, a ∈ l' ↔ a ∈ l ∧ a ≠ running_task s) ∧
    (∀ a, process <$> nodes s' !! a = process <$> nodes s !! a) ∧ ∀ a, a ∈ l' → ids s' a = ids s a.
Proof.
  intros Hinv Hf Hf' Hrl E1 E2.
  destruct (inv_delete_curr fuel s l s1 Hinv Hf Hrl E1) as (l' & Hq & R1 & P1 & T1 & N1 & Hl & Hlen).
  assert (Hids : ∀ a, ids s1 a = ids s a) by (intros a; unfold ids; by rewrite (task_at_process s s1)).
  destruct (inv_leave fuel' s1 l' u s') as (H1 & H2 & H3 & _); try done; [lia| |].
  - intros b x y [Hb _]%Hl. rewrite Hids. by apply (inv_ids _ _ Hinv b x y).
  - exists l'. split; [done|]. split; [done|]. rewrite H2. split; [done|]. intros a Ha. by rewrite H3, Hids.
Qed.
Lemma inv_exit fuel s l s1 u s' :
  sched_inv s l → (S (length l) < fuel)%nat → running_task s ∈ l →
  delete_curr_from_task_list fuel s = Ret (tt, s1) → schedule fuel 1 s1 = Ret (u, s') → ∃ l', sched_inv s' l'.
Proof.
  intros Hinv Hf Hrl E1 E2. destruct (inv_exit_list fuel fuel s l s1 u s' Hinv Hf ltac:(lia) Hrl E1 E2) as (l' & H & _). eauto.
Qed.

(** Splitting a sequence that returns. *)
Lemma bind_inv {A B} (x : SM A) (f : A → SM B) s b s' :
  (x ≫= f) s = Ret (b, s') → ∃ a s1, x s = Ret (a, s1) ∧ f a s1 = Ret (b, s').
Proof. unfold mbind, sm_bind. destruct (x s) as [[a s1]| |]; [eauto|done|done]. Qed.

Lemma get_task_inv p s t s1 : get_task p s = Ret (t, s1) → s1 = s ∧ tasks s !! p = Some t.
Proof. unfold get_task. destruct (tasks s !! p); [|done]. by intros [= <- <-]. Qed.

Lemma inv_kill kernel s l w u s' :
  sched_inv s l → sys_kill kernel (fuel_of s) w s = Ret (u, s') → ∃ l', sched_inv s' l'.
Proof.
  intros Hinv. pose proof Hinv as [Hq _ _ Hid]. pose proof (queue_length s l Hq) as Hf.
  unfold sys_kill. step. intros (me & s0 & Eme & E)%bind_inv.
  destruct (inv_get_running s l me s0 Hinv Eme) as (-> & Hrl & n & Hn & ->).
  apply bind_inv in E as (t & s0 & Et & E). apply get_task_inv in Et as [-> Ht].
  assert (Hta : task_at s (running_task s) = Some t) by (unfold task_at; rewrite Hn; exact Ht).
  destruct (Z.eqb_spec (ppid t) w) as [<-|Hw].
  - apply bind_inv in E as ([] & s1 & E1 & E2). eapply inv_delete_schedule; try done.
    intros a Ha _ Hpa ->. apply (Hid (running_task s) (pid t) (ppid t) Hrl).
    + unfold ids. by rewrite Hta.
    + unfold has_pid in Hpa. rewrite Hta in Hpa. simpl in Hpa. congruence.
  - destruct (kill_loop_spec kernel l (fuel_of s) s w (q_linked _ _ Hq) (q_tasks _ _ Hq) ltac:(lia)) as (c & Ec & Hc).
    rewrite (q_head _ _ Hq), (bind_ret _ _ _ _ _ Ec) in E. cbn beta in E. destruct c.
    + exists l. eapply (inv_schedule (fuel_of s)); [exact Hinv|lia|exact E].
    + apply bind_inv in E as ([] & s1 & E1 & E2). eapply (inv_exit (fuel_of s) s l); eauto.
    + apply bind_inv in E as ([] & s1 & E1 & E2). eapply inv_delete_schedule; try done.
      intros a Ha _ Hpa. by apply Hc.
Qed.

Lemma inv_wait s l w bg v s' :
  sched_inv s l → sys_waitpid (fuel_of s) w bg s = Ret (v, s') → sched_inv s' l.
Proof.
  intros Hinv. pose proof (queue_length s l (inv_queue _ _ Hinv)) as Hf.
  unfold sys_waitpid. destruct (bg =? 1); [by intros [= _ <-]|].
  intros (me & s0 & Eme & E)%bind_inv. destruct (inv_get_running s l me s0 Hinv Eme) as (-> & Hrl & n & Hn & ->).
  apply bind_inv in E as (t & s0 & Et & E). apply get_task_inv in Et as [-> Ht].
  revert E. step. intros (temp & s0 & Etemp & E)%bind_inv.
  assert (s0 = s) as ->.
  { assert (Hro : ∀ fuel x q r s1, find_child fuel x q s = Ret (r, s1) ∨ find_pid fuel x q s = Ret (r, s1) → s1 = s).
    { clear. induction fuel as [|f IH]; intros x q r s1 [H|H]; simpl in H; try done.
      all: destruct (q =? 0); [by injection H as _ <-|].
      all: apply bind_inv in H as (n & s2 & H1 & H); unfold get_node in H1; destruct (nodes s !! q); [|done];
        injection H1 as <- <-; apply bind_inv in H as (t & s2 & H1 & H); apply get_task_inv in H1 as [-> _];
        case_match; [by injection H as _ <-|eauto]. }
    destruct (w =? 0); eauto. }
  destruct (temp =? 0); [by injection E as _ <-|].
  apply bind_inv in E as (nc & s0 & Enc & E). unfold get_node in Enc. destruct (nodes s !! temp); [|done].
  injection Enc as <- <-. apply bind_inv in E as (child & s0 & Ech & E). apply get_task_inv in Ech as [-> Hch].
  revert E. step. step. intros (u & s1 & E1 & E)%bind_inv. apply bind_inv in E as (c2 & s2 & Ec2 & E).
  apply get_task_inv in Ec2 as [-> _]. injection E as _ <-.
  eapply (inv_schedule (fuel_of s)); [|lia|exact E1]. by eapply (inv_put_task s l _ t).
Qed.

(** A new task structure is no node's process. *)
Lemma inv_insert_fresh s l p t :
  sched_inv s l → tasks s !! p = None →
  let s1 := with_tasks s (<[p := t]> (tasks s)) in sched_inv s1 l ∧ not_queued s1 l p.
Proof.
  intros [Hq Hr Hp Hid] Hnone s1.
  assert (Hpn : ∀ a n, nodes s !! a = Some n → process n ≠ p).
  { intros a n Hn E'. destruct (q_tasks _ _ Hq a n Hn) as [? ?]. congruence. }
  split; [|intros a n _; apply Hpn]. constructor; try done.
  - eapply (queue_ext s); try done. intros q Hqs. simpl. rewrite lookup_insert_is_Some.
    destruct (decide (p = q)); [by left|by right].
  - intros a x y Ha Hxy. apply (Hid a x y Ha). rewrite <- Hxy. unfold ids, task_at. simpl.
    destruct (nodes s !! a) as [n|] eqn:Hn; [|done]. simpl. rewrite lookup_insert_ne; [done|].
    intros ->. by eapply Hpn.
Qed.

Lemma ids_insert_fresh s l p t a :
  queue s l → tasks s !! p = None → ids (with_tasks s (<[p := t]> (tasks s))) a = ids s a.
Proof.
  intros Hq Hnone. unfold ids, task_at. cbn. destruct (nodes s !! a) as [n|] eqn:Hn; [|done]. cbn.
  rewrite lookup_insert_ne; [done|]. intros ->. destruct (q_tasks _ _ Hq a n Hn) as [? ?]. congruence.
Qed.
Lemma ids_process s1 s2 a :
  process <$> nodes s2 !! a = process <$> nodes s1 !! a → tasks s2 = tasks s1 → ids s2 a = ids s1 a.
Proof.
  intros N T. unfold ids, task_at. rewrite T.
  destruct (nodes s1 !! a) as [n1|], (nodes s2 !! a) as [n2|]; simplify_eq/=; [by rewrite N|done].
Qed.

(** The ids after a node for [p] was appended. *)
Lemma added_ids s1 s2 l p t x :
  tasks s1 !! p = Some t → pid t ≠ ppid t → process <$> nodes s2 !! x = Some p → tasks s2 = tasks s1 →
  (∀ a, a ≠ x → process <$> nodes s2 !! a = process <$> nodes s1 !! a) →
  (∀ a u v, a ∈ l → ids s1 a = Some (u, v) → u ≠ v) →
  ∀ a u v, a ∈ l ++ [x] → ids s2 a = Some (u, v) → u ≠ v.
Proof.
  intros Ht Hne P2 T2 N2 Hid a u v Ha Hxy. destruct (decide (a = x)) as [->|Hax].
  - unfold ids, task_at in Hxy. destruct (nodes s2 !! x) as [n|]; [|done]. simplify_eq/=. rewrite T2, Ht in Hxy. by simplify_eq/=.
  - rewrite elem_of_app, list_elem_of_singleton in Ha. apply (Hid a u v); [tauto|]. rewrite <- Hxy. symmetry. by apply ids_process; [apply N2|].
Qed.

Section AddTask.
Context `{A : NodeAlloc} {AL : NodeAllocLaws A}.

Lemma inv_add fuel s l p t s' :
  sched_inv s l → tasks s !! p = Some t → pid t ≠ ppid t → not_queued s l p → (length l < fuel)%nat →
  add_to_task_list fuel p s = Ret (tt, s') → sched_inv s' (l ++ [node_alloc (nodes s)]).
Proof.
  intros [Hq Hr Hp Hid] Ht Hne Hnq Hf E.
  destruct (add_to_task_list_spec fuel s l p Hq ltac:(eauto) Hnq Hf) as (s2 & E2 & Hq2 & P2 & T2 & V2 & R2 & _ & N2).
  rewrite E2 in E. injection E as <-. constructor.
  - done.
  - left. rewrite R2, elem_of_app. destruct Hr as [Hr|[-> Hr]].
    + left. by rewrite decide_False by (by intros ->; apply not_elem_of_nil in Hr).
    + right. simpl. left.
  - rewrite V2, R2, (q_head _ _ Hq2). destruct Hp as [[Hp Eh]|[Hpl Hp]].
    + left. split; [done|]. destruct l as [|a l]; [done|]. by rewrite Eh, (q_head _ _ Hq).
    + right. destruct l as [|a l]; [by apply not_elem_of_nil in Hpl|]. simpl decide.
      rewrite elem_of_app. split; [by left|]. intros Hpr. rewrite decide_False in * by done.
      by rewrite (Hp Hpr), (q_head _ _ Hq).
  - by eapply (added_ids s).
Qed.

(** Appending a node does not read the task structures. *)
Lemma seek_last_with_tasks T fuel : ∀ s u s',
  seek_last fuel s = Ret (u, s') → tasks s' = tasks s ∧ seek_last fuel (with_tasks s T) = Ret (u, with_tasks s' T).
Proof.
  induction fuel as [|fuel IH]; intros s u s'; cbn [seek_last]; [done|].
  unfold mbind, sm_bind, gets, get_node, put_queue_head. cbn [queue_head nodes with_tasks].
  destruct (nodes s !! queue_head s) as [n|]; [|done]. destruct (next n =? 0); [by intros [= <- <-]|].
  intros E. apply (IH (with_head s (next n))) in E. exact E.
Qed.

Lemma add_with_tasks T fuel p s u s' :
  add_to_task_list fuel p s = Ret (u, s') →
  tasks s' = tasks s ∧ add_to_task_list fuel p (with_tasks s T) = Ret (u, with_tasks s' T).
Proof.
  unfold add_to_task_list, mbind, sm_bind, gets. cbn [queue_head with_tasks].
  destruct (queue_head s =? 0); [by intros [= <- <-]|].
  destruct (seek_last fuel s) as [[[] s1]| |] eqn:E; [|done..].
  destruct (seek_last_with_tasks T _ _ _ _ E) as [H1 H2]. rewrite H2. cbn [nodes with_tasks put_nodes].
  unfold put_nodes, set_node_next, mbind, sm_bind, get_node, put_nodes, put_queue_head, put_count.
  cbn [queue_head nodes with_tasks with_nodes].
  destruct (<[_ := _]> (nodes s1) !! queue_head s1) as [n|] eqn:En; [|done]. intros [= <- <-]. by split.
Qed.

(** More fuel does not change the result. *)
Lemma seek_last_more g fuel : ∀ s u s', seek_last fuel s = Ret (u, s') → seek_last (fuel + g) s = Ret (u, s').
Proof.
  induction fuel as [|fuel IH]; intros s u s'; cbn [seek_last Nat.add]; [done|].
  unfold mbind, sm_bind, gets, get_node, put_queue_head. destruct (nodes s !! queue_head s) as [n|]; [|done].
  destruct (next n =? 0); [done|apply IH].
Qed.
Lemma add_more_fuel g fuel p s u s' :
  add_to_task_list fuel p s = Ret (u, s') → add_to_task_list (fuel + g) p s = Ret (u, s').
Proof.
  unfold add_to_task_list, mbind, sm_bind, gets. destruct (queue_head s =? 0); [done|].
  destruct (seek_last fuel s) as [[[] s1]| |] eqn:E; [|done..]. by rewrite (seek_last_more g _ _ _ _ E).
Qed.

(** The running task, which is not the head, leaves and a new task joins at the
    end: [exec]. *)
Lemma inv_replace s l p t :
  sched_inv s l → tasks s !! p = Some t → pid t ≠ ppid t → not_queued s l p →
  running_task s ∈ l → running_task s ≠ queue_head s →
  ∃ s1 s2 s' l' x, delete_curr_from_task_list (fuel_of s) s = Ret (tt, s1) ∧
    add_to_task_list (fuel_of s1) p s1 = Ret (tt, s2) ∧ schedule (fuel_of s2) 1 s2 = Ret (tt, s') ∧
    sched_inv s' (l' ++ [x]) ∧ (∀ a, a ∈ l' ↔ a ∈ l ∧ a ≠ running_task s) ∧
    process <$> nodes s' !! x = Some p ∧ ids s' x = Some (pid t, ppid t) ∧ regs s' x = Some (rsp t, cr3 t).
Proof.
  intros Hinv Ht Hne Hnq Hrl Hh. pose proof (queue_length _ _ (inv_queue _ _ Hinv)) as Hf1.
  destruct (delete_curr_returns s l Hinv Hrl Hh) as [s1 E1].
  destruct (inv_delete_curr _ s l s1 Hinv Hf1 Hrl E1) as (l' & Hq & R1 & P1 & T1 & N1 & Hl & Hlen).
  assert (Hnq1 : not_queued s1 l' p).
  { intros a n [Ha _]%Hl Hn. specialize (N1 a). rewrite Hn in N1. destruct (nodes s !! a) as [n0|] eqn:E0; [|done].
    simplify_eq/=. rewrite N1. by eapply Hnq. }
  pose proof (queue_length _ _ Hq) as Hf2.
  destruct (add_to_task_list_spec (fuel_of s1) s1 l' p Hq ltac:(rewrite T1; eauto) Hnq1 ltac:(lia))
    as (s2 & E2 & Hq2 & P2 & T2 & V2 & R2 & _ & N2).
  set (x := node_alloc (nodes s1)) in *. pose proof (queue_length _ _ Hq2) as Hf3.
  rewrite decide_False in R2 by (intros ->; by apply not_elem_of_nil in P1).
  assert (V3 : previous s2 ∈ l' ++ [x]) by (rewrite V2, elem_of_app; by left).
  destruct (leave_returns s2 (l' ++ [x]) Hq2 ltac:(congruence) V3) as [s' E3].
  destruct (inv_leave (fuel_of s2) s2 (l' ++ [x]) () s') as (H1 & H2 & H3 & H4); [done|congruence|done|lia| |done|].
  - eapply (added_ids s1); [by rewrite T1|done..|]. intros a u v [Ha _]%Hl Hxy. apply (inv_ids _ _ Hinv a u v Ha).
    rewrite <- Hxy. unfold ids. by rewrite (task_at_process s s1).
  - exists s1, s2, s', l', x. do 5 (split; [done|]). rewrite H2. split; [done|].
    assert (Hx : x ∈ l' ++ [x]) by (rewrite elem_of_app, list_elem_of_singleton; by right).
    assert (Hxv : x ≠ previous s2).
    { rewrite V2. intros Ex. pose proof (q_nodup _ _ Hq2) as Hnd. apply NoDup_app in Hnd as (_ & Hnd & _).
      apply (Hnd x); [by rewrite Ex|by left]. }
    rewrite H3, H4 by done. unfold ids, regs, task_at.
    destruct (nodes s2 !! x) as [n|]; [|done]. simplify_eq/=. by rewrite T2, T1, Ht.
Qed.
End AddTask.

Lemma inv_step `{A : NodeAlloc} {AL : NodeAllocLaws A} kernel s s' :
  sched_step kernel s s' → ∀ l, sched_inv s l → ∃ l', sched_inv s' l'.
Proof.
  intros Hstep l Hinv. pose proof Hinv as [Hq Hr Hp Hid]. pose proof (queue_length s l Hq) as Hf.
  destruct Hstep as [s p t s' Hnone Hpid E|s fs s' E|s st s' E|s w s' E|s time s' E|s w bg v s' E|s s' E].
  - destruct (inv_insert_fresh s l p t Hinv Hnone) as [H1 H2].
    eexists. eapply (inv_add (fuel_of s)); [exact H1|apply lookup_insert_eq|done|done|lia|exact E].
  - exists l. eapply (inv_schedule (fuel_of s)); [exact Hinv|lia|exact E].
  - unfold sys_exit in E. apply bind_inv in E as ([] & s1 & E1 & E2).
    destruct Hr as [Hr|[-> Hr]]; [by eapply (inv_exit (fuel_of s) s l)|].
    exfalso. revert E1. unfold delete_curr_from_task_list. step. step. rewrite (q_head _ _ Hq), Hr.
    destruct (fuel_of s) as [|f]; [lia|]. intros (temp & s2 & E & _)%bind_inv. revert E.
    cbn [find_before]. change (ptr [] 0) with 0. unfold mbind, sm_bind, get_node. by rewrite (q_null _ _ Hq).
  - by eapply inv_kill.
  - unfold sys_sleep in E. apply bind_inv in E as (me & s0 & Eme & E).
    destruct (inv_get_running s l me s0 Hinv Eme) as (-> & Hrl & n & Hn & ->).
    apply bind_inv in E as (t & s0 & Et & E). apply get_task_inv in Et as [-> Ht]. revert E. step. intros E.
    exists l. eapply (inv_schedule (fuel_of s)); [|lia|exact E]. by eapply (inv_put_task s l _ t).
  - exists l. by eapply inv_wait.
  - exists l. destruct (dec_sleep_count_spec (fuel_of s) s l Hq ltac:(lia)) as (s1 & E1 & Hq1 & Es & Ht & _).
    rewrite E1 in E. injection E as <-. constructor; [done|by rewrite Es|by rewrite Es|].
    intros a x y Ha. unfold ids. rewrite Ht by done. intros Hxy. apply (Hid a x y Ha). rewrite <- Hxy. unfold ids.
    destruct (task_at s a) as [t|]; [|done]. simpl. unfold dec_sleep. by case_match.
Qed.

(** ** A concrete system: the kernel's task and two processes *)

#[export] Instance fresh_alloc : NodeAlloc := λ N, fresh (0 :: (map_to_list N).*1).
#[export] Instance fresh_alloc_laws : NodeAllocLaws fresh_alloc.
Proof.
  split; intros N; unfold node_alloc, fresh_alloc; pose proof (infinite_is_fresh (0 :: (map_to_list N).*1)) as Hf.
  - intros E. apply Hf. rewrite E. left.
  - apply eq_None_not_Some. intros [n Hn]. apply Hf. right. apply list_elem_of_fmap.
    exists (fresh (0 :: (map_to_list N).*1), n). split; [done|]. by apply elem_of_map_to_list.
Qed.

Definition root_name : list Z := [114; 111; 111; 116].

(** Node 1 is the idle task, 2 the terminal, 3 a process started from it. *)
Definition demo (run prev : Z) : sched :=
  Sched (list_to_map [(1, ReadyTask 11 2); (2, ReadyTask 12 3); (3, ReadyTask 13 0)])
        (list_to_map [(11, Task 0 (2 ^ 64 - 1) root_name 100 200 0 0 0 0);
                      (12, Task 1 0 [111] 101 201 0 0 0 0);
                      (13, Task 2 1 [108] 102 202 0 0 0 0)])
        1 run prev 3 0 500 600.

Lemma demo_queue run prev : queue (demo run prev) [1; 2; 3].
Proof.
  constructor.
  - reflexivity.
  - intros [|[|[|i]]] a Hi; simplify_eq/=; (split; [done|]); eexists; split; vm_compute; reflexivity.
  - apply (bool_decide_unpack _). vm_compute. exact I.
  - reflexivity.
  - intros a n Hn. assert (map_Forall (λ _ n, is_Some (tasks (demo run prev) !! process n)) (nodes (demo run prev))) as Hall.
    { apply (bool_decide_unpack _). vm_compute. exact I. }
    by apply (Hall a n).
  - intros a b n n' Ha Hb. rewrite !elem_of_cons in Ha, Hb.
    destruct Ha as [->|[->|[->|Ha]]]; [..|by apply not_elem_of_nil in Ha];
      (destruct Hb as [->|[->|[->|Hb]]]; [..|by apply not_elem_of_nil in Hb]);
      intros Hn Hn' E; vm_compute in Hn, Hn'; simplify_eq; first [done|discriminate E].
Qed.

(** ** The theorems *)

(** C3: in every state reachable from the empty one by creating tasks, switching,
    exiting, killing, sleeping, waiting and timer interrupts, the nodes from
    [queue_head] form a list without repetition whose tasks are distinct and
    present, [running_task] is on it, and so is [previous] after the first
    switch, different from the running task unless that is the head. *)
Theorem task_list_integrity `{A : NodeAlloc} {AL : NodeAllocLaws A} kernel c r cr s :
  rtc (sched_step kernel) (Sched ∅ ∅ 0 0 0 c 0 r cr) s → ∃ l, sched_inv s l.
Proof.
  intros Hr. assert (∃ l, sched_inv (Sched ∅ ∅ 0 0 0 c 0 r cr) l) as Hinit by (exists []; apply inv_empty).
  induction Hr as [|s1 s2 s3 Hst _ IH]; [done|]. apply IH. destruct Hinit as [l Hl]. by eapply inv_step.
Qed.

Lemma task_list_integrity_witness :
  ∃ s l, rtc (sched_step (H := fresh_alloc) root_name) (Sched ∅ ∅ 0 0 0 0 0 0 0) s ∧ sched_inv s l.
Proof.
  set (t := Task 0 (2 ^ 64 - 1) root_name 100 200 0 0 0 0).
  destruct (add_to_task_list (fuel_of (Sched ∅ ∅ 0 0 0 0 0 0 0)) 11
    (with_tasks (Sched ∅ ∅ 0 0 0 0 0 0 0) {[11 := t]})) as [[[] s]| |] eqn:E;
    [|vm_compute in E; discriminate|vm_compute in E; discriminate].
  assert (Hr : rtc (sched_step (H := fresh_alloc) root_name) (Sched ∅ ∅ 0 0 0 0 0 0 0) s).
  { apply rtc_once. eapply (step_new root_name _ 11 t); [reflexivity|discriminate|exact E]. }
  destruct (task_list_integrity (AL := fresh_alloc_laws) root_name 0 0 0 s Hr) as [l Hl].
  exists s, l. split; [exact Hr|exact Hl].
Defined.

(** C5: [schedule] gives the processor to the first task after the running one
    that neither sleeps nor waits, and to the head of the list if there is
    none; it saves the stack pointer of the task it leaves, loads stack and
    address space of the chosen one, keeps the list and changes tasks only by
    clearing the wait for children that are done. *)
Theorem schedule_selects_next_runnable fuel fs s l l1 rest :
  queue s l → l = l1 ++ running_task s :: rest → (length l < fuel)%nat →
  ∃ s', schedule fuel fs s = Ret (tt, s') ∧ scheduled fs s l (running_task s) rest s' ∧
    (running_task s' = queue_head s ∨ runnable s (running_task s')).
Proof.
  intros Hq El Hf. destruct (schedule_spec fuel fs s l l1 (running_task s) rest Hq El Hf) as (s' & E & Hs); [by left|].
  exists s'. split_and!; [done..|]. rewrite (sc_running _ _ _ _ _ _ Hs). unfold next_task.
  destruct (list_find (runnable s) rest) as [[j x]|] eqn:Ef; [|by left].
  right. by apply list_find_Some in Ef as (_ & ? & _).
Qed.

Lemma schedule_selects_next_runnable_witness :
  ∃ s', schedule 5 0 (demo 2 1) = Ret (tt, s') ∧ running_task s' = 3.
Proof.
  destruct (schedule_selects_next_runnable 5 0 (demo 2 1) [1; 2; 3] [1] [3] (demo_queue 2 1)) as (s' & E & Hs & _);
    [reflexivity|simpl; lia|].
  exists s'. split; [exact E|]. rewrite (sc_running _ _ _ _ _ _ Hs). vm_compute. reflexivity.
Defined.

(** C31: [sys_exit] takes the running task out of the list and gives the
    processor to the next runnable task after [previous]; the other tasks keep
    their order. *)
Theorem sys_exit_removes_current fuel st s l1 a me l2 :
  queue s (l1 ++ a :: me :: l2) → running_task s = me →
  previous s ∈ l1 ++ a :: l2 → (length (l1 ++ a :: me :: l2) < fuel)%nat →
  ∃ s' k1 rest, l1 ++ a :: l2 = k1 ++ previous s :: rest ∧
    sys_exit fuel st s = Ret (tt, s') ∧ queue s' (l1 ++ a :: l2) ∧
    running_task s' = next_task s rest ∧ previous s' = previous s.
Proof. apply sys_exit_spec. Qed.

Lemma sys_exit_removes_current_witness : ∃ s', sys_exit 5 0 (demo 2 1) = Ret (tt, s') ∧ queue s' [1; 3].
Proof.
  destruct (sys_exit_removes_current 5 0 (demo 2 1) [] 1 2 [3] (demo_queue 2 1)) as (s' & k1 & rest & _ & E & Hq & _);
    [reflexivity|left|simpl; lia|].
  exists s'. split; [exact E|exact Hq].
Defined.

(** [add_to_task_list] appends the process at the end of the list and keeps
    the order of the others, restores [queue_head], and starts the list (and
    makes the task the running one) when it was empty. *)
Theorem add_to_task_list_appends `{A : NodeAlloc} {AL : NodeAllocLaws A} fuel s l proc :
  queue s l → is_Some (tasks s !! proc) → not_queued s l proc → (length l < fuel)%nat →
  ∃ s' x, add_to_task_list fuel proc s = Ret (tt, s') ∧ queue s' (l ++ [x]) ∧
    process <$> nodes s' !! x = Some proc ∧ nodes s !! x = None ∧ tasks s' = tasks s ∧
    running_task s' = (if decide (l = []) then x else running_task s).
Proof.
  intros Hq Hp Hn Hf. destruct (add_to_task_list_spec fuel s l proc Hq Hp Hn Hf) as (s' & E & H1 & H2 & H3 & _ & H4 & _).
  exists s', (node_alloc (nodes s)). split_and!; try done. apply node_alloc_fresh.
Qed.

Lemma add_to_task_list_appends_witness :
  ∃ s' x, add_to_task_list (H := fresh_alloc) 5 14
    (with_tasks (demo 2 1) (<[14 := Task 3 1 [] 0 0 0 0 0 0]> (tasks (demo 2 1)))) = Ret (tt, s') ∧
    queue s' [1; 2; 3; x].
Proof.
  set (s := with_tasks (demo 2 1) _).
  assert (Hq : queue s [1; 2; 3]).
  { eapply (queue_ext (demo 2 1)); [reflexivity|reflexivity| |apply demo_queue].
    intros p Hp. simpl. apply lookup_insert_is_Some. destruct (decide (14 = p)); [by left|by right]. }
  destruct (add_to_task_list_appends (AL := fresh_alloc_laws) 5 s [1; 2; 3] 14 Hq) as (s' & x & E & Hq' & _).
  - eexists. vm_compute. reflexivity.
  - intros a n Ha. rewrite !elem_of_cons in Ha.
    destruct Ha as [->|[->|[->|Ha]]]; [..|by apply not_elem_of_nil in Ha];
      intros Hn; vm_compute in Hn; injection Hn as <-; discriminate.
  - simpl. lia.
  - exists s', x. split; [exact E|exact Hq'].
Defined.

(** [delete_from_task_list] removes the first task of the list with the pid
    and nothing else, and leaves the list alone when there is none; the node of
    [previous] is removed correctly too, unless it is the head. *)
Theorem delete_from_task_list_removes fuel s l w :
  queue s l → (S (length l) < fuel)%nat →
  (previous s = queue_head s → ∀ a, l !! 0%nat = Some a → ¬ has_pid s w a) →
  ∃ s', delete_from_task_list fuel w s = Ret (tt, s') ∧ queue s' (remove_pid s w l) ∧
    tasks s' = tasks s ∧ running_task s' = running_task s.
Proof.
  intros Hq Hf Hp. destruct (delete_from_spec fuel s l w Hq Hf Hp) as (s' & E & H1 & H2 & _ & H3 & _). eauto.
Qed.

Lemma delete_from_task_list_removes_witness :
  ∃ s', delete_from_task_list 5 2 (demo 2 3) = Ret (tt, s') ∧ queue s' [1; 2].
Proof.
  destruct (delete_from_task_list_removes 5 (demo 2 3) [1; 2; 3] 2 (demo_queue 2 3)) as (s' & E & Hq & _);
    [simpl; lia|discriminate|].
  exists s'. split; [exact E|]. exact Hq.
Defined.

(** C38: removing the running task works wherever it is in the list but at its
    head: there the search for its predecessor runs off the end of the list
    and follows a NULL pointer. *)
Theorem delete_curr_from_task_list_cases fuel s l :
  queue s l → running_task s ∈ l → (length l < fuel)%nat →
  if decide (queue_head s = running_task s) then delete_curr_from_task_list fuel s = Crash
  else ∃ s' l1 l2, delete_curr_from_task_list fuel s = Ret (tt, s') ∧
    l = l1 ++ running_task s :: l2 ∧ queue s' (l1 ++ l2) ∧ running_task s' = 0.
Proof.
  intros Hq Hr Hf. case_decide as Eh.
  - rewrite (q_head _ _ Hq) in Eh. destruct l as [|x l]; [by apply not_elem_of_nil in Hr|].
    apply (delete_curr_head_crash fuel s x l); [done|by rewrite <- Eh|simpl in Hf; lia].
  - destruct (split_nonhead l (running_task s) Hr) as (l1 & a & l2 & ->); [by rewrite <- (q_head _ _ Hq)|].
    rewrite length_app in Hf. simpl in Hf.
    destruct (delete_curr_spec fuel s l1 a _ l2 Hq eq_refl) as (s' & E & Hq' & R & _); [lia|].
    exists s', (l1 ++ [a]), l2. rewrite <- !app_assoc. done.
Qed.

Lemma delete_curr_from_task_list_cases_witness : delete_curr_from_task_list 5 (demo 1 2) = Crash.
Proof.
  exact (delete_curr_from_task_list_cases 5 (demo 1 2) [1; 2; 3] (demo_queue 1 2) ltac:(left) ltac:(simpl; lia)).
Defined.

(** [sys_sleep] marks the running task as asleep for the given time and leaves it
    in the list. *)
Lemma sys_sleep_sleeps fuel s l l1 rest time :
  queue s l → l = l1 ++ running_task s :: rest → (length l < fuel)%nat → 0 <= time < 2 ^ 31 →
  ∃ s1 t1, sys_sleep fuel time s = Ret (tt, s1) ∧ queue s1 l ∧
    task_at s1 (running_task s) = Some t1 ∧ is_sleeping t1 = 1 ∧ sleep_time t1 = time.
Proof.
  intros Hq El Hf Ht. assert (Hin : running_task s ∈ l) by (rewrite El, elem_of_app; right; left).
  destruct (linked_elem _ _ _ (q_linked _ _ Hq) Hin) as [nd Hnd]. destruct (q_tasks _ _ Hq _ _ Hnd) as [t Htk].
  set (t' := with_sleep t time 1). set (s0 := with_tasks s (<[process nd := t']> (tasks s))).
  assert (Hq0 : queue s0 l).
  { eapply (queue_ext s); try done. intros p Hp. simpl. apply lookup_insert_is_Some.
    destruct (decide (process nd = p)); [by left|by right]. }
  destruct (schedule_spec fuel 0 s0 l l1 (running_task s) rest Hq0 El Hf) as (s1 & E1 & Hs); [by left|].
  destruct (sc_tasks _ _ _ _ _ _ Hs (process nd) t') as (t1 & Ht1 & t2 & Hc & Hr); [simpl; apply lookup_insert_eq|].
  exists s1, t1. split; [|split; [apply Hs|]].
  - unfold sys_sleep, get_running_task. rewrite (bind_ret _ _ s (process nd) s) by (step; by step). cbn beta.
    step. rewrite u64_small by lia. step. exact E1.
  - unfold task_at. rewrite (sc_nodes _ _ _ _ _ _ Hs). simpl. rewrite Hnd. simpl. rewrite Ht1. split; [done|].
    destruct Hc as [->|(_ & _ & ->)], Hr as [->|[_ ->]]; done.
Qed.

(** [is_child_done] answers 0 only for a child that is in the list and
    asleep: a child that is still in the list and runs counts as done, so a
    parent waiting for it is made runnable before the child has exited. *)
Theorem is_child_done_on_live_child fuel s l w :
  queue s l → (length l < fuel)%nat →
  ∃ b, is_child_done fuel w s = Ret (b, s) ∧
    (b = false ↔ ∃ k a t, list_find (has_pid s w) l = Some (k, a) ∧ task_at s a = Some t ∧ is_sleeping t ≠ 0).
Proof.
  intros Hq Hf. exists (child_done s l w). split; [by apply is_child_done_spec|]. unfold child_done.
  destruct (list_find (has_pid s w) l) as [[k a]|] eqn:E.
  - destruct (task_at s a) as [t|] eqn:Et.
    + destruct (Z.eqb_spec (is_sleeping t) 0); split; try done.
      * intros (k' & a' & t' & [= <- <-] & Et' & Hs). congruence.
      * intros _. by exists k, a, t.
    + split; [done|]. intros (k' & a' & t' & [= <- <-] & Et' & _). congruence.
  - split; [done|]. intros (k' & a' & t' & ? & _). done.
Qed.

Lemma is_child_done_on_live_child_witness :
  ∃ b, is_child_done 5 2 (demo 2 1) = Ret (b, demo 2 1) ∧
    (b = false ↔ ∃ k a t, list_find (has_pid (demo 2 1) 2) [1; 2; 3] = Some (k, a) ∧
       task_at (demo 2 1) a = Some t ∧ is_sleeping t ≠ 0).
Proof. exact (is_child_done_on_live_child 5 (demo 2 1) [1; 2; 3] 2 (demo_queue 2 1) ltac:(simpl; lia)). Defined.

(** The test for the caller's parent comes before the one that protects the
    kernel: a task whose parent is the kernel's task kills it with the
    parent's pid, and the task named [kernel] leaves the list. *)
Theorem sys_kill_parent_skips_guard kernel fuel s k l l1 me rest t tk :
  queue s (k :: l) → running_task s = me → l = l1 ++ me :: rest → (S (S (length l)) < fuel)%nat →
  task_at s me = Some t → task_at s k = Some tk → tname tk = kernel → ppid t = pid tk → previous s ≠ k →
  ∃ s', sys_kill kernel fuel (pid tk) s = Ret (tt, s') ∧ queue s' l.
Proof.
  intros Hq Hr El Hf Ht Htk Hname Hpp Hprev.
  assert (Hk : has_pid s (pid tk) k) by (unfold has_pid; by rewrite Htk).
  destruct (delete_from_spec fuel s (k :: l) (pid tk) Hq) as (s1 & E1 & Hq1 & R1 & P1 & T1 & C1 & N1).
  { simpl. lia. }
  { intros Ep. exfalso. apply Hprev. rewrite Ep, (q_head _ _ Hq). done. }
  assert (Er : remove_pid s (pid tk) (k :: l) = l).
  { unfold remove_pid. simpl. by rewrite decide_True. }
  rewrite Er in Hq1.
  destruct (schedule_spec fuel 0 s1 l l1 me rest Hq1 El ltac:(lia)) as (s2 & E2 & Hs); [left; congruence|].
  exists s2. split; [|apply Hs]. unfold sys_kill, get_running_task. step.
  unfold task_at in Ht. destruct (nodes s !! me) as [n|] eqn:Hn; [|done]. simpl in Ht. rewrite <- Hr in Hn.
  rewrite (bind_ret _ _ s (process n) s) by (step; by step). cbn beta. step.
  rewrite Hpp, Z.eqb_refl. by rewrite (bind_ret _ _ _ _ _ E1).
Qed.

Lemma sys_kill_parent_skips_guard_witness :
  ∃ s', sys_kill root_name 5 0 (demo 2 3) = Ret (tt, s') ∧ queue s' [2; 3].
Proof.
  apply (sys_kill_parent_skips_guard root_name 5 (demo 2 3) 1 [2; 3] [] 2 [3]
    (Task 1 0 [111] 101 201 0 0 0 0) (Task 0 (2 ^ 64 - 1) root_name 100 200 0 0 0 0) (demo_queue 2 3));
    try reflexivity; [simpl; lia|discriminate].
Defined.
