(* ===== verification/Identity.v ===== *)
(** * Identity: what no operation on tasks changes

    The operations of [Process] move tasks in and out of the list, put them to
    sleep and wake them, but a task keeps its pid, its parent and its name for
    ever, a node keeps its task, and only two operations move the head of the
    list: [delete_from_task_list], when it removes the head, and
    [add_to_task_list] on the empty list.  [kept] is that relation between
    states, a preorder that composes along the monad. *)
From S2P Require Import Prelude Process ProcessProps.

Definition ident (t : task) : Z * Z * list Z := (pid t, ppid t, tname t).

Record kept (s s' : sched) : Prop := {
  kept_head : queue_head s' = queue_head s;
  kept_node : ∀ a p, process <$> nodes s !! a = Some p → process <$> nodes s' !! a = Some p;
  kept_task : ∀ p i, ident <$> tasks s !! p = Some i → ident <$> tasks s' !! p = Some i;
}.

#[export] Instance kept_preorder : PreOrder kept.
Proof.
  split; [by intros s; constructor|].
  intros s1 s2 s3 [H1 N1 T1] [H2 N2 T2]. constructor; [congruence|eauto..].
Qed.

(** The identity of the task at a node. *)
Definition ident_at (s : sched) (a : Z) : option (Z * Z * list Z) := ident <$> task_at s a.

Lemma kept_ident s s' a i : kept s s' → ident_at s a = Some i → ident_at s' a = Some i.
Proof.
  intros [_ N T]. unfold ident_at, task_at. destruct (nodes s !! a) as [n|] eqn:En; [|done]. cbn. intros Hi.
  specialize (N a (process n)). rewrite En in N. specialize (N eq_refl). destruct (nodes s' !! a) as [n'|]; [|done].
  injection N as N. cbn. rewrite N. by apply T.
Qed.

(** ** The elementary updates *)

Lemma kept_put s p t t' : tasks s !! p = Some t → ident t' = ident t → kept s (with_tasks s (<[p := t']> (tasks s))).
Proof.
  intros Ht Hi. constructor; [done..|]. intros q i Hq. cbn. destruct (decide (p = q)) as [->|Hne].
  - rewrite lookup_insert_eq. rewrite Ht in Hq. cbn in *. congruence.
  - by rewrite lookup_insert_ne.
Qed.

Lemma kept_new s p t : tasks s !! p = None → kept s (with_tasks s (<[p := t]> (tasks s))).
Proof.
  intros Hp. constructor; [done..|]. intros q i Hq. cbn. rewrite lookup_insert_ne; [done|]. intros ->. by rewrite Hp in Hq.
Qed.

(** ** Along the monad *)

Definition stays {A} (x : SM A) : Prop := ∀ s a s', x s = Ret (a, s') → kept s s'.
Definition reads {A} (x : SM A) : Prop := ∀ s a s', x s = Ret (a, s') → s' = s.

Create HintDb stays discriminated.

Lemma stays_bind {A B} (x : SM A) (f : A → SM B) : stays x → (∀ a, stays (f a)) → stays (x ≫= f).
Proof. intros Hx Hf s b s' (a & s1 & E1 & E2)%bind_inv. etrans; [by eapply Hx|by eapply Hf]. Qed.
Lemma stays_reads {A} (x : SM A) : reads x → stays x.
Proof. intros H s a s' E. by rewrite (H _ _ _ E). Qed.

Lemma reads_bind {A B} (x : SM A) (f : A → SM B) : reads x → (∀ a, reads (f a)) → reads (x ≫= f).
Proof. intros Hx Hf s b s' (a & s1 & E1 & E2)%bind_inv. rewrite (Hf _ _ _ _ E2). by eapply Hx. Qed.
Lemma reads_ret {A} (a : A) : reads (mret a).
Proof. by intros s b s' [= _ <-]. Qed.
Lemma reads_gets {A} (f : sched → A) : reads (gets f).
Proof. by intros s b s' [= _ <-]. Qed.
Lemma reads_no_fuel {A} : reads (no_fuel (A := A)).
Proof. by intros s b s'. Qed.
Lemma reads_get_node p : reads (get_node p).
Proof. intros s b s'. unfold get_node. destruct (nodes s !! p); [by intros [= _ <-]|done]. Qed.
Lemma reads_get_task p : reads (get_task p).
Proof. intros s b s'. unfold get_task. destruct (tasks s !! p); [by intros [= _ <-]|done]. Qed.
#[export] Hint Resolve reads_bind reads_ret reads_gets reads_no_fuel reads_get_node reads_get_task : stays.

Ltac reads_step := match goal with
  | |- reads (_ ≫= _) => apply reads_bind; [|intros ?]
  | |- reads (if _ then _ else _) => case_match
  | |- reads _ => solve [auto with stays]
  end.
Ltac reads_loop := let n := fresh in let IH := fresh in
  intros n; induction n as [|n IH]; intros; cbn [find_pid find_before find_child kill_loop]; repeat reads_step.

Lemma reads_find_pid w : ∀ n q, reads (find_pid n w q).
Proof. reads_loop. Qed.
Lemma reads_find_before x : ∀ n q, reads (find_before n x q).
Proof. reads_loop. Qed.
Lemma reads_find_child p : ∀ n q, reads (find_child n p q).
Proof. reads_loop. Qed.
Lemma reads_kill_loop kernel w : ∀ n q, reads (kill_loop kernel n w q).
Proof. reads_loop. Qed.
#[export] Hint Resolve reads_find_pid reads_find_before reads_find_child reads_kill_loop : stays.

Lemma reads_get_running : reads get_running_task.
Proof. unfold get_running_task. auto with stays. Qed.
Lemma reads_is_child_done n w : reads (is_child_done n w).
Proof. unfold is_child_done. repeat reads_step. Qed.
#[export] Hint Resolve reads_get_running reads_is_child_done : stays.

(** ** Updates *)

Lemma stays_set_next p v : stays (set_node_next p v).
Proof.
  intros s [] s' (n & s1 & E1 & E2)%bind_inv. unfold get_node in E1. destruct (nodes s !! p) as [n'|] eqn:En; [|done].
  injection E1 as -> <-. injection E2 as <-. constructor; [done| |done]. intros a q Ha. cbn.
  destruct (decide (p = a)) as [->|]; [rewrite lookup_insert_eq; by rewrite En in Ha|by rewrite lookup_insert_ne].
Qed.

Ltac stays_field := let s := fresh in let s' := fresh in intros s [] s' [= <-]; by constructor.
Lemma stays_put_running p : stays (put_running p).
Proof. stays_field. Qed.
Lemma stays_put_previous p : stays (put_previous p).
Proof. stays_field. Qed.
Lemma stays_put_count c : stays (put_count c).
Proof. stays_field. Qed.
Lemma stays_put_tss v : stays (put_tss v).
Proof. stays_field. Qed.
Lemma stays_put_cpu r c : stays (put_cpu r c).
Proof. stays_field. Qed.

(** A task that was read is written back with its identity. *)
Lemma stays_update p (f : task → task) : (∀ t, ident (f t) = ident t) → stays (t ← get_task p; put_task p (f t)).
Proof.
  intros Hf s [] s' (t & s1 & [-> Ht]%get_task_inv & E)%bind_inv. injection E as <-. by eapply kept_put.
Qed.
Lemma stays_update_if p (c : task → SM bool) (f : task → task) (b : task → bool) :
  (∀ t, reads (c t)) → (∀ t, ident (f t) = ident t) →
  stays (t ← get_task p; if b t then d ← c t; if (d : bool) then put_task p (f t) else mret tt else mret tt).
Proof.
  intros Hc Hf s [] s' (t & s1 & [-> Ht]%get_task_inv & E)%bind_inv. destruct (b t); [|by injection E as <-].
  apply bind_inv in E as (d & s1 & Ed & E). rewrite (Hc _ _ _ _ Ed) in E. destruct d; injection E as <-; [by eapply kept_put|done].
Qed.
#[export] Hint Resolve stays_set_next stays_put_running stays_put_previous stays_put_count stays_put_tss stays_put_cpu
  stays_update : stays.

Ltac stays_step := match goal with
  | |- stays (_ ≫= _) => apply stays_bind; [|intros ?]
  | |- stays (if _ then _ else _) => case_match
  | |- stays _ => solve [auto with stays | apply stays_reads; repeat reads_step]
  end.

Lemma stays_clear_waiting n temp : stays (clear_waiting n temp).
Proof.
  unfold clear_waiting. apply stays_bind; [apply stays_reads; auto with stays|intros nd].
  apply (stays_update_if (process nd) (λ t, is_child_done n (is_waiting t)) (λ t, with_is_waiting t 0) (λ t, 0 <? is_waiting t));
    [auto with stays|done].
Qed.
#[export] Hint Resolve stays_clear_waiting : stays.
Lemma stays_skip_loop fl : ∀ n temp, stays (skip_loop fl n temp).
Proof. intros n. induction n as [|n IH]; intros temp; cbn [skip_loop]; repeat stays_step. Qed.
#[export] Hint Resolve stays_skip_loop : stays.
Lemma stays_pick_next n from : stays (pick_next n from).
Proof. unfold pick_next. repeat stays_step. Qed.
#[export] Hint Resolve stays_pick_next : stays.

Lemma stays_switch_to nxt me fs : stays (switch_to nxt me fs).
Proof.
  unfold switch_to. apply stays_bind; [|intros ?; repeat stays_step]. case_match; [|repeat stays_step].
  intros s [] s' (t & s1 & [-> Ht]%get_task_inv & E)%bind_inv. injection E as <-. by eapply kept_put.
Qed.
#[export] Hint Resolve stays_switch_to : stays.
Lemma stays_schedule n fs : stays (schedule n fs).
Proof. unfold schedule. repeat stays_step. Qed.
Lemma stays_delete_curr n : stays (delete_curr_from_task_list n).
Proof. unfold delete_curr_from_task_list. repeat stays_step. Qed.
#[export] Hint Resolve stays_schedule stays_delete_curr : stays.

Lemma stays_exit n st : stays (sys_exit n st).
Proof. unfold sys_exit. repeat stays_step. Qed.
Lemma stays_sleep n time : stays (sys_sleep n time).
Proof.
  unfold sys_sleep. apply stays_bind; [stays_step|intros me].
  intros s [] s' (t & s1 & [-> Ht]%get_task_inv & E)%bind_inv. apply bind_inv in E as ([] & s1 & [= <-] & E).
  etrans; [|by eapply stays_schedule]. by eapply kept_put.
Qed.
Lemma stays_waitpid n w bg : stays (sys_waitpid n w bg).
Proof.
  unfold sys_waitpid. case_match; [stays_step|]. do 4 (apply stays_bind; [repeat stays_step|intros ?]).
  case_match; [stays_step|]. apply stays_bind; [stays_step|intros nd]. apply stays_bind; [stays_step|intros ?].
  intros s v s' (t & s1 & [-> Ht]%get_task_inv & E)%bind_inv. apply bind_inv in E as ([] & s1 & [= <-] & E).
  apply bind_inv in E as ([] & s1 & E1%stays_schedule & E).
  assert (E2 : stays (child ← get_task (process nd); mret (pid child))) by (repeat stays_step).
  etrans; [|etrans; [exact E1|by eapply E2]]. by eapply kept_put.
Qed.
Lemma stays_dec_sleep n : stays (dec_sleep_count n).
Proof.
  unfold dec_sleep_count. apply stays_bind; [stays_step|]. induction n as [|n IH]; intros q; cbn [dec_sleep_loop]; [stays_step|].
  case_match; [stays_step|]. apply stays_bind; [stays_step|intros nd].
  intros s [] s' (t & s1 & [-> Ht]%get_task_inv & E)%bind_inv. apply bind_inv in E as ([] & s1 & [= <-] & E).
  etrans; [|by eapply IH]. eapply kept_put; [exact Ht|]. unfold dec_sleep. by case_match.
Qed.
#[export] Hint Resolve stays_exit stays_sleep stays_waitpid stays_dec_sleep : stays.

(** ** The head of the list *)

Lemma seek_last_head n : ∀ s a s', seek_last n s = Ret (a, s') → s' = with_head s (queue_head s').
Proof.
  induction n as [|n IH]; intros s a s'; cbn [seek_last]; [done|]. step. intros (nd & s1 & E1 & E)%bind_inv.
  apply reads_get_node in E1 as ->. destruct (next nd =? 0); [injection E as _ <-; by destruct s|].
  apply bind_inv in E as ([] & s1 & [= <-] & E). apply IH in E. exact E.
Qed.

(** A new node at the end of a list that is not empty. *)
Lemma kept_add `{A : NodeAlloc} {AL : NodeAllocLaws A} n p s s' :
  queue_head s ≠ 0 → add_to_task_list n p s = Ret (tt, s') → kept s s'.
Proof.
  intros Hq. unfold add_to_task_list. step. destruct (Z.eqb_spec (queue_head s) 0); [done|].
  intros ([] & s1 & E1 & E)%bind_inv. apply seek_last_head in E1. revert E. step. step. step.
  intros ([] & s2 & E2%stays_set_next & E)%bind_inv. injection E as <-. destruct E2 as [_ N T]. constructor; [done| |].
  - intros a q Ha. apply N. cbn. rewrite E1. cbn. rewrite lookup_insert_ne; [exact Ha|].
    intros <-. by rewrite node_alloc_fresh in Ha.
  - intros q i Hi. apply T. cbn. by rewrite E1.
Qed.

(** Removing a task other than the head. *)
Lemma kept_delete_from n w s l s' :
  queue s l → (S (length l) < n)%nat → (∀ a, l !! 0%nat = Some a → ¬ has_pid s w a) →
  delete_from_task_list n w s = Ret (tt, s') → kept s s'.
Proof.
  intros Hq Hn Hh E. destruct (delete_from_spec n s l w Hq Hn) as (s1 & E1 & Hq1 & _ & _ & T1 & _ & N1); [by intros _|].
  rewrite E1 in E. injection E as <-. constructor; [|intros a p; by rewrite N1|by rewrite T1].
  rewrite (q_head _ _ Hq), (q_head _ _ Hq1). destruct l as [|a l]; [done|]. specialize (Hh a eq_refl).
  unfold remove_pid. cbn [list_find]. rewrite decide_False by done. by destruct (list_find (has_pid s w) l) as [[k x]|].
Qed.

(** The kernel's task at the head: pid 0 under the name that [sys_kill] looks for. *)
Definition rooted (kernel : list Z) (s : sched) : Prop := ∃ x, ident_at s (queue_head s) = Some (0, x, kernel).

Lemma kept_rooted kernel s s' : rooted kernel s → kept s s' → rooted kernel s'.
Proof. intros [x Hx] Hk. exists x. rewrite (kept_head _ _ Hk). by eapply kept_ident. Qed.

Lemma rooted_pid kernel s l w a : queue s l → rooted kernel s → l !! 0%nat = Some a → has_pid s w a → w = 0.
Proof.
  intros Hq [x Hx] Ha. rewrite (q_head _ _ Hq) in Hx. unfold ptr in Hx. rewrite Ha in Hx. unfold ident_at, has_pid in *. cbn in Hx.
  destruct (task_at s a) as [t|]; [|done]. injection Hx as Hp _ _. intros [= <-]. done.
Qed.

(** The loop of [sys_kill] meets the kernel's task first. *)
Lemma kill_loop_root kernel n s l c s' :
  queue s l → rooted kernel s → kill_loop kernel n 0 (queue_head s) s = Ret (c, s') → c = KillKernel.
Proof.
  intros Hq [x Hx]. destruct n as [|n]; [done|]. cbn [kill_loop]. unfold ident_at, task_at in Hx.
  destruct (Z.eqb_spec (queue_head s) 0) as [E0|]; [rewrite E0, (q_null _ _ Hq) in Hx; done|].
  destruct (nodes s !! queue_head s) as [nd|] eqn:En; [|done]. cbn in Hx. destruct (tasks s !! process nd) as [t|] eqn:Et; [|done].
  injection Hx as H1 _ H2. step. step. step. rewrite H1, H2, bool_decide_true by done. by intros [= <- _].
Qed.

(** [sys_kill] spares the kernel's task, unless the caller is its child. *)
Lemma kept_kill kernel s l w s' :
  sched_inv s l → rooted kernel s → (∀ t, task_at s (running_task s) = Some t → ppid t ≠ 0) →
  sys_kill kernel (fuel_of s) w s = Ret (tt, s') → kept s s'.
Proof.
  intros Hinv Hroot Hpp. pose proof (inv_queue _ _ Hinv) as Hq. pose proof (queue_length s l Hq) as Hf.
  assert (Hdel : w ≠ 0 → ∀ s1, delete_from_task_list (fuel_of s) w s = Ret (tt, s1) → kept s s1).
  { intros Hw s1 E. eapply kept_delete_from; [exact Hq|exact Hf| |exact E]. intros a Ha Hp. apply Hw. by eapply rooted_pid. }
  unfold sys_kill. step. intros (me & s0 & Eme & E)%bind_inv.
  destruct (inv_get_running s l me s0 Hinv Eme) as (-> & Hrl & n & Hn & ->).
  apply bind_inv in E as (t & s0 & [-> Ht]%get_task_inv & E).
  assert (Hta : task_at s (running_task s) = Some t) by (unfold task_at; by rewrite Hn).
  destruct (Z.eqb_spec (ppid t) w) as [<-|Hw].
  - apply bind_inv in E as ([] & s1 & E1 & E2%stays_schedule). etrans; [|exact E2]. apply Hdel; [by apply Hpp|done].
  - apply bind_inv in E as (c & s1 & Ec & E). pose proof (reads_kill_loop _ _ _ _ _ _ _ Ec) as ->. destruct c.
    + by apply stays_schedule in E.
    + apply bind_inv in E as ([] & s1 & E1%stays_delete_curr & E2%stays_schedule). by etrans.
    + apply bind_inv in E as ([] & s1 & E1 & E2%stays_schedule). etrans; [|exact E2]. apply Hdel; [|done].
      intros ->. by apply (kill_loop_root kernel _ s l _ _ Hq Hroot) in Ec.
Qed.
