(* ===== verification/Console.v ===== *)
(** * Console: the text console and kprintf, src/sys/kprintf.c

    The screen is the 25 rows of 160 bytes at [vd_addr] (a character and an
    attribute byte per cell); the model keeps it as a byte store indexed by the
    offset from [vd_addr].  [print_seq] and [kprintf] take the characters of
    their strings as lists; the routines that build those strings in buffers
    are verified on the byte memory in [Strings] and, for [itoap], below. *)
From S2P Require Import Prelude Memory Utils Strings.

(** ** State *)

(** [X] is a byte column, [Y] a row; [crtc] lists the bytes sent to the ports
    of the display controller. *)
Record console := Console { X : Z; Y : Z; vram : mem; crtc : list (Z * Z) }.

Definition X_DEFAULT : Z := 0.
Definition Y_DEFAULT : Z := 0.

Definition with_vram (c : console) (v : mem) : console := Console (X c) (Y c) v (crtc c).
Definition with_cursor (c : console) (x y : Z) : console := Console x y (vram c) (crtc c).

(** ** The screen operations *)

Definition move_csr (c : console) : console :=
  let temp := u32 (Y c * 80 + Z.quot (X c) 2 + 1) in
  Console (X c) (Y c) (vram c)
    (crtc c ++ [(0x3D4, 14); (0x3D5, u8 (Z.shiftr temp 8)); (0x3D4, 15); (0x3D5, u8 temp)]).

(** [for (j = 0; j < 160; j++) { top[j] = next[j]; next[j] = 0; }], [n] rounds left. *)
Fixpoint move_row (n : nat) (v : mem) (top next : Z) : mem :=
  match n with
  | O => v
  | S n' => let v := wr v top (rd v next) in move_row n' (wr v next 0) (top + 1) (next + 1)
  end.

(** Rounds [i], [i+1], ... of the outer loop, [n] of them. *)
Fixpoint scroll_rows (n : nat) (v : mem) (i : Z) : mem :=
  match n with
  | O => v
  | S n' =>
      let next := i * 160 in
      let top := (i - 1) * 160 in
      let v := memset v top 0 160 in
      scroll_rows n' (move_row 160 v top next) (i + 1)
  end.

Definition scroll_up (c : console) : console :=
  move_csr (Console 0 23 (scroll_rows 23 (vram c) 1) (crtc c)).

Definition clear_screen (c : console) : console :=
  move_csr (Console X_DEFAULT Y_DEFAULT (memset (vram c) 0 0 (25 * 160)) (crtc c)).

Definition update_cursor (c : console) (x y : Z) : console :=
  let pos := u16 (y * 160 + Z.quot x 2) in
  Console (X c) (Y c) (vram c)
    (crtc c ++ [(0x3D4, 0x0F); (0x3D5, u8 (Z.land pos 0xFF)); (0x3D4, 0x0E); (0x3D5, u8 (Z.land (Z.shiftr pos 8) 0xFF))]).

(** The wrap to the next row, shared by the newline and the full row. *)
Definition next_row (c : console) (y : Z) : Z * console :=
  let y := y + 1 in if 23 <? y then (23, scroll_up c) else (y, c).

Fixpoint seq_loop (seq : list Z) (c : console) (x y : Z) : console * Z * Z :=
  match seq with
  | [] => (c, x, y)
  | ch :: seq' =>
      if ch =? 10 then
        let '(y, c) := next_row c y in seq_loop seq' c 0 y
      else if ch =? 13 then seq_loop seq' c x 0
      else
        let x := x + 2 in
        let '(x, y, c) := if 160 <=? x then let '(y, c) := next_row c y in (0, y, c) else (x, y, c) in
        seq_loop seq' (with_vram c (wr (vram c) (y * 160 + x) ch)) x y
  end.

Definition print_seq (seq : list Z) (c : console) (x y : Z) : console :=
  let overwrite_cood := (x =? -1) || (y =? -1) in
  let x := if x =? -1 then X c else x in
  let y := if y =? -1 then Y c else y in
  let '(c, x, y) := seq_loop seq c x y in
  let c := if overwrite_cood then with_cursor c x y else c in
  move_csr c.

(** ** Numbers: itoap *)

Definition itoap_digit (base num : Z) : Z :=
  if base =? 10 then num mod 10 + 48
  else let rem := num mod 16 in if 9 <? rem then rem - 10 + 97 else rem + 48.

(** The loop that writes the digits, the least significant first.  For other
    bases than 10 and 16 the body changes nothing and the loop does not end. *)
Fixpoint itoap_loop (fuel : nat) (m : mem) (num dest i base : Z) : option (Z * mem) :=
  match fuel with
  | O => None
  | S f =>
      if num =? 0 then Some (i, m)
      else if base =? 10 then
        itoap_loop f (wr m (dest + i) (itoap_digit base num)) (num / 10) dest (i + 1) base
      else if base =? 16 then
        itoap_loop f (wr m (dest + i) (itoap_digit base num)) (num / 16) dest (i + 1) base
      else itoap_loop f m num dest i base
  end.

(** [num] is unsigned, so the sign branch of the source is dead; [tr] is the
    address of the local buffer. *)
Definition itoap (fuel : nat) (m : mem) (num dest base tr : Z) : option (Z * mem) :=
  if num =? 0 then Some (2, wr (wr m dest 48) (dest + 1) 0)
  else
    '(i, m) ← itoap_loop fuel m num dest 0 base;
    let m := wr m (dest + i) 0 in
    m ← str_cpy fuel m tr dest;
    m ← str_reverse fuel m tr dest;
    r ← str_len fuel m dest;
    Some (r, m).

(** The characters it leaves. *)
Definition num_string (num base : Z) : list Z := if num =? 0 then [48] else digits_of 20 base num [].

(** ** kprintf *)

Inductive arg := ANum (n : Z) | AStr (s : list Z) | AChar (ch : Z).

(** A value for a local buffer of [FMT_LEN] bytes: [None] when it would be
    overrun. *)
Definition fits_buf (s : list Z) : option (list Z) :=
  if Z.of_nat (length s) <? FMT_LEN then Some s else None.

(** What one piece of the format prints, and the arguments left.  [after_ch]
    are the characters that follow the local variable [ch] in memory up to a
    zero byte: the source passes [&ch] where a string is expected. *)
Definition render_piece (after_ch piece : list Z) (args : list arg) : option (list Z * list arg) :=
  let identfr := take 2 piece in
  let trail := drop 2 piece in
  if bool_decide (identfr = [37; 100] ∨ identfr = [37; 120] ∨ identfr = [37; 112]) then
    let base := if bool_decide (identfr = [37; 112] ∨ identfr = [37; 120]) then 16 else 10 in
    match args with
    | ANum n :: args =>
        str ← fits_buf (num_string n base ++ trail);
        final_str ← (if bool_decide (identfr = [37; 112]) then fits_buf ([48; 120] ++ str) else Some str);
        Some (final_str, args)
    | _ => None
    end
  else if bool_decide (identfr = [37; 115]) then
    match args with
    | AStr s :: args => str ← fits_buf (s ++ trail); Some (str, args)
    | _ => None
    end
  else if bool_decide (identfr = [37; 99]) then
    match args with
    | AChar ch :: args =>
        str ← fits_buf ((if ch =? 0 then [] else ch :: after_ch) ++ trail); Some (str, args)
    | _ => None
    end
  else Some (piece, args).

Fixpoint kprintf_loop (after_ch : list Z) (ps : list (list Z)) (args : list arg) (c : console) (x y : Z)
    : option console :=
  match ps with
  | [] => Some c
  | p :: ps =>
      p ← fits_buf p;
      '(s, args) ← render_piece after_ch p args;
      kprintf_loop after_ch ps args (print_seq s c x y) x y
  end.

(** [fmt_split] has room for 10 pieces. *)
Definition kprintf (after_ch fmt : list Z) (args : list arg) (c : console) : option console :=
  let ps := pieces 37 [] fmt in
  if Z.of_nat (length ps) <=? 10 then kprintf_loop after_ch ps args c (-1) (-1) else None.

Definition kprintf_at (after_ch fmt : list Z) (x y : Z) (args : list arg) (c : console) : option console :=
  let ps := pieces 37 [] fmt in
  if Z.of_nat (length ps) <=? 10 then kprintf_loop after_ch ps args c x y else None.

(** The boot timer in the last row. *)
Fixpoint boott_loop (seq : list Z) (v : mem) (temp2 : Z) : mem :=
  match seq with
  | [] => v
  | ch :: seq' => boott_loop seq' (wr v (temp2 + 2) ch) (temp2 + 2)
  end.

Definition kprintf_boott (seq : list Z) (sec : Z) (c : console) : option console :=
  time_str ← fits_buf (seq ++ num_string (u64 (i32 sec)) 10);
  Some (with_vram c (boott_loop time_str (vram c) (24 * 160 + 100))).

(** ** Scrolling *)

Lemma move_row_rd n : ∀ v top b, (n <= 160)%nat →
  rd (move_row n v top (top + 160)) b =
  if decide (top <= b < top + Z.of_nat n) then rd v (b + 160)
  else if decide (top + 160 <= b < top + 160 + Z.of_nat n) then 0 else rd v b.
Proof.
  induction n as [|n IH]; intros v top b Hn; cbn [move_row].
  { repeat case_decide; try lia; done. }
  replace (top + 160 + 1) with (top + 1 + 160) by lia. rewrite IH by lia. rewrite !rd_wr.
  repeat case_decide; try lia; try done.
  subst. apply u8_small, rd_range.
Qed.

Lemma scroll_rows_rd n : ∀ v i b, 1 <= i →
  rd (scroll_rows n v i) b =
  if decide ((i - 1) * 160 <= b < (i - 1) * 160 + 160 * Z.of_nat n) then rd v (b + 160)
  else if decide ((n ≠ 0)%nat ∧ (i - 1) * 160 + 160 * Z.of_nat n <= b < (i - 1) * 160 + 160 * Z.of_nat (S n)) then 0
  else rd v b.
Proof.
  induction n as [|n IH]; intros v i b Hi; cbn [scroll_rows].
  { repeat case_decide; try lia; done. }
  rewrite IH by lia. replace (i * 160) with ((i - 1) * 160 + 160) by lia.
  rewrite !move_row_rd, !memset_rd by lia. change (u8 0) with 0. repeat case_decide; try lia; done.
Qed.

Arguments scroll_rows : simpl never.

(** ** The cursor stays on the screen *)

Definition on_screen (x y : Z) : Prop := 0 <= x < 160 ∧ x mod 2 = 0 ∧ 0 <= y <= 23.

(** The bytes below the scrolled rows, the boot timer's, are not touched. *)
Definition keeps_timer_row (c c' : console) : Prop :=
  ∀ b, b < 0 ∨ 24 * 160 <= b → rd (vram c') b = rd (vram c) b.

Lemma scroll_up_keeps c : keeps_timer_row c (scroll_up c).
Proof.
  intros b Hb. unfold scroll_up, move_csr. cbn [vram]. rewrite scroll_rows_rd by lia.
  repeat case_decide; try lia; done.
Qed.

Lemma next_row_spec c y :
  0 <= y <= 23 → let '(y', c') := next_row c y in 0 <= y' <= 23 ∧ keeps_timer_row c c'.
Proof.
  intros Hy. unfold next_row. destruct (Z.ltb_spec 23 (y + 1)); (split; [lia|]).
  - apply scroll_up_keeps.
  - done.
Qed.

Lemma keeps_timer_row_trans c1 c2 c3 :
  keeps_timer_row c1 c2 → keeps_timer_row c2 c3 → keeps_timer_row c1 c3.
Proof. intros H1 H2 b Hb. by rewrite H2, H1. Qed.

Lemma print_loop_bounds seq : ∀ c x y, on_screen x y →
  let '(c', x', y') := seq_loop seq c x y in on_screen x' y' ∧ keeps_timer_row c c'.
Proof.
  induction seq as [|ch seq IH]; intros c x y (Hx & He & Hy); cbn [seq_loop].
  { split; [done|by intros b]. }
  destruct (ch =? 10).
  { pose proof (next_row_spec c y Hy) as Hn. destruct (next_row c y) as [y1 c1]. destruct Hn as [Hy1 Hk1].
    specialize (IH c1 0 y1 ltac:(done)). destruct (seq_loop seq c1 0 y1) as [[c' x'] y'].
    destruct IH as [? ?]. split; [done|by eapply keeps_timer_row_trans]. }
  destruct (ch =? 13); [by apply IH|].
  assert (Hstep : ∀ x1 y1 c1, on_screen x1 y1 → keeps_timer_row c c1 →
    let '(c', x', y') := seq_loop seq (with_vram c1 (wr (vram c1) (y1 * 160 + x1) ch)) x1 y1 in
    on_screen x' y' ∧ keeps_timer_row c c').
  { intros x1 y1 c1 Ho Hk. specialize (IH (with_vram c1 (wr (vram c1) (y1 * 160 + x1) ch)) x1 y1 Ho).
    destruct (seq_loop seq _ x1 y1) as [[c' x'] y']. destruct IH as [? Hk2]. split; [done|].
    intros b Hb. rewrite Hk2 by done. simpl. destruct Ho as (? & ? & ?). rewrite rd_wr_ne by lia. by apply Hk. }
  destruct (Z.leb_spec 160 (x + 2)).
  - pose proof (next_row_spec c y Hy) as Hn. destruct (next_row c y) as [y1 c1]. destruct Hn as [Hy1 Hk1].
    by apply Hstep.
  - apply Hstep; [|by intros b]. split_and!; lia.
Qed.

(** ** Printing in pieces *)

(** What the printed text depends on: the cursor and the cells. *)
Definition screen (c : console) : Z * Z * mem := (X c, Y c, vram c).

Lemma next_row_vram c c' y :
  vram c = vram c' → (next_row c y).1 = (next_row c' y).1 ∧ vram (next_row c y).2 = vram (next_row c' y).2.
Proof. intros E. unfold next_row, scroll_up, move_csr. case_match; simpl; [|done]. rewrite E. split; reflexivity. Qed.

Lemma print_loop_vram seq : ∀ c c' x y, vram c = vram c' →
  (seq_loop seq c x y).1.2 = (seq_loop seq c' x y).1.2 ∧ (seq_loop seq c x y).2 = (seq_loop seq c' x y).2 ∧
  vram (seq_loop seq c x y).1.1 = vram (seq_loop seq c' x y).1.1.
Proof.
  induction seq as [|ch seq IH]; intros c c' x y E; cbn [seq_loop]; [done|].
  destruct (next_row_vram c c' y E) as [E1 E2].
  destruct (ch =? 10).
  { destruct (next_row c y) as [y1 c1], (next_row c' y) as [y2 c2]. simpl in E1, E2. subst y2. by apply IH. }
  destruct (ch =? 13); [by apply IH|].
  destruct (160 <=? x + 2).
  - destruct (next_row c y) as [y1 c1], (next_row c' y) as [y2 c2]. simpl in E1, E2. subst y2.
    apply IH. simpl. by rewrite E2.
  - apply IH. simpl. by rewrite E.
Qed.

Lemma print_loop_app s1 : ∀ s2 c x y,
  seq_loop (s1 ++ s2) c x y = let '(c1, x1, y1) := seq_loop s1 c x y in seq_loop s2 c1 x1 y1.
Proof.
  induction s1 as [|ch s1 IH]; intros s2 c x y; cbn [app seq_loop]; [done|].
  destruct (ch =? 10); [destruct (next_row c y); apply IH|].
  destruct (ch =? 13); [apply IH|].
  destruct (160 <=? x + 2); [destruct (next_row c y)|]; apply IH.
Qed.

Lemma print_seq_screen seq c :
  screen (print_seq seq c (-1) (-1)) =
  let '(c1, x1, y1) := seq_loop seq c (X c) (Y c) in (x1, y1, vram c1).
Proof. unfold print_seq. simpl. by destruct (seq_loop seq c (X c) (Y c)) as [[c1 x1] y1]. Qed.

(** Printing two strings one after the other prints their concatenation. *)
Lemma print_seq_app s1 s2 c :
  screen (print_seq s2 (print_seq s1 c (-1) (-1)) (-1) (-1)) = screen (print_seq (s1 ++ s2) c (-1) (-1)).
Proof.
  rewrite (print_seq_screen s2), (print_seq_screen (s1 ++ s2)), print_loop_app.
  pose proof (print_seq_screen s1 c) as E. destruct (seq_loop s1 c (X c) (Y c)) as [[c1 x1] y1].
  set (c' := print_seq s1 c (-1) (-1)) in *. unfold screen in E. injection E as -> -> Ev.
  destruct (print_loop_vram s2 c' c1 x1 y1 Ev) as (H1 & H2 & H3).
  destruct (seq_loop s2 c' x1 y1) as [[ca xa] ya], (seq_loop s2 c1 x1 y1) as [[cb xb] yb]. simpl in *. congruence.
Qed.

Lemma print_seq_proper s c c' :
  screen c = screen c' → screen (print_seq s c (-1) (-1)) = screen (print_seq s c' (-1) (-1)).
Proof.
  intros E. rewrite !print_seq_screen. unfold screen in E. injection E as -> -> Ev.
  destruct (print_loop_vram s c c' (X c') (Y c') Ev) as (H1 & H2 & H3).
  destruct (seq_loop s c _ _) as [[ca xa] ya], (seq_loop s c' _ _) as [[cb xb] yb]. simpl in *. congruence.
Qed.

(** The text the loop prints for its pieces. *)
Fixpoint loop_text (after_ch : list Z) (ps : list (list Z)) (args : list arg) : option (list Z) :=
  match ps with
  | [] => Some []
  | p :: ps =>
      p ← fits_buf p;
      '(s, args) ← render_piece after_ch p args;
      t ← loop_text after_ch ps args;
      Some (s ++ t)
  end.

Lemma kprintf_loop_text after_ch ps : ∀ args c str,
  loop_text after_ch ps args = Some str →
  ∃ c', kprintf_loop after_ch ps args c (-1) (-1) = Some c' ∧
    (ps ≠ [] → screen c' = screen (print_seq str c (-1) (-1))) ∧ (ps = [] → c' = c ∧ str = []).
Proof.
  induction ps as [|p ps IH]; intros args c str; cbn [loop_text kprintf_loop]; [intros [= <-]; eauto|].
  destruct (fits_buf p) as [p'|]; cbn [mbind option_bind]; [|done].
  destruct (render_piece after_ch p' args) as [[s args']|]; cbn [mbind option_bind]; [|done].
  destruct (loop_text after_ch ps args') as [t|] eqn:Et; cbn [mbind option_bind]; [|done]. intros [= <-].
  destruct (IH args' (print_seq s c (-1) (-1)) t Et) as (c' & E & H1 & H2). exists c'. split_and!; [done| |done].
  intros _. destruct ps as [|q ps].
  - destruct (H2 eq_refl) as [-> ->]. by rewrite app_nil_r.
  - rewrite H1 by done. apply print_seq_app.
Qed.

(** ** itoap *)

(** The digits, the least significant first. *)
Fixpoint rdigits (n : nat) (base num : Z) : list Z :=
  match n with
  | O => []
  | S n' => if num =? 0 then [] else hexdigit (num mod base) :: rdigits n' base (num / base)
  end.

Lemma digits_of_rdigits n base : ∀ num acc, digits_of n base num acc = reverse (rdigits n base num) ++ acc.
Proof.
  induction n as [|n IH]; intros num acc; simpl; [done|]. case_match; [done|].
  rewrite IH, reverse_cons, <- app_assoc. done.
Qed.

Lemma rdigits_length n base : ∀ num, (length (rdigits n base num) <= n)%nat.
Proof. induction n as [|n IH]; intros num; simpl; [lia|]. case_match; simpl; [lia|]. specialize (IH (num / base)). lia. Qed.

Lemma num_string_length n base : (length (num_string n base) <= 20)%nat.
Proof.
  unfold num_string. destruct (n =? 0); [simpl; lia|]. rewrite digits_of_rdigits, app_nil_r, length_reverse.
  apply rdigits_length.
Qed.

Lemma fits_some s : Z.of_nat (length s) < FMT_LEN → fits_buf s = Some s.
Proof. intros H. unfold fits_buf. by destruct (Z.ltb_spec (Z.of_nat (length s)) FMT_LEN); [|lia]. Qed.

Lemma hexdigit_range d : 0 <= d < 16 → 0 < hexdigit d < 256.
Proof. intros. unfold hexdigit. case_match; lia. Qed.

Lemma itoap_digit_hex base num :
  base = 10 ∨ base = 16 → 0 <= num → itoap_digit base num = hexdigit (num mod base).
Proof.
  intros [-> | ->] H; unfold itoap_digit, hexdigit; simpl.
  - destruct (Z.ltb_spec (num mod 10) 10); lia.
  - destruct (Z.ltb_spec 9 (num mod 16)), (Z.ltb_spec (num mod 16) 10); lia.
Qed.

Lemma itoap_loop_spec n : ∀ fuel m num dest i base,
  base = 10 ∨ base = 16 → 0 <= num < base ^ Z.of_nat n → (n < fuel)%nat →
  let ds := rdigits n base num in
  ∃ m', itoap_loop fuel m num dest i base = Some (i + Z.of_nat (length ds), m') ∧
    (∀ j c, ds !! j = Some c → rd m' (dest + i + Z.of_nat j) = c ∧ c ≠ 0) ∧
    (∀ b, b < dest + i ∨ dest + i + Z.of_nat (length ds) <= b → rd m' b = rd m b).
Proof.
  induction n as [|n IH]; intros [|fuel] m num dest i base Hb Hn Hf; try lia.
  { change (base ^ Z.of_nat 0) with 1 in Hn. assert (num = 0) as -> by lia. cbn. exists m.
    rewrite Z.add_0_r. split_and!; done. }
  cbn [itoap_loop rdigits]. destruct (Z.eqb_spec num 0) as [->|Hnz].
  { cbn. exists m. rewrite Z.add_0_r. split_and!; done. }
  rewrite itoap_digit_hex by (done || lia). set (d := hexdigit (num mod base)). set (m1 := wr m (dest + i) d).
  assert (Hd : 0 < d < 256) by (apply hexdigit_range; pose proof (Z.mod_pos_bound num base); lia).
  destruct (IH fuel m1 (num / base) dest (i + 1) base Hb) as (m' & E & H1 & H2); [|lia|].
  { rewrite Nat2Z.inj_succ, Z.pow_succ_r in Hn by lia. split; [apply Z.div_pos; lia|].
    apply Z.div_lt_upper_bound; lia. }
  exists m'. split_and!.
  - transitivity (itoap_loop fuel m1 (num / base) dest (i + 1) base); [by destruct Hb as [-> | ->]|].
    rewrite E. cbn [length]. do 2 f_equal. lia.
  - intros [|j] c Hc; simplify_eq/=.
    + rewrite H2 by lia. rewrite Z.add_0_r. unfold m1. rewrite rd_wr_eq, u8_small by lia. lia.
    + replace (dest + i + Z.of_nat (S j)) with (dest + (i + 1) + Z.of_nat j) by lia. by apply H1.
  - intros b Hbb. cbn [length] in Hbb. rewrite H2 by lia. unfold m1. rewrite rd_wr_ne by lia. done.
Qed.

Lemma itoap_spec fuel m num dest base tr :
  base = 10 ∨ base = 16 → 0 <= num < 2 ^ 64 → (21 < fuel)%nat → disj dest 22 tr 22 →
  ∃ r m', itoap fuel m num dest base tr = Some (r, m') ∧ cstr m' dest (num_string num base) ∧
    ∀ b, (b < dest ∨ dest + 22 <= b) → (b < tr ∨ tr + 22 <= b) → rd m' b = rd m b.
Proof.
  intros Hb Hn Hf Hd. unfold itoap, num_string, disj in *. destruct (Z.eqb_spec num 0) as [->|Hnz].
  { eexists _, _. split; [done|]. split.
    - simpl. rewrite rd_wr_ne, !rd_wr_eq by lia. split_and!; done.
    - intros b H1 _. by rewrite !rd_wr_ne by lia. }
  destruct (itoap_loop_spec 20 fuel m num dest 0 base Hb) as (m1 & E1 & B1 & F1); [destruct Hb as [-> | ->]; lia|lia|].
  rewrite E1. cbn [mbind option_bind]. set (ds := rdigits 20 base num) in *. rewrite Z.add_0_l, Z.add_0_r in *.
  pose proof (rdigits_length 20 base num) as Hl. fold ds in Hl.
  set (m2 := wr m1 (dest + Z.of_nat (length ds)) 0).
  assert (C2 : cstr m2 dest ds).
  { apply cstr_intro; [|unfold m2; by rewrite rd_wr_eq]. intros j c Hj. pose proof (lookup_lt_Some _ _ _ Hj).
    unfold m2. rewrite rd_wr_ne by lia. by apply B1. }
  destruct (str_cpy_spec fuel m2 tr dest ds C2) as (m3 & E3 & [C3 F3]); [lia|unfold disj; lia|].
  rewrite E3. cbn [mbind option_bind].
  destruct (str_reverse_spec fuel m3 tr dest ds C3) as (m4 & E4 & [C4 F4]); [lia|unfold disj; lia|].
  rewrite E4. cbn [mbind option_bind]. rewrite length_reverse in F4.
  rewrite (str_len_spec fuel m4 dest (reverse ds) C4) by (rewrite length_reverse; lia). cbn [mbind option_bind].
  eexists _, m4. split; [done|]. split.
  - by rewrite digits_of_rdigits, app_nil_r.
  - intros b H1 H2. rewrite F4, F3 by lia. unfold m2. rewrite rd_wr_ne, F1 by lia. done.
Qed.
