(* ===== verification/ConsoleProps.v ===== *)
(** * ConsoleProps: what reaches the screen

    The theorems about [Console]: scrolling, the bounds of what is written,
    number formatting, and [kprintf] as printing the text its format stands
    for. *)
From S2P Require Import Prelude Memory Utils Strings Console.

(** C33: [print_seq] at the cursor keeps the cursor on a character cell of the
    24 scrolled rows, whatever the text, and writes no byte outside those rows:
    the boot timer's row and the memory around the screen are unchanged. *)
Theorem print_seq_stays_on_screen seq c :
  on_screen (X c) (Y c) →
  let c' := print_seq seq c (-1) (-1) in on_screen (X c') (Y c') ∧ keeps_timer_row c c'.
Proof.
  intros Ho c'. pose proof (print_loop_bounds seq c (X c) (Y c) Ho) as Hb.
  pose proof (print_seq_screen seq c) as E. fold c' in E.
  destruct (seq_loop seq c (X c) (Y c)) as [[c1 x1] y1]. unfold screen in E. injection E as -> -> Ev.
  destruct Hb as [Hb1 Hb2]. split; [done|]. intros b Hb. rewrite Ev. by apply Hb2.
Qed.

Lemma print_seq_stays_on_screen_witness :
  on_screen (X (print_seq [97; 10; 98] (Console 0 23 ∅ []) (-1) (-1)))
            (Y (print_seq [97; 10; 98] (Console 0 23 ∅ []) (-1) (-1))).
Proof.
  refine (proj1 (print_seq_stays_on_screen [97; 10; 98] (Console 0 23 ∅ []) _)).
  split; [split; [discriminate|reflexivity]|split; [reflexivity|split; discriminate]].
Defined.

(** [scroll_up] moves rows 1 to 23 up by one, empties row 23, leaves the
    last row alone and puts the cursor at the start of row 23. *)
Theorem scroll_up_shifts_rows c r col :
  0 <= r < 25 → 0 <= col < 160 →
  X (scroll_up c) = 0 ∧ Y (scroll_up c) = 23 ∧
  rd (vram (scroll_up c)) (r * 160 + col) =
  if decide (r < 23) then rd (vram c) ((r + 1) * 160 + col)
  else if decide (r = 23) then 0 else rd (vram c) (r * 160 + col).
Proof.
  intros Hr Hc. split_and!; [done..|]. unfold scroll_up, move_csr. cbn [vram]. rewrite scroll_rows_rd by lia.
  repeat case_decide; try lia; try done. f_equal. lia.
Qed.

Lemma scroll_up_shifts_rows_witness :
  rd (vram (scroll_up (Console 0 5 (wr ∅ 1602 65) []))) 1442 = 65.
Proof.
  exact (proj2 (proj2 (scroll_up_shifts_rows (Console 0 5 (wr ∅ 1602 65) []) 9 2 ltac:(lia) ltac:(lia)))).
Defined.

(** A character 13 moves the cursor to row 0 and keeps its column, where a
    carriage return would keep the row and go to column 0. *)
Theorem carriage_return_goes_to_top c :
  screen (print_seq [13] c (-1) (-1)) = (X c, 0, vram c).
Proof. by rewrite print_seq_screen. Qed.

(** [itoap] terminates for bases 10 and 16, leaves in [dest] the digits of
    the number in that base, most significant first (the same string as
    [itoa]'s), and writes only into [dest] and its local buffer. *)
Theorem itoap_writes_digits fuel m num dest base tr :
  base = 10 ∨ base = 16 → 0 <= num < 2 ^ 64 → (21 < fuel)%nat → disj dest 22 tr 22 →
  ∃ r m', itoap fuel m num dest base tr = Some (r, m') ∧ cstr m' dest (num_string num base) ∧
    ∀ b, (b < dest ∨ dest + 22 <= b) → (b < tr ∨ tr + 22 <= b) → rd m' b = rd m b.
Proof. apply itoap_spec. Qed.

Lemma itoap_writes_digits_witness :
  ∃ r m', itoap 22 ∅ 255 0 16 100 = Some (r, m') ∧ cstr m' 0 [102; 102].
Proof.
  destruct (itoap_writes_digits 22 ∅ 255 0 16 100) as (r & m' & E & Hc & _);
    [right; reflexivity|lia|lia|left; vm_compute; discriminate|].
  exists r, m'. split; [exact E|exact Hc].
Defined.

(** ** What a format stands for *)

(** A numeral of [n]: digits of the base, most significant first, with the value
    [n] and without leading zeros. *)
Definition digit_value (c : Z) : Z := if c <? 58 then c - 48 else c - 87.
Definition is_digit (base c : Z) : Prop := (48 <= c <= 57 ∨ 97 <= c <= 102) ∧ digit_value c < base.
Record numeral (base n : Z) (ds : list Z) : Prop := {
  num_digits : Forall (is_digit base) ds;
  num_value : digits_val base (digit_value <$> ds) = n;
  num_some : ds ≠ [];
  num_head : head ds = Some 48 → ds = [48];
}.

(** The text of a format with its arguments, character by character.  A number is
    a 64-bit word; a character prints what lies behind it in memory too; a
    percent sign (37) not before d (100), x (120), p (112), s (115) or c (99) is
    itself. *)
Inductive renders (after_ch : list Z) : list Z → list arg → list Z → Prop :=
  | renders_end args : renders after_ch [] args []
  | renders_char c fmt args t : c ≠ 37 → renders after_ch fmt args t → renders after_ch (c :: fmt) args (c :: t)
  | renders_d fmt n args ds t : 0 <= n < 2 ^ 64 → numeral 10 n ds → renders after_ch fmt args t →
      renders after_ch (37 :: 100 :: fmt) (ANum n :: args) (ds ++ t)
  | renders_x fmt n args ds t : 0 <= n < 2 ^ 64 → numeral 16 n ds → renders after_ch fmt args t →
      renders after_ch (37 :: 120 :: fmt) (ANum n :: args) (ds ++ t)
  | renders_p fmt n args ds t : 0 <= n < 2 ^ 64 → numeral 16 n ds → renders after_ch fmt args t →
      renders after_ch (37 :: 112 :: fmt) (ANum n :: args) (48 :: 120 :: ds ++ t)
  | renders_s fmt s args t : renders after_ch fmt args t → renders after_ch (37 :: 115 :: fmt) (AStr s :: args) (s ++ t)
  | renders_c fmt ch args t : ch ≠ 0 → renders after_ch fmt args t →
      renders after_ch (37 :: 99 :: fmt) (AChar ch :: args) (ch :: after_ch ++ t)
  | renders_c0 fmt args t : renders after_ch fmt args t → renders after_ch (37 :: 99 :: fmt) (AChar 0 :: args) t
  | renders_percent fmt args t : (∀ k, head fmt = Some k → k ∉ [100; 120; 112; 115; 99]) → renders after_ch fmt args t →
      renders after_ch (37 :: fmt) args (37 :: t).

Lemma digit_inverse base c : is_digit base c → 0 <= digit_value c < base ∧ hexdigit (digit_value c) = c.
Proof. intros [H1 H2]. unfold digit_value, hexdigit in *. repeat case_match; lia. Qed.

(** Digits without a leading zero are the ones that division finds. *)
Lemma digits_unique base ds : 2 <= base → ∀ k,
  Forall (is_digit base) ds → head ds ≠ Some 48 → digits_val base (digit_value <$> ds) < base ^ Z.of_nat k →
  rdigits k base (digits_val base (digit_value <$> ds)) = reverse ds ∧ (ds ≠ [] → 0 < digits_val base (digit_value <$> ds)).
Proof.
  intros Hb. induction ds as [|d ds IH] using rev_ind; intros k Hd Hh Hk; [by destruct k|].
  apply Forall_app in Hd as [Hds [Hd _]%Forall_cons]. destruct (digit_inverse _ _ Hd) as [Hr Hi].
  rewrite fmap_app in *. cbn [fmap list_fmap] in *. rewrite digits_val_snoc in *.
  set (v := digits_val base (digit_value <$> ds)) in *.
  assert (Hh' : head ds ≠ Some 48) by (destruct ds; [done|exact Hh]).
  assert (Hv : 0 <= v ∧ 0 < v * base + digit_value d).
  { destruct (decide (ds = [])) as [->|Hne].
    - change v with 0. split; [lia|]. assert (d ≠ 48) by (intros ->; by apply Hh). unfold digit_value, is_digit in *. case_match; lia.
    - assert (0 < v); [|nia]. apply (IH (Z.to_nat (v + 1))); [done..| |done].
      destruct (decide (v < 0)); [pose proof (Z.pow_pos_nonneg base (Z.of_nat (Z.to_nat (v + 1)))); lia|].
      rewrite Z2Nat.id by lia. pose proof (Z.pow_gt_lin_r base (v + 1) ltac:(lia) ltac:(lia)). lia. }
  split; [|intros _; lia]. rewrite reverse_app. cbn [reverse rev_append app].
  destruct k as [|k]; [change (base ^ Z.of_nat 0) with 1 in Hk; lia|]. cbn [rdigits].
  destruct (Z.eqb_spec (v * base + digit_value d) 0); [lia|].
  rewrite (Z.add_comm (v * base)), Z.mod_add, Z.div_add, Z.mod_small, Z.div_small, Z.add_0_l, Hi by lia. f_equal.
  apply IH; [done..|]. rewrite Nat2Z.inj_succ, Z.pow_succ_r in Hk by lia. nia.
Qed.

(** The characters of the model are the numeral. *)
Lemma numeral_num_string base n ds : base = 10 ∨ base = 16 → 0 <= n < 2 ^ 64 → numeral base n ds → num_string n base = ds.
Proof.
  intros Hb Hn [Hd Hv Hs Hh]. assert (Hp : n < base ^ Z.of_nat 20) by (destruct Hb as [-> | ->]; lia).
  unfold num_string. destruct (decide (head ds = Some 48)) as [H0|H0].
  - rewrite (Hh H0) in *. by rewrite <- Hv.
  - rewrite <- Hv in Hp. destruct (digits_unique base ds ltac:(lia) 20 Hd H0 Hp) as [E Hpos]. specialize (Hpos Hs).
    rewrite Hv in *. destruct (Z.eqb_spec n 0); [lia|].
    by rewrite digits_of_rdigits, app_nil_r, E, reverse_involutive.
Qed.

(** ** The pieces of a format *)

Section Text.
Context (after_ch : list Z).

(** The piece read so far, [cur], prints [s0] and leaves [args]; the literal
    characters of [fmt] that follow it are printed as they are. *)
Definition reads_on (cur : list Z) (args0 : list arg) (s0 : list Z) (args : list arg) (fmt : list Z) : Prop :=
  ∀ x y, fmt = x ++ y → 37 ∉ x → Z.of_nat (length (s0 ++ x)) < FMT_LEN →
  render_piece after_ch (cur ++ x) args0 = Some (s0 ++ x, args).

Lemma reads_on_char cur args0 s0 args c fmt : c ≠ 37 → reads_on cur args0 s0 args (c :: fmt) → reads_on (cur ++ [c]) args0 (s0 ++ [c]) args fmt.
Proof. intros Hc H x y -> Hx Hl. rewrite <- !app_assoc in *. apply (H (c :: x) y); [done| |done]. by apply not_elem_of_cons. Qed.

Lemma reads_on_num c n base pre args ds fmt :
  num_string n base = ds → (c, base, pre) ∈ [(100, 10, []); (120, 16, []); (112, 16, [48; 120])] →
  reads_on [37; c] (ANum n :: args) (pre ++ ds) args fmt.
Proof.
  intros Hn Hc x y _ _ Hl. rewrite !elem_of_cons in Hc.
  destruct Hc as [[= -> -> ->]|[[= -> -> ->]|[[= -> -> ->]|Hc]]]; [..|by apply elem_of_nil in Hc]; cbn [app] in *; rewrite <- Hn in *.
  - change ((str ← fits_buf (num_string n 10 ++ x); Some (str, args)) = Some (num_string n 10 ++ x, args)). by rewrite fits_some.
  - change ((str ← fits_buf (num_string n 16 ++ x); Some (str, args)) = Some (num_string n 16 ++ x, args)). by rewrite fits_some.
  - change ((str ← fits_buf (num_string n 16 ++ x); str ← fits_buf (48 :: 120 :: str); Some (str, args)) =
      Some (48 :: 120 :: num_string n 16 ++ x, args)).
    rewrite fits_some by (cbn [length] in Hl; lia). cbn [mbind option_bind]. by rewrite fits_some.
Qed.

Lemma reads_on_str c a s args fmt :
  (c, a, s) = (115, AStr s, s) ∨ (∃ ch, (c, a, s) = (99, AChar ch, if ch =? 0 then [] else ch :: after_ch)) →
  reads_on [37; c] (a :: args) s args fmt.
Proof.
  intros Hc x y _ _ Hl. assert (E : render_piece after_ch ([37; c] ++ x) (a :: args) = (str ← fits_buf (s ++ x); Some (str, args)))
    by (by destruct Hc as [[= -> ->]|[ch [= -> -> ->]]]).
  by rewrite E, fits_some.
Qed.

Lemma reads_on_percent args fmt : (∀ k, head fmt = Some k → k ∉ [100; 120; 112; 115; 99]) → reads_on [37] args [37] args fmt.
Proof.
  intros Hk x y -> _ _. unfold render_piece. destruct x as [|k x]; [done|]. specialize (Hk k eq_refl). rewrite !not_elem_of_cons in Hk.
  cbn [app take]. rewrite !bool_decide_eq_false_2 by naive_solver. done.
Qed.

(** The piece ends at the next percent sign. *)
Lemma piece_done cur args0 s0 args fmt ps t :
  reads_on cur args0 s0 args fmt → Z.of_nat (length cur) < FMT_LEN → Z.of_nat (length s0) < FMT_LEN →
  loop_text after_ch ps args = Some t → loop_text after_ch (cur :: ps) args0 = Some (s0 ++ t).
Proof.
  intros Hr H1 H2 Ht. cbn [loop_text]. rewrite (fits_some cur H1). cbn [mbind option_bind].
  pose proof (Hr [] fmt eq_refl) as E. rewrite !app_nil_r in E. rewrite (E ltac:(apply not_elem_of_nil) H2). cbn [mbind option_bind]. by rewrite Ht.
Qed.

Lemma renders_pieces fmt args t : renders after_ch fmt args t → ∀ cur args0 s0,
  reads_on cur args0 s0 args fmt → Z.of_nat (length (cur ++ fmt)) < FMT_LEN → Z.of_nat (length (s0 ++ t)) < FMT_LEN →
  loop_text after_ch (pieces 37 cur fmt) args0 = Some (s0 ++ t).
Proof.
  induction 1 as [args|c fmt args t Hc _ IH|fmt n args ds t Hn Hd _ IH|fmt n args ds t Hn Hd _ IH|fmt n args ds t Hn Hd _ IH
    |fmt s args t _ IH|fmt ch args t Hch _ IH|fmt args t _ IH|fmt args t Hk _ IH]; intros cur args0 s0 Hr Hl Ht.
  2: { cbn [pieces]. destruct (Z.eqb_spec c 37); [done|]. rewrite (cons_middle c s0), app_assoc in *.
       rewrite (cons_middle c cur), app_assoc in Hl. apply IH; [by apply reads_on_char|done..]. }
  all: rewrite !length_app in *; cbn [length] in *; rewrite ?length_app in Ht; eapply piece_done; [exact Hr|lia|lia|].
  - done.
  - apply (IH [37; 100] (ANum n :: args) ds); [|rewrite length_app; cbn [length]; lia..].
    apply (reads_on_num _ _ 10 []); [by apply numeral_num_string; [left|..]|left].
  - apply (IH [37; 120] (ANum n :: args) ds); [|rewrite length_app; cbn [length]; lia..].
    apply (reads_on_num _ _ 16 []); [by apply numeral_num_string; [right|..]|right; left].
  - apply (IH [37; 112] (ANum n :: args) (48 :: 120 :: ds)); [|rewrite length_app; cbn [length]; lia..].
    apply (reads_on_num _ _ 16 [48; 120]); [by apply numeral_num_string; [right|..]|right; right; left].
  - apply (IH [37; 115] (AStr s :: args) s); [|rewrite length_app; cbn [length]; lia..]. apply reads_on_str. by left.
  - apply (IH [37; 99] (AChar ch :: args) (ch :: after_ch)); [|rewrite length_app; cbn [length]; lia..].
    apply reads_on_str. right. exists ch. by rewrite (proj2 (Z.eqb_neq ch 0)).
  - apply (IH [37; 99] (AChar 0 :: args) []); [|rewrite length_app; cbn [length]; lia..]. apply reads_on_str. right. by exists 0.
  - apply (IH [37] args [37]); [by apply reads_on_percent|rewrite length_app; cbn [length]; lia..].
Qed.
End Text.

Lemma length_pieces d fmt : ∀ cur, length (pieces d cur fmt) = S (length (filter (λ c, c = d) fmt)).
Proof.
  induction fmt as [|c fmt IH]; intros cur; cbn [pieces]; [done|]. rewrite filter_cons.
  destruct (Z.eqb_spec c d); case_decide; try done; cbn [length]; by rewrite IH.
Qed.

(** C32: [kprintf] returns and shows on the screen exactly what printing the text
    of its format at the cursor shows: the characters of the format, with %d
    replaced by the decimal numeral of its argument, %x by the hexadecimal one,
    %p by it after 0x, %s by the string and %c by the character and the bytes
    that follow it in memory.  The format has at most nine percent signs, and
    the format and the text have less than 100 characters, the size of the
    buffers. *)
Theorem kprintf_prints_rendering after_ch fmt args c t :
  Z.of_nat (length (filter (λ c, c = 37) fmt)) <= 9 → Z.of_nat (length fmt) < FMT_LEN → Z.of_nat (length t) < FMT_LEN →
  renders after_ch fmt args t →
  ∃ c', kprintf after_ch fmt args c = Some c' ∧ screen c' = screen (print_seq t c (-1) (-1)).
Proof.
  intros Hl Hf Ht Hr. unfold kprintf. destruct (Z.leb_spec (Z.of_nat (length (pieces 37 [] fmt))) 10); [|rewrite length_pieces in *; lia].
  assert (E : loop_text after_ch (pieces 37 [] fmt) args = Some t).
  { apply (renders_pieces after_ch fmt args t Hr [] args []); [|done..]. intros x y _ Hx _. unfold render_piece.
    rewrite !bool_decide_eq_false_2 by (destruct x as [|a x]; [naive_solver|]; apply not_elem_of_cons in Hx as [? _]; naive_solver). done. }
  destruct (kprintf_loop_text after_ch _ args c t E) as (c' & E' & H1 & _). exists c'. split; [done|]. apply H1, pieces_nonempty.
Qed.

Lemma kprintf_prints_rendering_witness :
  ∃ c', kprintf [] [112; 32; 37; 100; 33; 37; 112] [ANum 42; ANum 255] (Console 0 0 ∅ []) = Some c' ∧
    screen c' = screen (print_seq [112; 32; 52; 50; 33; 48; 120; 102; 102] (Console 0 0 ∅ []) (-1) (-1)).
Proof.
  apply (kprintf_prints_rendering [] [112; 32; 37; 100; 33; 37; 112] [ANum 42; ANum 255]); [vm_compute; discriminate|reflexivity..|].
  do 2 (apply renders_char; [done|]). apply (renders_d [] _ 42 _ [52; 50]); [lia| |].
  - constructor; [repeat (apply Forall_cons; split; [split; [lia|reflexivity]|]); constructor|reflexivity|discriminate|discriminate].
  - apply renders_char; [done|]. apply (renders_p [] _ 255 _ [102; 102] []); [lia| |constructor].
    constructor; [repeat (apply Forall_cons; split; [split; [lia|reflexivity]|]); constructor|reflexivity|discriminate|discriminate].
Defined.
