(* ===== verification/Interrupts.v ===== *)
(** * Interrupts: descriptor tables, timer and keyboard, src/sys/idt.c

    The interrupt descriptor table and the set-up of the interrupt controller,
    the timer handler, and the keyboard handler with the line buffer that the
    read system call empties.  The keyboard's specification is a line editor. *)
From S2P Require Import Prelude Memory Utils Strings Console Process.

(** ** Port output: the bytes sent, in order *)

Definition ports : Type := list (Z * Z).
Definition outb (p : ports) (port value : Z) : ports := p ++ [(port, u8 value)].

(** ** Port input: a device that answers reads *)

Class PortDevice (D : Type) := port_in : D → Z → Z * D.
Definition inb {D} `{PortDevice D} (d : D) (port : Z) : Z * D := let '(v, d) := port_in d port in (u8 v, d).

Definition KB_DATA : Z := 0x60.
Definition KB_STATUS : Z := 0x64.

(** The keyboard controller holds the scan codes not read yet: bit 0 of the
    status says that there is one, reading the data takes it. *)
#[export] Instance keyboard_controller : PortDevice (list Z) := λ q port,
  if port =? KB_STATUS then (if bool_decide (q = []) then 0 else 1, q)
  else if port =? KB_DATA then match q with [] => (0, []) | c :: q => (c, q) end
  else (0xff, q).

(** ** The interrupt controller *)

Definition pic_init (p : ports) : ports :=
  let p := outb p 0x20 0x11 in
  let p := outb p 0xA0 0x11 in
  let p := outb p 0x21 0x20 in
  let p := outb p 0xA1 0x28 in
  let p := outb p 0x21 0x04 in
  let p := outb p 0xA1 0x02 in
  let p := outb p 0x21 0x01 in
  let p := outb p 0xA1 0x01 in
  let p := outb p 0x21 0xff in
  outb p 0xA1 0xff.

Definition mask_init (p : ports) : ports := outb p 0x21 0xFC.

Definition timer_init (p : ports) : ports :=
  let divisor := 1193180 in
  let p := outb p 0x43 0x36 in
  let l := u8 (Z.land divisor 0xFF) in
  let h := u8 (Z.land (Z.shiftr divisor 8) 0xFF) in
  outb (outb p 0x40 l) 0x40 h.

(** ** The interrupt descriptor table *)

(** [struct gate_str]; the bit fields by their values. *)
Record gate := Gate {
  offset_low : Z;
  selector : Z;
  ist : Z;
  reserved0 : Z;
  type_attr : Z;
  zero : Z;
  dpl : Z;
  p_bit : Z;
  offset_mid : Z;
  offset_high : Z;
  reserved1 : Z;
}.

Definition MAX_IDT : Z := 256.

(** The table is zero before; [reserved1] is not assigned. *)
Definition empty_gate : gate := Gate 0 0 0 0 0 0 0 0 0 0 0.

Definition setup_gate (IDT : gmap Z gate) (num handler_addr level : Z) : gmap Z gate :=
  let g := default empty_gate (IDT !! num) in
  <[num := Gate (u16 (Z.land handler_addr 0xFFFF)) 0x08 0 0 0x0e 0 (level mod 4) 1
             (u16 (Z.land (Z.shiftr handler_addr 16) 0xFFFF))
             (u32 (Z.land (Z.shiftr handler_addr 32) 0xFFFFFFFF)) (reserved1 g)]> IDT.

(** The vectors [idt_init] sets, with their privilege levels; [isr] gives the
    addresses of the assembly stubs. *)
Definition idt_vectors : list (Z * Z) :=
  [(0, 0); (1, 0); (3, 0); (4, 0); (5, 0); (6, 0); (7, 0); (8, 0); (9, 0); (10, 0); (11, 0); (12, 0);
   (13, 0); (14, 0); (16, 0); (17, 0); (18, 0); (19, 0); (20, 0); (32, 0); (33, 0); (128, 3)].

Definition idt_init (isr : Z → Z) (IDT : gmap Z gate) : gmap Z gate :=
  fold_left (λ t v, setup_gate t v.1 (isr v.1) v.2) idt_vectors IDT.

Definition kmain (isr : Z → Z) (p : ports) (IDT : gmap Z gate) : ports * gmap Z gate :=
  let p := pic_init p in
  let IDT := idt_init isr IDT in
  (timer_init (mask_init p), IDT).

(** The 16 bytes of a gate as the processor reads them, as one number. *)
Definition gate_word (g : gate) : Z :=
  offset_low g + 2 ^ 16 * selector g + 2 ^ 32 * ist g + 2 ^ 35 * reserved0 g + 2 ^ 40 * type_attr g +
  2 ^ 44 * zero g + 2 ^ 45 * dpl g + 2 ^ 47 * p_bit g + 2 ^ 48 * offset_mid g + 2 ^ 64 * offset_high g +
  2 ^ 96 * reserved1 g.

(** The processor's reading of a gate: handler address, selector, type,
    privilege level and present bit. *)
Definition gate_target (w : Z) : Z :=
  w mod 2 ^ 16 + 2 ^ 16 * ((w / 2 ^ 48) mod 2 ^ 16) + 2 ^ 32 * ((w / 2 ^ 64) mod 2 ^ 32).
Definition gate_selector (w : Z) : Z := (w / 2 ^ 16) mod 2 ^ 16.
Definition gate_type (w : Z) : Z := (w / 2 ^ 40) mod 2 ^ 4.
Definition gate_dpl (w : Z) : Z := (w / 2 ^ 45) mod 2 ^ 2.
Definition gate_present (w : Z) : Z := (w / 2 ^ 47) mod 2.

(** ** The timer *)

Record clock := Clock { clk_ticks : Z; clk_sec : Z }.

(** The characters of ">Time Since Boot: ". *)
Definition time_label : list Z :=
  [62; 84; 105; 109; 101; 32; 83; 105; 110; 99; 101; 32; 66; 111; 111; 116; 58; 32].

Definition irq_timer_handler (fuel : nat) (p : ports) (k : clock) (c : console) (s : sched)
    : option (ports * clock * console * sched) :=
  let p := outb (outb p 0x20 0x20) 0xa0 0x20 in
  '(k, c, s) ← (if Z.rem (clk_ticks k) 100 =? 0 then
      let new_sec := Z.quot (clk_ticks k) 100 in
      '(k, c) ← (if negb (new_sec =? clk_sec k) then
                   c ← kprintf_boott time_label new_sec c; Some (Clock (clk_ticks k) new_sec, c)
                 else Some (k, c));
      match dec_sleep_count fuel s with Ret (_, s) => Some (k, c, s) | _ => None end
    else Some (k, c, s));
  Some (p, Clock (i32 (clk_ticks k + 1)) (clk_sec k), c, s).

(** ** The keyboard *)

(** The scan-code table of src/sys/kb_map.h; the entries after these are 0. *)
Definition kbdus : list Z :=
  [0; 27; 49; 50; 51; 52; 53; 54; 55; 56;
   57; 48; 45; 61; 8;
   9;
   113; 119; 101; 114;
   116; 121; 117; 105; 111; 112; 91; 93; 10;
   0;
   97; 115; 100; 102; 103; 104; 106; 107; 108; 59;
   39; 96; 0;
   92; 122; 120; 99; 118; 98; 110;
   109; 44; 46; 47; 0;
   42;
   0;
   32;
   0;
   0;
   0; 0; 0; 0; 0; 0; 0; 0;
   0;
   0;
   0;
   0;
   0;
   0;
   45;
   0;
   0;
   0;
   43].

Definition kbd (key : Z) : Z := default 0 (kbdus !! Z.to_nat key).

(** The switch for keys pressed with shift. *)
Definition shifted (key : Z) : Z :=
  if key =? 2 then 33 else if key =? 3 then 64 else if key =? 4 then 35 else if key =? 5 then 36
  else if key =? 6 then 37 else if key =? 7 then 94 else if key =? 8 then 38 else if key =? 9 then 42
  else if key =? 10 then 40 else if key =? 11 then 41 else if key =? 12 then 95 else if key =? 13 then 43
  else if key =? 26 then 123 else if key =? 27 then 125 else if key =? 39 then 58 else if key =? 40 then 34
  else if key =? 41 then 126 else if key =? 43 then 124 else if key =? 51 then 60 else if key =? 52 then 62
  else if key =? 53 then 63 else u8 (kbd key - 32).

(** [char_buf] is a static array of 1024 bytes; the model indexes it from 0 and
    lets a write past its end happen, as the code does. *)
Definition BUF_SIZE : Z := 1024.

Record keyboard := Keyboard {
  SHIFT_ON : Z;
  CTRL_ON : Z;
  char_buf : mem;
  buf_idx : Z;
  new_line : Z;
  con : console;
}.

(** [kprintf("%c", ch)]; see [Console] for [after_ch]. *)
Definition echo (after_ch : list Z) (ch : Z) (c : console) : option console :=
  kprintf after_ch [37; 99] [AChar ch] c.

(** [kprintf("%c", ch); char_buf[buf_idx++] = ch;] *)
Definition put_char (after_ch : list Z) (k : keyboard) (ch : Z) : option keyboard :=
  c ← echo after_ch ch (con k);
  Some (Keyboard (SHIFT_ON k) (CTRL_ON k) (wr (char_buf k) (buf_idx k) ch) (buf_idx k + 1) (new_line k) c).

Definition with_con (k : keyboard) (c : console) : keyboard :=
  Keyboard (SHIFT_ON k) (CTRL_ON k) (char_buf k) (buf_idx k) (new_line k) c.
Definition with_mods (k : keyboard) (shift ctrl : Z) : keyboard :=
  Keyboard shift ctrl (char_buf k) (buf_idx k) (new_line k) (con k).

(** The handler once a key is available; [key] is a byte. *)
Definition kb_key (after_ch : list Z) (k : keyboard) (key : Z) : option keyboard :=
  if key =? 0x2a then Some (with_mods k 1 (CTRL_ON k))
  else if key =? 0xaa then Some (with_mods k 0 (CTRL_ON k))
  else if key =? 0x1d then put_char after_ch (with_mods k 1 1) 94
  else if key =? 0x9d then Some (with_mods k 0 0)
  else if key =? 0x0e then
    k ← (if 0 <? buf_idx k then
           let k := Keyboard (SHIFT_ON k) (CTRL_ON k) (wr (char_buf k) (buf_idx k) 0) (buf_idx k) (new_line k) (con k) in
           c ← kprintf after_ch [32] [] (with_cursor (con k) (X (con k) - 2) (Y (con k)));
           let c := with_cursor c (X c - 2) (Y c) in
           Some (Keyboard (SHIFT_ON k) (CTRL_ON k) (char_buf k) (buf_idx k - 1) (new_line k) c)
         else Some k);
    Some (with_con k (move_csr (con k)))
  else if key =? 0x1c then
    c ← kprintf after_ch [10] [] (con k);
    Some (Keyboard (SHIFT_ON k) (CTRL_ON k) (wr (char_buf k) (buf_idx k) 10) (buf_idx k + 1) 1 c)
  else if key <? 0x52 then
    if SHIFT_ON k =? 1 then put_char after_ch k (shifted key) else put_char after_ch k (kbd key)
  else Some k.

Definition irq_kb_handler {D} `{PortDevice D} (after_ch : list Z) (p : ports) (k : keyboard) (d : D)
    : option (ports * keyboard * D) :=
  let p := outb (outb p 0x20 0x20) 0xa0 0x20 in
  let '(status, d) := inb d KB_STATUS in
  if negb (Z.land status 1 =? 0) then
    let '(key, d) := inb d KB_DATA in
    k ← kb_key after_ch k key; Some (p, k, d)
  else Some (p, k, d).

(** On the controller an interrupt handles the oldest scan code. *)
Lemma kb_interrupt_takes_key after_ch p k key keys :
  0 <= key < 256 →
  irq_kb_handler after_ch p k (key :: keys) =
  (k ← kb_key after_ch k key; Some (outb (outb p 0x20 0x20) 0xa0 0x20, k, keys)).
Proof. intros H. unfold irq_kb_handler, inb, port_in, keyboard_controller. cbn -[u8 kb_key outb]. by rewrite (u8_small key). Qed.

(** ** The read system call *)

(** Copying [n] bytes from the line buffer into the caller's memory. *)
Fixpoint copy_line (n : nat) (m : mem) (dst : Z) (buf : mem) (i : Z) : mem :=
  match n with
  | O => m
  | S n' => copy_line n' (wr m (dst + i) (rd buf i)) dst buf (i + 1)
  end.

(** What the calls do once the polling loop has ended. *)
Definition take_line (fuel : nat) (m : mem) (buf_cpy : Z) (k : keyboard) : option (mem * keyboard) :=
  n ← str_len fuel (char_buf k) 0;
  let m := copy_line (Z.to_nat n) m buf_cpy (char_buf k) 0 in
  Some (m, Keyboard (SHIFT_ON k) (CTRL_ON k) (memset (char_buf k) 0 0 1024) 0 0 (con k)).

(** "user@bgox$> " *)
Definition PS1 : list Z := [117; 115; 101; 114; 64; 98; 103; 111; 120; 36; 62; 32].

(** The polling loop: interrupts deliver the scan codes [keys] while it spins,
    each as in [kb_interrupt_takes_key]; it ends when a line is complete or, for [read], when the buffer holds
    [limit] characters.  [None]: no key left and still waiting. *)
Fixpoint poll (after_ch : list Z) (limit : option Z) (k : keyboard) (keys : list Z)
    : option (keyboard * list Z) :=
  if (new_line k =? 0) && match limit with Some l => buf_idx k <? l | None => true end then
    match keys with
    | [] => None
    | key :: keys => k ← kb_key after_ch k key; poll after_ch limit k keys
    end
  else Some (k, keys).

(** System call 2.  It answers the value returned and the keys not consumed. *)
Definition sys_read (after_ch : list Z) (fuel : nat) (m : mem) (third fourth : Z) (k : keyboard) (keys : list Z)
    : option (Z * mem * keyboard * list Z) :=
  c ← kprintf after_ch PS1 [] (con k);
  let k := with_con k c in
  '(k, keys) ← (if 0 <? fourth then poll after_ch (Some fourth) k keys else Some (k, keys));
  '(m, k) ← take_line fuel m third k;
  r ← str_len fuel (char_buf k) 0;
  Some (u64 r, m, k, keys).

(** System call 30. *)
Definition sys_gets (after_ch : list Z) (fuel : nat) (m : mem) (buf : Z) (k : keyboard) (keys : list Z)
    : option (mem * keyboard * list Z) :=
  c ← kprintf after_ch PS1 [] (con k);
  '(k, keys) ← poll after_ch None (with_con k c) keys;
  '(m, k) ← take_line fuel m buf k;
  Some (m, k, keys).
