(* ===== verification/InterruptsProps.v ===== *)
(** * InterruptsProps: gates that reach their handlers, and lines as typed

    The theorems about [Interrupts]: the processor reads back from a gate the
    handler it was set up with; the keyboard handler implements a line editor,
    whose line the read system call delivers; the overrun of its buffer; and the
    timer interrupts that a sleeping task waits for. *)
From S2P Require Import Prelude Memory Utils Strings Process ProcessProps Console Interrupts.

(** ** Gates *)

Lemma land_mask16 x : Z.land x 0xFFFF = x mod 2 ^ 16.
Proof. change 0xFFFF with (2 ^ 16 - 1). by apply land_ones_mod. Qed.
Lemma land_mask32 x : Z.land x 0xFFFFFFFF = x mod 2 ^ 32.
Proof. change 0xFFFFFFFF with (2 ^ 32 - 1). by apply land_ones_mod. Qed.

Lemma setup_gate_fields IDT num h level :
  0 <= h < 2 ^ 64 →
  ∃ g, setup_gate IDT num h level !! num = Some g ∧
    offset_low g = h mod 2 ^ 16 ∧ offset_mid g = (h / 2 ^ 16) mod 2 ^ 16 ∧ offset_high g = h / 2 ^ 32 ∧
    selector g = 8 ∧ ist g = 0 ∧ reserved0 g = 0 ∧ type_attr g = 14 ∧ zero g = 0 ∧ dpl g = level mod 4 ∧ p_bit g = 1.
Proof.
  intros Hh. unfold setup_gate. eexists. rewrite lookup_insert_eq. split; [done|]. simpl.
  rewrite !land_mask16, land_mask32, !Z.shiftr_div_pow2 by lia. unfold u16, u32. split_and!; lia.
Qed.

(** The gate that [setup_gate] writes is the one the processor needs: read
    from its 16 bytes, the target is the handler's address, the selector is the
    kernel code segment, the type an interrupt gate, the privilege level the
    one asked for and the present bit set. *)
Lemma setup_gate_read IDT num h level g :
  0 <= h < 2 ^ 64 → 0 <= level < 4 → setup_gate IDT num h level !! num = Some g →
  gate_target (gate_word g) = h ∧ gate_selector (gate_word g) = 8 ∧ gate_type (gate_word g) = 14 ∧
  gate_dpl (gate_word g) = level ∧ gate_present (gate_word g) = 1.
Proof.
  intros Hh Hl Hg. destruct (setup_gate_fields IDT num h level Hh) as (g' & Hg' & E1 & E2 & E3 & E4 & E5 & E6 & E7 & E8 & E9 & E10).
  rewrite Hg' in Hg. injection Hg as <-.
  assert (Hw : ∃ q, gate_word g' = h mod 2 ^ 16 + 2 ^ 16 * 8 + 2 ^ 40 * 14 + 2 ^ 45 * level + 2 ^ 47 +
    2 ^ 48 * ((h / 2 ^ 16) mod 2 ^ 16) + 2 ^ 64 * (h / 2 ^ 32) + 2 ^ 96 * q).
  { exists (reserved1 g'). unfold gate_word. rewrite E1, E2, E3, E4, E5, E6, E7, E8, E9, E10. lia. }
  destruct Hw as [q Hw]. unfold gate_target, gate_selector, gate_type, gate_dpl, gate_present. rewrite Hw.
  clear Hw. split_and!; lia.
Qed.

(** What the processor finds at a vector. *)
Record gate_reads (IDT : gmap Z gate) (num h level : Z) (g : gate) : Prop := {
  gr_entry : IDT !! num = Some g;
  gr_target : gate_target (gate_word g) = h;
  gr_selector : gate_selector (gate_word g) = 8;
  gr_type : gate_type (gate_word g) = 14;
  gr_dpl : gate_dpl (gate_word g) = level;
  gr_present : gate_present (gate_word g) = 1;
}.

Lemma fold_gates_other isr num vs : ∀ IDT,
  num ∉ vs.*1 → fold_left (λ t v, setup_gate t v.1 (isr v.1) v.2) vs IDT !! num = IDT !! num.
Proof.
  induction vs as [|v vs IH]; intros IDT Hn; [done|]. cbn [fold_left]. rewrite fmap_cons, not_elem_of_cons in Hn.
  rewrite IH by apply Hn. unfold setup_gate. by rewrite lookup_insert_ne by (intros E; by apply (proj1 Hn)).
Qed.

Lemma fold_gates isr num level vs : ∀ IDT,
  NoDup vs.*1 → (num, level) ∈ vs → 0 <= isr num < 2 ^ 64 → 0 <= level < 4 →
  ∃ g, gate_reads (fold_left (λ t v, setup_gate t v.1 (isr v.1) v.2) vs IDT) num (isr num) level g.
Proof.
  induction vs as [|v vs IH]; intros IDT Hnd Hin Hi Hl; [by apply not_elem_of_nil in Hin|].
  rewrite fmap_cons, NoDup_cons in Hnd. destruct Hnd as [Hv Hnd]. apply elem_of_cons in Hin as [<-|Hin].
  - cbn [fold_left fst snd] in *. destruct (setup_gate_fields IDT num (isr num) level Hi) as (g & Hg & _).
    exists g. destruct (setup_gate_read _ _ _ _ _ Hi Hl Hg) as (? & ? & ? & ? & ?).
    constructor; try done. by rewrite fold_gates_other.
  - cbn [fold_left]. by apply IH.
Qed.

(** After [idt_init] every vector of the kernel leads to its stub. *)
Lemma idt_gate isr IDT num level :
  (num, level) ∈ idt_vectors → 0 <= isr num < 2 ^ 64 → ∃ g, gate_reads (idt_init isr IDT) num (isr num) level g.
Proof.
  intros Hin Hi. apply fold_gates; try done.
  - change (idt_vectors.*1) with [0; 1; 3; 4; 5; 6; 7; 8; 9; 10; 11; 12; 13; 14; 16; 17; 18; 19; 20; 32; 33; 128].
    apply (bool_decide_unpack _). vm_compute. exact I.
  - apply list_elem_of_In in Hin. repeat (destruct Hin as [[= <- <-]|Hin]; [lia|]). done.
Qed.

(** ** The line editor *)

Record editor := Editor { e_shift : bool; e_text : list Z }.

Definition edit (e : editor) (key : Z) : editor :=
  if key =? 0x2a then Editor true (e_text e)
  else if key =? 0xaa then Editor false (e_text e)
  else if key =? 0x1d then Editor true (e_text e ++ [94])
  else if key =? 0x9d then Editor false (e_text e)
  else if key =? 0x0e then Editor (e_shift e) (take (length (e_text e) - 1) (e_text e))
  else if key =? 0x1c then Editor (e_shift e) (e_text e ++ [10])
  else if key <? 0x52 then Editor (e_shift e) (e_text e ++ [if e_shift e then shifted key else kbd key])
  else e.

(** The buffer holds the text; behind it, but for one deleted character, it is
    empty. *)
Record edits (k : keyboard) (e : editor) : Prop := {
  ed_shift : SHIFT_ON k = if e_shift e then 1 else 0;
  ed_idx : buf_idx k = Z.of_nat (length (e_text e));
  ed_text : ∀ i c, e_text e !! i = Some c → rd (char_buf k) (Z.of_nat i) = c;
  ed_clear : ∀ i, Z.of_nat (length (e_text e)) < i < BUF_SIZE → rd (char_buf k) i = 0;
}.

(** Echoing a character succeeds when what follows it on the stack is short. *)
Lemma echo_some after_ch ch c :
  Z.of_nat (length after_ch) < 90 → ∃ c', echo after_ch ch c = Some c'.
Proof.
  intros Hl. unfold echo, kprintf. simpl. unfold render_piece at 1. simpl.
  unfold fits_buf, FMT_LEN. simpl.
  destruct (Z.ltb_spec (Z.of_nat (length ((if ch =? 0 then [] else ch :: after_ch) ++ []))) 100) as [_|H]; [by eexists|].
  rewrite app_nil_r in H. destruct (ch =? 0); simpl in H; lia.
Qed.

Lemma kbd_range key : 0 <= kbd key < 256.
Proof.
  unfold kbd. destruct (kbdus !! Z.to_nat key) as [c|] eqn:E; simpl; [|lia].
  assert (Forall (λ c, 0 <= c < 256) kbdus) as Hall by (repeat constructor; lia).
  by eapply Forall_lookup_1 in Hall.
Qed.

Lemma shifted_range key : 0 <= shifted key < 256.
Proof. unfold shifted. repeat (destruct (key =? _); [lia|]). apply u8_range. Qed.

(** Appending a character keeps the correspondence. *)
Lemma edits_append k e ch shift k' :
  edits k e → 0 <= ch < 256 → SHIFT_ON k' = (if (shift : bool) then 1 else 0) →
  char_buf k' = wr (char_buf k) (buf_idx k) ch → buf_idx k' = buf_idx k + 1 →
  edits k' (Editor shift (e_text e ++ [ch])).
Proof.
  intros [E1 E2 E3 E4] Hc Hs Hb Hi. constructor; simpl; [done|rewrite Hi, E2, length_app; simpl; lia|..].
  - intros i c Hic. rewrite Hb, E2. apply lookup_snoc_Some in Hic as [[Hlt Hic]|[-> <-]].
    + rewrite rd_wr_ne by lia. by apply E3.
    + rewrite rd_wr_eq. by apply u8_small.
  - intros i Hr. rewrite length_app in Hr. simpl in Hr. rewrite Hb, E2, rd_wr_ne by lia. apply E4. lia.
Qed.

Lemma kb_key_edits after_ch k e key :
  Z.of_nat (length after_ch) < 90 → edits k e →
  ∃ k', kb_key after_ch k key = Some k' ∧ edits k' (edit e key).
Proof.
  intros Hl He. pose proof He as [E1 E2 E3 E4]. unfold kb_key, edit.
  destruct (key =? 42); [eexists; split; [done|]; by constructor|].
  destruct (key =? 170); [eexists; split; [done|]; by constructor|].
  assert (Hput : ∀ k1 ch shift, 0 <= ch < 256 → SHIFT_ON k1 = (if (shift : bool) then 1 else 0) →
    char_buf k1 = char_buf k → buf_idx k1 = buf_idx k →
    ∃ k', put_char after_ch k1 ch = Some k' ∧ edits k' (Editor shift (e_text e ++ [ch]))).
  { intros k1 ch shift Hc Hs Hb Hi. unfold put_char. destruct (echo_some after_ch ch (con k1) Hl) as [c' ->].
    eexists. split; [done|]. eapply (edits_append k e); simpl; try done; congruence. }
  destruct (key =? 29); [by apply (Hput (with_mods k 1 1) 94 true)|].
  destruct (key =? 157); [eexists; split; [done|]; by constructor|].
  destruct (key =? 14).
  { destruct (Z.ltb_spec 0 (buf_idx k)) as [Hp|Hp].
    - eexists. split; [done|]. constructor; simpl; [done|rewrite length_take; lia|..].
      + intros i c Hic. apply lookup_take_Some in Hic as [Hic Hlt]. rewrite rd_wr_ne by lia. by apply E3.
      + intros i Hr. rewrite length_take in Hr. rewrite rd_wr. case_decide; [done|]. apply E4. lia.
    - eexists. split; [done|]. destruct (e_text e) as [|a l] eqn:Et; [|simpl in *; lia].
      by constructor. }
  destruct (key =? 28).
  { eexists. split; [done|]. by eapply (edits_append k e). }
  destruct (key <? 82); [|by eexists].
  rewrite E1. destruct (e_shift e) eqn:Es; simpl.
  - apply (Hput k (shifted key) true); [apply shifted_range|done..].
  - apply (Hput k (kbd key) false); [apply kbd_range|done..].
Qed.

(** The handler on a sequence of keys. *)
Fixpoint kb_keys (after_ch : list Z) (k : keyboard) (keys : list Z) : option keyboard :=
  match keys with
  | [] => Some k
  | key :: keys' => k ← kb_key after_ch k key; kb_keys after_ch k keys'
  end.

Lemma kb_keys_edits after_ch keys : ∀ k e,
  Z.of_nat (length after_ch) < 90 → edits k e →
  ∃ k', kb_keys after_ch k keys = Some k' ∧ edits k' (fold_left edit keys e).
Proof.
  induction keys as [|key keys IH]; intros k e Hl He; cbn [kb_keys fold_left]; [eauto|].
  destruct (kb_key_edits after_ch k e key Hl He) as (k1 & -> & He1). cbn [mbind option_bind]. by apply IH.
Qed.

Lemma kb_keys_app after_ch ks1 : ∀ ks2 k,
  kb_keys after_ch k (ks1 ++ ks2) = k1 ← kb_keys after_ch k ks1; kb_keys after_ch k1 ks2.
Proof.
  induction ks1 as [|key ks1 IH]; intros ks2 k; cbn [app kb_keys]; [done|].
  destruct (kb_key after_ch k key); cbn [mbind option_bind]; [apply IH|done].
Qed.

Lemma copy_line_rd n : ∀ m dst buf i b, 
  rd (copy_line n m dst buf i) b =
  if decide (dst + i <= b < dst + i + Z.of_nat n) then rd buf (b - dst) else rd m b.
Proof.
  induction n as [|n IH]; intros m dst buf i b; cbn [copy_line]; [case_decide; [lia|done]|].
  rewrite IH, rd_wr. repeat case_decide; try lia; try done.
  subst. replace (dst + i - dst) with i by lia. apply u8_small, rd_range.
Qed.

(** After Enter the buffer is the line as a C string. *)
Lemma enter_cstr after_ch k e :
  Z.of_nat (length after_ch) < 90 → edits k e → Z.of_nat (length (e_text e)) + 1 < BUF_SIZE →
  Forall (λ c, c ≠ 0) (e_text e) →
  ∃ k', kb_key after_ch k 0x1c = Some k' ∧ new_line k' = 1 ∧ edits k' (edit e 0x1c) ∧
    cstr (char_buf k') 0 (e_text e ++ [10]).
Proof.
  intros Hl He Hb Hnz. destruct (kb_key_edits after_ch k e 0x1c Hl He) as (k' & E & He').
  assert (Hk : new_line k' = 1 ∧ char_buf k' = wr (char_buf k) (buf_idx k) 10).
  { revert E. unfold kb_key. simpl. by intros [= <-]. }
  destruct Hk as [Hn Hc]. exists k'. split_and!; try done.
  destruct He as [_ E2 _ E4], He' as [_ _ F3 _]. simpl in F3. apply cstr_intro.
  - intros i c Hic. rewrite Z.add_0_l. split; [by apply F3|].
    apply lookup_snoc_Some in Hic as [[_ Hic]|[_ <-]]; [|done]. by eapply Forall_lookup_1 in Hnz.
  - rewrite Z.add_0_l, length_app. simpl. rewrite Hc, E2, rd_wr_ne by lia. apply E4. lia.
Qed.

Lemma take_line_spec fuel m dst k s :
  cstr (char_buf k) 0 s → (length s < fuel)%nat →
  ∃ m' k', take_line fuel m dst k = Some (m', k') ∧
    (∀ i c, s !! i = Some c → rd m' (dst + Z.of_nat i) = c) ∧
    (∀ b, b < dst ∨ dst + Z.of_nat (length s) <= b → rd m' b = rd m b) ∧
    new_line k' = 0 ∧ SHIFT_ON k' = SHIFT_ON k ∧ buf_idx k' = 0 ∧ ∀ i, 0 <= i < BUF_SIZE → rd (char_buf k') i = 0.
Proof.
  intros Hs Hf. unfold take_line. rewrite (str_len_spec fuel _ 0 s Hs Hf). cbn [mbind option_bind].
  eexists _, _. split; [done|]. rewrite Nat2Z.id. split_and!; try done.
  - intros i c Hi. pose proof (lookup_lt_Some _ _ _ Hi). rewrite copy_line_rd, decide_True by lia.
    replace (dst + Z.of_nat i - dst) with (0 + Z.of_nat i) by lia. by eapply cstr_rd in Hs as [? _].
  - intros b Hb. rewrite copy_line_rd, decide_False by lia. done.
  - intros i Hi. simpl. rewrite memset_rd. unfold BUF_SIZE in Hi. by rewrite decide_True by lia.
Qed.

(** Only Enter completes a line. *)
Lemma kb_key_new_line after_ch k key k' :
  kb_key after_ch k key = Some k' → key ≠ 0x1c → new_line k' = new_line k.
Proof.
  unfold kb_key, put_char, echo. intros H Hk. apply Z.eqb_neq in Hk. rewrite Hk in H.
  repeat (case_match; simplify_option_eq; try done).
Qed.

(** The text stays shorter than [limit] while the keys are typed. *)
Fixpoint stays_below (limit : option Z) (e : editor) (keys : list Z) : Prop :=
  match limit with Some l => Z.of_nat (length (e_text e)) < l | None => True end ∧
  match keys with [] => True | key :: keys => stays_below limit (edit e key) keys end.

(** Polling consumes the keys up to Enter. *)
Lemma poll_line after_ch limit rest keys : ∀ k e,
  Z.of_nat (length after_ch) < 90 → edits k e → new_line k = 0 →
  Forall (λ key, key ≠ 0x1c) keys → stays_below limit e keys →
  let text := e_text (fold_left edit keys e) in
  Z.of_nat (length text) + 1 < BUF_SIZE → Forall (λ c, c ≠ 0) text →
  ∃ k', poll after_ch limit k (keys ++ 0x1c :: rest) = Some (k', rest) ∧ cstr (char_buf k') 0 (text ++ [10]) ∧
    SHIFT_ON k' = if e_shift (fold_left edit keys e) then 1 else 0.
Proof.
  induction keys as [|key keys IH]; intros k e Hl He Hn Hks Hbel text Hb Hnz; destruct Hbel as [Hlt Hbel].
  all: assert ((new_line k =? 0) && match limit with Some l => buf_idx k <? l | None => true end = true) as Hg
    by (rewrite Hn; destruct limit; [|done]; destruct He as [_ -> _ _]; by apply Z.ltb_lt).
  - destruct (enter_cstr after_ch k e Hl He Hb Hnz) as (k' & E & Hn' & He' & Hc).
    exists k'. split_and!; [|done|by destruct He' as [-> _ _ _]].
    cbn [app poll]. rewrite Hg, E. cbn [mbind option_bind]. destruct rest; cbn [poll]; by rewrite Hn'.
  - apply Forall_cons in Hks as [Hk Hks]. destruct (kb_key_edits after_ch k e key Hl He) as (k1 & E & He1).
    cbn [app poll]. rewrite Hg, E. cbn [mbind option_bind]. apply IH; try done. by erewrite kb_key_new_line by done.
Qed.

Lemma prompt_some after_ch c : ∃ c', kprintf after_ch PS1 [] c = Some c'.
Proof. by eexists. Qed.

(** What both calls leave. *)
Definition line_delivered (text : list Z) (shift : bool) (dst : Z) (m m' : mem) (k' : keyboard) : Prop :=
  (∀ i c, (text ++ [10]) !! i = Some c → rd m' (dst + Z.of_nat i) = c) ∧
  (∀ b, b < dst ∨ dst + Z.of_nat (length text) + 1 <= b → rd m' b = rd m b) ∧
  new_line k' = 0 ∧ edits k' (Editor shift []).

Lemma read_line_spec after_ch limit rest keys k e c fuel m dst :
  Z.of_nat (length after_ch) < 90 → edits k e → new_line k = 0 →
  Forall (λ key, key ≠ 0x1c) keys → stays_below limit e keys →
  let e' := fold_left edit keys e in
  Z.of_nat (length (e_text e')) + 1 < BUF_SIZE → Forall (λ c, c ≠ 0) (e_text e') → (length (e_text e') + 1 < fuel)%nat →
  ∃ k1 m' k2, poll after_ch limit (with_con k c) (keys ++ 0x1c :: rest) = Some (k1, rest) ∧
    take_line fuel m dst k1 = Some (m', k2) ∧ line_delivered (e_text e') (e_shift e') dst m m' k2.
Proof.
  intros Hl He Hn Hks Hbel e' Hb Hnz Hf.
  destruct (poll_line after_ch limit rest keys (with_con k c) e) as (k1 & E1 & Hc & Hs); try done.
  { destruct He. by constructor. }
  destruct (take_line_spec fuel m dst k1 _ Hc) as (m' & k2 & E2 & R1 & R2 & R3 & R4 & R5 & R6);
    [rewrite length_app; simpl; fold e'; lia|].
  exists k1, m', k2. split_and!; try done. split_and!; try done.
  - intros b Hbb. apply R2. rewrite length_app. simpl. fold e'. lia.
  - constructor; simpl; [by rewrite R4|done|done|]. intros i Hi. apply R6. lia.
Qed.


(** The driver at start. *)
Definition kb_start : keyboard := Keyboard 0 0 ∅ 0 0 (Console 0 0 ∅ []).

Lemma kb_start_edits : edits kb_start (Editor false []).
Proof. by constructor. Qed.


(** Nothing bounds the line: when 1024 characters are waiting, the next key
    is stored behind the end of [char_buf]. *)
Theorem keyboard_overruns_buffer after_ch k e :
  Z.of_nat (length after_ch) < 90 → edits k e → e_shift e = false →
  Z.of_nat (length (e_text e)) = BUF_SIZE →
  ∃ k', kb_key after_ch k 0x1e = Some k' ∧ rd (char_buf k') BUF_SIZE = 97 ∧ buf_idx k' = BUF_SIZE + 1.
Proof.
  intros Hl He Hs Hlen. destruct (kb_key_edits after_ch k e 0x1e Hl He) as (k' & E & [_ F2 F3 _]).
  exists k'. split; [done|]. unfold edit in F2, F3. simpl in F2, F3. rewrite Hs in F2, F3. split.
  - rewrite <- Hlen. apply F3. apply lookup_snoc_Some. by right.
  - rewrite F2, length_app. simpl. lia.
Qed.

Lemma keyboard_overruns_buffer_witness :
  ∃ k', kb_key [] (Keyboard 0 0 (memset ∅ 0 97 1024) 1024 0 (Console 0 0 ∅ [])) 0x1e = Some k' ∧
    rd (char_buf k') BUF_SIZE = 97.
Proof.
  destruct (keyboard_overruns_buffer [] (Keyboard 0 0 (memset ∅ 0 97 1024) 1024 0 (Console 0 0 ∅ []))
    (Editor false (replicate 1024 97))) as (k' & E & H & _).
  - simpl. lia.
  - constructor; cbn [SHIFT_ON e_shift buf_idx e_text char_buf]; rewrite ?length_replicate; [reflexivity|reflexivity|..].
    + intros i c [-> Hi]%lookup_replicate. rewrite memset_rd, decide_True by lia. reflexivity.
    + intros i Hi. unfold BUF_SIZE in Hi. lia.
  - reflexivity.
  - cbn [e_text]. rewrite length_replicate. reflexivity.
  - exists k'. split; [exact E|exact H].
Defined.

(** ** The timer and the sleepers *)

(** [n] timer interrupts in a row. *)
Fixpoint timer_irqs (n fuel : nat) (p : ports) (k : clock) (c : console) (s : sched) : option (ports * clock * console * sched) :=
  match n with
  | O => Some (p, k, c, s)
  | S n => '(p, k, c, s) ← irq_timer_handler fuel p k c s; timer_irqs n fuel p k c s
  end.

(** The multiples of 100 among [t], ..., [t + n - 1]. *)
Definition hundreds (t n : Z) : Z := (t + n + 99) / 100 - (t + 99) / 100.

(** The line with the seconds fits its buffer. *)
Lemma kprintf_boott_returns sec c : ∃ c', kprintf_boott time_label sec c = Some c'.
Proof.
  unfold kprintf_boott. rewrite fits_some; [eauto|]. pose proof (num_string_length (u64 (i32 sec)) 10).
  rewrite length_app. unfold FMT_LEN. cbn [length time_label]. lia.
Qed.

(** One interrupt: every hundredth counts the sleepers down. *)
Lemma irq_timer_handler_cases fuel p k c s s' :
  0 <= clk_ticks k < 2 ^ 31 - 1 → dec_sleep_count fuel s = Ret (tt, s') →
  ∃ p' c' sec', irq_timer_handler fuel p k c s =
    Some (p', Clock (clk_ticks k + 1) sec', c', if clk_ticks k mod 100 =? 0 then s' else s).
Proof.
  intros Hk Hd. unfold irq_timer_handler. rewrite Z.rem_mod_nonneg by lia. destruct (clk_ticks k mod 100 =? 0).
  - destruct (negb (Z.quot (clk_ticks k) 100 =? clk_sec k)).
    + destruct (kprintf_boott_returns (Z.quot (clk_ticks k) 100) c) as [c' ->]. cbn [mbind option_bind]. rewrite Hd.
      cbn [mbind option_bind clk_ticks clk_sec]. rewrite i32_small by lia. eauto.
    + cbn [mbind option_bind]. rewrite Hd. cbn [mbind option_bind]. rewrite i32_small by lia. eauto.
  - cbn [mbind option_bind]. rewrite i32_small by lia. eauto.
Qed.

Lemma timer_irqs_counts n : ∀ fuel p k c s l,
  queue s l → (length l < fuel)%nat → 0 <= clk_ticks k → clk_ticks k + Z.of_nat n < 2 ^ 31 →
  ∃ p' k' c' s', timer_irqs n fuel p k c s = Some (p', k', c', s') ∧ clk_ticks k' = clk_ticks k + Z.of_nat n ∧
    sleep_counts (Z.to_nat (hundreds (clk_ticks k) (Z.of_nat n))) fuel s = Ret (tt, s').
Proof.
  induction n as [|n IH]; intros fuel p k c s l Hq Hf Hk Hn; cbn [timer_irqs].
  { exists p, k, c, s. split; [done|]. split; [lia|]. unfold hundreds. rewrite Z.add_0_r, Z.sub_diag. done. }
  destruct (dec_sleep_count_spec fuel s l Hq Hf) as (s1 & E1 & Hq1 & _).
  destruct (irq_timer_handler_cases fuel p k c s s1 ltac:(lia) E1) as (p1 & c1 & sec1 & ->). cbn [mbind option_bind].
  destruct (IH fuel p1 (Clock (clk_ticks k + 1) sec1) c1 (if clk_ticks k mod 100 =? 0 then s1 else s) l) as (p' & k' & c' & s' & E & Ek & Es);
    [by case_match|done|cbn; lia|cbn; lia|].
  exists p', k', c', s'. split; [exact E|]. split; [cbn in Ek; lia|]. cbn [clk_ticks] in Es. unfold hundreds in *.
  destruct (Z.eqb_spec (clk_ticks k mod 100) 0) as [Hz|Hz].
  - replace (Z.to_nat _) with (S (Z.to_nat ((clk_ticks k + 1 + Z.of_nat n + 99) / 100 - (clk_ticks k + 1 + 99) / 100))) by lia.
    cbn [sleep_counts]. by rewrite (bind_ret _ _ _ _ _ E1).
  - replace (Z.to_nat _) with (Z.to_nat ((clk_ticks k + 1 + Z.of_nat n + 99) / 100 - (clk_ticks k + 1 + 99) / 100)) by lia. exact Es.
Qed.

(** C35: a sleeping task is woken by the timer, which counts it down in every
    hundredth interrupt: a task that goes to sleep for a positive [time] while the
    counter [ticks] of the timer stands at [clk_ticks k] wakes in the [time]-th interrupt that finds
    [ticks] at a multiple of 100, the interrupt number
    [(- clk_ticks k) mod 100 + 100 * (time - 1) + 1], and not before.  With
    [time = 0] the task's counter wraps and it is still asleep.  The [n] interrupts
    follow one another with nothing in between, and [ticks] stays below 2^31. *)
Theorem sys_sleep_wakes_on_time fuel s l l1 rest time n p k c :
  queue s l → l = l1 ++ running_task s :: rest → (length l < fuel)%nat → 0 <= time < 2 ^ 31 →
  0 <= clk_ticks k → clk_ticks k + Z.of_nat n < 2 ^ 31 →
  ∃ s1 p' k' c' s2, sys_sleep fuel time s = Ret (tt, s1) ∧ timer_irqs n fuel p k c s1 = Some (p', k', c', s2) ∧
    is_sleeping <$> task_at s2 (running_task s) =
    Some (if decide (time ≠ 0 ∧ (- clk_ticks k) mod 100 + 100 * (time - 1) < Z.of_nat n) then 0 else 1).
Proof.
  intros Hq El Hf Ht Hk Hn. destruct (sys_sleep_sleeps fuel s l l1 rest time Hq El Hf Ht) as (s1 & t1 & E1 & Hq1 & Et1 & Hs1 & Hv1).
  destruct (timer_irqs_counts n fuel p k c s1 l Hq1 Hf Hk Hn) as (p' & k' & c' & s2 & E2 & _ & E3).
  exists s1, p', k', c', s2. split; [exact E1|]. split; [exact E2|]. set (h := hundreds (clk_ticks k) (Z.of_nat n)) in *.
  assert (Hh : 0 <= h <= Z.of_nat n) by (unfold h, hundreds; lia).
  destruct (sleep_counts_spec (Z.to_nat h) fuel s1 l Hq1 Hf) as (s2' & E3' & _ & H2). rewrite E3 in E3'. injection E3' as <-.
  rewrite H2, Et1 by (rewrite El, elem_of_app; right; left). cbn [fmap option_fmap option_map]. f_equal.
  pose proof (dec_sleep_iter (Z.to_nat h) t1 time Hs1 Hv1 ltac:(lia) ltac:(lia)) as Hi. cbn zeta in Hi. rewrite Z2Nat.id in Hi by lia.
  assert (Hiff : time <= h ↔ (- clk_ticks k) mod 100 + 100 * (time - 1) < Z.of_nat n) by (unfold h, hundreds; lia).
  clearbody h. destruct (decide (time ≠ 0 ∧ time <= h)) as [Hd|Hd].
  - rewrite decide_True by (rewrite <- Hiff; exact Hd). exact Hi.
  - rewrite decide_False by (rewrite <- Hiff; exact Hd). apply Hi.
Qed.

Lemma sys_sleep_wakes_on_time_witness :
  ∃ s1 p' k' c' s2, sys_sleep 5 2 (demo 2 1) = Ret (tt, s1) ∧
    timer_irqs 151 5 [] (Clock 350 3) (Console 0 0 ∅ []) s1 = Some (p', k', c', s2) ∧ is_sleeping <$> task_at s2 2 = Some 0.
Proof.
  destruct (sys_sleep_wakes_on_time 5 (demo 2 1) [1; 2; 3] [1] [3] 2 151 [] (Clock 350 3) (Console 0 0 ∅ []) (demo_queue 2 1) eq_refl
    ltac:(simpl; lia) ltac:(lia) ltac:(cbn; lia) ltac:(cbn; lia)) as (s1 & p' & k' & c' & s2 & H1 & H2 & H3).
  exists s1, p', k', c', s2. split; [exact H1|]. split; [exact H2|exact H3].
Defined.
