(* ===== verification/Stubs.v ===== *)
(** * Stubs: the entry code of interrupts, src/sys/isr.s, src/sys/gisr.s and src/sys/gdt.s

    The part of the processor that this code uses: sixteen registers, the stack
    in memory, the delivery of an interrupt through a gate, [iretq] and the far
    return.  The stubs are lists of instructions with the lengths of their
    encodings, so that the address [&isr32+29] of the C sources is a position
    in the code.  The compiled C functions that the stubs call are a parameter:
    a function from the state at entry to the state after its [ret]. *)
From S2P Require Import Prelude Memory Interrupts.

(** ** The machine *)

(** The general registers but rsp. *)
Inductive reg := RAX | RBX | RCX | RDX | RSI | RDI | RBP | R8 | R9 | R10 | R11 | R12 | R13 | R14 | R15.
#[export] Instance reg_eq_dec : EqDecision reg.
Proof. solve_decision. Defined.

(** The other segment registers and the registers of the system tables: limit
    and base of the descriptor tables, selector of the task register. *)
Inductive sreg := DS | ES | FS | GS | SS.
#[export] Instance sreg_eq_dec : EqDecision sreg.
Proof. solve_decision. Defined.

Record tables := Tables { gdtr : Z * Z; idtr : Z * Z; tr : Z }.

Record machine := Machine {
  gpr : reg → Z;
  m_rsp : Z;
  m_rip : Z;
  m_cs : Z;
  m_seg : sreg → Z;
  m_rflags : Z;
  m_mem : mem;
  m_tab : tables;
}.
Definition m_ss (c : machine) : Z := m_seg c SS.

Definition set_gpr (c : machine) (r : reg) (v : Z) : machine :=
  Machine (λ r', if decide (r = r') then v else gpr c r') (m_rsp c) (m_rip c) (m_cs c) (m_seg c) (m_rflags c) (m_mem c) (m_tab c).
Definition set_rsp (c : machine) (v : Z) : machine :=
  Machine (gpr c) v (m_rip c) (m_cs c) (m_seg c) (m_rflags c) (m_mem c) (m_tab c).
Definition set_rip (c : machine) (v : Z) : machine :=
  Machine (gpr c) (m_rsp c) v (m_cs c) (m_seg c) (m_rflags c) (m_mem c) (m_tab c).
Definition set_cs (c : machine) (v : Z) : machine :=
  Machine (gpr c) (m_rsp c) (m_rip c) v (m_seg c) (m_rflags c) (m_mem c) (m_tab c).
Definition set_seg (c : machine) (s : sreg) (v : Z) : machine :=
  Machine (gpr c) (m_rsp c) (m_rip c) (m_cs c) (λ s', if decide (s = s') then v else m_seg c s') (m_rflags c) (m_mem c)
    (m_tab c).
Definition set_ss (c : machine) (v : Z) : machine := set_seg c SS v.
Definition set_tab (c : machine) (t : tables) : machine :=
  Machine (gpr c) (m_rsp c) (m_rip c) (m_cs c) (m_seg c) (m_rflags c) (m_mem c) t.
Definition set_rflags (c : machine) (v : Z) : machine :=
  Machine (gpr c) (m_rsp c) (m_rip c) (m_cs c) (m_seg c) v (m_mem c) (m_tab c).
Definition set_mem (c : machine) (m : mem) : machine :=
  Machine (gpr c) (m_rsp c) (m_rip c) (m_cs c) (m_seg c) (m_rflags c) m (m_tab c).

(** The stack of kernel code lies in the window of kernel addresses. *)
Definition push (c : machine) (v : Z) : machine :=
  let sp := m_rsp c -64 8 in set_rsp (set_mem c (store64 (m_mem c) (phys sp) v)) sp.
Definition top (c : machine) : Z := load64 (m_mem c) (phys (m_rsp c)).
Definition drop8 (c : machine) : machine := set_rsp c (m_rsp c +64 8).

(** ** Instructions *)

(** The C functions that the stubs call; [irq_handler n] is [irq_n_handler]. *)
Inductive cfun :=
  | irq_timer_handler | irq_kb_handler | page_fault_handler | general_protection_fault_handler | syscall_handler
  | irq_handler (n : Z).

Inductive instr :=
  | Cli | Sti
  | Pushq (r : reg) | Popq (r : reg)
  | Movq_sp (off : Z) (r : reg) (* movq off(%rsp), r *)
  | Addq_sp (n : Z) (* addq $n, %rsp *)
  | CallC (f : cfun)
  | Retq | Lretq | Iretq
  | Movabs (v : Z) (r : reg) (* movabsq $v, r *)
  | Lgdt (r : reg) | Lidt (r : reg) (* the operand is (r) *)
  | Ltr (r : reg)
  | Movseg (r : reg) (s : sreg).

(** The lengths of the encodings: the registers r8 to r15 need a prefix, an
    offset beyond 127 four bytes. *)
Definition extended (r : reg) : bool :=
  match r with R8 | R9 | R10 | R11 | R12 | R13 | R14 | R15 => true | _ => false end.
Definition size (i : instr) : Z :=
  match i with
  | Cli | Sti | Retq => 1
  | Pushq r | Popq r => if extended r then 2 else 1
  | Movq_sp off _ => if (-128 <=? off) && (off <=? 127) then 5 else 8
  | Addq_sp _ => 4
  | CallC _ => 5
  | Lretq | Iretq => 2
  | Movabs _ _ => 10
  | Lgdt _ | Lidt _ | Ltr _ | Movseg _ _ => 3
  end.

(** The code from a byte offset on. *)
Fixpoint at_offset (prog : list instr) (off : Z) : option (list instr) :=
  if off =? 0 then Some prog
  else match prog with [] => None | i :: p => if off <? size i then None else at_offset p (off - size i) end.

(** The ten bytes of [struct gdtr_t] and [struct idtr_t]: limit and base. *)
Definition table_operand (c : machine) (r : reg) : Z * Z :=
  (load 2 (m_mem c) (phys (gpr c r)), load64 (m_mem c) (phys (gpr c r) + 2)).

(** The interrupt flag is bit 9. *)
Definition IF_BIT : Z := 9.

Section Step.
Context (code : Z → option instr) (C : cfun → machine → option machine).

(** The effect of an instruction when rip is already past it. *)
Definition exec (i : instr) (c : machine) : option machine :=
  match i with
  | Cli => Some (set_rflags c (Z.clearbit (m_rflags c) IF_BIT))
  | Sti => Some (set_rflags c (Z.setbit (m_rflags c) IF_BIT))
  | Pushq r => Some (push c (gpr c r))
  | Popq r => Some (drop8 (set_gpr c r (top c)))
  | Movq_sp off r => Some (set_gpr c r (load64 (m_mem c) (phys (m_rsp c +64 off))))
  | Addq_sp n => Some (set_rsp c (m_rsp c +64 n))
  | CallC f => C f (push c (m_rip c))
  | Retq => Some (drop8 (set_rip c (top c)))
  | Lretq => let c := drop8 (set_rip c (top c)) in Some (drop8 (set_cs c (u16 (top c))))
  | Iretq =>
      let c := drop8 (set_rip c (top c)) in
      let c := drop8 (set_cs c (u16 (top c))) in
      let c := drop8 (set_rflags c (top c)) in
      let sp := top c in
      let c := drop8 c in
      Some (set_rsp (set_ss c (u16 (top c))) sp)
  | Movabs v r => Some (set_gpr c r v)
  | Lgdt r => Some (set_tab c (Tables (table_operand c r) (idtr (m_tab c)) (tr (m_tab c))))
  | Lidt r => Some (set_tab c (Tables (gdtr (m_tab c)) (table_operand c r) (tr (m_tab c))))
  | Ltr r => Some (set_tab c (Tables (gdtr (m_tab c)) (idtr (m_tab c)) (u16 (gpr c r))))
  | Movseg r s => Some (set_seg c s (u16 (gpr c r)))
  end.

Definition step (c : machine) : option machine :=
  i ← code (m_rip c); exec i (set_rip c (m_rip c +64 size i)).
Definition steps : machine → machine → Prop := rtc (λ c c', step c = Some c').
End Step.

(** ** Interrupts *)

(** Delivery through the gate of vector [num]: [soft] for the instruction
    [int].  From user mode the stack is [rsp0] of the TSS; the frame is aligned to
    16 bytes.  The gates are interrupt gates, which clear IF with TF, NT, RF and
    VM. *)
Definition interrupt (IDT : gmap Z gate) (rsp0 num : Z) (soft : bool) (err : option Z) (c : machine) : option machine :=
  g ← IDT !! num;
  let w := gate_word g in
  let cpl := Z.land (m_cs c) 3 in
  if (gate_present w =? 1) && (negb soft || (cpl <=? gate_dpl w)) && (gate_type w =? 14) then
    let c0 := set_rsp c (Z.ldiff (if cpl =? 0 then m_rsp c else rsp0) 15) in
    let c1 := push (push (push (push (push c0 (m_ss c)) (m_rsp c)) (m_rflags c)) (m_cs c)) (m_rip c) in
    let c2 := match err with Some e => push c1 e | None => c1 end in
    let c3 := set_rflags (set_cs (set_rip c2 (gate_target w)) (gate_selector w)) (Z.ldiff (m_rflags c) 0x34300) in
    Some (if cpl =? 0 then c3 else set_ss c3 0)
  else None.

(** ** The stubs *)

Definition saved : list reg := [RAX; RBX; RCX; RDX; RSI; RDI; RBP; R8; R9; R10; R11; R12; R13; R14; R15].
Definition restored : list reg := [R15; R14; R13; R12; R11; R10; R9; R8; RBP; RDI; RSI; RDX; RCX; RBX; RAX].

(** The stub of a vector without error code. *)
Definition plain_stub (f : cfun) : list instr :=
  [Cli] ++ (Pushq <$> saved) ++ [CallC f] ++ (Popq <$> restored) ++ [Sti; Iretq].
Definition isr32_code : list instr := plain_stub irq_timer_handler.
Definition isr33_code : list instr := plain_stub irq_kb_handler.
(** The stubs of src/sys/gisr.s. *)
Definition gisr_code (n : Z) : list instr := plain_stub (irq_handler n).

(** The stub of a vector with an error code, which becomes the first argument;
    the interrupted rip is the second. *)
Definition error_stub (f : cfun) : list instr :=
  [Cli] ++ (Pushq <$> saved) ++ [Movq_sp 120 RDI; Movq_sp 128 RSI; CallC f] ++ (Popq <$> restored) ++
  [Addq_sp 8; Sti; Iretq].
Definition isr13_code : list instr := error_stub general_protection_fault_handler.
Definition isr14_code : list instr := error_stub page_fault_handler.

(** The system call: rax is the result. *)
Definition saved_call : list reg := [RBX; RCX; RDX; RSI; RDI; RBP; R8; R9; R10; R11; R12; R13; R14; R15].
Definition restored_call : list reg := [R15; R14; R13; R12; R11; R10; R9; R8; RBP; RDI; RSI; RDX; RCX; RBX].
Definition isr128_code : list instr :=
  (Pushq <$> saved_call) ++ [CallC syscall_handler] ++ (Popq <$> restored_call) ++ [Iretq].

(** The stub of each vector of [idt_init]. *)
Definition stub_code (n : Z) : list instr :=
  if n =? 13 then isr13_code else if n =? 14 then isr14_code else if n =? 32 then isr32_code
  else if n =? 33 then isr33_code else if n =? 128 then isr128_code else gisr_code n.

(** ** Loading the tables *)

(** [_x86_64_asm_lidt], [_x86_64_asm_lgdt] and [_x86_64_asm_ltr]; [done_] is the
    address of the label [.done]. *)
Definition lidt_code : list instr := [Lidt RDI; Sti; Retq].
Definition lgdt_code (done_ : Z) : list instr :=
  [Lgdt RDI; Pushq RSI; Movabs done_ R10; Pushq R10; Lretq;
   Movseg RDX ES; Movseg RDX FS; Movseg RDX GS; Movseg RDX DS; Movseg RDX SS; Retq].
Definition ltr_code : list instr := [Ltr RDI; Retq].

(** ** Switching tasks *)

(** The position at which prepared stacks continue: [&isr32+29]. *)
Definition resume_point : Z := 29.

(** The end of [switch_to], compiled without a frame of its own: rsp is loaded
    and the function returns. *)
Definition switch_return (sp : Z) (c : machine) : machine :=
  let c := set_rsp c sp in drop8 (set_rip c (top c)).
