(* ===== verification/StubsProps.v ===== *)
(** * StubsProps: interrupted code continues as if nothing had happened

    The stubs save and restore every register, the system-call stub all but the
    result; the stacks that [elf_run_bin], [sys_fork] and [start] prepare are the
    ones the tail of [isr32] takes down. *)
From S2P Require Import Prelude Memory Interrupts InterruptsProps Stubs.

(** ** Code and stack *)

(** [prog] lies at [base]. *)
Definition placed (code : Z → option instr) (base : Z) (prog : list instr) : Prop :=
  ∀ off i rest, at_offset prog off = Some (i :: rest) → code (base +64 off) = Some i.

Lemma add64_assoc a b c : (a +64 b) +64 c = a +64 (b + c).
Proof. unfold u64. rewrite Zplus_mod_idemp_l. f_equal. lia. Qed.

Lemma size_pos i : 0 < size i.
Proof. destruct i; simpl; repeat case_match; lia. Qed.

Lemma at_offset_next prog : ∀ off i rest,
  at_offset prog off = Some (i :: rest) → at_offset prog (off + size i) = Some rest.
Proof.
  induction prog as [|j p IH]; intros off i rest H; cbn [at_offset] in *.
  { by destruct (off =? 0). }
  destruct (Z.eqb_spec off 0) as [->|Hne].
  - injection H as <- <-. pose proof (size_pos j). rewrite (proj2 (Z.eqb_neq _ _)) by lia.
    rewrite (proj2 (Z.ltb_ge _ _)) by lia. replace (0 + size j - size j) with 0 by lia. by destruct p.
  - destruct (Z.ltb_spec off (size j)); [done|]. pose proof (size_pos i). pose proof (size_pos j).
    assert (0 <= off - size j) by lia. rewrite (proj2 (Z.eqb_neq _ _)) by lia. rewrite (proj2 (Z.ltb_ge _ _)) by lia.
    replace (off + size i - size j) with (off - size j + size i) by lia. by apply IH.
Qed.

(** ** Words on the stack *)

Definition word (m : mem) (a : Z) : Z := load64 m (phys a).

(** The words [ws] from address [a] upwards. *)
Fixpoint stack_holds (m : mem) (a : Z) (ws : list Z) : Prop :=
  match ws with [] => True | w :: ws => word m a = w ∧ stack_holds m (a + 8) ws end.

(** [n] words fit below [a], a kernel address. *)
Definition room (a n : Z) : Prop := KERNEL_VADDR + 8 * n <= a < 2 ^ 64.

Definition is_word (z : Z) : Prop := 0 <= z < 2 ^ 64.

Lemma phys_kernel a : KERNEL_VADDR <= a → phys a = a - KERNEL_VADDR.
Proof. intros H. unfold phys. by rewrite (proj2 (Z.leb_le _ _) H). Qed.

(** Memories that agree on a range of the stack hold the same words there. *)
Lemma stack_holds_agree m m' ws : ∀ a,
  KERNEL_VADDR <= a → agree_on m m' (phys a) (8 * Z.of_nat (length ws)) → stack_holds m a ws → stack_holds m' a ws.
Proof.
  induction ws as [|w ws IH]; intros a Ha Hag; [done|]. intros [E H]. cbn [length] in Hag.
  rewrite phys_kernel in Hag by done. split.
  - rewrite <- E. unfold word. rewrite phys_kernel by done. apply load_agree. eapply agree_on_sub; [exact Hag|lia..].
  - apply IH; [lia| |done]. rewrite phys_kernel by lia. eapply agree_on_sub; [exact Hag|lia..].
Qed.

Lemma stack_holds_app m ws ws' : ∀ a,
  stack_holds m a (ws ++ ws') ↔ stack_holds m a ws ∧ stack_holds m (a + 8 * Z.of_nat (length ws)) ws'.
Proof.
  induction ws as [|w ws IH]; intros a; cbn [app stack_holds length].
  { replace (a + 8 * Z.of_nat 0) with a by lia. tauto. }
  rewrite IH. replace (a + 8 * Z.of_nat (S (length ws))) with (a + 8 + 8 * Z.of_nat (length ws)) by lia. tauto.
Qed.

(** What stays when the stack between two addresses is written. *)
Definition kept_outside (m m' : mem) (a b : Z) : Prop := ∀ x, x < phys a ∨ phys b <= x → rd m' x = rd m x.

Lemma kept_outside_refl m a : kept_outside m m a a.
Proof. by intros x _. Qed.

Lemma kept_outside_trans m1 m2 m3 a b c :
  KERNEL_VADDR <= c <= b → b <= a → kept_outside m1 m2 b a → kept_outside m2 m3 c b → kept_outside m1 m3 c a.
Proof.
  intros Hc Hb H1 H2 x Hx. rewrite !phys_kernel in Hx by lia.
  assert (x < phys c ∨ phys b <= x) by (rewrite !phys_kernel by lia; lia).
  assert (x < phys b ∨ phys a <= x) by (rewrite !phys_kernel by lia; lia).
  by rewrite H2, H1.
Qed.

Lemma push_spec c v ws :
  room (m_rsp c) 1 → is_word v → stack_holds (m_mem c) (m_rsp c) ws →
  m_rsp (push c v) = m_rsp c - 8 ∧ stack_holds (m_mem (push c v)) (m_rsp c - 8) (v :: ws) ∧
  kept_outside (m_mem c) (m_mem (push c v)) (m_rsp c - 8) (m_rsp c).
Proof.
  intros Hr Hv Hws. unfold room in Hr. unfold KERNEL_VADDR in Hr.
  assert (E : m_rsp c -64 8 = m_rsp c - 8) by (apply u64_small; lia).
  unfold push. cbn [m_rsp set_rsp m_mem set_mem]. rewrite E, phys_kernel by (unfold KERNEL_VADDR; lia). split; [done|].
  set (a := m_rsp c) in *. set (m' := store64 _ _ _).
  assert (Hk : kept_outside (m_mem c) m' (a - 8) a).
  { intros x Hx. rewrite !phys_kernel in Hx by (unfold KERNEL_VADDR; lia). unfold m', store64.
    apply (store_agree 8 _ _ _ x 1); lia. }
  split; [|done]. split.
  - unfold word. rewrite phys_kernel by (unfold KERNEL_VADDR; lia). unfold m'. rewrite load64_store64_eq. by apply u64_small.
  - replace (a - 8 + 8) with a by lia. eapply stack_holds_agree; [unfold KERNEL_VADDR; lia| |exact Hws].
    intros b Hb. apply Hk. lia.
Qed.

Section Run.
Context (code : Z → option instr) (C : cfun → machine → option machine).
Context (base : Z) (prog : list instr).
Hypothesis Hcode : placed code base prog.

(** The machine is at offset [off] of the code, where [rest] begins. *)
Definition at_code (c : machine) (rest : list instr) : Prop :=
  ∃ off, m_rip c = base +64 off ∧ at_offset prog off = Some rest.

Lemma step_at c i rest c' :
  at_code c (i :: rest) → exec C i (set_rip c (m_rip c +64 size i)) = Some c' → steps code C c c'.
Proof.
  intros (off & Hrip & Hat) Hex. apply rtc_once. unfold step. rewrite Hrip, (Hcode _ _ _ Hat). simpl. by rewrite <- Hrip.
Qed.

Lemma at_code_next c i rest : at_code c (i :: rest) → at_code (set_rip c (m_rip c +64 size i)) rest.
Proof.
  intros (off & Hrip & Hat). exists (off + size i). split; [|by apply at_offset_next].
  simpl. by rewrite Hrip, add64_assoc.
Qed.

Lemma at_code_rip c c' rest : at_code c rest → m_rip c' = m_rip c → at_code c' rest.
Proof. intros (off & H1 & H2) E. exists off. by rewrite E. Qed.

(** The parts that neither pushing nor popping changes. *)
Record same_control (c c' : machine) : Prop := {
  sc_cs : m_cs c' = m_cs c;
  sc_seg : m_seg c' = m_seg c;
  sc_rflags : m_rflags c' = m_rflags c;
  sc_tab : m_tab c' = m_tab c;
}.

Lemma same_control_refl c : same_control c c.
Proof. done. Qed.
Lemma same_control_trans c1 c2 c3 : same_control c1 c2 → same_control c2 c3 → same_control c1 c3.
Proof. intros [] []. constructor; congruence. Qed.

Lemma run_pushes rs : ∀ c rest ws,
  at_code c ((Pushq <$> rs) ++ rest) → room (m_rsp c) (Z.of_nat (length rs)) → (∀ r, is_word (gpr c r)) →
  stack_holds (m_mem c) (m_rsp c) ws →
  ∃ c', steps code C c c' ∧ at_code c' rest ∧ same_control c c' ∧ gpr c' = gpr c ∧
    m_rsp c' = m_rsp c - 8 * Z.of_nat (length rs) ∧ stack_holds (m_mem c') (m_rsp c') (reverse (gpr c <$> rs) ++ ws) ∧
    kept_outside (m_mem c) (m_mem c') (m_rsp c') (m_rsp c).
Proof.
  induction rs as [|r rs IH]; intros c rest ws Hat Hr Hg Hws.
  { exists c. split_and!; try done. simpl. lia. }
  cbn [length] in *. set (c1 := push (set_rip c (m_rip c +64 size (Pushq r))) (gpr c r)).
  destruct (push_spec (set_rip c (m_rip c +64 size (Pushq r))) (gpr c r) ws) as (E1 & E2 & E3);
    [unfold room in *; cbn [m_rsp set_rip]; lia|apply Hg|done|]. fold c1 in E1, E2, E3. cbn [m_rsp m_mem set_rip] in E1, E2, E3.
  destruct (IH c1 rest (gpr c r :: ws)) as (c' & S & A & SC & G & R & W & K).
  - eapply at_code_rip; [eapply at_code_next; exact Hat|done].
  - unfold room in *. rewrite E1. lia.
  - exact Hg.
  - by rewrite E1.
  - exists c'. split; [eapply rtc_trans; [eapply step_at; [exact Hat|reflexivity]|exact S]|].
    split; [exact A|]. split; [eapply same_control_trans; [|exact SC]; done|]. split; [exact G|]. split; [rewrite R, E1; lia|].
    split.
    + rewrite fmap_cons, reverse_cons, <- app_assoc. exact W.
    + eapply kept_outside_trans; [| |exact E3|rewrite <- E1; exact K]; unfold room in Hr; lia.
Qed.

(** The registers after popping [ws] into [rs]. *)
Fixpoint popped (rs : list reg) (ws : list Z) (g : reg → Z) : reg → Z :=
  match rs, ws with
  | r :: rs, w :: ws => popped rs ws (λ r', if decide (r = r') then w else g r')
  | _, _ => g
  end.

(** Words that were pushed from registers come back to them. *)
Lemma popped_back g rs : ∀ g' r, popped rs (g <$> rs) g' r = if decide (r ∈ rs) then g r else g' r.
Proof.
  induction rs as [|x rs IH]; intros g' r; [done|]. cbn [fmap list_fmap popped]. rewrite IH.
  destruct (decide (x = r)) as [->|Hne].
  - rewrite (decide_True (P := r ∈ r :: rs)) by constructor. by case_decide.
  - destruct (decide (r ∈ rs)) as [H|H].
    + by rewrite decide_True by by constructor.
    + rewrite decide_False; [done|]. rewrite elem_of_cons. intros [->|?]; done.
Qed.

Lemma run_pops rs : ∀ c rest ws ws',
  at_code c ((Popq <$> rs) ++ rest) → length ws = length rs → KERNEL_VADDR <= m_rsp c →
  m_rsp c + 8 * Z.of_nat (length rs) < 2 ^ 64 → stack_holds (m_mem c) (m_rsp c) (ws ++ ws') →
  ∃ c', steps code C c c' ∧ at_code c' rest ∧ same_control c c' ∧ m_mem c' = m_mem c ∧
    (∀ r, gpr c' r = popped rs ws (gpr c) r) ∧
    m_rsp c' = m_rsp c + 8 * Z.of_nat (length rs) ∧ stack_holds (m_mem c) (m_rsp c') ws'.
Proof.
  induction rs as [|r rs IH]; intros c rest ws ws' Hat Hl Hk Hr Hws.
  { destruct ws; [|done]. exists c. split_and!; try done. simpl. lia. }
  destruct ws as [|w ws]; [done|]. cbn [length app stack_holds] in *. destruct Hws as [Hw Hws].
  set (c1 := drop8 (set_gpr (set_rip c (m_rip c +64 size (Popq r))) r w)).
  assert (E1 : m_rsp c1 = m_rsp c + 8) by (cbn; apply u64_small; unfold KERNEL_VADDR in Hk; lia).
  destruct (IH c1 rest ws ws') as (c' & S & A & SC & M & G & R & W).
  - eapply at_code_rip; [eapply at_code_next; exact Hat|done].
  - lia.
  - lia.
  - lia.
  - by rewrite E1.
  - exists c'. split.
    { eapply rtc_trans; [|exact S]. eapply step_at; [exact Hat|]. cbn [exec]. unfold c1. do 3 f_equal. exact Hw. }
    split; [exact A|]. split; [eapply same_control_trans; [|exact SC]; done|]. split; [exact M|]. split; [exact G|].
    split; [rewrite R, E1; lia|exact W].
Qed.

(** [iretq] takes down the five words of the frame. *)
Lemma run_iretq c rest ip cs fl sp ss :
  at_code c (Iretq :: rest) → KERNEL_VADDR <= m_rsp c → m_rsp c + 40 < 2 ^ 64 →
  stack_holds (m_mem c) (m_rsp c) [ip; cs; fl; sp; ss] →
  ∃ c', steps code C c c' ∧ m_rip c' = ip ∧ m_cs c' = u16 cs ∧ m_rflags c' = fl ∧ m_rsp c' = sp ∧ m_ss c' = u16 ss ∧
    gpr c' = gpr c ∧ m_mem c' = m_mem c ∧ m_tab c' = m_tab c ∧ ∀ s, s ≠ SS → m_seg c' s = m_seg c s.
Proof.
  intros Hat Hk Hr (H1 & H2 & H3 & H4 & H5 & _). unfold word, KERNEL_VADDR in *.
  eexists. split; [eapply step_at; [exact Hat|reflexivity]|].
  assert (E1 : m_rsp c +64 8 = m_rsp c + 8) by (apply u64_small; lia).
  assert (E2 : m_rsp c + 8 +64 8 = m_rsp c + 8 + 8) by (apply u64_small; lia).
  assert (E3 : m_rsp c + 8 + 8 +64 8 = m_rsp c + 8 + 8 + 8) by (apply u64_small; lia).
  assert (E4 : m_rsp c + 8 + 8 + 8 +64 8 = m_rsp c + 8 + 8 + 8 + 8) by (apply u64_small; lia).
  cbn -[u64 u16 load64 phys]. unfold top. cbn -[u64 u16 load64 phys]. rewrite E1, E2, E3, E4, H1, H2, H3, H4, H5.
  split_and!; try done. intros s Hs. by destruct s.
Qed.
End Run.

(** ** Delivery of an interrupt *)

(** Every part of the state is a number of its width. *)
Record fits (c : machine) : Prop := {
  f_gpr : ∀ r, is_word (gpr c r);
  f_rip : is_word (m_rip c);
  f_rsp : is_word (m_rsp c);
  f_rflags : is_word (m_rflags c);
  f_cs : 0 <= m_cs c < 2 ^ 16;
  f_ss : 0 <= m_ss c < 2 ^ 16;
}.

(** The top of the stack on which the frame is put. *)
Definition frame_top (rsp0 : Z) (c : machine) : Z :=
  let a := if Z.land (m_cs c) 3 =? 0 then m_rsp c else rsp0 in a - a mod 16.
(** The five words of the frame, lowest address first. *)
Definition frame (c : machine) : list Z := [m_rip c; m_cs c; m_rflags c; m_rsp c; m_ss c].
Definition error_words (err : option Z) : list Z := match err with Some e => [e] | None => [] end.

Lemma ldiff_15 a : Z.ldiff a 15 = a - a mod 16.
Proof.
  change 15 with (Z.ones 4). rewrite Z.ldiff_ones_r by lia. rewrite shiftr_shiftl_align by lia. done.
Qed.

Lemma push_list_spec vs : ∀ c ws,
  room (m_rsp c) (Z.of_nat (length vs)) → Forall is_word vs → stack_holds (m_mem c) (m_rsp c) ws →
  let c' := foldl push c vs in
  m_rsp c' = m_rsp c - 8 * Z.of_nat (length vs) ∧ stack_holds (m_mem c') (m_rsp c') (reverse vs ++ ws) ∧
  kept_outside (m_mem c) (m_mem c') (m_rsp c') (m_rsp c) ∧
  gpr c' = gpr c ∧ m_rip c' = m_rip c ∧ m_cs c' = m_cs c ∧ m_seg c' = m_seg c ∧ m_rflags c' = m_rflags c ∧ m_tab c' = m_tab c.
Proof.
  induction vs as [|v vs IH]; intros c ws Hr Hv Hws; cbn [foldl length] in *.
  { split_and!; try done. lia. }
  apply Forall_cons in Hv as [Hv Hvs]. unfold room in Hr.
  destruct (push_spec c v ws) as (E1 & E2 & E3); [unfold room; lia|done|done|].
  destruct (IH (push c v) (v :: ws)) as (R & W & K & Hrest); [unfold room; lia|done|by rewrite E1|].
  split; [rewrite R, E1; lia|]. split; [by rewrite reverse_cons, <- app_assoc|]. split; [|exact Hrest].
  eapply kept_outside_trans; [| |exact E3|rewrite <- E1; exact K]; lia.
Qed.

(** The frame on the stack and the processor at the stub of the vector, with
    the registers untouched. *)
Lemma interrupt_delivers isr IDT rsp0 num level soft err c :
  (num, level) ∈ idt_vectors → is_word (isr num) → fits c → Forall is_word (error_words err) →
  (soft = true → Z.land (m_cs c) 3 <= level) → room (frame_top rsp0 c) 6 →
  ∃ c', interrupt (idt_init isr IDT) rsp0 num soft err c = Some c' ∧
    m_rip c' = isr num ∧ m_cs c' = 8 ∧ gpr c' = gpr c ∧ m_tab c' = m_tab c ∧ (∀ s, s ≠ SS → m_seg c' s = m_seg c s) ∧
    m_rsp c' = frame_top rsp0 c - 40 - 8 * Z.of_nat (length (error_words err)) ∧
    stack_holds (m_mem c') (m_rsp c') (error_words err ++ frame c) ∧
    kept_outside (m_mem c) (m_mem c') (m_rsp c') (frame_top rsp0 c).
Proof.
  intros Hin Hi Hf He Hs Hr. destruct (idt_gate isr IDT num level Hin Hi) as [g [G1 G2 G3 G4 G5 G6]].
  unfold interrupt. rewrite G1. cbn [mbind option_bind]. rewrite G2, G3, G4, G5, G6.
  assert (Ec : (1 =? 1) && (negb soft || (Z.land (m_cs c) 3 <=? level)) && (14 =? 14) = true).
  { destruct soft; [|done]. simpl. by rewrite (proj2 (Z.leb_le _ _) (Hs eq_refl)). }
  rewrite Ec, ldiff_15. change (_ - _ mod 16) with (frame_top rsp0 c).
  set (c0 := set_rsp c (frame_top rsp0 c)).
  set (vs := [m_ss c; m_rsp c; m_rflags c; m_cs c; m_rip c] ++ error_words err).
  assert (Hlen : Z.of_nat (length vs) = 5 + Z.of_nat (length (error_words err))) by (destruct err; reflexivity).
  assert (Hle : (length (error_words err) <= 1)%nat) by (destruct err; simpl; lia).
  destruct (push_list_spec vs c0 []) as (R & W & K & Hg & Hp & Hcs & Hsg & Hfl & Ht).
  - unfold room in *. cbn [m_rsp c0 set_rsp]. lia.
  - apply Forall_app. split; [|done]. destruct Hf as [? ? ? ? ? ?]. unfold is_word in *. repeat constructor; lia.
  - done.
  - rewrite app_nil_r in W. unfold vs in W. rewrite reverse_app in W.
    assert (Ev : reverse (error_words err) = error_words err) by (destruct err; reflexivity). rewrite Ev in W.
    set (c2 := foldl push c0 vs) in *.
    assert (E2 : match err with
                 | Some e => push (push (push (push (push (push c0 (m_ss c)) (m_rsp c)) (m_rflags c)) (m_cs c)) (m_rip c)) e
                 | None => push (push (push (push (push c0 (m_ss c)) (m_rsp c)) (m_rflags c)) (m_cs c)) (m_rip c)
                 end = c2) by (unfold c2, vs; destruct err; reflexivity).
    eexists. split; [by rewrite E2|]. rewrite Hlen in R. cbn [m_rsp c0 set_rsp] in R.
    destruct (Z.land (m_cs c) 3 =? 0); cbn [set_ss set_seg m_rip m_cs gpr m_tab m_seg m_rsp m_mem set_rflags set_cs set_rip];
      rewrite Hg, Ht, ?Hsg; (split_and!; [done..| |lia|exact W|exact K]); intros s Hne; [done|by destruct s].
Qed.

(** ** Handlers *)

(** A compiled C function called at [c] comes back at [c'] as the calling
    convention says; [n] bytes of the stack above its return address are not
    written. *)
Record c_returns (f : machine → option machine) (c c' : machine) (n : Z) : Prop := {
  cr_run : f c = Some c';
  cr_rip : m_rip c' = word (m_mem c) (m_rsp c);
  cr_rsp : m_rsp c' = m_rsp c + 8;
  cr_cs : m_cs c' = m_cs c;
  cr_seg : m_seg c' = m_seg c;
  cr_tab : m_tab c' = m_tab c;
  cr_stack : agree_on (m_mem c) (m_mem c') (phys (m_rsp c) + 8) n;
}.

(** From [c] the code calls [f], which is entered in the state [c0]. *)
Definition enters (code : Z → option instr) (C : cfun → machine → option machine) (c : machine) (f : cfun) (c0 : machine) : Prop :=
  ∃ c', steps code C c c' ∧ code (m_rip c') = Some (CallC f) ∧ c0 = push (set_rip c' (m_rip c' +64 5)) (m_rip c' +64 5).

Lemma enters_after code C c c' f c0 : steps code C c c' → enters code C c' f c0 → enters code C c f c0.
Proof. intros S (x & S' & H). exists x. split; [by eapply rtc_trans|done]. Qed.

Section Stub.
Context (code : Z → option instr) (C : cfun → machine → option machine).
Context (base : Z) (prog : list instr).
Hypothesis Hcode : placed code base prog.
#[local] Abbreviation at_code := (at_code base prog).

(** Instructions that only change flags or the stack pointer. *)
Lemma run_flag c i rest c' :
  at_code c (i :: rest) → exec C i (set_rip c (m_rip c +64 size i)) = Some c' → m_rip c' = m_rip c +64 size i →
  steps code C c c' ∧ at_code c' rest.
Proof.
  intros Hat Hex Hrip. split; [by eapply step_at|]. eapply at_code_rip; [eapply at_code_next; exact Hat|done].
Qed.

(** The call of a handler and the registers taken back after it; [ws] is the
    part of the stack above them. *)
Lemma call_restore c f g rs rest ws :
  at_code c (CallC f :: (Popq <$> rs) ++ rest) → room (m_rsp c) 1 → m_rsp c + 8 * Z.of_nat (length rs) < 2 ^ 64 →
  stack_holds (m_mem c) (m_rsp c) ((g <$> rs) ++ ws) →
  ∃ c0, enters code C c f c0 ∧ gpr c0 = gpr c ∧ same_control c c0 ∧ m_rsp c0 = m_rsp c - 8 ∧
    kept_outside (m_mem c) (m_mem c0) (m_rsp c0) (m_rsp c) ∧ stack_holds (m_mem c0) (m_rsp c) ((g <$> rs) ++ ws) ∧
    ∀ c1, c_returns (C f) c0 c1 (8 * Z.of_nat (length rs + length ws)) →
    ∃ c2, steps code C c c2 ∧ at_code c2 rest ∧ m_cs c2 = m_cs c ∧ m_seg c2 = m_seg c ∧ m_tab c2 = m_tab c ∧
      m_mem c2 = m_mem c1 ∧ m_rsp c2 = m_rsp c + 8 * Z.of_nat (length rs) ∧ stack_holds (m_mem c2) (m_rsp c2) ws ∧
      ∀ r, gpr c2 r = if decide (r ∈ rs) then g r else gpr c1 r.
Proof.
  intros Hat Hr Hb Hws. set (r := m_rip c +64 5). set (c' := set_rip c r).
  destruct (push_spec c' r ((g <$> rs) ++ ws)) as (E1 & E2 & E3); [exact Hr|apply u64_range|exact Hws|].
  cbn [m_rsp m_mem c' set_rip] in E1, E2, E3. unfold room in Hr.
  exists (push c' r). split.
  { exists c. split; [apply rtc_refl|]. split; [|done]. destruct Hat as (off & Hrip & Hat). rewrite Hrip. by eapply Hcode. }
  split; [done|]. split; [done|]. split; [exact E1|]. split; [by rewrite E1|].
  split; [replace (m_rsp c) with (m_rsp c - 8 + 8) by lia; exact (proj2 E2)|]. intros c1 [Hrun Hrip Hrsp Hcs Hseg Htab Hst].
  assert (R1 : m_rsp c1 = m_rsp c) by (rewrite Hrsp, E1; lia).
  assert (A1 : at_code c1 ((Popq <$> rs) ++ rest)).
  { eapply at_code_rip; [eapply at_code_next; exact Hat|]. rewrite Hrip, E1. exact (proj1 E2). }
  assert (W1 : stack_holds (m_mem c1) (m_rsp c1) ((g <$> rs) ++ ws)).
  { rewrite R1. replace (m_rsp c) with (m_rsp c - 8 + 8) by lia. eapply stack_holds_agree; [lia| |exact (proj2 E2)].
    rewrite length_app, length_fmap, phys_kernel by lia. rewrite E1, phys_kernel in Hst by lia.
    eapply agree_on_sub; [exact Hst|lia..]. }
  destruct (run_pops code C base prog Hcode rs c1 rest (g <$> rs) ws A1) as (c2 & S2 & A2 & [] & M2 & G2 & R2 & W2).
  - by rewrite length_fmap.
  - lia.
  - by rewrite R1.
  - exact W1.
  - exists c2. split; [eapply rtc_trans; [eapply step_at; [exact Hcode|exact Hat|exact Hrun]|exact S2]|].
    split; [exact A2|]. split; [by rewrite sc_cs0, Hcs|]. split; [by rewrite sc_seg0, Hseg|]. split; [by rewrite sc_tab0, Htab|].
    split; [exact M2|]. split; [by rewrite R2, R1|]. split; [by rewrite M2|]. intros x. by rewrite G2, popped_back.
Qed.

(** Saving [sv], calling [f] and restoring, with nothing in between. *)
Lemma save_call_restore c f sv rest ws :
  at_code c ((Pushq <$> sv) ++ CallC f :: (Popq <$> reverse sv) ++ rest) →
  room (m_rsp c) (Z.of_nat (length sv) + 1) → (∀ r, is_word (gpr c r)) → stack_holds (m_mem c) (m_rsp c) ws →
  ∃ c0, enters code C c f c0 ∧ gpr c0 = gpr c ∧ same_control c c0 ∧ m_rsp c0 = m_rsp c - 8 * Z.of_nat (length sv) - 8 ∧
    kept_outside (m_mem c) (m_mem c0) (m_rsp c0) (m_rsp c) ∧
    stack_holds (m_mem c0) (m_rsp c0 + 8) ((gpr c <$> reverse sv) ++ ws) ∧
    ∀ c1, c_returns (C f) c0 c1 (8 * Z.of_nat (length sv + length ws)) →
    ∃ c2, steps code C c c2 ∧ at_code c2 rest ∧ m_cs c2 = m_cs c ∧ m_seg c2 = m_seg c ∧ m_tab c2 = m_tab c ∧
      m_mem c2 = m_mem c1 ∧ m_rsp c2 = m_rsp c ∧ stack_holds (m_mem c2) (m_rsp c2) ws ∧
      ∀ r, gpr c2 r = if decide (r ∈ sv) then gpr c r else gpr c1 r.
Proof.
  intros Hat Hr Hg Hws. unfold room in Hr.
  destruct (run_pushes code C base prog Hcode sv c _ ws Hat) as (c' & S & A & SC & G & R & W & K); [unfold room; lia|done..|].
  rewrite <- fmap_reverse in W.
  destruct (call_restore c' f (gpr c) (reverse sv) rest ws A) as (c0 & N0 & G0 & SC0 & R0 & K0 & W0 & Hret).
  - unfold room. lia.
  - rewrite length_reverse. lia.
  - exact W.
  - exists c0. split; [by eapply enters_after|]. split; [by rewrite G0|]. split; [by eapply same_control_trans|]. split; [lia|]. split.
    { eapply kept_outside_trans; [| |exact K|exact K0]; lia. }
    split; [replace (m_rsp c0 + 8) with (m_rsp c') by lia; exact W0|].
    intros c1 Hc1. destruct (Hret c1) as (c2 & S2 & A2 & E1 & E2 & E3 & M2 & R2 & W2 & G2); [by rewrite length_reverse|].
    rewrite length_reverse in R2. destruct SC as [SC1 SC2 SC3 SC4].
    exists c2. split; [by eapply rtc_trans|]. split; [exact A2|]. split; [congruence|]. split; [congruence|]. split; [congruence|].
    split; [exact M2|]. split; [lia|]. split; [exact W2|]. intros r. rewrite G2.
    destruct (decide (r ∈ sv)) as [H|H]; [by rewrite decide_True by by apply elem_of_reverse|].
    by rewrite decide_False by by rewrite elem_of_reverse.
Qed.
End Stub.

Lemma at_code_start base prog c : is_word base → m_rip c = base → at_code base prog c prog.
Proof. intros Hb Hr. exists 0. split; [by rewrite Hr, Z.add_0_r, u64_small|]. by destruct prog. Qed.

Lemma saved_all r : r ∈ saved.
Proof. apply list_elem_of_In. destruct r; simpl; tauto. Qed.

(** The stub of [f] up to its [iretq]; [ws] are the words the processor left. *)
Lemma plain_stub_run code C base f c ws :
  placed code base (plain_stub f) → is_word base → m_rip c = base → (∀ r, is_word (gpr c r)) → room (m_rsp c) 16 →
  stack_holds (m_mem c) (m_rsp c) ws →
  ∃ c0, enters code C c f c0 ∧ gpr c0 = gpr c ∧ Z.testbit (m_rflags c0) IF_BIT = false ∧ m_rsp c0 = m_rsp c - 128 ∧
    kept_outside (m_mem c) (m_mem c0) (m_rsp c0) (m_rsp c) ∧
    ∀ c1, c_returns (C f) c0 c1 (8 * Z.of_nat (15 + length ws)) →
    ∃ c2, steps code C c c2 ∧ at_code base (plain_stub f) c2 [Iretq] ∧ m_seg c2 = m_seg c ∧ m_tab c2 = m_tab c ∧
      m_mem c2 = m_mem c1 ∧ m_rsp c2 = m_rsp c ∧ stack_holds (m_mem c2) (m_rsp c2) ws ∧ ∀ r, gpr c2 r = gpr c r.
Proof.
  intros Hcode Hb Hrip Hg Hr Hws.
  destruct (run_flag code C base _ Hcode c Cli _ _ (at_code_start _ _ _ Hb Hrip) eq_refl eq_refl) as [S1 A1].
  set (c1 := set_rflags _ _) in S1, A1.
  destruct (save_call_restore code C base _ Hcode c1 f saved [Sti; Iretq] ws A1 Hr Hg Hws) as (c0 & N0 & G0 & [] & R0 & K0 & _ & Hret).
  exists c0. split; [by eapply enters_after|]. split; [exact G0|]. split; [rewrite sc_rflags0; apply Z.clearbit_eq|]. split; [cbn in R0; lia|].
  split; [exact K0|]. intros cr Hcr. destruct (Hret cr Hcr) as (c2 & S2 & A2 & _ & E2 & E3 & M2 & R2 & W2 & G2).
  destruct (run_flag code C base _ Hcode c2 Sti _ _ A2 eq_refl eq_refl) as [S3 A3].
  eexists. split; [eapply rtc_trans; [exact S1|]; eapply rtc_trans; [exact S2|exact S3]|].
  split; [exact A3|]. split_and!; try done. intros r. cbn [gpr set_rflags set_rip]. rewrite G2.
  by rewrite decide_True by apply saved_all.
Qed.

(** The words of a saved state fit their places. *)
Lemma frame_restores code C base prog c c2 ct :
  placed code base prog → fits c → at_code base prog c2 [Iretq] → KERNEL_VADDR <= m_rsp c2 → m_rsp c2 + 40 < 2 ^ 64 →
  stack_holds (m_mem c2) (m_rsp c2) (frame c) → m_seg c2 = m_seg ct → (∀ s, s ≠ SS → m_seg ct s = m_seg c s) →
  ∃ c', steps code C c2 c' ∧ m_rip c' = m_rip c ∧ m_cs c' = m_cs c ∧ m_rflags c' = m_rflags c ∧ m_rsp c' = m_rsp c ∧
    (∀ s, m_seg c' s = m_seg c s) ∧ gpr c' = gpr c2 ∧ m_mem c' = m_mem c2 ∧ m_tab c' = m_tab c2.
Proof.
  intros Hcode [] Hat Hk Hr Hws E2 Es.
  destruct (run_iretq code C base prog Hcode c2 [] _ _ _ _ _ Hat Hk Hr Hws) as (c' & S & P1 & P2 & P3 & P4 & P5 & P6 & P7 & P8 & P9).
  exists c'. unfold u16 in *. rewrite Z.mod_small in P2, P5 by lia. split_and!; try done.
  intros s. destruct (decide (s = SS)) as [->|Hne]; [exact P5|]. by rewrite P9, E2, Es.
Qed.

(** The state [c] continues at [c'], up to the memory. *)
Record continues (c c' : machine) : Prop := {
  co_rip : m_rip c' = m_rip c;
  co_cs : m_cs c' = m_cs c;
  co_rflags : m_rflags c' = m_rflags c;
  co_rsp : m_rsp c' = m_rsp c;
  co_seg : ∀ s, m_seg c' s = m_seg c s;
  co_tab : m_tab c' = m_tab c;
}.

(** The handler of a vector with a plain stub. *)
Definition plain_handler (n : Z) : cfun :=
  if n =? 32 then irq_timer_handler else if n =? 33 then irq_kb_handler else irq_handler n.
(** The vectors for which the processor pushes an error code. *)
Definition error_vectors : list Z := [8; 10; 11; 12; 13; 14; 17].

Lemma plain_code num : num ≠ 13 → num ≠ 14 → num ≠ 128 → stub_code num = plain_stub (plain_handler num).
Proof.
  intros H1 H2 H3. unfold stub_code, plain_handler.
  rewrite (proj2 (Z.eqb_neq _ _) H1), (proj2 (Z.eqb_neq _ _) H2), (proj2 (Z.eqb_neq _ _) H3). repeat case_match; done.
Qed.

(** C6: an interrupt is invisible to the code it interrupts.  On every vector of
    the table without error code, from user or kernel mode, the stub that the
    gate names calls the handler with interrupts off and the interrupted
    registers, having written only 168 bytes below the top of the stack; when the
    handler returns, every register, the flags, the stack pointer and the segments
    are what they were, and the memory is the handler's. *)
Theorem interrupt_transparent code C isr IDT rsp0 num level c :
  (num, level) ∈ idt_vectors → num ∉ 128 :: error_vectors → is_word (isr num) → placed code (isr num) (stub_code num) →
  fits c → room (frame_top rsp0 c) 21 →
  ∃ ct c0, interrupt (idt_init isr IDT) rsp0 num false None c = Some ct ∧ enters code C ct (plain_handler num) c0 ∧
    gpr c0 = gpr c ∧ Z.testbit (m_rflags c0) IF_BIT = false ∧ m_rsp c0 = frame_top rsp0 c - 168 ∧
    kept_outside (m_mem c) (m_mem c0) (m_rsp c0) (frame_top rsp0 c) ∧
    ∀ c1, c_returns (C (plain_handler num)) c0 c1 160 →
    ∃ c', steps code C ct c' ∧ continues c c' ∧ (∀ r, gpr c' r = gpr c r) ∧ m_mem c' = m_mem c1.
Proof.
  intros Hv Hn Hi Hcode Hf Hr. unfold room in Hr.
  destruct (interrupt_delivers isr IDT rsp0 num level false None c) as (ct & Ht & T1 & T2 & T3 & T4 & T5 & T6 & T7 & T8);
    [done..|constructor|done|unfold room; lia|]. cbn [error_words length app] in T6, T7.
  rewrite plain_code in Hcode by (intros ->; apply Hn, list_elem_of_In; simpl; tauto).
  destruct (plain_stub_run code C _ _ ct (frame c) Hcode Hi T1) as (c0 & N0 & G0 & I0 & R0 & K0 & Hret);
    [by rewrite T3; apply f_gpr|unfold room; lia|exact T7|].
  exists ct, c0. split; [exact Ht|]. split; [exact N0|]. split; [by rewrite G0|]. split; [exact I0|]. split; [lia|]. split.
  { eapply kept_outside_trans; [| |exact T8|exact K0]; lia. }
  intros c1 Hc1. destruct (Hret c1 Hc1) as (c2 & S2 & A2 & E2 & E3 & M2 & R2 & W2 & G2).
  destruct (frame_restores code C _ _ c c2 ct Hcode Hf A2) as (c' & S' & P1 & P2 & P3 & P4 & P5 & P6 & P7 & P8);
    [lia|lia|exact W2|exact E2|exact T5|].
  exists c'. split; [by eapply rtc_trans|]. split; [constructor; congruence|]. split; [|congruence].
  intros r. by rewrite P6, G2, T3.
Qed.

(** ** System calls *)

(** [int 0x80] up to the entry of [syscall_handler], and from its return. *)
Lemma isr128_run code C isr IDT rsp0 c :
  is_word (isr 128) → placed code (isr 128) isr128_code → fits c → room (frame_top rsp0 c) 20 →
  ∃ ct c0, interrupt (idt_init isr IDT) rsp0 128 true None c = Some ct ∧ enters code C ct syscall_handler c0 ∧ gpr c0 = gpr c ∧
    m_rsp c0 = frame_top rsp0 c - 160 ∧ kept_outside (m_mem c) (m_mem c0) (m_rsp c0) (frame_top rsp0 c) ∧
    stack_holds (m_mem c0) (m_rsp c0 + 8) ((gpr c <$> restored_call) ++ frame c) ∧
    ∀ c1, c_returns (C syscall_handler) c0 c1 152 →
    ∃ c', steps code C ct c' ∧ continues c c' ∧ (∀ r, gpr c' r = if decide (r = RAX) then gpr c1 RAX else gpr c r) ∧
      m_mem c' = m_mem c1.
Proof.
  intros Hi Hcode Hf Hr. unfold room in Hr.
  destruct (interrupt_delivers isr IDT rsp0 128 3 true None c) as (ct & Ht & T1 & T2 & T3 & T4 & T5 & T6 & T7 & T8).
  - apply list_elem_of_In. simpl. tauto.
  - done.
  - done.
  - constructor.
  - intros _. change 3 with (2 ^ 2 - 1) at 1. rewrite land_ones_mod by done. change (2 ^ 2) with 4. lia.
  - unfold room. lia.
  - cbn [error_words length app] in T6, T7.
    destruct (save_call_restore code C _ _ Hcode ct syscall_handler saved_call [Iretq] (frame c)) as (c0 & N0 & G0 & _ & R0 & K0 & W0 & Hret).
    + by apply at_code_start.
    + unfold room. cbn [saved_call length]. lia.
    + rewrite T3. apply Hf.
    + exact T7.
    + cbn [saved_call length] in R0. exists ct, c0. split; [exact Ht|]. split; [exact N0|]. split; [by rewrite G0|]. split; [lia|]. split.
      { eapply kept_outside_trans; [| |exact T8|exact K0]; lia. }
      split; [rewrite T3 in W0; exact W0|].
      intros c1 Hc1. destruct (Hret c1 Hc1) as (c2 & S2 & A2 & _ & E2 & E3 & M2 & R2 & W2 & G2).
      destruct (frame_restores code C _ _ c c2 ct Hcode Hf A2) as (c' & S' & P1 & P2 & P3 & P4 & P5 & P6 & P7 & P8);
        [lia|lia|exact W2|exact E2|exact T5|].
      exists c'. split; [by eapply rtc_trans|]. split; [constructor; congruence|]. split; [|congruence].
      intros r. rewrite P6, G2, T3.
      assert (Hr' : r ∈ saved_call ↔ r ≠ RAX) by (rewrite list_elem_of_In; destruct r; simpl; intuition congruence).
      destruct (decide (r = RAX)) as [->|Hne]; [by rewrite decide_False by (rewrite Hr'; congruence)|].
      by rewrite decide_True by by apply Hr'.
Qed.

(** ** Vectors with an error code *)

(** A word of the stack read at an offset. *)
Lemma word_at m a ws w i :
  stack_holds m a ws → ws !! i = Some w → word m (a + 8 * Z.of_nat i) = w.
Proof.
  revert a i. induction ws as [|x ws IH]; intros a i H Hi; [by destruct i|]. destruct H as [H1 H2]. destruct i as [|i].
  - injection Hi as <-. by rewrite Z.add_0_r.
  - rewrite <- (IH (a + 8) i H2 Hi). f_equal. lia.
Qed.

(** The arguments of the handler: the error code, which is the word above the
    fifteen registers, and the interrupted rip. *)
Lemma error_args code C base prog c e ip rest us ws :
  placed code base prog → at_code base prog c (Movq_sp 120 RDI :: Movq_sp 128 RSI :: rest) → is_word (m_rsp c) →
  m_rsp c + 136 < 2 ^ 64 → length us = 15%nat → stack_holds (m_mem c) (m_rsp c) (us ++ e :: ip :: ws) →
  ∃ c', steps code C c c' ∧ at_code base prog c' rest ∧ same_control c c' ∧ m_mem c' = m_mem c ∧ m_rsp c' = m_rsp c ∧
    gpr c' RDI = e ∧ gpr c' RSI = ip ∧ ∀ r, r ≠ RDI → r ≠ RSI → gpr c' r = gpr c r.
Proof.
  intros Hcode A2 Hw Hu Hl W2. unfold is_word in Hw.
  assert (Ew : word (m_mem c) (m_rsp c + 120) = e ∧ word (m_mem c) (m_rsp c + 128) = ip).
  { split; [apply (word_at _ _ _ e 15 W2)|apply (word_at _ _ _ ip 16 W2)]; rewrite lookup_app_r, Hl by lia; reflexivity. }
  destruct (run_flag code C base _ Hcode c _ _ _ A2 eq_refl eq_refl) as [S3 A3]. set (c3 := set_gpr _ RDI _) in S3, A3.
  destruct (run_flag code C base _ Hcode c3 _ _ _ A3 eq_refl eq_refl) as [S4 A4]. set (c4 := set_gpr _ RSI _) in S4, A4.
  exists c4. split; [by eapply rtc_trans|]. split; [exact A4|]. split_and!; try done.
  - cbn. rewrite (u64_small (m_rsp c + 120)) by lia. apply Ew.
  - cbn. rewrite (u64_small (m_rsp c + 128)) by lia. apply Ew.
  - intros r H1 H2. destruct r; done.
Qed.

(** Dropping the error code before [iretq]. *)
Lemma error_drop code C base prog c :
  placed code base prog → at_code base prog c [Addq_sp 8; Sti; Iretq] → is_word (m_rsp c) → m_rsp c + 8 < 2 ^ 64 →
  ∃ c', steps code C c c' ∧ at_code base prog c' [Iretq] ∧ m_seg c' = m_seg c ∧ m_tab c' = m_tab c ∧ m_mem c' = m_mem c ∧
    m_rsp c' = m_rsp c + 8 ∧ gpr c' = gpr c.
Proof.
  intros Hcode A5 Hw Hu. unfold is_word in Hw.
  destruct (run_flag code C base _ Hcode c _ _ _ A5 eq_refl eq_refl) as [S6 A6]. set (c6 := set_rsp _ _) in S6, A6.
  destruct (run_flag code C base _ Hcode c6 _ _ _ A6 eq_refl eq_refl) as [S7 A7]. set (c7 := set_rflags _ _) in S7, A7.
  exists c7. split; [by eapply rtc_trans|]. split_and!; try done. cbn. apply u64_small. lia.
Qed.

(** The error stub up to its [iretq]. *)
Lemma error_stub_run code C base f c e ip ws :
  placed code base (error_stub f) → is_word base → m_rip c = base → (∀ r, is_word (gpr c r)) → room (m_rsp c) 16 →
  m_rsp c + 16 < 2 ^ 64 → stack_holds (m_mem c) (m_rsp c) (e :: ip :: ws) →
  ∃ c0, enters code C c f c0 ∧ gpr c0 RDI = e ∧ gpr c0 RSI = ip ∧ (∀ r, r ≠ RDI → r ≠ RSI → gpr c0 r = gpr c r) ∧
    Z.testbit (m_rflags c0) IF_BIT = false ∧ m_rsp c0 = m_rsp c - 128 ∧
    kept_outside (m_mem c) (m_mem c0) (m_rsp c0) (m_rsp c) ∧
    ∀ c1, c_returns (C f) c0 c1 (8 * Z.of_nat (17 + length ws)) →
    ∃ c2, steps code C c c2 ∧ at_code base (error_stub f) c2 [Iretq] ∧ m_seg c2 = m_seg c ∧ m_tab c2 = m_tab c ∧
      m_mem c2 = m_mem c1 ∧ m_rsp c2 = m_rsp c + 8 ∧ stack_holds (m_mem c2) (m_rsp c2) (ip :: ws) ∧ ∀ r, gpr c2 r = gpr c r.
Proof.
  intros Hcode Hb Hrip Hg Hr Hu Hws. unfold room in Hr. assert (HK : 0 < KERNEL_VADDR) by reflexivity.
  destruct (run_flag code C base _ Hcode c Cli _ _ (at_code_start _ _ _ Hb Hrip) eq_refl eq_refl) as [S1 A1].
  set (c1 := set_rflags _ _) in S1, A1.
  destruct (run_pushes code C base _ Hcode saved c1 _ (e :: ip :: ws) A1) as (c2 & S2 & A2 & SC2 & G2 & R2 & W2 & K2);
    [unfold room; cbn; lia|done|done|]. cbn [m_rsp set_rflags set_rip c1 saved length] in R2.
  rewrite <- fmap_reverse in W2. change (reverse saved) with restored in W2. cbn [gpr set_rflags set_rip c1] in G2, W2.
  destruct (error_args code C base _ c2 e ip _ (gpr c <$> restored) ws Hcode A2) as (c4 & S4 & A4 & SC4 & M4 & R4 & D1 & D2 & D3);
    [unfold is_word; lia|lia|by rewrite length_fmap|exact W2|].
  destruct (call_restore code C base _ Hcode c4 f (gpr c) restored [Addq_sp 8; Sti; Iretq] (e :: ip :: ws) A4)
    as (c0 & N0 & G0 & SC0 & R0 & K0 & _ & Hret); [unfold room; lia|cbn; lia|by rewrite M4, R4|].
  rewrite M4 in K0. exists c0. split.
  { repeat (eapply enters_after; [eassumption|]). exact N0. }
  rewrite G0. split; [exact D1|]. split; [exact D2|].
  split; [intros r H1 H2; by rewrite D3, G2|]. split.
  { rewrite (sc_rflags _ _ SC0), (sc_rflags _ _ SC4), (sc_rflags _ _ SC2). apply Z.clearbit_eq. }
  split; [lia|]. split.
  { eapply (kept_outside_trans _ (m_mem c2) _ (m_rsp c) (m_rsp c2)); [| |exact K2|rewrite <- R4; exact K0]; lia. }
  intros cr Hcr. destruct (Hret cr) as (c5 & S5 & A5 & _ & E2 & E3 & M5 & R5 & W5 & G5).
  { replace (length restored + length (e :: ip :: ws))%nat with (17 + length ws)%nat by (cbn; lia). exact Hcr. }
  cbn [restored length] in R5.
  destruct (error_drop code C base _ c5 Hcode A5) as (c7 & S7 & A7 & B1 & B2 & B3 & B4 & B5); [unfold is_word; lia|lia|].
  exists c7. split; [repeat (eapply rtc_trans; [eassumption|]); apply rtc_refl|].
  split; [exact A7|]. split; [by rewrite B1, E2, (sc_seg _ _ SC4), (sc_seg _ _ SC2)|].
  split; [by rewrite B2, E3, (sc_tab _ _ SC4), (sc_tab _ _ SC2)|]. split; [by rewrite B3, M5|]. split; [lia|].
  split; [rewrite B3, B4; exact (proj2 W5)|]. intros r. rewrite B5, G5.
  by rewrite decide_True by (apply list_elem_of_In; destruct r; simpl; tauto).
Qed.

(** C23: a fault delivers its error code and its address, and is invisible after
    the handler returned.  On the vectors 13 and 14 the handler is called with
    the error code as first and the interrupted rip as second argument; when it
    returns, the stub drops the code and the interrupted code continues with all
    its registers. *)
Theorem fault_stub_passes_error code C isr IDT rsp0 num f e c :
  (num = 13 ∧ f = general_protection_fault_handler ∨ num = 14 ∧ f = page_fault_handler) → is_word (isr num) → is_word e →
  placed code (isr num) (stub_code num) → fits c → room (frame_top rsp0 c) 22 →
  ∃ ct c0, interrupt (idt_init isr IDT) rsp0 num false (Some e) c = Some ct ∧ enters code C ct f c0 ∧
    gpr c0 RDI = e ∧ gpr c0 RSI = m_rip c ∧ Z.testbit (m_rflags c0) IF_BIT = false ∧
    m_rsp c0 = frame_top rsp0 c - 176 ∧ kept_outside (m_mem c) (m_mem c0) (m_rsp c0) (frame_top rsp0 c) ∧
    ∀ c1, c_returns (C f) c0 c1 168 →
    ∃ c', steps code C ct c' ∧ continues c c' ∧ (∀ r, gpr c' r = gpr c r) ∧ m_mem c' = m_mem c1.
Proof.
  intros Hnum Hi He Hcode Hf Hr. unfold room in Hr.
  assert (Hv : (num, 0) ∈ idt_vectors) by (apply list_elem_of_In; destruct Hnum as [[-> _]|[-> _]]; simpl; tauto).
  assert (Ec : stub_code num = error_stub f) by (destruct Hnum as [[-> ->]|[-> ->]]; reflexivity). rewrite Ec in Hcode.
  destruct (interrupt_delivers isr IDT rsp0 num 0 false (Some e) c) as (ct & Ht & T1 & T2 & T3 & T4 & T5 & T6 & T7 & T8);
    [done..|by apply Forall_singleton|done|unfold room; lia|]. cbn [error_words length app] in T6, T7.
  destruct (error_stub_run code C _ f ct e (m_rip c) [m_cs c; m_rflags c; m_rsp c; m_ss c] Hcode Hi T1)
    as (c0 & N0 & D1 & D2 & D3 & I0 & R0 & K0 & Hret); [by rewrite T3; apply f_gpr|unfold room; lia|lia|exact T7|].
  exists ct, c0. split; [exact Ht|]. split; [exact N0|]. split; [exact D1|]. split; [exact D2|]. split; [exact I0|]. split; [lia|]. split.
  { eapply kept_outside_trans; [| |exact T8|exact K0]; lia. }
  intros c1 Hc1. destruct (Hret c1 Hc1) as (c2 & S2 & A2 & E2 & E3 & M2 & R2 & W2 & G2).
  destruct (frame_restores code C _ _ c c2 ct Hcode Hf A2) as (c' & S' & P1 & P2 & P3 & P4 & P5 & P6 & P7 & P8);
    [lia|lia|exact W2|exact E2|exact T5|].
  exists c'. split; [by eapply rtc_trans|]. split; [constructor; congruence|]. split; [|congruence].
  intros r. by rewrite P6, G2, T3.
Qed.

(** The exceptions 8, 10, 11, 12 and 17 push an error code that their stubs
    do not take off: when the handler returns, [iretq] goes to the error code as
    address, with the interrupted rip as code segment. *)
Theorem gisr_error_code_misreturns code C isr IDT rsp0 num level e c :
  (num, level) ∈ idt_vectors → num ∈ [8; 10; 11; 12; 17] → is_word (isr num) → is_word e →
  placed code (isr num) (stub_code num) → fits c → room (frame_top rsp0 c) 22 →
  ∃ ct c0, interrupt (idt_init isr IDT) rsp0 num false (Some e) c = Some ct ∧ enters code C ct (irq_handler num) c0 ∧ gpr c0 = gpr c ∧ m_rsp c0 = frame_top rsp0 c - 176 ∧
    ∀ c1, c_returns (C (irq_handler num)) c0 c1 168 →
    ∃ c', steps code C ct c' ∧ m_rip c' = e ∧ m_cs c' = u16 (m_rip c) ∧ m_rsp c' = m_rflags c.
Proof.
  intros Hv Hin Hi He Hcode Hf Hr. unfold room in Hr.
  assert (Ec : stub_code num = plain_stub (irq_handler num))
    by (apply list_elem_of_In in Hin; repeat (destruct Hin as [<-|Hin]; [reflexivity|]); done). rewrite Ec in Hcode.
  destruct (interrupt_delivers isr IDT rsp0 num level false (Some e) c) as (ct & Ht & T1 & T2 & T3 & T4 & T5 & T6 & T7 & T8);
    [done..|by apply Forall_singleton|done|unfold room; lia|]. cbn [error_words length app] in T6, T7.
  destruct (plain_stub_run code C _ _ ct (e :: frame c) Hcode Hi T1) as (c0 & N0 & G0 & I0 & R0 & K0 & Hret);
    [by rewrite T3; apply f_gpr|unfold room; lia|exact T7|].
  exists ct, c0. split; [exact Ht|]. split; [exact N0|]. split; [by rewrite G0|]. split; [lia|].
  intros c1 Hc1. destruct (Hret c1 Hc1) as (c2 & S2 & A2 & E2 & E3 & M2 & R2 & W2 & G2).
  destruct (run_iretq code C _ _ Hcode c2 [] e (m_rip c) (m_cs c) (m_rflags c) (m_rsp c) A2)
    as (c' & S' & P1 & P2 & P3 & P4 & P5 & _); [lia|lia| |].
  { destruct W2 as (X1 & X2 & X3 & X4 & X5 & _). by split_and!. }
  exists c'. split; [by eapply rtc_trans|]. done.
Qed.

(** ** Loading the tables *)

(** The instructions that take the two words off: the far return. *)
Lemma run_lretq code C base prog c rest ip cs ws :
  placed code base prog → at_code base prog c (Lretq :: rest) → KERNEL_VADDR <= m_rsp c → m_rsp c + 16 < 2 ^ 64 →
  stack_holds (m_mem c) (m_rsp c) (ip :: cs :: ws) →
  ∃ c', steps code C c c' ∧ m_rip c' = ip ∧ m_cs c' = u16 cs ∧ m_rsp c' = m_rsp c + 16 ∧
    gpr c' = gpr c ∧ m_seg c' = m_seg c ∧ m_mem c' = m_mem c ∧ m_tab c' = m_tab c ∧ m_rflags c' = m_rflags c.
Proof.
  intros Hcode Hat Hk Hr (H1 & H2 & _). unfold word, KERNEL_VADDR in *.
  eexists. split; [eapply step_at; [exact Hcode|exact Hat|reflexivity]|].
  assert (E1 : m_rsp c +64 8 = m_rsp c + 8) by (apply u64_small; lia).
  assert (E2 : m_rsp c + 8 +64 8 = m_rsp c + 8 + 8) by (apply u64_small; lia).
  cbn -[u64 u16 load64 phys]. unfold top. cbn -[u64 u16 load64 phys]. rewrite E1, E2, H1, H2. split_and!; try done. lia.
Qed.

Lemma run_movsegs code C base prog r ss : ∀ c rest,
  placed code base prog → at_code base prog c ((Movseg r <$> ss) ++ rest) →
  ∃ c', steps code C c c' ∧ at_code base prog c' rest ∧ gpr c' = gpr c ∧ m_rsp c' = m_rsp c ∧ m_mem c' = m_mem c ∧
    m_tab c' = m_tab c ∧ m_cs c' = m_cs c ∧ ∀ s, m_seg c' s = if decide (s ∈ ss) then u16 (gpr c r) else m_seg c s.
Proof.
  induction ss as [|x ss IH]; intros c rest Hcode Hat; [by exists c|].
  destruct (run_flag code C base _ Hcode c _ _ _ Hat eq_refl eq_refl) as [S1 A1]. set (c1 := set_seg _ x _) in S1, A1.
  destruct (IH c1 rest Hcode A1) as (c' & S & A & G & R & M & T & Ec & X).
  exists c'. split; [by eapply rtc_trans|]. split_and!; try done. intros s. rewrite X. cbn [c1 m_seg set_seg gpr set_rip].
  destruct (decide (x = s)) as [->|Hne]; [rewrite (decide_True (P := s ∈ s :: ss)) by constructor; by case_decide|].
  destruct (decide (s ∈ ss)) as [H|H]; [by rewrite decide_True by by constructor|].
  rewrite decide_False; [done|]. rewrite elem_of_cons. intros [->|?]; done.
Qed.

(** [_x86_64_asm_lgdt] loads the table, the code selector through a far return
    to its own next instruction and the data selector into the other segment
    registers, and returns with the stack as it was. *)
Lemma lgdt_loads code C base c ret ws :
  placed code base (lgdt_code (base +64 18)) → is_word base → m_rip c = base → (∀ r, is_word (gpr c r)) →
  room (m_rsp c) 2 → m_rsp c + 8 < 2 ^ 64 → stack_holds (m_mem c) (m_rsp c) (ret :: ws) →
  ∃ c', steps code C c c' ∧ m_rip c' = ret ∧ m_rsp c' = m_rsp c + 8 ∧ gdtr (m_tab c') = table_operand c RDI ∧
    m_cs c' = u16 (gpr c RSI) ∧ (∀ s, m_seg c' s = u16 (gpr c RDX)) ∧ (∀ r, r ≠ R10 → gpr c' r = gpr c r) ∧
    kept_outside (m_mem c) (m_mem c') (m_rsp c - 16) (m_rsp c).
Proof.
  intros Hcode Hb Hrip Hg Hr Hu Hws. unfold room in Hr. assert (HK : 0 < KERNEL_VADDR) by reflexivity.
  destruct (run_flag code C base _ Hcode c _ _ _ (at_code_start _ _ _ Hb Hrip) eq_refl eq_refl) as [S1 A1].
  set (c1 := set_tab _ _) in S1, A1.
  destruct (run_pushes code C base _ Hcode [RSI] c1 _ (ret :: ws) A1) as (c2 & S2 & A2 & SC2 & G2 & R2 & W2 & K2);
    [unfold room; cbn; lia|done|done|]. cbn [m_rsp set_tab set_rip c1 length] in R2.
  destruct (run_flag code C base _ Hcode c2 _ _ _ A2 eq_refl eq_refl) as [S3 A3]. set (c3 := set_gpr _ R10 _) in S3, A3.
  destruct (run_pushes code C base _ Hcode [R10] c3 _ (gpr c RSI :: ret :: ws) A3) as (c4 & S4 & A4 & SC4 & G4 & R4 & W4 & K4);
    [unfold room; cbn; lia| |exact W2|].
  { intros r. cbn. case_decide; [apply u64_range|]. rewrite G2. apply Hg. }
  cbn [m_rsp set_gpr set_rip c3 length] in R4. cbn [fmap list_fmap reverse rev_append app gpr set_gpr set_rip c3] in W4.
  destruct (run_lretq code C base _ c4 _ (base +64 18) (gpr c RSI) (ret :: ws) Hcode A4) as (c5 & S5 & P1 & P2 & P3 & P4 & P5 & P6 & P7 & _);
    [lia|lia|exact W4|].
  destruct (run_movsegs code C base _ RDX [ES; FS; GS; DS; SS] c5 [Retq] Hcode) as (c6 & S6 & A6 & G6 & R6 & M6 & T6 & C6 & X6);
    [by exists 18|].
  assert (Et : top c6 = ret).
  { unfold top. rewrite M6, R6, P6, P3. replace (m_rsp c4 + 16) with (m_rsp c4 + 8 + 8) by lia. apply W4. }
  eexists. split.
  { repeat (eapply rtc_trans; [eassumption|]). eapply step_at; [exact Hcode|exact A6|reflexivity]. }
  cbn [drop8 set_rsp set_rip m_rip m_rsp m_tab m_cs m_seg gpr m_mem]. split; [exact Et|].
  split; [rewrite R6, P3; rewrite u64_small; lia|].
  split; [rewrite T6, P7, (sc_tab _ _ SC4); cbn; by rewrite (sc_tab _ _ SC2)|]. split; [by rewrite C6|]. split.
  { intros s. rewrite X6, decide_True by (apply list_elem_of_In; destruct s; simpl; tauto).
    rewrite P4, G4. cbn. by rewrite G2. }
  split; [intros r Hne; rewrite G6, P4, G4; cbn; rewrite decide_False by done; by rewrite G2|].
  rewrite M6, P6. eapply (kept_outside_trans _ (m_mem c2) _ (m_rsp c) (m_rsp c2)); [lia|lia|exact K2|].
  replace (m_rsp c - 16) with (m_rsp c4) by lia. exact K4.
Qed.

(** ** A machine with one stub *)

(** The code at [base] only. *)
Definition code_of (base : Z) (prog : list instr) (a : Z) : option instr :=
  match at_offset prog (a - base) with Some (i :: _) => Some i | _ => None end.

Lemma at_offset_bound prog : ∀ off i rest,
  at_offset prog off = Some (i :: rest) → 0 <= off < foldr (λ j s, size j + s) 0 prog.
Proof.
  induction prog as [|j p IH]; intros off i rest H; cbn [at_offset foldr] in *; [by destruct (off =? 0)|].
  assert (Hp : 0 <= foldr (λ j s, size j + s) 0 p) by (clear; induction p as [|k p IH]; simpl; [lia|]; pose proof (size_pos k); lia).
  pose proof (size_pos j). destruct (Z.eqb_spec off 0); [lia|]. destruct (Z.ltb_spec off (size j)); [done|].
  apply IH in H. lia.
Qed.

Lemma placed_code_of base prog :
  0 <= base → base + foldr (λ j s, size j + s) 0 prog < 2 ^ 64 → placed (code_of base prog) base prog.
Proof.
  intros Hb Hs off i rest H. pose proof (at_offset_bound _ _ _ _ H). unfold code_of. rewrite u64_small by lia.
  replace (base + off - base) with off by lia. by rewrite H.
Qed.

(** A handler that returns at once. *)
Definition return_at_once (f : cfun) (c : machine) : option machine := Some (drop8 (set_rip c (top c))).

Lemma return_at_once_returns f c n : room (m_rsp c) 0 → m_rsp c + 8 < 2 ^ 64 →
  ∃ c', c_returns (return_at_once f) c c' n ∧ gpr c' = gpr c.
Proof.
  intros Hr Hb. exists (drop8 (set_rip c (top c))). split; [|done].
  constructor; try done. cbn. apply u64_small. unfold room, KERNEL_VADDR in Hr. lia.
Qed.

(** The place of a register among the pushed ones, rax first. *)
Definition place (r : reg) : Z :=
  match r with
  | RAX => 0 | RBX => 1 | RCX => 2 | RDX => 3 | RSI => 4 | RDI => 5 | RBP => 6 | R8 => 7 | R9 => 8 | R10 => 9 | R11 => 10
  | R12 => 11 | R13 => 12 | R14 => 13 | R15 => 14
  end.

Lemma place_range r : 0 <= place r <= 14.
Proof. destruct r; simpl; lia. Qed.

(** A user program that is interrupted: its registers count up from 100. *)
Definition demo_machine : machine :=
  Machine (λ r, 100 + place r) 0x7ff0 0x400123 0x1b (λ _, 0x23) 0x202 ∅
    (Tables (0, 0) (0, 0) 0).
Definition demo_isr (n : Z) : Z := 0xffffffff80200000 + 256 * n.
Definition demo_rsp0 : Z := 0xffffffff80302000.

Lemma demo_fits : fits demo_machine.
Proof. constructor; [intros r; pose proof (place_range r)|..]; unfold is_word; cbn; lia. Qed.

Lemma interrupt_transparent_witness :
  ∃ ct c', interrupt (idt_init demo_isr ∅) demo_rsp0 32 false None demo_machine = Some ct ∧
    steps (code_of (demo_isr 32) isr32_code) return_at_once ct c' ∧ m_rip c' = 0x400123 ∧ gpr c' R15 = 114.
Proof.
  destruct (interrupt_transparent (code_of (demo_isr 32) isr32_code) return_at_once demo_isr ∅ demo_rsp0 32 0 demo_machine)
    as (ct & c0 & Ht & _ & G0 & _ & R0 & _ & Hret).
  - apply list_elem_of_In. simpl. tauto.
  - intros H. apply list_elem_of_In in H. simpl in H. lia.
  - split; [discriminate|reflexivity].
  - apply placed_code_of; vm_compute; [discriminate|reflexivity].
  - exact demo_fits.
  - split; [discriminate|reflexivity].
  - change (frame_top demo_rsp0 demo_machine) with demo_rsp0 in R0. unfold demo_rsp0 in R0.
    destruct (return_at_once_returns irq_timer_handler c0 160) as (c1 & H1 & _).
    + rewrite R0. split; [discriminate|reflexivity].
    + by rewrite R0.
    + destruct (Hret c1 H1) as (c' & S & [E1 _ _ _ _ _] & E2 & _). exists ct, c'. split; [exact Ht|]. split; [exact S|].
      split; [exact E1|]. rewrite E2. reflexivity.
Defined.

Lemma fault_stub_passes_error_witness :
  ∃ ct c', interrupt (idt_init demo_isr ∅) demo_rsp0 14 false (Some 6) demo_machine = Some ct ∧
    steps (code_of (demo_isr 14) isr14_code) return_at_once ct c' ∧ m_rip c' = 0x400123 ∧ gpr c' RDI = 105.
Proof.
  destruct (fault_stub_passes_error (code_of (demo_isr 14) isr14_code) return_at_once demo_isr ∅ demo_rsp0 14
    page_fault_handler 6 demo_machine) as (ct & c0 & Ht & _ & _ & _ & _ & R0 & _ & Hret).
  - tauto.
  - split; [discriminate|reflexivity].
  - split; [discriminate|reflexivity].
  - apply placed_code_of; vm_compute; [discriminate|reflexivity].
  - exact demo_fits.
  - split; [discriminate|reflexivity].
  - change (frame_top demo_rsp0 demo_machine) with demo_rsp0 in R0. unfold demo_rsp0 in R0.
    destruct (return_at_once_returns page_fault_handler c0 168) as (c1 & H1 & _).
    + rewrite R0. split; [discriminate|reflexivity].
    + by rewrite R0.
    + destruct (Hret c1 H1) as (c' & S & [E1 _ _ _ _ _] & E2 & _). exists ct, c'. split; [exact Ht|]. split; [exact S|].
      split; [exact E1|]. rewrite E2. reflexivity.
Defined.

Lemma gisr_error_code_misreturns_witness :
  ∃ ct c', interrupt (idt_init demo_isr ∅) demo_rsp0 17 false (Some 0) demo_machine = Some ct ∧
    steps (code_of (demo_isr 17) (gisr_code 17)) return_at_once ct c' ∧ m_rip c' = 0.
Proof.
  destruct (gisr_error_code_misreturns (code_of (demo_isr 17) (gisr_code 17)) return_at_once demo_isr ∅ demo_rsp0 17 0 0 demo_machine)
    as (ct & c0 & Ht & _ & _ & R0 & Hret).
  - apply list_elem_of_In. simpl. tauto.
  - apply list_elem_of_In. simpl. tauto.
  - split; [discriminate|reflexivity].
  - split; [discriminate|reflexivity].
  - apply placed_code_of; vm_compute; [discriminate|reflexivity].
  - exact demo_fits.
  - split; [discriminate|reflexivity].
  - change (frame_top demo_rsp0 demo_machine) with demo_rsp0 in R0. unfold demo_rsp0 in R0.
    destruct (return_at_once_returns (irq_handler 17) c0 168) as (c1 & H1 & _).
    + rewrite R0. split; [discriminate|reflexivity].
    + by rewrite R0.
    + destruct (Hret c1 H1) as (c' & S & E1 & _). exists ct, c'. split; [exact Ht|]. by split.
Defined.
