(* ===== verification/Tarfs.v ===== *)
(** * Tarfs: the file system over the tar archive, src/sys/tarfs.c

    The archive, the table [tarfs_list] and the local structures lie in the
    flat memory, with the layout of src/include/sys/tarfs.h.  Static objects
    and locals are given by their physical addresses; stored pointers are
    kernel virtual addresses, followed through [phys]. *)
From S2P Require Import Prelude Memory Utils Strings Mem Console.

(** ** Layout *)

Definition TYPE_DIRECTORY : Z := 5.
Definition TYPE_FILE : Z := 0.
Definition MAX_PATH_LEN : Z := 100.
Definition TARFS_MAX : Z := 1024.

(** [sizeof(posix_header)]; the name is its first field. *)
Definition skip_size : Z := 512.
Definition h_size : Z := 124.
Definition h_typeflag : Z := 156.

(** [tarfs_e]: a name of 100 bytes, then size, addr and type. *)
Definition sizeof_tarfs_e : Z := 120.
Definition e_size : Z := 100.
Definition e_addr : Z := 104.
Definition e_type : Z := 112.

(** [file]: a name of 100 bytes, then size and addr. *)
Definition sizeof_file : Z := 112.
Definition f_size : Z := 100.
Definition f_addr : Z := 104.

(** Reads a C string out of memory, to pass it to [kprintf]. *)
Fixpoint get_str (fuel : nat) (m : mem) (a : Z) : option (list Z) :=
  match fuel with
  | O => None
  | S f => if rd m a =? 0 then Some [] else s ← get_str f m (a + 1); Some (rd m a :: s)
  end.

(** The memory, the two counters and the console. *)
Record tarfs := Tarfs { t_mem : mem; tarf_idx : Z; bytesdone : Z; t_con : console }.

Definition with_t_mem (t : tarfs) (m : mem) : tarfs := Tarfs m (tarf_idx t) (bytesdone t) (t_con t).
Definition with_t_con (t : tarfs) (c : console) : tarfs := Tarfs (t_mem t) (tarf_idx t) (bytesdone t) c.

Section Tarfs.
(** [sf]: fuel of the string functions; [start]: the address of
    [_binary_tarfs_start]; [tl]: of [tarfs_list]; [ent]: of the local
    [tarfs_e]; [after_ch]: see [Console]. *)
Context (sf : nat) (start tl ent : Z) (after_ch : list Z).

(** [kprintf(fmt, s)] with one string argument. *)
Definition kprint_str (fmt : list Z) (s : Z) (t : tarfs) : option tarfs :=
  str ← get_str sf (t_mem t) s;
  c ← kprintf after_ch fmt [AStr str] (t_con t);
  Some (with_t_con t c).

(** [entry = tarfs_list[i]] *)
Definition load_entry (m : mem) (i : Z) : mem := memcpy m ent (tl + sizeof_tarfs_e * i) sizeof_tarfs_e.

(** ** init_tarfs *)

(** The offset of the next header. *)
Definition next_header (temp_ptr entry_size : Z) : Z :=
  if entry_size =? 0 then i32 (temp_ptr + skip_size)
  else if Z.rem entry_size skip_size =? 0 then i32 (temp_ptr + (entry_size + skip_size))
  else i32 (temp_ptr + (entry_size + (skip_size - Z.rem entry_size skip_size) + skip_size)).

Fixpoint tar_loop (fuel : nat) (m : mem) (temp_ptr idx : Z) : option (Z * mem) :=
  match fuel with
  | O => None
  | S f =>
      let tarfs_head := start +64 temp_ptr in
      let h := phys tarfs_head in
      n ← str_len sf m h;
      if 0 <? n then
        size ← atoi_int sf m (h + h_size);
        let entry_size := i32 (octTodec (u64 size)) in
        m ← str_cpy sf m ent h;
        let m := store_int m (ent + e_size) entry_size in
        type ← atoi_int sf m (h + h_typeflag);
        let m := store_int m (ent + e_type) type in
        let m := store64 m (ent + e_addr) tarfs_head in
        let m := memcpy m (tl + sizeof_tarfs_e * idx) ent sizeof_tarfs_e in
        tar_loop f m (next_header temp_ptr entry_size) (idx + 1)
      else Some (idx, m)
  end.

Definition init_tarfs (fuel : nat) (t : tarfs) : option tarfs :=
  '(idx, m) ← tar_loop fuel (t_mem t) 0 0;
  Some (Tarfs m idx (bytesdone t) (t_con t)).

(** ** Directories *)

(** [n] entries are left from index [i] on. *)
Fixpoint opendir_loop (n : nat) (m : mem) (dir i : Z) : option (option Z * mem) :=
  match n with
  | O => Some (None, m)
  | S n' =>
      let m := load_entry m i in
      r ← (if load_int m (ent + e_type) =? TYPE_DIRECTORY then str_cmp sf m ent dir else Some 0);
      if r =? 1 then Some (Some (load64 m (ent + e_addr)), m) else opendir_loop n' m dir (i + 1)
  end.

(** "Opendir %s: No such directory\n" *)
Definition opendir_msg : list Z :=
  [79; 112; 101; 110; 100; 105; 114; 32; 37; 115; 58; 32; 78; 111; 32; 115; 117; 99; 104; 32; 100; 105; 114; 101; 99; 116; 111; 114; 121; 10].

Definition opendir (dir : Z) (t : tarfs) : option (Z * tarfs) :=
  '(r, m) ← opendir_loop (Z.to_nat (tarf_idx t)) (t_mem t) dir 0;
  let t := with_t_mem t m in
  match r with
  | Some addr => Some (addr, t)
  | None => t ← kprint_str opendir_msg dir t; Some (0, t)
  end.

Definition closedir (addr : Z) : Z := 1.

(** "%s    \t\tDIR\n" and "%s    \t\tFILE\n" *)
Definition dir_msg : list Z := [37; 115; 32; 32; 32; 32; 9; 9; 68; 73; 82; 10].
Definition file_msg : list Z := [37; 115; 32; 32; 32; 32; 9; 9; 70; 73; 76; 69; 10].

Fixpoint list_loop (n : nat) (t : tarfs) (i : Z) : option tarfs :=
  match n with
  | O => Some t
  | S n' =>
      let t := with_t_mem t (load_entry (t_mem t) i) in
      let type := load_int (t_mem t) (ent + e_type) in
      t ← (if type =? TYPE_DIRECTORY then kprint_str dir_msg ent t
           else if type =? TYPE_FILE then kprint_str file_msg ent t
           else Some t);
      list_loop n' t (i + 1)
  end.

Definition list_dir (t : tarfs) : option tarfs := list_loop (Z.to_nat (tarf_idx t)) t 0.

(** The loop also stops at an entry without a name; its first test reads the
    local [entry] before it is assigned.  [dir] is the local path buffer. *)
Fixpoint read_dir_loop (n : nat) (dir addr : Z) (t : tarfs) (i parent : Z) : option tarfs :=
  match n with
  | O => Some t
  | S n' =>
      l ← str_len sf (t_mem t) ent;
      if 0 <? l then
        let t := with_t_mem t (load_entry (t_mem t) i) in
        let m := t_mem t in
        if load64 m (ent + e_addr) =? addr then
          m ← str_cpy sf m dir ent;
          read_dir_loop n' dir addr (with_t_mem t m) (i + 1) i
        else
          child ← (if 0 <=? parent then
                     l ← str_len sf m dir;
                     Some (strn_cmp m ent dir (Z.to_nat l) =? 0)
                   else Some false);
          t ← (if (child : bool) then kprint_str [10; 37; 115] ent t else Some t);
          read_dir_loop n' dir addr t (i + 1) parent
      else Some t
  end.

Definition read_dir (dir addr : Z) (t : tarfs) : option (Z * tarfs) :=
  t ← read_dir_loop (Z.to_nat (tarf_idx t)) dir addr t 0 (-1);
  c ← kprintf after_ch [10] [] (t_con t);
  Some (0, with_t_con t c).

(** ** open, close *)

(** Answers [Some fd] or [Some 0] (NULL) when an entry of that name ends the
    search. *)
Fixpoint open_loop (n : nat) (m : mem) (fd filename i : Z) : option (option Z * mem) :=
  match n with
  | O => Some (None, m)
  | S n' =>
      let m := load_entry m i in
      r ← str_cmp sf m filename ent;
      if (r =? 1) && (load_int m (ent + e_type) =? TYPE_FILE) then
        let m := store64 m (phys fd + f_addr) (load64 m (ent + e_addr)) in
        let m := store_int m (phys fd + f_size) (load_int m (ent + e_size)) in
        m ← str_cpy sf m (phys fd) filename;
        Some (Some fd, m)
      else if (r =? 1) && (load_int m (ent + e_type) =? TYPE_DIRECTORY) then Some (Some 0, m)
      else open_loop n' m fd filename (i + 1)
  end.

(** "%s: No such file\n" *)
Definition open_msg : list Z := [37; 115; 58; 32; 78; 111; 32; 115; 117; 99; 104; 32; 102; 105; 108; 101; 10].

(** [mf] and [free_list] are the fuel and the list of the page allocator. *)
Definition open (mf : nat) (free_list filename : Z) (t : tarfs) : option (Z * tarfs) :=
  '(fd, m) ← kmalloc mf free_list (t_mem t) sizeof_file;
  '(r, m) ← open_loop (Z.to_nat (tarf_idx t)) m fd filename 0;
  let t := with_t_mem t m in
  match r with
  | Some fd => Some (fd, t)
  | None => t ← kprint_str open_msg filename t; Some (0, t)
  end.

(** [str_cpy(fd->name, "")] only writes the terminator. *)
Definition close (fd : Z) (t : tarfs) : Z * tarfs :=
  let m := store64 (t_mem t) (phys fd + f_addr) 0 in
  let m := store_int m (phys fd + f_size) 0 in
  let m := wr m (phys fd) 0 in
  (1, Tarfs m (tarf_idx t) 0 (t_con t)).

(** ** read_file, readline *)

(** How many bytes to read: [max] works on [uint64_t], the result is an
    [int]. *)
Definition bytes_to_read (bytes size done : Z) : Z :=
  let left := u64 (i32 (size - done)) in
  i32 (if max bytes left =? left then bytes else left).

(** [tempbuf[i] = *fileaddr++], [n] times; then the terminator. *)
Definition read_file (fd buf bytes : Z) (t : tarfs) : option (Z * tarfs) :=
  let m := t_mem t in
  let size := load_int m (phys fd + f_size) in
  if size =? 0 then Some (0, t)
  else
    let n := bytes_to_read bytes size (bytesdone t) in
    let fileaddr := phys (load64 m (phys fd + f_addr) +64 skip_size +64 bytesdone t) in
    let m := memcpy m (phys buf) fileaddr n in
    let m := wr m (phys buf + Z.max 0 n) 0 in
    l ← str_len sf m (phys buf);
    Some (u64 n, Tarfs m (tarf_idx t) (i32 (bytesdone t + (l - 1))) (t_con t)).

(** The copying loop of [readline]: it stops at a newline, which it counts in
    [bytesdone]; answers the index reached. *)
Fixpoint line_loop (n : nat) (m : mem) (fileaddr tempbuf i done : Z) : Z * Z * mem :=
  match n with
  | O => (i, done, m)
  | S n' =>
      if rd m fileaddr =? 10 then (i, i32 (done + 1), m)
      else line_loop n' (wr m (tempbuf + i) (rd m fileaddr)) (fileaddr + 1) tempbuf (i + 1) done
  end.

Definition readline (fd buf bytes : Z) (t : tarfs) : option (Z * tarfs) :=
  let m := t_mem t in
  let size := load_int m (phys fd + f_size) in
  if (size =? 0) || (i32 (bytesdone t - size) =? 0) then Some (0, t)
  else
    let n := bytes_to_read bytes size (bytesdone t) in
    let fileaddr := phys (load64 m (phys fd + f_addr) +64 skip_size +64 bytesdone t) in
    let '(i, done, m) := line_loop (Z.to_nat n) m fileaddr (phys buf) 0 (bytesdone t) in
    let m := wr m (phys buf + i) 0 in
    l ← str_len sf m (phys buf);
    Some (u64 l, Tarfs m (tarf_idx t) (i32 (done + l)) (t_con t)).
End Tarfs.
