(* ===== verification/TarfsProps.v ===== *)
(** * TarfsProps: the file system shows the archive

    The archive is described by the list of its members; [init_tarfs] builds
    the table of that list, [open] finds a member in it and [read_file]
    delivers its bytes. *)
From S2P Require Import Prelude Memory Utils Strings StringsProps PageSource Mem MemProps PagingProps Console Tarfs.

(** ** The archive *)

(** A member: its name, the octal digits of its size and its type. *)
Record member := Member { mb_name : list Z; mb_digits : list Z; mb_type : Z }.

Definition mb_size (f : member) : Z := digits_val 8 (mb_digits f).
(** The bytes from one header to the next: the header and the data, padded to
    blocks of 512. *)
Definition mb_span (f : member) : Z := 512 + (mb_size f + 511) / 512 * 512.

(** The header of [f] at [a]. *)
Record header_at (m : mem) (a : Z) (f : member) : Prop := {
  hd_name : cstr m a (mb_name f);
  hd_name_len : (0 < length (mb_name f) < 100)%nat;
  hd_size : cstr m (a + h_size) (digit_chars (mb_digits f));
  hd_digits : Forall (λ d, 0 <= d < 8) (mb_digits f);
  hd_digits_len : (length (mb_digits f) < 12)%nat;
  hd_int : digits_val 10 (mb_digits f) < 2 ^ 31;
  hd_type : cstr m (a + h_typeflag) [48 + mb_type f];
  hd_type_digit : 0 <= mb_type f <= 9;
}.

Fixpoint archive_at (m : mem) (a : Z) (fs : list member) : Prop :=
  match fs with
  | [] => rd m a = 0
  | f :: fs => header_at m a f ∧ archive_at m (a + mb_span f) fs
  end.

Fixpoint archive_span (fs : list member) : Z :=
  match fs with [] => 0 | f :: fs => mb_span f + archive_span fs end.

(** Where the member of index [i] starts. *)
Definition member_off (fs : list member) (i : nat) : Z := archive_span (take i fs).

(** An entry of [tarfs_list] at [a] for [f] with its header at [addr]. *)
Record entry_at (m : mem) (a : Z) (f : member) (addr : Z) : Prop := {
  en_name : cstr m a (mb_name f);
  en_size : load_int m (a + e_size) = mb_size f;
  en_addr : load64 m (a + e_addr) = addr;
  en_type : load_int m (a + e_type) = mb_type f;
}.

(** *** Numbers of a header *)

Lemma digits_val_8_le_10 ds : Forall (λ d, 0 <= d < 8) ds → 0 <= digits_val 8 ds <= digits_val 10 ds.
Proof.
  induction ds as [|d ds IH] using rev_ind; [done|].
  intros [Hds Hd]%Forall_app. rewrite Forall_singleton in Hd. rewrite (digits_val_snoc 8), (digits_val_snoc 10).
  specialize (IH Hds). lia.
Qed.

Lemma mb_size_range m a f : header_at m a f → 0 <= mb_size f < 2 ^ 31.
Proof. intros H. pose proof (digits_val_8_le_10 _ (hd_digits _ _ _ H)). pose proof (hd_int _ _ _ H). unfold mb_size. lia. Qed.

Lemma mb_span_range f : 0 <= mb_size f → 512 <= mb_span f.
Proof. intros. unfold mb_span. lia. Qed.

Lemma header_size sf m a f :
  header_at m a f → (12 <= sf)%nat →
  ∃ s, atoi_int sf m (a + h_size) = Some s ∧ i32 (octTodec (u64 s)) = mb_size f.
Proof.
  intros H Hsf. pose proof (mb_size_range _ _ _ H). destruct H as [_ _ H1 H2 H3 H4 _ _].
  pose proof (digits_val_8_le_10 _ H2). unfold atoi_int.
  rewrite (atoi_spec sf m _ (mb_digits f)); [|eapply Forall_impl; [exact H2|simpl; intros; lia]|done|done|lia].
  cbn [mbind option_bind]. eexists. split; [done|].
  rewrite (i32_small (digits_val 10 _)), (u64_small (digits_val 10 _)) by lia.
  rewrite octTodec_spec by (done || lia). unfold mb_size in *. rewrite u64_small by lia. apply i32_small. lia.
Qed.

Lemma type_size sf m a c :
  0 <= c <= 9 → cstr m a [48 + c] → (2 <= sf)%nat → atoi_int sf m a = Some c.
Proof.
  intros Hc Hs Hsf. unfold atoi_int. rewrite (atoi_spec sf m a [c]); [|by repeat constructor; lia|..].
  - cbn. f_equal. apply i32_small. lia.
  - cbn. lia.
  - done.
  - simpl. lia.
Qed.

Lemma next_header_span temp f :
  0 <= mb_size f → 0 <= temp → temp + mb_span f < 2 ^ 31 →
  next_header temp (mb_size f) = temp + mb_span f.
Proof.
  intros Hs Ht Hb. unfold next_header, mb_span, skip_size in *. rewrite Z.rem_mod_nonneg by lia.
  destruct (Z.eqb_spec (mb_size f) 0) as [->|]; [rewrite i32_small; simpl; lia|].
  destruct (Z.eqb_spec (mb_size f mod 512) 0); rewrite i32_small; lia.
Qed.

(** *** Copied bytes *)

(** The [n] bytes at [a'] in [m'] are those at [a] in [m]. *)
Definition copied (m : mem) (a : Z) (m' : mem) (a' n : Z) : Prop :=
  ∀ k, 0 <= k < n → rd m' (a' + k) = rd m (a + k).

Lemma copied_sub m a m' a' n o k :
  copied m a m' a' n → 0 <= o → o + k <= n → copied m (a + o) m' (a' + o) k.
Proof. intros H Ho Hk j Hj. rewrite <- !Z.add_assoc. apply H. lia. Qed.

Lemma load_copied n : ∀ m a m' a', copied m a m' a' (Z.of_nat n) → load n m' a' = load n m a.
Proof.
  induction n as [|n IH]; intros m a m' a' H; simpl; [done|].
  pose proof (H 0 ltac:(lia)) as H0. rewrite !Z.add_0_r in H0. rewrite H0. do 2 f_equal.
  apply IH. eapply copied_sub; [exact H|lia..].
Qed.

Lemma cstr_copied m a m' a' s :
  cstr m a s → copied m a m' a' (Z.of_nat (length s) + 1) → cstr m' a' s.
Proof.
  intros Hs H. apply cstr_intro.
  - intros i c Hi. rewrite H by (apply lookup_lt_Some in Hi; lia). by eapply cstr_rd.
  - rewrite H by lia. by apply cstr_end.
Qed.

Lemma agree_copied m m' a n : agree_on m m' a n → copied m a m' a n.
Proof. intros H k Hk. apply H. lia. Qed.

Lemma memcpy_copied m d s n : disj d n s n → copied m s (memcpy m d s n) d n.
Proof. intros H k Hk. unfold disj in H. rewrite memcpy_rd, decide_True by lia. f_equal. lia. Qed.

Lemma memcpy_agree m d s n b k : disj d n s n → disj d n b k → agree_on m (memcpy m d s n) b k.
Proof. intros H1 H2 c Hc. unfold disj in *. rewrite memcpy_rd by lia. rewrite decide_False by lia. done. Qed.

Lemma entry_copied m a m' a' f addr :
  entry_at m a f addr → (length (mb_name f) < 100)%nat →
  copied m a m' a' sizeof_tarfs_e → entry_at m' a' f addr.
Proof.
  intros [H1 H2 H3 H4] Hl Hc. constructor.
  - eapply cstr_copied; [done|]. intros k Hk. apply Hc. unfold sizeof_tarfs_e. lia.
  - rewrite <- H2. unfold load_int. f_equal. apply load_copied. eapply copied_sub; [exact Hc|done..].
  - rewrite <- H3. apply load_copied. eapply copied_sub; [exact Hc|done..].
  - rewrite <- H4. unfold load_int. f_equal. apply load_copied. eapply copied_sub; [exact Hc|done..].
Qed.

(** ** init_tarfs *)

(** The bytes outside [ent] and the entry at [a] are unchanged. *)
Definition outside (ent a n : Z) (m m' : mem) : Prop :=
  ∀ b, ¬ (ent <= b < ent + sizeof_tarfs_e) → ¬ (a <= b < a + n) → rd m' b = rd m b.

(** The local entry filled from a header. *)
Lemma fill_entry sf m h ent f addr :
  header_at m h f → (100 <= sf)%nat → disj ent sizeof_tarfs_e h skip_size → 0 <= addr < 2 ^ 64 →
  ∃ m1, str_cpy sf m ent h = Some m1 ∧
    let m2 := store_int m1 (ent + e_size) (mb_size f) in
    atoi_int sf m2 (h + h_typeflag) = Some (mb_type f) ∧
    let m4 := store64 (store_int m2 (ent + e_type) (mb_type f)) (ent + e_addr) addr in
    entry_at m4 ent f addr ∧ outside ent ent sizeof_tarfs_e m m4.
Proof.
  unfold disj, outside, sizeof_tarfs_e, skip_size, e_size, e_addr, e_type, h_typeflag.
  intros Hh Hsf Hd Ha. pose proof (mb_size_range _ _ _ Hh) as Hs. destruct Hh as [H1 H2 _ _ _ _ H7 H8].
  destruct (str_cpy_spec sf m ent h (mb_name f) H1) as (m1 & E1 & W1 & W2); [lia|unfold disj; lia|].
  exists m1. split; [done|]. cbv zeta. unfold store_int, store64. split.
  { apply type_size; [done| |lia]. eapply cstr_agree; [exact H7|]. simpl. intros b Hb.
    etrans; [apply (store_agree 4 m1 _ _ b 1); lia|]. apply W2. lia. }
  split.
  - constructor; unfold e_size, e_addr, e_type, load_int, load64.
    + eapply cstr_agree; [exact W1|]. intros b Hb.
      etrans; [apply (store_agree 8 _ _ _ b 1); lia|].
      etrans; [apply (store_agree 4 _ _ _ b 1); lia|]. apply (store_agree 4 _ _ _ b 1); lia.
    + rewrite load_store_ne by lia. rewrite load_store_ne by lia. rewrite load_store_eq.
      fold (u32 (mb_size f)). change (mb_size f mod _) with (u32 (mb_size f)). rewrite u32_small by lia. apply i32_small. lia.
    + rewrite load_store_eq. by apply u64_small.
    + rewrite load_store_ne by lia. rewrite load_store_eq.
      change (mb_type f mod _) with (u32 (mb_type f)). rewrite u32_small by lia. apply i32_small. lia.
  - intros b Hb _. etrans; [apply (store_agree 8 _ _ _ b 1); lia|].
    etrans; [apply (store_agree 4 _ _ _ b 1); lia|].
    etrans; [apply (store_agree 4 _ _ _ b 1); lia|]. apply W2. lia.
Qed.

Lemma header_agree m m' a f : header_at m a f → agree_on m m' a skip_size → header_at m' a f.
Proof.
  unfold skip_size, agree_on. intros [H1 H2 H3 H4 H5 H6 H7 H8] Hag. constructor; try done.
  - eapply cstr_agree; [done|]. intros b Hb. apply Hag. lia.
  - eapply cstr_agree; [done|]. unfold h_size, digit_chars. rewrite length_fmap. intros b Hb. apply Hag. lia.
  - eapply cstr_agree; [done|]. unfold h_typeflag. simpl. intros b Hb. apply Hag. lia.
Qed.

Lemma archive_span_nonneg m fs : ∀ a, archive_at m a fs → 0 <= archive_span fs.
Proof.
  induction fs as [|f fs IH]; intros a H; simpl; [done|]. destruct H as [Hf Hfs].
  pose proof (mb_span_range f (proj1 (mb_size_range _ _ _ Hf))). specialize (IH _ Hfs). lia.
Qed.

Lemma archive_agree m m' fs : ∀ a,
  archive_at m a fs → agree_on m m' a (archive_span fs + 1) → archive_at m' a fs.
Proof.
  induction fs as [|f fs IH]; intros a H Hag; simpl in *; [rewrite <- H; apply Hag; lia|].
  destruct H as [Hf Hfs]. pose proof (mb_span_range f (proj1 (mb_size_range _ _ _ Hf))).
  pose proof (archive_span_nonneg _ _ _ Hfs). split.
  - eapply header_agree; [done|]. intros b Hb. apply Hag. unfold skip_size in Hb. lia.
  - apply IH; [done|]. intros b Hb. apply Hag. lia.
Qed.

(** The addresses of the headers. *)
Lemma header_address t temp :
  0 <= t → 0 <= temp → t + temp < 2 ^ 31 →
  VADDR t +64 temp = VADDR (t + temp) ∧ phys (VADDR t +64 temp) = t + temp.
Proof.
  intros. assert (VADDR t +64 temp = VADDR (t + temp)) as -> by (unfold VADDR, KERNEL_VADDR, u64; lia).
  split; [done|]. apply phys_VADDR. lia.
Qed.

Lemma VADDR_range p : 0 <= VADDR p < 2 ^ 64.
Proof. apply u64_range. Qed.

(** One round of the loop. *)
Lemma tar_round sf t tl ent f fuel m temp idx :
  header_at m (t + temp) f → (100 <= sf)%nat → 0 <= t → 0 <= temp → t + temp + mb_span f < 2 ^ 31 →
  disj ent sizeof_tarfs_e (t + temp) (mb_span f) → disj (tl + 120 * idx) 120 ent sizeof_tarfs_e →
  ∃ m', tar_loop sf (VADDR t) tl ent (S fuel) m temp idx =
          tar_loop sf (VADDR t) tl ent fuel m' (temp + mb_span f) (idx + 1) ∧
    entry_at m' (tl + 120 * idx) f (VADDR (t + temp)) ∧ outside ent (tl + 120 * idx) 120 m m'.
Proof.
  intros Hh Hsf Ht Htemp Hb D1 D3. pose proof (mb_size_range _ _ _ Hh) as Hsz.
  pose proof (mb_span_range f (proj1 Hsz)) as Hsp. unfold disj in D1, D3.
  cbn [tar_loop]. destruct (header_address t temp) as [Ea Ep]; [lia..|]. rewrite Ep.
  rewrite (str_len_spec sf m _ _ (hd_name _ _ _ Hh)) by (destruct Hh; lia). cbn [mbind option_bind].
  destruct (Z.ltb_spec 0 (Z.of_nat (length (mb_name f)))) as [_|]; [|destruct Hh; lia].
  destruct (header_size sf m _ f Hh) as (s & -> & Es); [lia|]. cbn [mbind option_bind]. rewrite Es.
  destruct (fill_entry sf m (t + temp) ent f (VADDR t +64 temp) Hh Hsf) as (m1 & -> & Ety & He & Ho);
    [unfold disj, skip_size; lia|apply u64_range|].
  cbn [mbind option_bind]. cbv zeta in Ety. rewrite Ety. cbn [mbind option_bind].
  rewrite next_header_span by lia. eexists. split; [done|].
  assert (Hc : disj (tl + 120 * idx) 120 ent 120) by (unfold disj, sizeof_tarfs_e in *; lia).
  split.
  - rewrite Ea in He |- *. eapply entry_copied; [exact He|destruct Hh; lia|]. apply memcpy_copied, Hc.
  - intros b Hb1 Hb2. etrans; [|by apply Ho].
    apply (memcpy_agree _ _ _ _ b 1 Hc); unfold disj, sizeof_tarfs_e in *; lia.
Qed.

Lemma tar_loop_spec sf t tl ent fs : ∀ fuel m temp idx,
  archive_at m (t + temp) fs → (100 <= sf)%nat → (length fs < fuel)%nat →
  0 <= t → 0 <= temp → t + temp + archive_span fs < 2 ^ 31 →
  disj ent sizeof_tarfs_e (t + temp) (archive_span fs + 1) →
  disj (tl + 120 * idx) (120 * Z.of_nat (length fs)) (t + temp) (archive_span fs + 1) →
  disj (tl + 120 * idx) (120 * Z.of_nat (length fs)) ent sizeof_tarfs_e →
  ∃ m', tar_loop sf (VADDR t) tl ent fuel m temp idx = Some (idx + Z.of_nat (length fs), m') ∧
    (∀ i f, fs !! i = Some f →
       entry_at m' (tl + 120 * (idx + Z.of_nat i)) f (VADDR (t + temp + member_off fs i))) ∧
    outside ent (tl + 120 * idx) (120 * Z.of_nat (length fs)) m m'.
Proof.
  induction fs as [|f fs IH]; intros [|fuel] m temp idx Ha Hsf Hf Ht Htemp Hb D1 D2 D3; try (simpl in Hf; lia).
  - cbn [tar_loop archive_span] in *. destruct (header_address t temp) as [_ ->]; [lia..|].
    rewrite (str_len_spec sf m _ [] Ha) by (simpl; lia). cbn. exists m. split_and!; [do 2 f_equal; lia|done|].
    by intros b.
  - destruct Ha as [Hh Ha]. pose proof (mb_size_range _ _ _ Hh) as Hsz.
    pose proof (mb_span_range f (proj1 Hsz)) as Hsp. pose proof (archive_span_nonneg _ _ _ Ha) as Hsp'.
    cbn [archive_span] in *. rewrite length_cons in D2, D3 |- *. unfold disj in D1, D2, D3.
    destruct (tar_round sf t tl ent f fuel m temp idx) as (m5 & -> & He5 & Ho5);
      try done; unfold disj; try lia.
    destruct (IH fuel m5 (temp + mb_span f) (idx + 1)) as (m' & -> & H1 & H2);
      unfold disj, sizeof_tarfs_e in *; try lia.
    { rewrite Z.add_assoc. eapply archive_agree; [done|]. intros b Hb'. apply Ho5; unfold sizeof_tarfs_e; lia. }
    { simpl in Hf. lia. }
    exists m'. split_and!.
    + do 2 f_equal. lia.
    + intros [|i] g Hg; simpl in Hg.
      * injection Hg as <-. unfold member_off. simpl. rewrite !Z.add_0_r.
        eapply entry_copied; [exact He5|destruct Hh; lia|]. intros k Hk. unfold sizeof_tarfs_e in Hk.
        apply H2; unfold sizeof_tarfs_e; lia.
      * specialize (H1 _ _ Hg). unfold member_off in *. cbn [take archive_span].
        replace (idx + Z.of_nat (S i)) with (idx + 1 + Z.of_nat i) by lia.
        by replace (t + temp + (mb_span f + archive_span (take i fs)))
          with (t + (temp + mb_span f) + archive_span (take i fs)) by lia.
    + intros b Hb1 Hb2. rewrite H2; [apply Ho5|..]; unfold sizeof_tarfs_e in *; lia.
Qed.

(** [tarfs_list] at [tl] describes [fs], with the archive at [t]. *)
Definition table (m : mem) (tl t : Z) (fs : list member) : Prop :=
  ∀ i f, fs !! i = Some f → entry_at m (tl + sizeof_tarfs_e * Z.of_nat i) f (VADDR (t + member_off fs i)).

(** C18: [init_tarfs] lists the archive: for every well-formed archive of at
    most [TARFS_MAX] members it ends, sets [tarf_idx] to their number, and
    leaves in [tarfs_list] the name, size, type and header address of each, in
    order; it writes only the table and its local entry. *)
Theorem init_tarfs_lists_archive sf t tl ent fuel st fs :
  archive_at (t_mem st) t fs → Z.of_nat (length fs) <= TARFS_MAX →
  (100 <= sf)%nat → (length fs < fuel)%nat → 0 <= t → t + archive_span fs < 2 ^ 31 →
  disj ent sizeof_tarfs_e t (archive_span fs + 1) →
  disj tl (sizeof_tarfs_e * TARFS_MAX) t (archive_span fs + 1) →
  disj tl (sizeof_tarfs_e * TARFS_MAX) ent sizeof_tarfs_e →
  ∃ m', init_tarfs sf (VADDR t) tl ent fuel st = Some (Tarfs m' (Z.of_nat (length fs)) (bytesdone st) (t_con st)) ∧
    table m' tl t fs ∧
    outside ent tl (sizeof_tarfs_e * Z.of_nat (length fs)) (t_mem st) m'.
Proof.
  unfold TARFS_MAX, sizeof_tarfs_e, disj, init_tarfs, table. intros Ha Hn Hsf Hf Ht Hb D1 D2 D3.
  destruct (tar_loop_spec sf t tl ent fs fuel (t_mem st) 0 0) as (m' & -> & H1 & H2);
    unfold disj, sizeof_tarfs_e; rewrite ?Z.add_0_r; try done; try lia.
  exists m'. split_and!; [done|..].
  - intros i f Hi. specialize (H1 i f Hi). by rewrite Z.add_0_l, Z.add_0_r in H1.
  - rewrite Z.mul_0_r, Z.add_0_r in H2. exact H2.
Qed.

(** An archive of one directory and one file, "d" and "b", the latter of
    three bytes. *)
Definition demo_header (m : mem) (a name size type : Z) : mem :=
  put_str (put_str (put_str m a [name]) (a + 124) [48; 48 + size]) (a + 156) [48 + type].
Definition demo_archive : mem :=
  put_str (demo_header (demo_header ∅ 8192 100 0 5) 8704 98 3 0) 9216 [104; 101; 121].
Definition demo_members : list member := [Member [100] [0; 0] 5; Member [98] [0; 3] 0].

Lemma demo_archive_at : archive_at demo_archive 8192 demo_members.
Proof.
  split; [|split; [|vm_compute; reflexivity]].
  all: constructor; [vm_compute; repeat split; discriminate|simpl; lia|vm_compute; repeat split; discriminate
    |repeat constructor; lia|simpl; lia|vm_compute; reflexivity|vm_compute; repeat split; discriminate|simpl; lia].
Qed.

Lemma init_tarfs_lists_archive_witness :
  ∃ m', init_tarfs 100 (VADDR 8192) 16384 4096 3 (Tarfs demo_archive 0 0 (Console 0 0 ∅ [])) =
    Some (Tarfs m' 2 0 (Console 0 0 ∅ [])) ∧ table m' 16384 8192 demo_members.
Proof.
  destruct (init_tarfs_lists_archive 100 8192 16384 4096 3 (Tarfs demo_archive 0 0 (Console 0 0 ∅ [])) demo_members)
    as (m' & E & Ht & _); [apply demo_archive_at|vm_compute; discriminate|lia|simpl; lia|lia|vm_compute; reflexivity
    |left; vm_compute; discriminate|right; vm_compute; discriminate|right; vm_compute; discriminate|].
  exists m'. split; [exact E|exact Ht].
Defined.

(** ** open *)

(** The entry that ends the search for [name]. *)
Definition find_member (name : list Z) (fs : list member) : option (nat * member) :=
  list_find (λ f, mb_name f = name ∧ (mb_type f = TYPE_FILE ∨ mb_type f = TYPE_DIRECTORY)) fs.

(** A [file] structure at the physical address [p]. *)
Record file_at (m : mem) (p : Z) (name : list Z) (size addr : Z) : Prop := {
  fa_name : cstr m p name;
  fa_size : load_int m (p + f_size) = size;
  fa_addr : load64 m (p + f_addr) = addr;
}.

(** What the search answers and leaves in the memory. *)
Definition open_result (p : Z) (name : list Z) (addr : nat → Z) (found : option (nat * member)) (r : option Z) (m' : mem) : Prop :=
  match found with
  | Some (i, f) =>
      if decide (mb_type f = TYPE_FILE) then r = Some (VADDR p) ∧ file_at m' p name (mb_size f) (addr i)
      else r = Some 0
  | None => r = None
  end.

(** Filling the structure of a file that was found. *)
Lemma fill_file sf m p ent filename name f addr :
  entry_at m ent f addr → cstr m filename name → (length name < 100)%nat → (100 <= sf)%nat →
  - 2 ^ 31 <= mb_size f < 2 ^ 31 → 0 <= addr < 2 ^ 64 →
  disj p sizeof_file ent sizeof_tarfs_e → disj p sizeof_file filename (Z.of_nat (length name) + 1) →
  let m1 := store64 m (p + f_addr) (load64 m (ent + e_addr)) in
  ∃ m', str_cpy sf (store_int m1 (p + f_size) (load_int m1 (ent + e_size))) p filename = Some m' ∧
    file_at m' p name (mb_size f) addr ∧ (∀ b, ¬ (p <= b < p + sizeof_file) → rd m' b = rd m b).
Proof.
  intros [_ E2 E3 _] Hs Hl Hsf Hsz Ha D1 D2 m1.
  unfold disj, sizeof_file, sizeof_tarfs_e, e_addr, e_size, f_addr, f_size in *.
  assert (E2' : load_int m1 (ent + 100) = mb_size f) by (unfold m1; rewrite load_int_store64_ne by lia; done).
  rewrite E2'. set (m2 := store_int m1 (p + 100) (mb_size f)).
  assert (H2 : ∀ b, ¬ (p <= b < p + 112) → rd m2 b = rd m b).
  { intros b Hb. etrans; [apply (store_agree 4 m1 (p + 100) _ b 1); lia|]. apply (store_agree 8 m _ _ b 1); lia. }
  destruct (str_cpy_spec sf m2 p filename name) as (m' & E & W1 & W2); [|lia|unfold disj; lia|].
  { eapply cstr_agree; [exact Hs|]. intros b Hb. apply H2. lia. }
  exists m'. split; [done|]. split; [constructor; [done|..]; unfold f_size, f_addr|].
  - unfold load_int. rewrite (load_agree 4 m2) by (intros b Hb; apply W2; lia).
    change (i32 (load 4 m2 (p + 100))) with (load_int m2 (p + 100)). unfold m2. rewrite load_int_store_int_eq. apply i32_small. lia.
  - etrans; [apply (load_agree 8 m2); intros b Hb; apply W2; lia|].
    change (load 8 m2 (p + 104)) with (load64 m2 (p + 104)). unfold m2. rewrite load64_store_int_ne by lia.
    unfold m1. rewrite load64_store64_eq, E3. by apply u64_small.
  - intros b Hb. rewrite W2 by lia. by apply H2.
Qed.

(** The local copy of an entry. *)
Lemma load_entry_spec tl ent m i f addr :
  disj ent sizeof_tarfs_e (tl + sizeof_tarfs_e * i) sizeof_tarfs_e → (length (mb_name f) < 100)%nat →
  entry_at m (tl + sizeof_tarfs_e * i) f addr →
  entry_at (load_entry tl ent m i) ent f addr ∧
  ∀ b, ¬ (ent <= b < ent + sizeof_tarfs_e) → rd (load_entry tl ent m i) b = rd m b.
Proof.
  intros D Hl He. split.
  - eapply entry_copied; [exact He|done|]. by apply memcpy_copied.
  - intros b Hb. apply (memcpy_agree _ _ _ _ b 1 D); unfold disj in *; lia.
Qed.

Lemma open_result_S p name addr found r m' :
  open_result p name (λ i, addr (S i)) found r m' →
  open_result p name addr (prod_map S id <$> found) r m'.
Proof. destruct found as [[i f]|]; done. Qed.

Lemma open_loop_spec sf tl ent p filename name fs : ∀ addr m idx,
  (∀ i f, fs !! i = Some f → entry_at m (tl + 120 * (idx + Z.of_nat i)) f (addr i) ∧
     (length (mb_name f) < 100)%nat ∧ 0 <= mb_size f < 2 ^ 31 ∧ 0 <= addr i < 2 ^ 64) →
  cstr m filename name → (length name < 100)%nat → (100 <= sf)%nat → 0 <= p < 2 ^ 31 →
  disj ent sizeof_tarfs_e (tl + 120 * idx) (120 * Z.of_nat (length fs)) →
  disj ent sizeof_tarfs_e filename (Z.of_nat (length name) + 1) →
  disj p sizeof_file ent sizeof_tarfs_e → disj p sizeof_file filename (Z.of_nat (length name) + 1) →
  ∃ r m', open_loop sf tl ent (length fs) m (VADDR p) filename idx = Some (r, m') ∧
    open_result p name addr (find_member name fs) r m' ∧ outside ent p sizeof_file m m'.
Proof.
  induction fs as [|f fs IH]; intros addr m idx Ht Hs Hl Hsf Hp D1 D2 D3 D4.
  { exists None, m. split_and!; [done..|]. by intros b. }
  destruct (Ht 0%nat f eq_refl) as (He & Hfl & Hsz & Ha). rewrite Z.add_0_r in He.
  rewrite length_cons in D1. cbn [length open_loop].
  destruct (load_entry_spec tl ent m idx f (addr 0%nat)) as [He1 Hf1];
    [unfold disj, sizeof_tarfs_e in *; lia|done|done|].
  set (m1 := load_entry tl ent m idx) in *.
  assert (Hs1 : cstr m1 filename name).
  { eapply cstr_agree; [exact Hs|]. intros b Hb. apply Hf1. unfold disj in D2. lia. }
  rewrite (str_cmp_spec name sf m1 filename ent (mb_name f) Hs1 (en_name _ _ _ _ He1)) by lia.
  assert (Hcont : ∃ r m', open_loop sf tl ent (length fs) m1 (VADDR p) filename (idx + 1) = Some (r, m') ∧
    open_result p name addr (prod_map S id <$> find_member name fs) r m' ∧ outside ent p sizeof_file m m').
  { destruct (IH (λ i, addr (S i)) m1 (idx + 1)) as (r & m' & E & H1 & H2); try done; try (unfold disj in *; lia).
    - intros i g Hg. destruct (Ht (S i) g Hg) as (Hg1 & Hg2 & Hg3 & Hg4). split; [|done].
      replace (idx + Z.of_nat (S i)) with (idx + 1 + Z.of_nat i) in Hg1 by lia.
      eapply entry_copied; [exact Hg1|done|]. intros k Hk. apply Hf1.
      apply lookup_lt_Some in Hg. unfold disj, sizeof_tarfs_e in *. lia.
    - exists r, m'. split_and!; [done|by apply open_result_S|]. intros b ? ?. rewrite H2 by done. by apply Hf1. }
  cbn [mbind option_bind]. rewrite (en_type _ _ _ _ He1), phys_VADDR by done.
  unfold find_member. cbn [list_find]. unfold TYPE_FILE, TYPE_DIRECTORY in *.
  destruct (decide (name = mb_name f)) as [En|En]; cbn [andb Z.eqb].
  2:{ rewrite (decide_False (P := _ ∧ _)) by (intros [E _]; by apply En). apply Hcont. }
  destruct (Z.eqb_spec (mb_type f) 0) as [E0|E0]; [|destruct (Z.eqb_spec (mb_type f) 5) as [E5|E5]].
  - rewrite (decide_True (P := _ ∧ _)) by (split; [done|by left]).
    destruct (fill_file sf m1 p ent filename name f (addr 0%nat)) as (m' & E & Hfa & Hfr); try done; [lia|].
    rewrite E. exists (Some (VADDR p)), m'. split; [done|]. split.
    + unfold open_result. rewrite decide_True by done. done.
    + intros b ? ?. rewrite Hfr by done. by apply Hf1.
  - rewrite (decide_True (P := _ ∧ _)) by (split; [done|by right]). exists (Some 0), m1. split; [done|]. split.
    + unfold open_result. by rewrite decide_False by (unfold TYPE_FILE; lia).
    + intros b ? _. by apply Hf1.
  - rewrite (decide_False (P := _ ∧ _)) by lia. apply Hcont.
Qed.

Lemma get_str_spec s : ∀ fuel m a, cstr m a s → (length s < fuel)%nat → get_str fuel m a = Some s.
Proof.
  induction s as [|c s IH]; intros [|fuel] m a Hs Hf; simpl in *; try lia; [by rewrite Hs|].
  destruct Hs as (H1 & H2 & H3). rewrite H1. destruct (Z.eqb_spec c 0); [done|]. by rewrite (IH fuel) by (done || lia).
Qed.

(** [sizeof(file)] bytes are one page to the allocator. *)
Lemma kmalloc_file mf fl m : kmalloc mf fl m sizeof_file = kmalloc1 (PageSource := mem_page_source mf fl) m.
Proof. reflexivity. Qed.

Section Apart.
Context {P : PageSource} {L : PageSourceLaws P}.

(** The [n] bytes at [a] belong neither to the allocator nor to a free page. *)
Definition apart (g : ghost) (a n : Z) : Prop :=
  ∀ b, a <= b < a + n → ¬ ps_private b ∧ ∀ q, ps_free g q → ¬ in_page q b.

Lemma apart_disj g a n p k :
  apart g a n → ps_free g p → 0 < n → 0 < k <= PAGE_SIZE → disj p k a n.
Proof.
  intros Ha Hp Hn Hk. unfold disj.
  destruct (Z.le_gt_cases (p + k) a); [by left|]. destruct (Z.le_gt_cases (a + n) p); [by right|]. exfalso.
  destruct (Ha (Z.max a p) ltac:(lia)) as [_ Hq]. apply (Hq p Hp). unfold in_page. lia.
Qed.

Lemma granted_agree g m p g' m' a n :
  page_granted ps_inv ps_free ps_private ps_avail g m p g' m' → apart g a n → agree_on m m' a n.
Proof. intros [_ G2 _ _ G5 _] Ha b Hb. destruct (Ha b Hb) as [H1 H2]. apply G5; [by apply H2|done]. Qed.

End Apart.

Section Open.
Context (mf : nat) (fl : Z) (N : nat).
#[local] Instance open_source : PageSource := mem_page_source mf fl.
#[local] Instance open_laws : PageSourceLaws open_source := mem_page_source_laws mf fl N.

(** C19: [open] finds the first entry of that name that is a file or a
    directory.  For a file it returns a fresh page, as a [file] with the name,
    the size and the address of the member; for a directory it returns NULL;
    without such an entry it prints the message and returns NULL.  Only the
    fresh page, the local entry and the allocator's descriptors change. *)
Theorem open_finds_file sf t tl ent after_ch filename name st fs g :
  ps_inv g (t_mem st) → (0 < ps_avail g)%nat → tarf_idx st = Z.of_nat (length fs) →
  table (t_mem st) tl t fs → Forall (λ f, (length (mb_name f) < 100)%nat ∧ 0 <= mb_size f < 2 ^ 31) fs →
  cstr (t_mem st) filename name → (length name < 100)%nat → (100 <= sf)%nat →
  apart g ent sizeof_tarfs_e → apart g tl (sizeof_tarfs_e * Z.of_nat (length fs)) →
  apart g filename (Z.of_nat (length name) + 1) →
  disj ent sizeof_tarfs_e tl (sizeof_tarfs_e * Z.of_nat (length fs)) →
  disj ent sizeof_tarfs_e filename (Z.of_nat (length name) + 1) →
  ∃ p m', ps_free g p ∧
    (let st' c := Tarfs m' (tarf_idx st) (bytesdone st) c in
     let result := open sf tl ent after_ch mf fl filename st in
     match find_member name fs with
     | Some (i, f) =>
         if decide (mb_type f = TYPE_FILE) then
           result = Some (VADDR p, st' (t_con st)) ∧ file_at m' p name (mb_size f) (VADDR (t + member_off fs i))
         else result = Some (0, st' (t_con st))
     | None => result = c ← kprintf after_ch open_msg [AStr name] (t_con st); Some (0, st' c)
     end) ∧
    ∀ b, ¬ (ent <= b < ent + sizeof_tarfs_e) → apart g b 1 → rd m' b = rd (t_mem st) b.
Proof.
  intros Hinv Hav Hn Ht Hfs Hs Hl Hsf A1 A2 A3 D1 D2.
  destruct (ps_kmalloc g (t_mem st) Hinv Hav) as (p & g' & m1 & E1 & Hg). pose proof (pg_free _ _ _ _ _ _ _ _ _ Hg) as Hp.
  destruct (ps_free_page g (t_mem st) p Hinv Hp) as (_ & Hp0 & Hp1 & _). unfold PAGE_SIZE in Hp1.
  destruct (open_loop_spec sf tl ent p filename name fs (λ i, VADDR (t + member_off fs i)) m1 0)
    as (r & m' & E2 & Hr & Ho); rewrite ?Z.mul_0_r, ?Z.add_0_r; try done; try lia.
  - intros i f Hi. rewrite Z.add_0_l. rewrite Forall_forall in Hfs.
    destruct (Hfs f) as [Hf1 Hf2]; [by eapply list_elem_of_lookup_2|]. split_and!; try apply VADDR_range; try lia.
    eapply entry_copied; [by apply Ht|done|]. apply agree_copied. eapply agree_on_sub; [exact (granted_agree _ _ _ _ _ _ _ Hg A2)|..];
      apply lookup_lt_Some in Hi; unfold sizeof_tarfs_e; lia.
  - eapply cstr_agree; [exact Hs|]. exact (granted_agree _ _ _ _ _ _ _ Hg A3).
  - eapply apart_disj; [exact A1|done|done|done].
  - eapply apart_disj; [exact A3|done|lia|done].
  - exists p, m'. split; [done|]. split.
    + unfold open, with_t_mem. rewrite kmalloc_file. change (mem_page_source mf fl) with open_source. rewrite E1. cbn [mbind option_bind]. rewrite Hn, Nat2Z.id, E2. cbn [mbind option_bind].
      unfold open_result in Hr. destruct (find_member name fs) as [[i f]|]; [destruct (decide (mb_type f = TYPE_FILE))|].
      * destruct Hr as [-> Hfa]. done.
      * by rewrite Hr.
      * rewrite Hr. unfold kprint_str. rewrite (get_str_spec name); [cbn [mbind option_bind t_con]; by destruct (kprintf _ _ _ _)| |lia].
        eapply cstr_agree; [exact Hs|]. intros b Hb. etrans; [apply Ho|by eapply (granted_agree _ _ _ _ _ _ _ Hg A3)].
        -- unfold disj in D2. lia.
        -- destruct (apart_disj g _ _ p sizeof_file A3 Hp ltac:(lia) ltac:(done)); lia.
    + intros b Hb Ha. rewrite Ho; [eapply (granted_agree _ _ _ _ _ _ _ Hg Ha); lia|done|].
      destruct (apart_disj g _ _ p sizeof_file Ha Hp ltac:(lia) ltac:(done)); lia.
Qed.
End Open.

(** The machine of [MemProps.boot_mem] with a table of one file, "b", and its
    name at 1600000. *)
Definition demo_fs : mem :=
  store64 (store_int (put_str (put_str boot_mem 1500000 [98]) 1600000 [98]) 1500100 3) 1500104 (VADDR 1700000).

Lemma demo_fs_inv : ps_inv (PageSourceLaws := boot_laws) boot_pages demo_fs.
Proof.
  eapply ps_stable; [exact boot_inv|]. intros b Hb. unfold ps_private in Hb. cbn in Hb. unfold pool_private, sizeof_page in Hb.
  unfold demo_fs, store64, store_int. generalize boot_mem. intros m0. cbn [put_str store].
  rewrite !rd_wr_ne by lia. done.
Qed.

Lemma demo_apart a n : 341 * 4096 <= a → apart (L := boot_laws) boot_pages a n.
Proof.
  intros Ha b Hb. split.
  - unfold ps_private. cbn. unfold pool_private, sizeof_page. lia.
  - intros q (i & pg & -> & Hi & _). apply lookup_lt_Some in Hi. rewrite length_boot_pages in Hi.
    unfold in_page, PAGE_SIZE. lia.
Qed.

Lemma open_finds_file_witness :
  ∃ p m', open 100 1500000 1400000 [] 341 4096 1600000 (Tarfs demo_fs 1 0 (Console 0 0 ∅ [])) =
    Some (VADDR p, Tarfs m' 1 0 (Console 0 0 ∅ [])) ∧ file_at m' p [98] 3 (VADDR 1700000).
Proof.
  destruct (open_finds_file 341 4096 341 100 1700000 1500000 1400000 [] 1600000 [98]
    (Tarfs demo_fs 1 0 (Console 0 0 ∅ [])) [Member [98] [3] 0] boot_pages) as (p & m' & _ & [H1 H2] & _).
  - exact demo_fs_inv.
  - change (0 < ps_avail (PageSourceLaws := boot_laws) boot_pages)%nat. rewrite boot_avail. lia.
  - reflexivity.
  - intros i f Hi. destruct i as [|i]; [|discriminate]. injection Hi as <-.
    constructor; vm_compute; repeat split; discriminate.
  - repeat constructor; vm_compute; discriminate || lia.
  - vm_compute. repeat split; discriminate.
  - simpl. lia.
  - lia.
  - apply demo_apart. lia.
  - apply demo_apart. lia.
  - apply demo_apart. lia.
  - left. vm_compute. discriminate.
  - left. vm_compute. discriminate.
  - exists p, m'. split; [exact H1|exact H2].
Defined.

(** ** read_file *)

(** The bytes [l] stand at [a]. *)
Definition bytes_at (m : mem) (a : Z) (l : list Z) : Prop :=
  ∀ i c, l !! i = Some c → rd m (a + Z.of_nat i) = c.

(** What a C string function sees of [l]. *)
Fixpoint until_nul (l : list Z) : list Z :=
  match l with [] => [] | c :: l => if c =? 0 then [] else c :: until_nul l end.

Lemma until_nul_length l : (length (until_nul l) <= length l)%nat.
Proof. induction l as [|c l IH]; simpl; [lia|]. case_match; simpl; lia. Qed.

Lemma until_nul_all l : Forall (λ c, c ≠ 0) l → until_nul l = l.
Proof.
  induction 1 as [|c l Hc _ IH]; simpl; [done|]. destruct (Z.eqb_spec c 0); [done|]. by rewrite IH.
Qed.

Lemma cstr_until_nul m l : ∀ a, bytes_at m a (l ++ [0]) → cstr m a (until_nul l).
Proof.
  induction l as [|c l IH]; intros a H; pose proof (H 0%nat _ eq_refl) as H0; rewrite Z.add_0_r in H0; simpl; [done|].
  destruct (Z.eqb_spec c 0) as [->|Hc]; [done|]. split_and!; [done..|]. apply IH.
  intros i d Hi. rewrite <- (H (S i) d Hi). f_equal. lia.
Qed.

Lemma bytes_to_read_min bytes size done_ :
  0 <= bytes < 2 ^ 31 → 0 <= done_ <= size → size < 2 ^ 31 →
  bytes_to_read bytes size done_ = Z.min bytes (size - done_).
Proof.
  intros. unfold bytes_to_read. rewrite (i32_small (size - done_)), u64_small by lia. unfold max.
  destruct (Z.ltb_spec (size - done_) bytes); [destruct (Z.eqb_spec bytes (size - done_))|rewrite Z.eqb_refl];
    rewrite i32_small; lia.
Qed.

Lemma read_file_spec sf fd buf bytes st h data :
  let size := Z.of_nat (length data) in
  let n := Z.min bytes (size - bytesdone st) in
  let chunk := take (Z.to_nat n) (drop (Z.to_nat (bytesdone st)) data) in
  load_int (t_mem st) (phys fd + f_size) = size → load64 (t_mem st) (phys fd + f_addr) = VADDR h → bytes_at (t_mem st) (h + skip_size) data →
  0 < size → 0 <= bytesdone st <= size → 0 <= bytes < 2 ^ 31 → 0 <= h → h + skip_size + size < 2 ^ 31 →
  disj (phys buf) (n + 1) (h + skip_size) size → (Z.to_nat n < sf)%nat →
  ∃ m', read_file sf fd buf bytes st =
      Some (n, Tarfs m' (tarf_idx st) (bytesdone st + Z.of_nat (length (until_nul chunk)) - 1) (t_con st)) ∧
    bytes_at m' (phys buf) (chunk ++ [0]) ∧
    (∀ b, b < phys buf ∨ phys buf + n < b → rd m' b = rd (t_mem st) b) ∧
    (Forall (λ c, c ≠ 0) chunk → length (until_nul chunk) = Z.to_nat n).
Proof.
  intros size n chunk Fs Fa Hd Hsz Hbd Hby Hh Hb D Hsf. unfold skip_size, disj in *.
  assert (Hlc : length chunk = Z.to_nat n) by (unfold chunk; rewrite length_take, length_drop; lia).
  unfold read_file. rewrite Fs, Fa. destruct (Z.eqb_spec size 0); [lia|].
  rewrite bytes_to_read_min by lia. fold n.
  assert (phys (VADDR h +64 skip_size +64 bytesdone st) = h + 512 + bytesdone st) as ->.
  { change skip_size with 512. rewrite (proj1 (header_address h 512 ltac:(lia) ltac:(lia) ltac:(lia))).
    apply header_address; lia. }
  replace (Z.max 0 n) with n by lia. set (q := phys buf) in *.
  set (m1 := memcpy _ _ _ _). set (m2 := wr m1 _ _).
  assert (Hm1 : ∀ b, rd m1 b = if decide (q <= b < q + n) then rd (t_mem st) (h + 512 + bytesdone st + (b - q)) else rd (t_mem st) b)
    by (intros b; apply memcpy_rd; lia).
  assert (Hm2 : bytes_at m2 q (chunk ++ [0])).
  { intros i c Hi. apply lookup_snoc_Some in Hi as [[Hi Hc]|[Hi <-]]; unfold m2.
    - rewrite rd_wr_ne, Hm1, decide_True by lia. unfold chunk in Hc. rewrite lookup_take_lt, lookup_drop in Hc by lia.
      rewrite <- (Hd _ _ Hc). f_equal. lia.
    - rewrite Hi, Hlc. replace (q + Z.of_nat (Z.to_nat n)) with (q + n) by lia. by rewrite rd_wr_eq. }
  rewrite (str_len_spec sf m2 q _ (cstr_until_nul _ _ _ Hm2)) by (pose proof (until_nul_length chunk); lia).
  cbn [mbind option_bind]. exists m2. split_and!.
  - pose proof (until_nul_length chunk). rewrite u64_small, i32_small by lia. do 3 f_equal. lia.
  - done.
  - intros b Hbb. unfold m2. rewrite rd_wr_ne, Hm1, decide_False by lia. done.
  - intros Hall. by rewrite until_nul_all.
Qed.


