(* ===== verification/Elf.v ===== *)
(** * Elf: the program loader, src/sys/elf64.c

    The header checks, the construction of a task from an ELF file and the
    loading of its segments.  Kernel objects are reached through the kernel's
    window ([phys]); user addresses are reached through the tables of the task
    being built, whose root is in CR3 while the segments are loaded. *)
From S2P Require Import Prelude Memory Utils Strings PageSource Mem Paging Region Console.

(** ** User memory *)

(** The physical address behind the user address [va]; [None] is a fault. *)
Definition vphys (m : mem) (root va : Z) : option Z :=
  p ← translate m root va; Some (p + va mod PAGE_SIZE).

(** [memcpy] to a user destination and [memset] of user memory.  The prototypes
    the callers see take an [int], the definitions a [uint64_t]: the callers
    pass the low 32 bits. *)
Fixpoint vcopy_loop (n : nat) (m : mem) (root dst src : Z) : option mem :=
  match n with
  | O => Some m
  | S n' => b ← vphys m root dst; vcopy_loop n' (wr m b (rd m src)) root (dst + 1) (src + 1)
  end.
Definition vcopy (m : mem) (root dst src size : Z) : option mem := vcopy_loop (Z.to_nat (u32 size)) m root dst src.

Fixpoint vfill_loop (n : nat) (m : mem) (root dst v : Z) : option mem :=
  match n with
  | O => Some m
  | S n' => b ← vphys m root dst; vfill_loop n' (wr m b v) root (dst + 1) v
  end.
Definition vfill (m : mem) (root dst v size : Z) : option mem := vfill_loop (Z.to_nat (u32 size)) m root dst v.

(** ** Layout of the file and of the task *)

(** Elf64_Ehdr *)
Definition e_ident (m : mem) (h i : Z) : Z := rd m (h + i).
Definition e_type (m : mem) (h : Z) : Z := load 2 m (h + 16).
Definition e_machine (m : mem) (h : Z) : Z := load 2 m (h + 18).
Definition e_entry (m : mem) (h : Z) : Z := load64 m (h + 24).
Definition e_phoff (m : mem) (h : Z) : Z := load64 m (h + 32).
Definition e_phnum (m : mem) (h : Z) : Z := load 2 m (h + 56).

(** Elf64_Phdr *)
Record phdr := Phdr { p_type : Z; p_flags : Z; p_offset : Z; p_vaddr : Z; p_filesz : Z; p_memsz : Z }.
Definition sizeof_phdr : Z := 56.
Definition load_phdr (m : mem) (a : Z) : phdr :=
  Phdr (load 4 m a) (load 4 m (a + 4)) (load64 m (a + 8)) (load64 m (a + 16)) (load64 m (a + 32)) (load64 m (a + 40)).

Definition EI_CLASS : Z := 4.
Definition EI_DATA : Z := 5.
Definition EI_VERSION : Z := 6.
Definition ELFCLASS32 : Z := 2.
Definition ELFDATA2LSB : Z := 1.
Definition EM_386 : Z := 0x3E.
Definition EV_CURRENT : Z := 1.
Definition ET_REL : Z := 1.
Definition ET_EXEC : Z := 2.
Definition ELF_PROG_LOAD : Z := 1.

(** task_struct: rsp at 0, kstack of 4096 words at 8, then the fields below. *)
Definition t_kstack (i : Z) : Z := 8 + 8 * i.
Definition t_ustack : Z := 32776.
Definition t_pid : Z := 32784.
Definition t_ppid : Z := 32792.
Definition t_cr3 : Z := 32800.
Definition t_tname : Z := 32808.
Definition t_mm : Z := 32912.
Definition t_pml4 : Z := 32920.
Definition t_entry : Z := 32936.
Definition t_is_waiting : Z := 32944.
Definition t_sleep_time : Z := 32952.
Definition t_is_sleeping : Z := 32960.
Definition sizeof_task : Z := 32976.

(** ** The header checks *)

(** The messages, as printed. *)
Inductive elf_msg := MAG0 | MAG1 | MAG2 | MAG3 | INVALID | CLASS | ORDER | TARGET | VERSION | TYPE | WRONG_SIZE.

(** [elf_check_file] and [elf_check_supported] answer the result and the
    messages; [h] is the physical address of the header, [elfhdr] the pointer. *)
Definition elf_check_file (m : mem) (elfhdr : Z) : Z * list elf_msg :=
  if elfhdr =? 0 then (0, [])
  else
    let h := phys elfhdr in
    if negb (e_ident m h 0 =? 0x7F) then (0, [MAG0])
    else if negb (e_ident m h 1 =? 69) then (0, [MAG1])
    else if negb (e_ident m h 2 =? 76) then (0, [MAG2])
    else if negb (e_ident m h 3 =? 70) then (0, [MAG3])
    else (1, []).

Definition elf_check_supported (m : mem) (hdr : Z) : Z * list elf_msg :=
  let h := phys hdr in
  let '(r, msgs) := elf_check_file m hdr in
  if r =? 0 then (0, msgs ++ [INVALID])
  else if negb (e_ident m h EI_CLASS =? ELFCLASS32) then (0, [CLASS])
  else if negb (e_ident m h EI_DATA =? ELFDATA2LSB) then (0, [ORDER])
  else if negb (e_machine m h =? EM_386) then (0, [TARGET])
  else if negb (e_ident m h EI_VERSION =? EV_CURRENT) then (0, [VERSION])
  else if negb (e_type m h =? ET_REL) && negb (e_type m h =? ET_EXEC) then (0, [TYPE])
  else (1, []).

Section Loader.
(** [fuel] bounds string loops and the pages of a region, [mf] the allocator's
    search in the list at [free_list]. *)
Context (fuel mf : nat) (free_list : Z).
#[local] Instance loader_source : PageSource := mem_page_source mf free_list.

(** ** One segment *)

(** Maps the segment and fills it; [pml4] is the task's table, [elfhdr] the
    pointer to the file. *)
Definition load_segment (m : mem) (pml4 elfhdr : Z) (ph : phdr) : option mem :=
  let root := PADDR pml4 in
  m ← region_alloc fuel m pml4 (p_vaddr ph) (p_memsz ph);
  m ← vcopy m root (p_vaddr ph) (phys (elfhdr +64 p_offset ph)) (p_filesz ph);
  if p_filesz ph <? p_memsz ph then vfill m root (p_vaddr ph +64 p_filesz ph) 0 (u64 (p_memsz ph - p_filesz ph))
  else Some m.

(** The vm_area_struct recorded for it; vm_mm is not set. *)
Definition record_vma (m : mem) (mm elfhdr : Z) (ph : phdr) : option mem :=
  '(vm, m) ← vma_malloc mf free_list m mm;
  let a := phys vm in
  let m := store64 m (a + 8) (p_vaddr ph) in
  let m := store64 m (a + 16) (p_vaddr ph +64 p_memsz ph) in
  let m := store64 m (a + 48) (p_memsz ph) in
  let m := store64 m (a + 56) 0 in
  let m := store64 m (a + 24) elfhdr in
  let m := store64 m (a + 40) (p_flags ph) in
  Some (store64 m (a + 32) (p_offset ph)).

(** The loop over the program headers: [n] are left, the next one at [ph]. *)
Fixpoint load_segments (n : nat) (m : mem) (pcb elfhdr ph : Z) : option (mem * list elf_msg) :=
  match n with
  | O => Some (m, [])
  | S n' =>
      let hd := load_phdr m (phys ph) in
      '(m, msgs) ← (if p_type hd =? ELF_PROG_LOAD then
          let msgs := if p_memsz hd <? p_filesz hd then [WRONG_SIZE] else [] in
          m ← load_segment m (load64 m (phys pcb + t_pml4)) elfhdr hd;
          m ← record_vma m (load64 m (phys pcb + t_mm)) elfhdr hd;
          Some (m, msgs)
        else Some (m, []));
      '(m, msgs') ← load_segments n' m pcb elfhdr (ph +64 sizeof_phdr);
      Some (m, msgs ++ msgs')
  end.

(** ** The task *)

(** [kstack[505 - i] = argv[i]] *)
Fixpoint push_args (n : nat) (m : mem) (a argv i : Z) : mem :=
  match n with
  | O => m
  | S n' => push_args n' (store64 m (a + t_kstack (505 - i)) (load64 m (phys argv + 8 * i))) a argv (i + 1)
  end.

(** [for (i = 1; i < 15; i++) kstack[506 - argc - i] = ++j] *)
Fixpoint push_regs (n : nat) (m : mem) (a argc i j : Z) : mem :=
  match n with
  | O => m
  | S n' => push_regs n' (store64 m (a + t_kstack (506 - argc - i)) (u64 (j + 1))) a argc (i + 1) (j + 1)
  end.

(** The fields set before the stacks; [pcb] and [process_page] are fresh. *)
Definition init_pcb (m : mem) (pcb process_page PID parent_pid fileptr ker_pml4_t : Z) : option mem :=
  let a := phys pcb in
  let mm := pcb +64 sizeof_task in
  let m := store64 m (a + t_mm) mm in
  let m := store 4 m (phys mm) 0 in
  let m := store64 m (phys mm + 8) 0 in
  let m := store64 m (a + t_pid) (u64 PID) in
  let m := store64 m (a + t_ppid) parent_pid in
  n ← str_len fuel m (phys fileptr);
  let m := memcpy m (a + t_tname) (phys fileptr) n in
  let m := memset m (a + t_kstack 0) 0 4096 in
  let m := memset m (phys process_page) 0 4096 in
  let m := store64 m (phys process_page + 8 * 511) (load64 m (phys ker_pml4_t + 8 * 511)) in
  let m := store64 m (a + t_pml4) process_page in
  let m := store64 m (a + t_cr3) (PADDR process_page) in
  let m := store64 m (a + t_is_waiting) 0 in
  let m := store64 m (a + t_sleep_time) 0 in
  Some (store64 m (a + t_is_sleeping) 0).

(** The kernel stack from which the first switch to the task returns. *)
Definition init_kstack (m : mem) (pcb isr32 argc argv : Z) : mem :=
  let a := phys pcb in
  let m := store64 m (a + t_kstack 506) (u64 argc) in
  let m := push_args (Z.to_nat argc) m a argv 0 in
  let m := push_regs 14 m a argc 1 (argc + 1) in
  let m := store64 m (a + t_kstack 491) (isr32 +64 29) in
  let m := store64 m a (pcb +64 t_kstack 491) in
  let m := store64 m (a + t_kstack 511) 0x23 in
  let m := store64 m (a + t_kstack 510) (load64 m (a + t_ustack) +64 8 * 511) in
  let m := store64 m (a + t_kstack 509) 0x200286 in
  store64 m (a + t_kstack 508) 0x1b.

(** The user stack, 512 words, is cleared through the new tables. *)
Definition elf_run_bin (m : mem) (PID parent_pid ker_pml4_t isr32 addr fileptr argc argv : Z)
    : option (Z * Z * mem * list elf_msg) :=
  '(process_page, m) ← kmalloc mf free_list m sizeof_page;
  '(pcb, m) ← kmalloc mf free_list m sizeof_task;
  m ← init_pcb m pcb process_page PID parent_pid fileptr ker_pml4_t;
  let a := phys pcb in
  '(ustack, m) ← kmalloc_stack mf free_list m 1 (load64 m (a + t_pml4));
  let m := store64 m (a + t_ustack) ustack in
  let m := memset m (a + t_kstack 0) 0 4096 in
  m ← vfill m (load64 m (a + t_cr3)) ustack 0 4096;
  let m := init_kstack m pcb isr32 argc argv in
  let h := phys addr in
  '(m, msgs) ← load_segments (Z.to_nat (e_phnum m h)) m pcb addr (addr +64 e_phoff m h);
  let m := store64 m (a + t_entry) (e_entry m h) in
  let m := store64 m (a + t_kstack 507) (load64 m (a + t_entry)) in
  Some (pcb, i32 (PID + 1), m, msgs).

(** The result of the check is not used. *)
Definition elf_parse (m : mem) (PID parent_pid ker_pml4_t isr32 addr fileptr argc argv : Z)
    : option (Z * Z * mem * list elf_msg) :=
  let '(_, msgs) := elf_check_supported m addr in
  '(pcb, PID, m, msgs') ← elf_run_bin m PID parent_pid ker_pml4_t isr32 addr fileptr argc argv;
  Some (pcb, PID, m, msgs ++ msgs').
End Loader.
