(* ===== verification/ElfProps.v ===== *)
(** * ElfProps: loading a segment

    What the program finds in its memory: the bytes of the file, then zeros. *)
From S2P Require Import Prelude Memory Utils PageSource Mem MemProps Paging Region PagingProps Elf.

(** ** Translation by pages and modulo 2^48 *)

Lemma translate_same_page m root va k : va mod PAGE_SIZE = 0 → 0 <= k < PAGE_SIZE → translate m root (va + k) = translate m root va.
Proof.
  intros Ha Hk. unfold PAGE_SIZE in *.
  assert (E : ∀ s, 12 <= s → Z.shiftr (va + k) s = Z.shiftr va s).
  { intros s Hs. rewrite !Z.shiftr_div_pow2 by lia. replace s with (12 + (s - 12)) by lia. rewrite Z.pow_add_r by lia.
    rewrite <- !Z.div_div by lia. f_equal. change (2 ^ 12) with 4096. lia. }
  unfold translate, PAGE_PML4_INDEX, PAGE_PDP_INDEX, PAGE_DIR_INDEX, PAGE_TABLE_INDEX. by rewrite !E by lia.
Qed.

Lemma translate_low48 m root va : translate m root (va mod 2 ^ 48) = translate m root va.
Proof.
  assert (E : ∀ k, k = 12 ∨ k = 21 ∨ k = 30 ∨ k = 39 →
    Z.land (Z.shiftr (va mod 2 ^ 48) k) 0x1ff = Z.land (Z.shiftr va k) 0x1ff).
  { intros k Hk. rewrite !index_div_mod by lia. destruct Hk as [->|[->|[->| ->]]]; lia. }
  unfold translate, PAGE_PML4_INDEX, PAGE_PDP_INDEX, PAGE_DIR_INDEX, PAGE_TABLE_INDEX. by rewrite !E by tauto.
Qed.

Section User.
Context {P : PageSource} {L : PageSourceLaws P}.

(** A byte that is neither the allocator's nor part of a table. *)
Definition data_byte (T : gmap (list Z) Z) (b : Z) : Prop :=
  ¬ ps_private b ∧ ∀ π t, T !! π = Some t → ¬ in_page t b.

(** The address space stays when the tables do and the allocator still has its
    invariant, with no more free pages. *)
Lemma wf_frame g m root T g' m' :
  wf g m root T → ps_inv g' m' → (∀ q, ps_free g' q → ps_free g q) →
  (∀ π t b, T !! π = Some t → in_page t b → rd m' b = rd m b) →
  wf g' m' root T ∧ ∀ va, vphys m' root va = vphys m root va.
Proof.
  intros Hwf Hinv Hfree Hag.
  assert (He : ∀ π t i, T !! π = Some t → 0 <= i < 512 → entry m' t i = entry m t i).
  { intros π t i Hπ Hi. apply entry_agree. intros c Hc. eapply Hag; [exact Hπ|]. unfold in_page, PAGE_SIZE. lia. }
  assert (Hwf' : wf g' m' root T).
  { constructor; try apply Hwf; [done|..].
    - intros π t Ht. destruct (wf_page _ _ _ _ Hwf _ _ Ht) as (? & ? & ? & ? & ?). split_and!; try done. auto.
    - intros π t i Hπ Hl Hi. erewrite He by done. by apply Hwf.
    - intros π t i Hπ Hi. erewrite He by done. by eapply wf_small. }
  split; [done|]. intros va. unfold vphys.
  rewrite (translate_leaf _ _ _ _ va Hwf'), (translate_leaf _ _ _ _ va Hwf). unfold leaf, hw_step.
  destruct (T !! path va) as [t|] eqn:E; [|done]. cbn [mbind option_bind].
  by erewrite He by (done || auto with kmem).
Qed.

(** Writing data bytes keeps the address space. *)
Lemma wf_data g m root T m' :
  wf g m root T → (∀ b, ¬ data_byte T b → rd m' b = rd m b) →
  wf g m' root T ∧ ∀ va, vphys m' root va = vphys m root va.
Proof.
  intros Hwf Hag. apply (wf_frame g m); [done| |done|].
  - eapply ps_stable; [apply Hwf|]. intros b Hb. apply Hag. intros [H _]. done.
  - intros π t b Ht Hb. apply Hag. intros [_ H]. by eapply H.
Qed.

Lemma wf_wr g m root T b v :
  wf g m root T → data_byte T b → wf g (wr m b v) root T ∧ ∀ va, vphys (wr m b v) root va = vphys m root va.
Proof. intros Hwf Hb. apply wf_data; [done|]. intros c Hc. apply rd_wr_ne. by intros ->. Qed.

Lemma vphys_translate m m' root a : vphys m' root a = vphys m root a → translate m' root a = translate m root a.
Proof.
  unfold vphys. destruct (translate m' root a), (translate m root a); cbn [mbind option_bind]; intros E; try done.
  injection E as E. f_equal. lia.
Qed.

(** The [n] user addresses from [lo] are mapped to different data bytes. *)
Definition mapped (T : gmap (list Z) Z) (m : mem) (root lo n : Z) (f : Z → Z) : Prop :=
  (∀ i, 0 <= i < n → vphys m root (lo + i) = Some (f i) ∧ data_byte T (f i)) ∧
  ∀ i j, 0 <= i < n → 0 <= j < n → f i = f j → i = j.

Lemma mapped_wr g T m root lo n f b v :
  wf g m root T → data_byte T b → mapped T m root lo n f → mapped T (wr m b v) root lo n f.
Proof.
  intros Hwf Hb [H1 H2]. split; [|done]. intros i Hi. rewrite (proj2 (wf_wr g m root T b v Hwf Hb)). by apply H1.
Qed.

Lemma mapped_tail T m root lo n f : mapped T m root lo n f → mapped T m root (lo + 1) (n - 1) (λ i, f (i + 1)).
Proof.
  intros [H1 H2]. split.
  - intros i Hi. replace (lo + 1 + i) with (lo + (i + 1)) by lia. apply H1. lia.
  - intros i j Hi Hj E. assert (i + 1 = j + 1) by (apply H2; [lia..|done]). lia.
Qed.

(** What writing the bytes [val i] to the mapped addresses does. *)
Definition user_written (m m' : mem) (n : Z) (f val : Z → Z) : Prop :=
  (∀ i, 0 <= i < n → rd m' (f i) = val i) ∧
  ∀ b, (∀ i, 0 <= i < n → f i ≠ b) → rd m' b = rd m b.

Lemma user_written_cons m m1 m' n f val :
  0 < n → m1 = wr m (f 0) (val 0) → 0 <= val 0 < 256 →
  (∀ i j, 0 <= i < n → 0 <= j < n → f i = f j → i = j) →
  user_written m1 m' (n - 1) (λ i, f (i + 1)) (λ i, val (i + 1)) → user_written m m' n f val.
Proof.
  intros Hn -> Hv Hinj [W1 W2]. split.
  - intros i Hi. destruct (decide (i = 0)) as [->|Hne].
    + rewrite W2; [rewrite rd_wr_eq; by apply u8_small|]. intros j Hj E.
      assert (j + 1 = 0) by (apply Hinj; [lia..|done]). lia.
    + specialize (W1 (i - 1) ltac:(lia)). cbn beta in W1. by replace (i - 1 + 1) with i in W1 by lia.
  - intros b Hb. rewrite W2; [apply rd_wr_ne, Hb; lia|]. intros i Hi. apply Hb. lia.
Qed.

Lemma vcopy_loop_spec g root T n : ∀ m lo src f,
  wf g m root T → mapped T m root lo (Z.of_nat n) f →
  (∀ i j, 0 <= i < Z.of_nat n → 0 <= j < Z.of_nat n → f i ≠ src + j) →
  ∃ m', vcopy_loop n m root lo src = Some m' ∧ wf g m' root T ∧
    (∀ va, vphys m' root va = vphys m root va) ∧
    user_written m m' (Z.of_nat n) f (λ i, rd m (src + i)).
Proof.
  induction n as [|n IH]; intros m lo src f Hwf Hm Hs.
  { exists m. split_and!; [done..|]. split; [intros; lia|done]. }
  pose proof Hm as [H1 H2]. destruct (H1 0) as [E Hb]; [lia|]. rewrite Z.add_0_r in E.
  cbn [vcopy_loop]. rewrite E. cbn [mbind option_bind]. set (m1 := wr m (f 0) (rd m src)).
  destruct (wf_wr g m root T (f 0) (rd m src) Hwf Hb) as [Hwf1 Hv1]. fold m1 in Hwf1, Hv1.
  destruct (IH m1 (lo + 1) (src + 1) (λ i, f (i + 1)) Hwf1) as (m' & E' & Hwf' & Hv' & Hw).
  - replace (Z.of_nat n) with (Z.of_nat (S n) - 1) by lia. apply mapped_tail. by eapply mapped_wr.
  - intros i j Hi Hj. replace (src + 1 + j) with (src + (j + 1)) by lia. apply Hs; lia.
  - exists m'. split_and!; [done..|intros va; by rewrite Hv', Hv1|].
    eapply user_written_cons; [lia| | |exact H2|].
    + cbn beta. by rewrite Z.add_0_r.
    + apply rd_range.
    + replace (Z.of_nat (S n) - 1) with (Z.of_nat n) by lia. destruct Hw as [W1 W2]. split; [|done].
      intros i Hi. rewrite W1 by done. replace (src + 1 + i) with (src + (i + 1)) by lia.
      apply rd_wr_ne. apply Hs; lia.
Qed.

Lemma vfill_loop_spec g root T v n : ∀ m lo f,
  wf g m root T → mapped T m root lo (Z.of_nat n) f → 0 <= v < 256 →
  ∃ m', vfill_loop n m root lo v = Some m' ∧ wf g m' root T ∧
    (∀ va, vphys m' root va = vphys m root va) ∧
    user_written m m' (Z.of_nat n) f (λ _, v).
Proof.
  induction n as [|n IH]; intros m lo f Hwf Hm Hv.
  { exists m. split_and!; [done..|]. split; [intros; lia|done]. }
  pose proof Hm as [H1 H2]. destruct (H1 0) as [E Hb]; [lia|]. rewrite Z.add_0_r in E.
  cbn [vfill_loop]. rewrite E. cbn [mbind option_bind].
  destruct (wf_wr g m root T (f 0) v Hwf Hb) as [Hwf1 Hv1].
  destruct (IH (wr m (f 0) v) (lo + 1) (λ i, f (i + 1)) Hwf1) as (m' & E' & Hwf' & Hv' & Hw); [|done|].
  - replace (Z.of_nat n) with (Z.of_nat (S n) - 1) by lia. apply mapped_tail. by eapply mapped_wr.
  - exists m'. split_and!; [done..|intros va; by rewrite Hv', Hv1|].
    eapply (user_written_cons m _ m' _ f (λ _, v)); [lia|done|done|exact H2|].
    by replace (Z.of_nat (S n) - 1) with (Z.of_nat n) by lia.
Qed.

(** The physical address behind the [i]-th byte of a region. *)
Definition user_byte (m : mem) (root lo i : Z) : Z := default 0 (vphys m root (lo + i)).

(** A region that was just allocated is mapped, to zeroed bytes. *)
Lemma region_mapped v end_ root g m T g' m' T' lo n :
  region_post v end_ root g m T g' m' T' → v <= lo → lo + n <= end_ →
  mapped T' m' root lo n (user_byte m' root lo) ∧
  ∀ i, 0 <= i < n → rd m' (user_byte m' root lo i) = 0 ∧
    (∃ q, ps_free g q ∧ in_page q (user_byte m' root lo i)) ∧ ∀ q, ps_free g' q → ¬ in_page q (user_byte m' root lo i).
Proof.
  intros R Hlo Hhi.
  assert (Hp : ∀ i, 0 <= i < n → ∃ p, translate m' root (lo + i) = Some p ∧
    user_byte m' root lo i = p + (lo + i) mod PAGE_SIZE ∧ p mod PAGE_SIZE = 0 ∧ ps_free g p ∧
    in_page p (user_byte m' root lo i) ∧ rd m' (user_byte m' root lo i) = 0 ∧ data_byte T' (user_byte m' root lo i) ∧
    ∀ q, ps_free g' q → ¬ in_page q (user_byte m' root lo i)).
  { intros i Hi. destruct (rp_new _ _ _ _ _ _ _ _ _ R (lo + i)) as (p & Ep & Hf & Hz); [lia|].
    destruct (rp_apart _ _ _ _ _ _ _ _ _ R (lo + i) p) as (A1 & A2 & A3); [lia|done|].
    assert (Eb : user_byte m' root lo i = p + (lo + i) mod PAGE_SIZE) by (unfold user_byte, vphys; by rewrite Ep).
    assert (Hin : in_page p (user_byte m' root lo i)) by (rewrite Eb; unfold in_page, PAGE_SIZE; lia).
    exists p. split_and!; try done; [by apply Hz|..].
    - split; [by apply A3|]. intros π t Ht Hb. destruct (wf_page _ _ _ _ (rp_wf _ _ _ _ _ _ _ _ _ R) π t Ht) as (S1 & _).
      pose proof (pages_apart t p S1 A1 (A2 _ _ Ht)). unfold disj, in_page in *. lia.
    - intros q Hq Hqb. destruct (ps_free_page _ _ _ (wf_inv _ _ _ _ (rp_wf _ _ _ _ _ _ _ _ _ R)) Hq) as (S1 & _).
      assert (Hne : q ≠ p) by (intros ->; by eapply (rp_taken _ _ _ _ _ _ _ _ _ R (lo + i)); [lia|..]).
      pose proof (pages_apart q p S1 A1 Hne). unfold disj, in_page in *. lia. }
  split; [split|].
  - intros i Hi. destruct (Hp i Hi) as (p & Ep & Eb & _ & _ & _ & _ & Hd & _). split; [|done].
    unfold vphys. rewrite Ep, Eb. done.
  - intros i j Hi Hj E. destruct (Hp i Hi) as (p & Ep & Eb & Ap & _), (Hp j Hj) as (q & Eq & Eb' & Aq & _).
    rewrite Eb, Eb' in E. unfold PAGE_SIZE in *. assert (p = q) as <- by lia.
    pose proof (rp_inj _ _ _ _ _ _ _ _ _ R (lo + i) (lo + j) p ltac:(lia) ltac:(lia) Ep Eq). unfold PAGE_SIZE in *. lia.
  - intros i Hi. destruct (Hp i Hi) as (p & _ & _ & _ & Hf & Hin & Hz & _ & Hq). eauto.
Qed.
End User.

Section Segment.
Context (fuel mf : nat) (fl : Z) (N : nat).
#[local] Instance segment_source : PageSource := mem_page_source mf fl.
#[local] Instance segment_laws : PageSourceLaws segment_source := mem_page_source_laws mf fl N.

(** A byte that loading leaves alone: not the allocator's, not in a free page
    and not in a table. *)
Definition settled (g : ghost) (T : gmap (list Z) Z) (b : Z) : Prop :=
  data_byte T b ∧ ∀ q, ps_free g q → ¬ in_page q b.

(** The settled bytes are unchanged and stay settled. *)
Definition kept (g : ghost) (T : gmap (list Z) Z) (m : mem) (g' : ghost) (T' : gmap (list Z) Z) (m' : mem) : Prop :=
  ∀ b, settled g T b → settled g' T' b ∧ rd m' b = rd m b.

Lemma kept_trans g1 T1 m1 g2 T2 m2 g3 T3 m3 : kept g1 T1 m1 g2 T2 m2 → kept g2 T2 m2 g3 T3 m3 → kept g1 T1 m1 g3 T3 m3.
Proof. intros H1 H2 b Hb. destruct (H1 b Hb) as [Hb2 E]. destruct (H2 b Hb2) as [? E']. split; congruence. Qed.

(** No free page becomes free, tables are only made of free pages. *)
Lemma settled_mono (g g' : ghost) (T T' : gmap (list Z) Z) b :
  (∀ q, ps_free g' q → ps_free g q) → (∀ π t, T' !! π = Some t → T !! π = Some t ∨ ps_free g t) →
  settled g T b → settled g' T' b.
Proof.
  intros Hf HT [[H1 H2] H3]. split; [split; [done|]|eauto]. intros π t Ht.
  destruct (HT π t Ht) as [Ht'|Hq]; [by eapply H2|by apply H3].
Qed.

Lemma load_segment_spec g m root T elfhdr ph :
  let va := p_vaddr ph in let fsz := p_filesz ph in let msz := p_memsz ph in
  let src := phys (elfhdr +64 p_offset ph) in
  let start := va - va mod PAGE_SIZE in
  let end_ := va + msz + (- (va + msz)) mod PAGE_SIZE in
  let n := Z.to_nat ((end_ - start) / PAGE_SIZE) in
  wf g m root T → (4 * n <= ps_avail g)%nat → (n < fuel)%nat →
  0 <= va → va + msz <= 2 ^ 48 - PAGE_SIZE → 0 <= fsz <= msz → msz < 2 ^ 31 →
  (∀ j, 0 <= j < fsz → settled g T (src + j)) →
  ∃ g' m' T', load_segment fuel mf fl m (VADDR root) elfhdr ph = Some m' ∧ wf g' m' root T' ∧
    (∀ i, 0 <= i < msz → ∃ b, vphys m' root (va + i) = Some b ∧ (settled g' T' b ∧ ¬ settled g T b) ∧
      rd m' b = if i <? fsz then rd m (src + i) else 0) ∧
    (∀ a, 0 <= a < 2 ^ 48 → a < start ∨ end_ <= a → translate m' root a = translate m root a) ∧
    kept g T m g' T' m' ∧ (ps_avail g <= 4 * n + ps_avail g')%nat.
Proof.
  intros va fsz msz src start end_ n Hwf Hav Hfu Hva Hend Hsz Hmsz Hsrc.
  destruct (region_alloc_spec fuel g m root T va msz) as (g1 & m1 & T1 & E1 & R);
    [exact Hwf|exact Hva|lia|exact Hend|exact Hav|exact Hfu|].
  fold start end_ in R. pose proof (rp_wf _ _ _ _ _ _ _ _ _ R) as Hwf1.
  assert (Hse : start <= va ∧ va + msz <= end_) by (unfold start, end_, PAGE_SIZE; clear -Hsz; lia).
  pose proof (rp_avail _ _ _ _ _ _ _ _ _ R : (_ <= 4 * n + _)%nat) as Hav'. clear Hav Hfu. clearbody n start end_.
  destruct (region_mapped _ _ _ _ _ _ _ _ _ va msz R) as [[M1 M2] Hz]; [lia..|].
  set (f := user_byte m1 root va) in *.
  assert (Hset : ∀ i b, 0 <= i < msz → settled g T b → f i ≠ b).
  { intros i b Hi [_ Hb] <-. destruct (Hz i Hi) as (_ & (q & Hq & Hin) & _). by apply (Hb q). }
  assert (Hfr : ∀ b, settled g T b → rd m1 b = rd m b).
  { intros b [[Hb1 Hb2] Hb3]. apply R; done. }
  assert (Hroot : PADDR (VADDR root) = root).
  { destruct (wf_page _ _ _ _ Hwf [] root (wf_root _ _ _ _ Hwf)) as (_ & ? & ? & _). apply PADDR_VADDR. unfold PAGE_SIZE in *. lia. }
  destruct (vcopy_loop_spec g1 root T1 (Z.to_nat fsz) m1 va src f Hwf1) as (m2 & E2 & Hwf2 & V2 & W1 & W2).
  { split; intros; [apply M1|apply M2; try done]; lia. }
  { intros i j Hi Hj. apply Hset; [lia|]. apply Hsrc. lia. }
  destruct (vfill_loop_spec g1 root T1 0 (Z.to_nat (msz - fsz)) m2 (va + fsz) (λ i, f (fsz + i)) Hwf2)
    as (m3 & E3 & Hwf3 & V3 & Y1 & Y2); [|done|].
  { split.
    - intros i Hi. rewrite V2. replace (va + fsz + i) with (va + (fsz + i)) by lia. apply M1. lia.
    - intros i j Hi Hj E. assert (fsz + i = fsz + j) by (apply M2; [lia..|done]). lia. }
  assert (El : load_segment fuel mf fl m (VADDR root) elfhdr ph = Some m3).
  { unfold load_segment. change (loader_source mf fl) with segment_source. rewrite Hroot. fold va fsz msz src. rewrite E1.
    cbn [mbind option_bind]. unfold vcopy. rewrite u32_small by lia. rewrite E2. cbn [mbind option_bind].
    destruct (Z.ltb_spec fsz msz) as [Hlt|Hge].
    - unfold vfill. rewrite (u64_small (msz - fsz)), u32_small by lia. unfold PAGE_SIZE in Hend.
      rewrite (u64_small (va + fsz)) by lia. exact E3.
    - replace (msz - fsz) with 0 in E3 by lia. exact E3. }
  exists g1, m3, T1. split_and!; [done|done|..].
  - intros i Hi. exists (f i). rewrite V3, V2. split; [apply M1; lia|].
    split; [split; [split; [apply M1; lia|by apply Hz]|intros Hs; by apply (Hset i _ Hi Hs)]|].
    destruct (Z.ltb_spec i fsz) as [Hlt|Hge].
    + rewrite Y2 by (intros j Hj E; assert (fsz + j = i) by (apply M2; [lia..|done]); lia).
      rewrite W1 by lia. apply Hfr, Hsrc. lia.
    + specialize (Y1 (i - fsz) ltac:(lia)). cbn beta in Y1. by replace (fsz + (i - fsz)) with i in Y1 by lia.
  - intros a Ha Hout. etrans; [|apply (rp_old _ _ _ _ _ _ _ _ _ R a Ha Hout)].
    apply vphys_translate. by rewrite V3, V2.
  - intros b Hb. split.
    + eapply settled_mono; [apply (rp_free _ _ _ _ _ _ _ _ _ R)|apply (rp_tables _ _ _ _ _ _ _ _ _ R)|done].
    + rewrite Y2, W2 by (intros i Hi; apply Hset; [lia|done]). by apply Hfr.
  - exact Hav'.
Qed.

(** C10: loading a segment gives the program the memory its file describes: the
    first [p_filesz] bytes at [p_vaddr] are the file's, the rest up to
    [p_memsz] is zero, on pages of its own; addresses outside the segment's
    pages translate as before, the address space stays well formed, and no
    byte outside the new pages, the tables and the allocator changes. *)
Theorem load_segment_correct g m root T elfhdr ph :
  let va := p_vaddr ph in let fsz := p_filesz ph in let msz := p_memsz ph in
  let src := phys (elfhdr +64 p_offset ph) in
  let start := va - va mod PAGE_SIZE in
  let end_ := va + msz + (- (va + msz)) mod PAGE_SIZE in
  let n := Z.to_nat ((end_ - start) / PAGE_SIZE) in
  wf g m root T → (4 * n <= ps_avail g)%nat → (n < fuel)%nat →
  0 <= va → va + msz <= 2 ^ 48 - PAGE_SIZE → 0 <= fsz <= msz → msz < 2 ^ 31 →
  (∀ j, 0 <= j < fsz → settled g T (src + j)) →
  ∃ g' m' T', load_segment fuel mf fl m (VADDR root) elfhdr ph = Some m' ∧ wf g' m' root T' ∧
    (∀ i, 0 <= i < msz → ∃ b, vphys m' root (va + i) = Some b ∧ rd m' b = if i <? fsz then rd m (src + i) else 0) ∧
    (∀ a, 0 <= a < 2 ^ 48 → a < start ∨ end_ <= a → translate m' root a = translate m root a) ∧
    (∀ b, settled g T b → rd m' b = rd m b).
Proof.
  intros va fsz msz src start end_ n Hwf Hav Hfu Hva Hend Hsz Hmsz Hsrc.
  destruct (load_segment_spec g m root T elfhdr ph Hwf Hav Hfu Hva Hend Hsz Hmsz Hsrc) as (g' & m' & T' & E & W & B & O & K & _).
  exists g', m', T'. split; [exact E|]. split; [exact W|].
  split; [intros i Hi; destruct (B i Hi) as (b & B1 & _ & B2); by exists b|]. split; [exact O|]. intros b Hb. by apply K.
Qed.
End Segment.

(** A segment of 512 bytes at 0x400100, five of them from the file. *)
Lemma load_segment_correct_witness :
  ∃ m root m' b, load_segment 3 341 4096 m (VADDR root) (VADDR 1500000) (Phdr 1 5 0 0x400100 5 512) = Some m' ∧
    vphys m' root 0x400102 = Some b ∧ rd m' b = rd m 1500002.
Proof.
  destruct boot_space as (g & m & root & Hwf & Hav & Hfree & Hroot).
  assert (Esrc : phys (VADDR 1500000 +64 0) = 1500000) by (vm_compute; reflexivity).
  destruct (load_segment_correct 3 341 4096 341 g m root {[ [] := root ]} (VADDR 1500000) (Phdr 1 5 0 0x400100 5 512))
    as (g' & m' & T' & E & _ & Hb & _).
  - exact Hwf.
  - etrans; [|exact Hav]. vm_compute. lia.
  - vm_compute. lia.
  - vm_compute. discriminate.
  - vm_compute. discriminate.
  - vm_compute. split; discriminate.
  - vm_compute. reflexivity.
  - cbn [p_offset p_filesz]. rewrite Esrc. intros j Hj. split; [split|].
    + cbn. unfold pool_private, sizeof_page. lia.
    + intros π t Ht. apply lookup_singleton_Some in Ht as [_ <-]. unfold in_page, PAGE_SIZE. lia.
    + intros q Hq. pose proof (Hfree q Hq). unfold in_page, PAGE_SIZE. lia.
  - destruct (Hb 2) as (b & Eb & Hr); [cbn; lia|]. exists m, root, m', b. split; [exact E|]. split; [exact Eb|].
    cbn [p_offset p_filesz] in Hr. rewrite Esrc in Hr. exact Hr.
Defined.
