(* ===== verification/Fork.v ===== *)
(** * Fork: sys_fork of src/sys/process.c

    The task structures, stacks, tables and memory areas lie in the flat
    memory with the layout of [Elf]; the task list is the state of [Process],
    to which the record of the child is added as the view of its structure. *)
From S2P Require Import Prelude Memory Utils Strings PageSource Mem Paging Region Console Tarfs Elf Process.

(** ** Words in user memory *)

(** Each byte is translated, a word may cross a page. *)
Fixpoint vload (n : nat) (m : mem) (root va : Z) : option Z :=
  match n with
  | O => Some 0
  | S n' => b ← vphys m root va; v ← vload n' m root (va + 1); Some (rd m b + 2 ^ 8 * v)
  end.
Fixpoint vstore (n : nat) (m : mem) (root va v : Z) : option mem :=
  match n with
  | O => Some m
  | S n' => b ← vphys m root va; vstore n' (wr m b v) root (va + 1) (v / 2 ^ 8)
  end.

(** ** The record the scheduler sees *)

Definition t_is_bg : Z := 32968.

Definition task_view (fuel : nat) (m : mem) (pcb : Z) : option task :=
  let a := phys pcb in
  name ← get_str fuel m (a + t_tname);
  Some (Task (load64 m (a + t_pid)) (load64 m (a + t_ppid)) name (load64 m a) (load64 m (a + t_cr3))
    (load64 m (a + t_is_waiting)) (load64 m (a + t_sleep_time)) (load64 m (a + t_is_sleeping)) (load64 m (a + t_is_bg))).

Section Fork.
Context (fuel mf : nat) (free_list : Z).
#[local] Instance fork_source : PageSource := mem_page_source mf free_list.

(** ** The copies *)

(** [temp_kstack[j] = parent->kstack[j]; temp_ustack[j] = parent->ustack[j];
    child->pml4[j] = parent->pml4[j];] from [j] on, [n] times; the parent's
    stack is read through its tables. *)
Fixpoint fork_copy (n : nat) (m : mem) (tk tu pml4 parent root j : Z) : option mem :=
  match n with
  | O => Some m
  | S n' =>
      let p := phys parent in
      let m := store64 m (phys tk + 8 * j) (load64 m (p + t_kstack j)) in
      u ← vload 8 m root (load64 m (p + t_ustack) +64 8 * j);
      let m := store64 m (phys tu + 8 * j) u in
      let m := store64 m (phys pml4 + 8 * j) (load64 m (phys (load64 m (p + t_pml4)) + 8 * j)) in
      fork_copy n' m tk tu pml4 parent root (j + 1)
  end.

(** [child->ustack[j] = temp_ustack[j]; child->kstack[j] = temp_kstack[j];] *)
Fixpoint fork_stacks (n : nat) (m : mem) (tk tu child root j : Z) : option mem :=
  match n with
  | O => Some m
  | S n' =>
      let c := phys child in
      m ← vstore 8 m root (load64 m (c + t_ustack) +64 8 * j) (load64 m (phys tu + 8 * j));
      fork_stacks n' (store64 m (c + t_kstack j) (load64 m (phys tk + 8 * j))) tk tu child root (j + 1)
  end.

(** The first non-zero word of the copied stack. *)
Fixpoint first_word (n : nat) (m : mem) (tu i : Z) : Z :=
  match n with
  | O => i
  | S n' => if negb (load64 m (phys tu + 8 * i) =? 0) then i else first_word n' m tu (i + 1)
  end.

(** ** The memory areas *)

(** [*(uint64_t * )(dst + j) = *(uint64_t * )(src + j)] for every byte offset. *)
Fixpoint fork_bytes (n : nat) (m : mem) (root dst src : Z) : option mem :=
  match n with
  | O => Some m
  | S n' => m ← vstore 8 m root dst (load64 m (phys src)); fork_bytes n' m root (dst +64 1) (src +64 1)
  end.

(** One area: a vm_area_struct for the child, fresh pages and the bytes of the
    file. *)
Definition fork_area (m : mem) (child root p_vma : Z) : option mem :=
  let v := phys p_vma in
  '(cv, m) ← vma_malloc mf free_list m (load64 m (phys child + t_mm));
  let a := phys cv in
  let m := store64 m (a + 8) (load64 m (v + 8)) in
  let m := store64 m (a + 16) (load64 m (v + 16)) in
  let m := store64 m (a + 48) (load64 m (v + 48)) in
  let m := store64 m (a + 56) 0 in
  let m := store64 m (a + 24) (load64 m (v + 24)) in
  let m := store64 m (a + 40) (load64 m (v + 40)) in
  let m := store64 m (a + 32) (load64 m (v + 32)) in
  m ← region_alloc fuel m (load64 m (phys child + t_pml4)) (load64 m (v + 8)) (load64 m (v + 48));
  fork_bytes (Z.to_nat (load64 m (v + 48))) m root (load64 m (v + 8)) (load64 m (v + 24) +64 load64 m (v + 32)).

Fixpoint fork_areas (n : nat) (m : mem) (child root p_vma : Z) : option mem :=
  match n with
  | O => None
  | S n' =>
      if p_vma =? 0 then Some m
      else m ← fork_area m child root p_vma; fork_areas n' m child root (vm_next m p_vma)
  end.

(** ** sys_fork *)

(** The fields set before the child enters the task list. *)
Definition fork_task (m : mem) (child parent PID : Z) : option mem :=
  let c := phys child in
  let p := phys parent in
  let mm := child +64 sizeof_task in
  let m := store64 m (c + t_mm) mm in
  let m := store64 m (phys mm + 8) 0 in
  let m := store64 m (c + t_pid) (u64 PID) in
  let m := store64 m (c + t_ppid) (load64 m (p + t_pid)) in
  n ← str_len fuel m (p + t_tname);
  Some (memcpy m (c + t_tname) (p + t_tname) n).

(** The frame from which the child starts. *)
Definition fork_frame (m : mem) (child tk tu isr32 : Z) : mem :=
  let c := phys child in
  let i := first_word 512 m tu 0 in
  let offset := u64 (511 - i - 1) in
  let m := store64 m (c + t_kstack 511) 0x23 in
  let m := store64 m (c + t_kstack 510) (load64 m (c + t_ustack) +64 8 * u64 (511 - offset)) in
  let m := store64 m (c + t_kstack 509) 0x200286 in
  let m := store64 m (c + t_kstack 508) 0x1b in
  let m := store64 m (c + t_kstack 507) (load64 m (phys tk + 8 * 506)) in
  let m := store64 m (c + t_kstack 506) 0 in
  let m := store64 m (c + t_kstack 491) (isr32 +64 29) in
  store64 m c (child +64 t_kstack 491).

(** The child's table and the two temporary pages; [fork_space] answers their
    addresses. *)
Definition fork_space (m : mem) (child parent ker_pml4_t : Z) : option (Z * Z * mem) :=
  let c := phys child in
  '(pml4a, m) ← kmalloc mf free_list m sizeof_page;
  let m := memset m (phys pml4a) 0 4096 in
  let m := store64 m (phys pml4a + 8 * 511) (load64 m (phys ker_pml4_t + 8 * 511)) in
  '(tk, m) ← kmalloc mf free_list m 1;
  let m := store64 m (c + t_pml4) pml4a in
  '(tu, m) ← kmalloc mf free_list m 1;
  let m := store64 m (c + t_cr3) (PADDR pml4a) in
  let m := store64 m (c + t_is_waiting) 0 in
  let m := store64 m (c + t_sleep_time) 0 in
  let m := store64 m (c + t_is_sleeping) 0 in
  m ← fork_copy 512 m tk tu (load64 m (c + t_pml4)) parent (load64 m (phys parent + t_cr3)) 0;
  '(ustack, m) ← kmalloc_stack mf free_list m 1 (load64 m (c + t_pml4));
  Some (tk, tu, store64 m (c + t_ustack) ustack).

(** Answers the child's pid, the next PID, the memory and the task list, with
    the parent's address space in CR3.  [parent] is the task of the running
    node. *)
Definition sys_fork `{NodeAlloc} (m : mem) (s : sched) (PID ker_pml4_t isr32 parent : Z)
    : option (Z * Z * mem * sched) :=
  '(child, m) ← kmalloc mf free_list m sizeof_task;
  m ← fork_task m child parent PID;
  s ← match add_to_task_list fuel child s with Ret (_, s) => Some s | _ => None end;
  '(tk, tu, m) ← fork_space m child parent ker_pml4_t;
  let c := phys child in
  let root := load64 m (c + t_cr3) in
  m ← fork_stacks 512 m tk tu child root 0;
  let m := fork_frame m child tk tu isr32 in
  m ← fork_areas fuel m child root (load64 m (phys (load64 m (phys parent + t_mm)) + 8));
  let s := with_cpu s (cpu_rsp s) (load64 m (phys parent + t_cr3)) in
  t ← task_view fuel m child;
  Some (load64 m (c + t_pid), i32 (PID + 1), m, with_tasks s (<[child := t]> (tasks s))).
End Fork.
