(* ===== verification/ForkProps.v ===== *)
(** * ForkProps: parent and child after sys_fork

    The child's top-level table is a copy of the parent's, so the two address
    spaces share every table below it. *)
From S2P Require Import Prelude Memory Utils PageSource Mem MemProps Paging Region PagingProps Elf Fork.

(** ** The copy *)

Section Copy.
Context (k u C R parent root : Z).
Definition p_field : Z := phys parent + t_pml4.
Hypothesis Hk : 0 <= k ∧ k + PAGE_SIZE <= 2 ^ 31.
Hypothesis Hu : 0 <= u ∧ u + PAGE_SIZE <= 2 ^ 31.
Hypothesis HC : 0 <= C ∧ C + PAGE_SIZE <= 2 ^ 31.
Hypothesis HR : 0 <= R ∧ R + PAGE_SIZE <= 2 ^ 31.

(** Away from the three pages that the copy writes. *)
Definition off_pages (a n : Z) : Prop := disj k PAGE_SIZE a n ∧ disj u PAGE_SIZE a n ∧ disj C PAGE_SIZE a n.

Hypothesis HkC : disj k PAGE_SIZE C PAGE_SIZE.
Hypothesis HuC : disj u PAGE_SIZE C PAGE_SIZE.
Hypothesis HoR : off_pages R PAGE_SIZE.
Hypothesis Hop : off_pages p_field 8.

(** A round stores one word in each of the three pages. *)
Lemma fork_copy_round n m j m' :
  fork_copy (S n) m (VADDR k) (VADDR u) (VADDR C) parent root j = Some m' → 0 <= j < 512 →
  load64 m p_field = VADDR R →
  ∃ m3, fork_copy n m3 (VADDR k) (VADDR u) (VADDR C) parent root (j + 1) = Some m' ∧
    (∀ a l, off_pages a l → agree_on m m3 a l) ∧
    (∀ i, 0 <= i < 512 → entry m3 C i = if decide (i = j) then entry m R j else entry m C i).
Proof.
  intros H Hj Hf. cbn [fork_copy] in H. fold p_field in H. rewrite !phys_VADDR in H by (unfold PAGE_SIZE in *; lia).
  destruct (vload 8 _ root _) as [w|]; [|done]. cbn [mbind option_bind] in H.
  set (m1 := store64 m (k + 8 * j) _) in H. set (m2 := store64 m1 (u + 8 * j) w) in H.
  assert (A2 : ∀ a l, disj k PAGE_SIZE a l → disj u PAGE_SIZE a l → agree_on m m2 a l).
  { intros a l D1 D2. unfold disj, PAGE_SIZE in *. eapply agree_on_trans; apply store_agree; lia. }
  destruct HoR as (D1 & D2 & D3), Hop as (F1 & F2 & F3).
  assert (Ef : load64 m2 p_field = VADDR R) by (rewrite <- Hf; apply load_agree, A2; done).
  rewrite Ef, phys_VADDR in H by (unfold PAGE_SIZE in *; lia).
  assert (ER : load64 m2 (R + 8 * j) = entry m R j).
  { apply load_agree. eapply agree_on_sub; [apply (A2 R PAGE_SIZE D1 D2)|unfold PAGE_SIZE; lia..]. }
  rewrite ER in H. eexists. split; [exact H|]. split.
  - intros a l (L1 & L2 & L3). eapply agree_on_trans; [by apply A2|]. apply store_agree. unfold disj, PAGE_SIZE in *. lia.
  - intros i Hi. case_decide as E.
    + subst i. rewrite entry_store_same. apply u64_small, entry_range.
    + unfold entry. rewrite load64_store64_ne by lia. apply load_agree.
      eapply agree_on_sub; [apply (A2 C PAGE_SIZE HkC HuC)|unfold PAGE_SIZE; lia..].
Qed.

Lemma fork_copy_entries n : ∀ m j m',
  fork_copy n m (VADDR k) (VADDR u) (VADDR C) parent root j = Some m' → 0 <= j → j + Z.of_nat n <= 512 →
  load64 m p_field = VADDR R → (∀ i, 0 <= i < j → entry m C i = entry m R i) →
  (∀ i, 0 <= i < j + Z.of_nat n → entry m' C i = entry m' R i) ∧ ∀ a l, off_pages a l → agree_on m m' a l.
Proof.
  induction n as [|n IH]; intros m j m' H Hj Hn Hf Hi.
  { cbn [fork_copy] in H. injection H as <-. split; [|intros; apply agree_on_refl]. intros i Hi'. apply Hi. lia. }
  destruct (fork_copy_round n m j m' H) as (m3 & H3 & Hag & He); [lia|done|].
  pose proof (Hag R PAGE_SIZE HoR) as HagR.
  assert (HeR : ∀ i, 0 <= i < 512 → entry m3 R i = entry m R i).
  { intros i Hi'. apply entry_agree. eapply agree_on_sub; [exact HagR|unfold PAGE_SIZE; lia..]. }
  destruct (IH m3 (j + 1) m' H3) as [I1 I2]; [lia|lia| | |].
  - rewrite <- Hf. apply load_agree, Hag, Hop.
  - intros i Hi'. rewrite He, HeR by lia. case_decide as E; [by subst i|]. apply Hi. lia.
  - split; [|intros a l Ho; eapply agree_on_trans; [by apply Hag|by apply I2]]. intros i Hi'. apply I1. lia.
Qed.
End Copy.

(** ** Regions of the child *)

Section Shared.
Context {P : PageSource} {L : PageSourceLaws P}.

(** Two roots with the same entry walk through the same tables. *)
Lemma translate_shared m C R va :
  hw_step m C (PAGE_PML4_INDEX va) = hw_step m R (PAGE_PML4_INDEX va) → translate m C va = translate m R va.
Proof. intros E. unfold translate. by rewrite E. Qed.

(** A byte lies in one page only. *)
Lemma in_two_pages p q b : p mod PAGE_SIZE = 0 → q mod PAGE_SIZE = 0 → p ≠ q → in_page p b → ¬ in_page q b.
Proof. intros Hp Hq Hne Hb Hb'. pose proof (pages_apart p q Hp Hq Hne). unfold disj, in_page in *. lia. Qed.

(** A page that is neither the allocator's, nor free, nor a table. *)
Record spare (g : ghost) (T : gmap (list Z) Z) (p : Z) : Prop := {
  sp_align : p mod PAGE_SIZE = 0;
  sp_range : 0 <= p ∧ p + PAGE_SIZE <= 2 ^ 31;
  sp_used : ¬ ps_free g p;
  sp_private : ∀ b, in_page p b → ¬ ps_private b;
  sp_table : ∀ π t, T !! π = Some t → t ≠ p;
}.

(** The copied root with the parent's other tables is an address space. *)
Lemma wf_copy_root g m m1 k u C R T :
  wf g m R T → spare g T k → spare g T u → spare g T C →
  (∀ i, 0 <= i < 512 → entry m1 C i = entry m R i) →
  (∀ a l, off_pages k u C a l → agree_on m m1 a l) → wf g m1 C (<[[] := C]> T).
Proof.
  intros Hwf Sk Su SC He Hag.
  assert (Het : ∀ π t i, T !! π = Some t → 0 <= i < 512 → entry m1 t i = entry m t i).
  { intros π t i Ht Hi. destruct (wf_page _ _ _ _ Hwf π t Ht) as (At & _).
    assert (Ho : off_pages k u C t PAGE_SIZE) by
      (split_and!; apply pages_apart; try apply Sk; try apply Su; try apply SC; try done; intros E; symmetry in E; revert E;
       [by eapply Sk|by eapply Su|by eapply SC]).
    apply entry_agree. eapply agree_on_sub; [exact (Hag _ _ Ho)|unfold PAGE_SIZE; lia..]. }
  constructor.
  - eapply ps_stable; [apply Hwf|]. intros b Hb. apply (Hag b 1); [|lia].
    assert (Hno : ∀ p, (∀ c, in_page p c → ¬ ps_private c) → disj p PAGE_SIZE b 1).
    { intros p Hp. unfold disj. destruct (decide (in_page p b)) as [Hin|Hout]; [by destruct (Hp b Hin)|].
      unfold in_page in Hout. lia. }
    split_and!; apply Hno; [apply Sk|apply Su|apply SC].
  - by rewrite lookup_insert_eq.
  - intros π t Ht. destruct (decide (π = [])) as [->|Hne].
    + rewrite lookup_insert_eq in Ht. injection Ht as <-. destruct SC as [S1 [S2 S3] S4 S5 _]. done.
    + rewrite lookup_insert_ne in Ht by done. by apply (wf_page _ _ _ _ Hwf π t).
  - intros π π' t Ht Ht'. destruct (decide (π = [])) as [->|Hne], (decide (π' = [])) as [->|Hne']; [done| | |].
    + rewrite lookup_insert_eq in Ht. rewrite lookup_insert_ne in Ht' by done. injection Ht as <-.
      by destruct (sp_table _ _ _ SC _ _ Ht').
    + rewrite lookup_insert_eq in Ht'. rewrite lookup_insert_ne in Ht by done. injection Ht' as <-.
      by destruct (sp_table _ _ _ SC _ _ Ht).
    + rewrite lookup_insert_ne in Ht, Ht' by done. by eapply Hwf.
  - intros π i Hs. rewrite lookup_insert_ne in Hs by (by destruct π).
    destruct (decide (π = [])) as [->|Hne]; [rewrite lookup_insert_eq; eauto|].
    rewrite lookup_insert_ne by done. by eapply wf_parent.
  - intros π t i Ht Hl Hi. rewrite (lookup_insert_ne _ [] (π ++ [i])) by (by destruct π).
    destruct (decide (π = [])) as [->|Hne].
    + rewrite lookup_insert_eq in Ht. injection Ht as <-. rewrite He by done. apply Hwf; [apply Hwf|done..].
    + rewrite lookup_insert_ne in Ht by done. erewrite Het by done. by apply Hwf.
  - intros π t i Ht Hi. destruct (decide (π = [])) as [->|Hne].
    + rewrite lookup_insert_eq in Ht. injection Ht as <-. rewrite He by done. eapply wf_small; [done|apply Hwf|done].
    + rewrite lookup_insert_ne in Ht by done. erewrite Het by done. by eapply wf_small.
Qed.

(** Distinct spare pages and tables do not overlap. *)
Lemma spare_disj g m R T p π t : wf g m R T → spare g T p → T !! π = Some t → disj p PAGE_SIZE t PAGE_SIZE.
Proof.
  intros Hwf Sp Ht. apply pages_apart; [apply Sp|by apply (wf_page _ _ _ _ Hwf π t)|].
  intros E. by apply (sp_table _ _ _ Sp π t).
Qed.

(** C12: after [sys_fork] copied the parent's top-level table, allocating an area
    for the child changes the parent's memory too: at every address that the
    parent had mapped, it sees the fresh, zeroed frame of the child in place of
    its own.  [R] is the parent's table, [C] the child's, [k] and [u] the
    temporary pages. *)
Theorem fork_region_remaps_parent k u C R parent root fuel m m1 g T va size a q :
  wf g m R T → spare g T k → spare g T u → spare g T C → k ≠ C → u ≠ C →
  off_pages k u C (p_field parent) 8 → load64 m (p_field parent) = VADDR R →
  fork_copy 512 m (VADDR k) (VADDR u) (VADDR C) parent root 0 = Some m1 →
  0 <= va → 0 <= size → va + size <= 2 ^ 48 - PAGE_SIZE →
  let start := va - va mod PAGE_SIZE in
  let end_ := va + size + (- (va + size)) mod PAGE_SIZE in
  let n := Z.to_nat ((end_ - start) / PAGE_SIZE) in
  (4 * n <= ps_avail g)%nat → (n < fuel)%nat →
  start <= a < end_ → translate m1 R a = Some q → ¬ ps_free g q →
  ∃ m' p, region_alloc fuel m1 (VADDR C) va size = Some m' ∧
    translate m' R a = Some p ∧ translate m' C a = Some p ∧ p ≠ q ∧ ∀ b, in_page p b → rd m' b = 0.
Proof.
  intros Hwf Sk Su SC HkC HuC Hop Hf Hcopy Hva Hsz Hend start end_ n Hav Hfu Ha Hq Hnq.
  pose proof (wf_root _ _ _ _ Hwf) as HRt. destruct (wf_page _ _ _ _ Hwf _ _ HRt) as (HR1 & HR2 & HR3 & HR4 & HR5).
  assert (HoR : off_pages k u C R PAGE_SIZE) by (split_and!; by eapply spare_disj).
  assert (DkC : disj k PAGE_SIZE C PAGE_SIZE) by (apply pages_apart; [apply Sk|apply SC|done]).
  assert (DuC : disj u PAGE_SIZE C PAGE_SIZE) by (apply pages_apart; [apply Su|apply SC|done]).
  destruct (fork_copy_entries k u C R parent root (sp_range _ _ _ Sk) (sp_range _ _ _ Su) (sp_range _ _ _ SC)
    (conj HR2 HR3) DkC DuC HoR Hop 512 m 0 m1 Hcopy) as [He Hag]; [lia|lia|exact Hf|intros; lia|]. clear Hcopy.
  assert (He0 : ∀ i, 0 <= i < 512 → entry m1 R i = entry m R i).
  { clear -Hag HoR. intros i Hi. apply entry_agree. eapply agree_on_sub; [exact (Hag _ _ HoR)|unfold PAGE_SIZE; lia..]. }
  assert (HwfC : wf g m1 C (<[[] := C]> T)).
  { apply (wf_copy_root g m m1 k u C R T); try done. intros i Hi. rewrite He by lia. by apply He0. }
  destruct (region_alloc_spec fuel g m1 C _ va size HwfC) as (g' & m' & T' & E & Rp); try done.
  fold start end_ in Rp. destruct (rp_new _ _ _ _ _ _ _ _ _ Rp a Ha) as (p & Ep & Hp & Hz).
  exists m', p. split_and!; [exact E| |exact Ep|intros ->; exact (Hnq Hp)|exact Hz]. rewrite <- Ep. symmetry. apply translate_shared.
  assert (Hi : 0 <= PAGE_PML4_INDEX a < 512) by apply PAGE_PML4_INDEX_range. set (i := PAGE_PML4_INDEX a) in *.
  assert (HRC : hw_step m' R i = hw_step m1 C i).
  { unfold hw_step. rewrite (entry_agree m1 m' R i); [by rewrite He by lia|]. intros b Hb.
    assert (Hin : in_page R b) by (clear -Hb Hi; unfold in_page, PAGE_SIZE; lia). apply Rp; [by apply HR5|..].
    - intros x Hx. destruct (ps_free_page _ _ _ (wf_inv _ _ _ _ Hwf) Hx) as (X1 & _).
      apply (in_two_pages R x b HR1 X1); [intros <-; exact (HR4 Hx)|exact Hin].
    - intros π t Ht. destruct (decide (π = [])) as [->|Hne].
      + rewrite lookup_insert_eq in Ht. injection Ht as <-.
        apply (in_two_pages R C b HR1 (sp_align _ _ _ SC)); [exact (sp_table _ _ _ SC _ _ HRt)|exact Hin].
      + rewrite lookup_insert_ne in Ht by done. destruct (wf_page _ _ _ _ Hwf _ _ Ht) as (T1 & _).
        apply (in_two_pages R t b HR1 T1); [|exact Hin]. intros <-. exact (Hne (wf_inj _ _ _ _ Hwf _ _ R Ht HRt)). }
  pose proof (rp_wf _ _ _ _ _ _ _ _ _ Rp) as Hwf'.
  rewrite HRC, (wf_hw_step _ _ _ _ [] C i HwfC), (wf_hw_step _ _ _ _ [] C i Hwf')
    by (done || apply HwfC || apply Hwf' || simpl; lia).
  destruct (<[[] := C]> T !! ([] ++ [i])) as [t|] eqn:Et; [eapply lookup_weaken; [exact Et|apply Rp]|].
  exfalso. unfold translate in Hq. fold i in Hq.
  assert (hw_step m1 R i = None) as E0 by
    (unfold hw_step; rewrite <- He by lia; fold (hw_step m1 C i); by rewrite (wf_hw_step _ _ _ _ [] C i HwfC) by (done || apply HwfC || simpl; lia)).
  by rewrite E0 in Hq.
Qed.
End Shared.

(** ** A parent with one mapped page

    On the machine of [MemProps.boot_mem]: tables at 0x200000 to 0x203000 map
    0x400000 to the frame 0x207000, which is also the parent's stack; the
    parent's structure is at 0x210000. *)

Definition demo_parent : mem :=
  foldl (λ m w, store64 m w.1 w.2) boot_mem
    [(0x200000, 0x201007); (0x201000, 0x202007); (0x202010, 0x203007); (0x203000, 0x207007);
     (0x210000 + t_pml4, VADDR 0x200000); (0x210000 + t_ustack, 0x400000)].
Definition demo_tables : gmap (list Z) Z :=
  <[[] := 0x200000]> (<[[0] := 0x201000]> (<[[0; 0] := 0x202000]> (<[[0; 0; 2] := 0x203000]> ∅))).
(** The only entry of each table. *)
Definition demo_entry (t i : Z) : Z :=
  if (t =? 0x200000) && (i =? 0) then 0x201007 else if (t =? 0x201000) && (i =? 0) then 0x202007
  else if (t =? 0x202000) && (i =? 2) then 0x203007 else if (t =? 0x203000) && (i =? 0) then 0x207007 else 0.

(** Memory in which the tables have these entries. *)
Definition demo_entries (m : mem) : bool :=
  forallb (λ t, forallb (λ i, entry m t i =? demo_entry t i) (seqZ 0 512)) [0x200000; 0x201000; 0x202000; 0x203000].

Lemma demo_entries_at m t i : demo_entries m = true →
  t ∈ [0x200000; 0x201000; 0x202000; 0x203000] → 0 <= i < 512 → entry m t i = demo_entry t i.
Proof.
  unfold demo_entries. intros Hall Ht Hi. rewrite forallb_forall in Hall. specialize (Hall t (proj1 (list_elem_of_In _ _) Ht)).
  rewrite forallb_forall in Hall. apply Z.eqb_eq, Hall, list_elem_of_In, elem_of_seqZ. lia.
Qed.

Lemma demo_tables_cases π t : demo_tables !! π = Some t →
  (π = [] ∧ t = 0x200000) ∨ (π = [0] ∧ t = 0x201000) ∨ (π = [0; 0] ∧ t = 0x202000) ∨ (π = [0; 0; 2] ∧ t = 0x203000).
Proof.
  unfold demo_tables. rewrite !lookup_insert_Some, lookup_empty. intros H.
  repeat (destruct H as [[<- <-]|[_ H]]; [tauto|]). done.
Qed.

Lemma demo_wf_of l m : pool m 4096 l → length l = 341%nat → demo_entries m = true → wf (L := boot_laws) l m 0x200000 demo_tables.
Proof.
  intros Hpool Hlen Hent.
  assert (Hin : ∀ π t, demo_tables !! π = Some t → t ∈ [0x200000; 0x201000; 0x202000; 0x203000]).
  { intros π t H. apply demo_tables_cases in H as [[_ ->]|[[_ ->]|[[_ ->]|[_ ->]]]]; repeat constructor. }
  constructor.
  - by split.
  - reflexivity.
  - intros π t H. apply Hin in H. split_and!.
    1-3: apply list_elem_of_In in H; repeat (destruct H as [<-|H]; [vm_compute; reflexivity || discriminate|]); done.
    + intros (i & q & -> & Hi & _). apply lookup_lt_Some in Hi. rewrite Hlen in Hi.
      apply list_elem_of_In in H. unfold PAGE_SIZE in H. simpl in H. lia.
    + intros b Hb. cbn. unfold pool_private, sizeof_page, in_page, PAGE_SIZE in *.
      apply list_elem_of_In in H. simpl in H. lia.
  - intros π π' t H H'. apply demo_tables_cases in H, H'. intuition (subst; congruence).
  - intros π i [t H]. apply demo_tables_cases in H as [[H _]|[[H _]|[[H _]|[H _]]]].
    + by destruct π.
    + destruct π as [|x [|y π]]; simplify_eq/=; eauto.
    + destruct π as [|x [|y [|z π]]]; simplify_eq/=; eauto.
    + destruct π as [|x [|y [|z [|w π]]]]; simplify_eq/=; eauto.
  - intros π t i H Hl Hi. rewrite demo_entries_at by eauto. unfold demo_entry, demo_tables.
    apply demo_tables_cases in H as [[-> ->]|[[-> ->]|[[-> ->]|[-> ->]]]]; cbn [app]; try (simpl in Hl; lia).
    + destruct (decide (i = 0)) as [->|Hne]; [reflexivity|]. rewrite !lookup_insert_ne by congruence.
      rewrite lookup_empty. by rewrite (proj2 (Z.eqb_neq i 0) Hne).
    + destruct (decide (i = 0)) as [->|Hne]; [reflexivity|]. rewrite !lookup_insert_ne by congruence.
      rewrite lookup_empty. by rewrite (proj2 (Z.eqb_neq i 0) Hne).
    + destruct (decide (i = 2)) as [->|Hne]; [reflexivity|]. rewrite !lookup_insert_ne by congruence.
      rewrite lookup_empty. by rewrite (proj2 (Z.eqb_neq i 2) Hne).
  - intros π t i H Hi. rewrite demo_entries_at by eauto. unfold demo_entry. repeat case_match; lia.
Qed.

Lemma demo_wf : wf (L := boot_laws) boot_pages demo_parent 0x200000 demo_tables.
Proof.
  apply demo_wf_of; [|exact length_boot_pages|vm_compute; reflexivity].
  eapply (ps_stable (PageSourceLaws := boot_laws) boot_pages); [exact boot_inv|]. intros b Hb. cbn in Hb. unfold pool_private, sizeof_page in Hb.
  unfold demo_parent. generalize boot_mem. intros m0. cbn [foldl fst snd]. unfold store64.
  repeat (etrans; [apply (store_agree 8 _ _ _ b 1); unfold t_pml4, t_ustack; lia|]). done.
Qed.

Definition demo_forked : mem :=
  default ∅ (fork_copy 512 demo_parent (VADDR 0x204000) (VADDR 0x205000) (VADDR 0x206000) (VADDR 0x210000) 0x200000 0).

Lemma demo_forked_eq :
  fork_copy 512 demo_parent (VADDR 0x204000) (VADDR 0x205000) (VADDR 0x206000) (VADDR 0x210000) 0x200000 0 = Some demo_forked.
Proof.
  unfold demo_forked.
  assert (H : match fork_copy 512 demo_parent (VADDR 0x204000) (VADDR 0x205000) (VADDR 0x206000) (VADDR 0x210000) 0x200000 0
              with Some _ => true | None => false end = true) by (vm_compute; reflexivity).
  destruct (fork_copy _ _ _ _ _ _ _ _); [reflexivity|discriminate].
Qed.

Lemma demo_spare p : p ∈ [0x204000; 0x205000; 0x206000] → spare (L := boot_laws) boot_pages demo_tables p.
Proof.
  intros H. apply list_elem_of_In in H. simpl in H. constructor.
  - repeat (destruct H as [<-|H]; [reflexivity|]). done.
  - unfold PAGE_SIZE. lia.
  - intros (i & q & -> & Hi & _). apply lookup_lt_Some in Hi. rewrite length_boot_pages in Hi. unfold PAGE_SIZE in H. lia.
  - intros b Hb. cbn. unfold pool_private, sizeof_page, in_page, PAGE_SIZE in *. lia.
  - intros π t Ht. apply demo_tables_cases in Ht. lia.
Qed.

Lemma fork_region_remaps_parent_witness :
  translate demo_forked 0x200000 0x400000 = Some 0x207000 ∧
  ∃ m' p, region_alloc (P := boot_source) 3 demo_forked (VADDR 0x206000) 0x400000 100 = Some m' ∧
    translate m' 0x200000 0x400000 = Some p ∧ p ≠ 0x207000.
Proof.
  assert (Hq : translate demo_forked 0x200000 0x400000 = Some 0x207000) by (vm_compute; reflexivity).
  split; [exact Hq|].
  destruct (fork_region_remaps_parent (L := boot_laws) 0x204000 0x205000 0x206000 0x200000 (VADDR 0x210000) 0x200000 3
    demo_parent demo_forked boot_pages demo_tables 0x400000 100 0x400000 0x207000) as (m' & p & E & H1 & _ & H2 & _).
  - exact demo_wf.
  - apply demo_spare. repeat constructor.
  - apply demo_spare. repeat constructor.
  - apply demo_spare. repeat constructor.
  - discriminate.
  - discriminate.
  - assert (Ef : p_field (VADDR 0x210000) = 0x210000 + 32920) by (vm_compute; reflexivity).
    rewrite Ef. unfold off_pages, disj, PAGE_SIZE. lia.
  - vm_compute. reflexivity.
  - exact demo_forked_eq.
  - lia.
  - lia.
  - vm_compute. discriminate.
  - rewrite boot_avail. vm_compute. lia.
  - vm_compute. lia.
  - vm_compute. split; [discriminate|reflexivity].
  - exact Hq.
  - intros (i & q & E & Hi & _). apply lookup_lt_Some in Hi. rewrite length_boot_pages in Hi. unfold PAGE_SIZE in E. lia.
  - exists m', p. split; [exact E|]. split; [exact H1|exact H2].
Defined.
