(* ===== verification/Launch.v ===== *)
(** * Launch: how a task starts to run

    [switch_to] loads the stack pointer of a task and returns; on the stack of a
    task that never ran it finds the words that [elf_run_bin], [sys_fork] or
    [start] put there, and the tail of [isr32] takes them into the registers. *)
From S2P Require Import Prelude Memory Utils PageSource Mem Paging Region Console Tarfs Elf Process Fork Interrupts Stubs StubsProps.

(** The position of [&isr32+29] is the first [popq] after the call. *)
Lemma resume_at : at_offset isr32_code resume_point = Some ((Popq <$> restored) ++ [Sti; Iretq]).
Proof. reflexivity. Qed.

(** The words of a prepared stack: the return address of [switch_to], the
    registers in the order of the pops, the frame. *)
Definition prepared (isr32 : Z) (g : reg → Z) (fr : list Z) : list Z :=
  (isr32 +64 resume_point) :: (g <$> restored) ++ fr.

Lemma resume_prepared code C isr32 sp c g ip cs fl usp ss :
  placed code isr32 isr32_code → KERNEL_VADDR <= sp → sp + 168 < 2 ^ 64 →
  stack_holds (m_mem c) sp (prepared isr32 g [ip; cs; fl; usp; ss]) →
  ∃ c', steps code C (switch_return sp c) c' ∧ (∀ r, gpr c' r = g r) ∧ m_rip c' = ip ∧ m_cs c' = u16 cs ∧
    m_rflags c' = fl ∧ m_rsp c' = usp ∧ m_ss c' = u16 ss ∧ m_mem c' = m_mem c.
Proof.
  intros Hcode Hk Hr [H0 Hws]. set (c0 := switch_return sp c).
  assert (R0 : m_rsp c0 = sp + 8) by (cbn; apply u64_small; unfold KERNEL_VADDR in Hk; lia).
  assert (A0 : at_code isr32 isr32_code c0 ((Popq <$> restored) ++ [Sti; Iretq])).
  { exists resume_point. split; [exact H0|exact resume_at]. }
  destruct (run_pops code C _ _ Hcode restored c0 _ (g <$> restored) [ip; cs; fl; usp; ss] A0) as (c2 & S2 & A2 & _ & M2 & G2 & R2 & W2);
    [done|lia|cbn [restored length]; lia|rewrite R0; exact Hws|]. cbn [restored length] in R2.
  destruct (run_flag code C _ _ Hcode c2 Sti _ _ A2 eq_refl eq_refl) as [S3 A3]. set (c3 := set_rflags _ _) in S3, A3.
  destruct (run_iretq code C _ _ Hcode c3 [] ip cs fl usp ss A3) as (c' & S' & P1 & P2 & P3 & P4 & P5 & P6 & P7 & _);
    [cbn; lia|cbn; lia|cbn; rewrite M2; exact W2|].
  exists c'. split; [eapply rtc_trans; [exact S2|]; by eapply rtc_trans|]. split.
  { intros r. rewrite P6. cbn. rewrite G2, popped_back. by rewrite decide_True by (apply list_elem_of_In; destruct r; simpl; tauto). }
  split_and!; try done. rewrite P7. exact M2.
Qed.

(** ** Words of a kernel stack *)

(** [pcb] is a task structure in the window of physical memory. *)
Definition pcb_at (pcb P : Z) : Prop := pcb = VADDR P ∧ 0 <= P ∧ P + sizeof_task <= 2 ^ 31.

Lemma task_addr pcb P : pcb_at pcb P → phys pcb = P ∧ pcb = KERNEL_VADDR + P.
Proof.
  intros (-> & H1 & H2). unfold sizeof_task in H2. split; [apply phys_VADDR; lia|].
  unfold VADDR, KERNEL_VADDR. apply u64_small. lia.
Qed.

Lemma stack_holds_index m ws : ∀ a, (∀ i w, ws !! i = Some w → word m (a + 8 * Z.of_nat i) = w) → stack_holds m a ws.
Proof.
  induction ws as [|x ws IH]; intros a H; [done|]. split.
  - rewrite <- (H 0%nat x eq_refl). f_equal. lia.
  - apply IH. intros i w Hi. rewrite <- (H (S i) w Hi). f_equal. lia.
Qed.

(** The stack of a task from entry [q] on. *)
Lemma kstack_holds m pcb P q ws :
  pcb_at pcb P → 0 <= q → (∀ i w, ws !! i = Some w → load64 m (P + t_kstack (q + Z.of_nat i)) = w) →
  stack_holds m (pcb + t_kstack q) ws.
Proof.
  intros Ht Hq H. destruct (task_addr _ _ Ht) as [_ E]. apply stack_holds_index. intros i w Hi.
  rewrite <- (H i w Hi). unfold word. rewrite phys_kernel by (unfold t_kstack; destruct Ht as (_ & ? & _); lia).
  f_equal. unfold t_kstack. lia.
Qed.

(** [switch_to] a task that has not run: [k] gives the words of its stack. *)
Lemma launch code C isr32 pcb P m c g ip cs fl usp ss :
  placed code isr32 isr32_code → pcb_at pcb P → m_mem c = m → load64 m P = pcb +64 t_kstack 491 →
  load64 m (P + t_kstack 491) = isr32 +64 resume_point →
  (∀ i r, restored !! i = Some r → load64 m (P + t_kstack (492 + Z.of_nat i)) = g r) →
  load64 m (P + t_kstack 507) = ip → load64 m (P + t_kstack 508) = cs → load64 m (P + t_kstack 509) = fl →
  load64 m (P + t_kstack 510) = usp → load64 m (P + t_kstack 511) = ss →
  ∃ c', steps code C (switch_return (load64 m P) c) c' ∧ (∀ r, gpr c' r = g r) ∧ m_rip c' = ip ∧ m_cs c' = u16 cs ∧
    m_rflags c' = fl ∧ m_rsp c' = usp ∧ m_ss c' = u16 ss ∧ m_mem c' = m.
Proof.
  intros Hcode Ht <- Hsp H0 Hg H1 H2 H3 H4 H5. destruct (task_addr _ _ Ht) as [_ E].
  assert (Hb : 0 <= P ∧ P + sizeof_task <= 2 ^ 31) by apply Ht. unfold sizeof_task in Hb.
  assert (Esp : load64 (m_mem c) P = pcb + t_kstack 491).
  { rewrite Hsp. apply u64_small. unfold t_kstack, KERNEL_VADDR in *. lia. }
  rewrite Esp. apply (resume_prepared _ _ isr32); [done|unfold t_kstack; lia|unfold t_kstack, KERNEL_VADDR in *; lia|].
  split; [apply (kstack_holds _ pcb P 491 [_] Ht); [lia|]; intros [|i] w [= <-]; by rewrite Z.add_0_r|].
  rewrite stack_holds_app. cbn [restored fmap list_fmap length]. change (g R15 :: _) with (g <$> restored). split.
  - replace (pcb + t_kstack 491 + 8) with (pcb + t_kstack 492) by (unfold t_kstack; lia).
    apply (kstack_holds _ pcb P); [done|lia|]. intros i w Hi. rewrite list_lookup_fmap in Hi.
    destruct (restored !! i) as [r|] eqn:Er; [|done]. injection Hi as <-. by apply Hg.
  - replace (pcb + t_kstack 491 + 8 + 8 * Z.of_nat 15) with (pcb + t_kstack 507) by (unfold t_kstack; lia).
    apply (kstack_holds _ pcb P); [done|lia|]. intros i w Hi.
    destruct i as [|[|[|[|[|i]]]]]; [injection Hi as <-; done..|done].
Qed.

(** ** A new program *)

Lemma place_restored i r : restored !! i = Some r → Z.of_nat i = 14 - place r.
Proof.
  intros H. assert (i < 15)%nat by (apply lookup_lt_Some in H; exact H).
  do 15 (destruct i as [|i]; [injection H as <-; reflexivity|]). lia.
Qed.

Lemma push_args_agree n : ∀ m a argv i b k,
  0 <= i → i + Z.of_nat n <= 506 → b + k <= a + t_kstack 0 ∨ a + t_kstack 506 <= b →
  agree_on m (push_args n m a argv i) b k.
Proof.
  induction n as [|n IH]; intros m a argv i b k Hi Hn Hb; cbn [push_args]; [apply agree_on_refl|].
  eapply agree_on_trans; [|apply IH; lia]. apply store_agree. unfold t_kstack in *. lia.
Qed.

Lemma push_args_word n : ∀ m a argv i q,
  0 <= i → i + Z.of_nat n <= 506 → 0 <= q < 506 → disj (a + t_kstack 0) (8 * 506) (phys argv) (8 * (i + Z.of_nat n)) →
  load64 (push_args n m a argv i) (a + t_kstack q) =
  if decide (i <= 505 - q < i + Z.of_nat n) then load64 m (phys argv + 8 * (505 - q)) else load64 m (a + t_kstack q).
Proof.
  induction n as [|n IH]; intros m a argv i q Hi Hn Hq Hd; cbn [push_args]; [case_decide; [lia|done]|].
  rewrite IH by (lia || (unfold disj in *; lia)). unfold disj, t_kstack in *.
  destruct (decide (i + 1 <= 505 - q < i + 1 + Z.of_nat n)).
  - rewrite decide_True by lia. apply load64_store64_ne. lia.
  - destruct (decide (505 - q = i)) as [Ei|Hne].
    + rewrite decide_True by lia. replace (505 - i) with q by lia. rewrite load64_store64_eq, Ei.
      apply u64_small, load64_range.
    + rewrite decide_False by lia. apply load64_store64_ne. lia.
Qed.

Lemma push_regs_agree n : ∀ m a argc i j b k,
  0 <= argc → 0 <= i → argc + i + Z.of_nat n <= 507 → b + k <= a + t_kstack 0 ∨ a + t_kstack 507 <= b →
  agree_on m (push_regs n m a argc i j) b k.
Proof.
  induction n as [|n IH]; intros m a argc i j b k Hc Hi Hn Hb; cbn [push_regs]; [apply agree_on_refl|].
  eapply agree_on_trans; [|apply IH; lia]. apply store_agree. unfold t_kstack in *. lia.
Qed.

Lemma push_regs_word n : ∀ m a argc i j q,
  load64 (push_regs n m a argc i j) (a + t_kstack q) =
  if decide (i <= 506 - argc - q < i + Z.of_nat n) then u64 (j + 1 + (506 - argc - q - i)) else load64 m (a + t_kstack q).
Proof.
  induction n as [|n IH]; intros m a argc i j q; cbn [push_regs]; [case_decide; [lia|done]|].
  rewrite IH. unfold t_kstack in *.
  destruct (decide (i + 1 <= 506 - argc - q < i + 1 + Z.of_nat n)).
  - rewrite decide_True by lia. f_equal. lia.
  - destruct (decide (506 - argc - q = i)) as [Ei|Hne].
    + rewrite decide_True by lia. replace (506 - argc - i) with q by lia. rewrite load64_store64_eq.
      unfold u64. rewrite Zmod_mod. f_equal. lia.
    + rewrite decide_False by lia. apply load64_store64_ne. lia.
Qed.

(** The registers of a new program: argc in rax, the arguments in the next
    ones, then counting up. *)
Definition start_reg (m : mem) (argc argv : Z) (r : reg) : Z :=
  let k := place r in
  if k =? 0 then argc else if k <=? argc then load64 m (phys argv + 8 * (k - 1)) else k + 1.

(** What [init_kstack] leaves on the stack. *)
Record stack_ready (m : mem) (P pcb isr32 usp : Z) (g : reg → Z) : Prop := {
  sr_rsp : load64 m P = pcb +64 t_kstack 491;
  sr_ret : load64 m (P + t_kstack 491) = isr32 +64 29;
  sr_regs : ∀ r, load64 m (P + t_kstack (506 - place r)) = g r;
  sr_cs : load64 m (P + t_kstack 508) = 0x1b;
  sr_fl : load64 m (P + t_kstack 509) = 0x200286;
  sr_sp : load64 m (P + t_kstack 510) = usp;
  sr_ss : load64 m (P + t_kstack 511) = 0x23;
}.

(** Loads of one word below a chain of stores to others. *)
Ltac kstack_loads :=
  repeat first [rewrite load64_store64_eq | rewrite load64_store64_ne by (unfold t_kstack, t_ustack; lia)].

Lemma init_kstack_ready m pcb P isr32 argc argv :
  pcb_at pcb P → 0 <= argc <= 14 → (0 < argc → disj (P + t_kstack 0) (8 * 512) (phys argv) (8 * argc)) →
  stack_ready (init_kstack m pcb isr32 argc argv) P pcb isr32 (load64 m (P + t_ustack) +64 8 * 511) (start_reg m argc argv) ∧
  ∀ b k, b + k <= P ∨ P + t_kstack 512 <= b → agree_on m (init_kstack m pcb isr32 argc argv) b k.
Proof.
  intros Ht Hc Hd. destruct (task_addr _ _ Ht) as [Ep _]. unfold init_kstack. rewrite Ep.
  set (m1 := store64 m (P + t_kstack 506) (u64 argc)). set (m2 := push_args (Z.to_nat argc) m1 P argv 0).
  set (m3 := push_regs 14 m2 P argc 1 (argc + 1)).
  assert (A3 : ∀ b k, b + k <= P + t_kstack 0 ∨ P + t_kstack 507 <= b → agree_on m m3 b k).
  { intros b k Hb. apply (agree_on_trans _ m1); [apply store_agree; unfold t_kstack in *; lia|].
    apply (agree_on_trans _ m2); [apply push_args_agree; unfold t_kstack in *; lia|]. apply push_regs_agree; unfold t_kstack in *; lia. }
  assert (W3 : ∀ r, load64 m3 (P + t_kstack (506 - place r)) = start_reg m argc argv r).
  { intros r. pose proof (place_range r). unfold m3, start_reg. rewrite push_regs_word.
    destruct (decide (1 <= 506 - argc - (506 - place r) < 1 + Z.of_nat 14)) as [H1|H1].
    - rewrite (proj2 (Z.eqb_neq (place r) 0)), (proj2 (Z.leb_gt (place r) argc)) by lia. rewrite u64_small by lia. lia.
    - unfold m2. destruct (Z.eqb_spec (place r) 0) as [E0|E0].
      + rewrite E0, Z.sub_0_r. transitivity (load64 m1 (P + t_kstack 506)).
        { apply load_agree, push_args_agree; unfold t_kstack; lia. }
        unfold m1. rewrite load64_store64_eq. rewrite !u64_small; [done|lia|rewrite u64_small; lia].
      + rewrite (proj2 (Z.leb_le (place r) argc)) by lia. specialize (Hd ltac:(lia)). unfold disj, t_kstack in Hd.
        rewrite push_args_word by (lia || (unfold disj, t_kstack; lia)). rewrite decide_True by lia.
        replace (505 - (506 - place r)) with (place r - 1) by lia. apply load64_store64_ne. unfold t_kstack. lia. }
  split.
  - assert (Eu : load64 m3 (P + t_ustack) = load64 m (P + t_ustack)) by (apply load_agree, A3; unfold t_ustack, t_kstack; lia).
    constructor; kstack_loads; try done; try (apply u64_small, u64_range).
    + intros r. pose proof (place_range r). kstack_loads. apply W3.
    + rewrite (u64_small _ (u64_range _)). by rewrite Eu.
  - intros b k Hb. unfold store64. do 6 (eapply agree_on_trans; [|apply store_agree; unfold t_kstack in *; lia]).
    apply A3. unfold t_kstack in *. lia.
Qed.

(** A stack that is ready starts the task in user mode. *)
Lemma launch_ready code C isr32 pcb P m c g usp :
  placed code isr32 isr32_code → pcb_at pcb P → stack_ready m P pcb isr32 usp g → m_mem c = m →
  ∃ c', steps code C (switch_return (load64 m P) c) c' ∧ (∀ r, gpr c' r = g r) ∧
    m_rip c' = load64 m (P + t_kstack 507) ∧ m_cs c' = 0x1b ∧ m_ss c' = 0x23 ∧ m_rflags c' = 0x200286 ∧ m_rsp c' = usp ∧
    m_mem c' = m.
Proof.
  intros Hcode Ht [H1 H2 H3 H4 H5 H6 H7] Hm.
  edestruct (launch code C isr32 pcb P m c g) as (c' & S & G & E1 & E2 & E3 & E4 & E5 & E6);
    [exact Hcode|exact Ht|exact Hm|exact H1|exact H2| |reflexivity|exact H4|exact H5|exact H6|exact H7|exists c'; by split_and!].
  intros i r Hr. rewrite <- H3. f_equal. unfold t_kstack. rewrite (place_restored _ _ Hr). lia.
Qed.

Lemma stack_ready_agree m m' P pcb isr32 usp g :
  (∀ b, P <= b < P + t_kstack 512 → ¬ P + t_kstack 507 <= b < P + t_kstack 508 → rd m' b = rd m b) →
  stack_ready m P pcb isr32 usp g → stack_ready m' P pcb isr32 usp g.
Proof.
  intros Hag [H1 H2 H3 H4 H5 H6 H7].
  assert (E : ∀ q, 0 <= q < 512 → q ≠ 507 → load64 m' (P + t_kstack q) = load64 m (P + t_kstack q)).
  { intros q Hq Hne. apply load_agree. intros b Hb. apply Hag; unfold t_kstack in *; lia. }
  constructor; try (rewrite E by lia; done).
  - rewrite <- H1. apply load_agree. intros b Hb. apply Hag; unfold t_kstack in *; lia.
  - intros r. pose proof (place_range r). rewrite E by lia. apply H3.
Qed.
