(* ===== verification/Program.v ===== *)
(** * Program: from the file to user mode

    [elf_run_bin] from its first allocation to its last store, and the first
    switch to the task it made: the allocator, the page tables, the loader and
    the entry code together.  The stages share one frame, [kept]: the bytes that
    belong to neither the allocator nor a table nor a free page. *)
From S2P Require Import Prelude Memory Utils Strings PageSource Mem MemProps Paging Region PagingProps Console Tarfs Elf ElfProps.
From S2P Require Import Process Fork Interrupts Stubs StubsProps Launch.

(** ** The task structure *)

(** Nine pages hold the structure and, behind it, its [struct mm_struct]. *)
Definition block_size_ : Z := 9 * PAGE_SIZE.

Lemma npages_task : npages sizeof_task = 9%nat.
Proof. reflexivity. Qed.

Ltac task_fields :=
  unfold t_kstack, t_ustack, t_pid, t_ppid, t_cr3, t_tname, t_mm, t_pml4, t_entry, t_is_waiting, t_sleep_time, t_is_sleeping,
    sizeof_task, block_size_, PAGE_SIZE in *.
(** Loads and reads below stores to other places. *)
Ltac task_loads :=
  repeat first [rewrite load64_store64_eq | rewrite load64_store64_ne by lia | rewrite load64_memset_ne by lia
    | rewrite load64_store_ne by lia | rewrite rd_store64_ne by lia | rewrite rd_memset_ne by lia | rewrite rd_store_ne by lia].

(** The fields of a new task structure at [P] with its tables at [R]. *)
Record task_fields_at (m : mem) (P R PID parent : Z) (name : list Z) : Prop := {
  tf_pid : load64 m (P + t_pid) = u64 PID;
  tf_ppid : load64 m (P + t_ppid) = u64 parent;
  tf_cr3 : load64 m (P + t_cr3) = R;
  tf_pml4 : load64 m (P + t_pml4) = VADDR R;
  tf_mm : load64 m (P + t_mm) = VADDR (P + sizeof_task);
  tf_name : cstr m (P + t_tname) name;
}.

Lemma init_pcb_spec fuel m P R PID parent F name K :
  0 <= P → P + block_size_ <= 2 ^ 31 → 0 <= R → R + PAGE_SIZE <= 2 ^ 31 → disj P block_size_ R PAGE_SIZE →
  disj P block_size_ (phys F) (Z.of_nat (length name) + 1) → disj R PAGE_SIZE (phys F) (Z.of_nat (length name) + 1) →
  0 <= K → K + PAGE_SIZE <= 2 ^ 31 → disj P block_size_ K PAGE_SIZE → disj R PAGE_SIZE K PAGE_SIZE →
  cstr m (phys F) name → (length name < fuel)%nat → (length name < 104)%nat → (∀ b, P <= b < P + block_size_ → rd m b = 0) →
  ∃ m', init_pcb fuel m (VADDR P) (VADDR R) PID parent F (VADDR K) = Some m' ∧ task_fields_at m' P R PID parent name ∧
    load64 m' (P + sizeof_task + 8) = 0 ∧
    (∀ i, 0 <= i < 512 → entry m' R i = if i =? 511 then entry m K 511 else 0) ∧
    ∀ b, ¬ P <= b < P + block_size_ → ¬ R <= b < R + PAGE_SIZE → rd m' b = rd m b.
Proof.
  intros HP1 HP2 HR1 HR2 D1 D2 D3 HK1 HK2 D4 D5 Hs Hfu Hl Hz. unfold disj in *.
  assert (Emm : VADDR P +64 sizeof_task = VADDR (P + sizeof_task)).
  { unfold VADDR, KERNEL_VADDR, u64. task_fields. lia. }
  unfold init_pcb. rewrite Emm. rewrite !phys_VADDR by (task_fields; lia).
  set (m1 := store64 (store64 (store64 (store 4 (store64 m _ _) _ _) _ _) _ _) _ _).
  assert (A1 : ∀ b, ¬ P + t_pid <= b < P + t_tname → ¬ P + t_mm <= b < P + t_pml4 → ¬ P + sizeof_task <= b < P + sizeof_task + 16 → rd m1 b = rd m b).
  { intros b H1 H2 H3. unfold m1. task_fields. by task_loads. }
  assert (Hs1 : cstr m1 (phys F) name).
  { eapply cstr_agree; [exact Hs|]. intros b Hb. apply A1; task_fields; lia. }
  rewrite (str_len_spec fuel m1 (phys F) name Hs1 Hfu). cbn [mbind option_bind].
  set (m2 := memcpy m1 _ _ _).
  assert (R2 : ∀ b, rd m2 b = if decide (P + t_tname <= b < P + t_tname + Z.of_nat (length name))
    then rd m1 (phys F + (b - (P + t_tname))) else rd m1 b).
  { intros b. apply memcpy_rd. task_fields. lia. }
  assert (L2 : ∀ a, a + 8 <= P + t_tname ∨ P + t_mm <= a → load64 m2 a = load64 m1 a).
  { intros a Ha. apply load_agree. intros b Hb. rewrite R2. rewrite decide_False by (task_fields; lia). done. }
  eexists. split; [reflexivity|]. rewrite PADDR_VADDR by (task_fields; lia). split; [|split; [|split]].
  - constructor; try (task_fields; task_loads).
    + rewrite L2 by lia. unfold m1. task_fields. task_loads. apply u64_small, u64_range.
    + rewrite L2 by lia. unfold m1. task_fields. by task_loads.
    + apply u64_small. lia.
    + apply u64_small, u64_range.
    + rewrite L2 by lia. unfold m1. task_fields. task_loads. apply u64_small, u64_range.
    + apply cstr_intro.
      * intros i c Hi. pose proof (lookup_lt_Some _ _ _ Hi). task_loads. rewrite R2. rewrite decide_True by lia.
        replace (phys F + _) with (phys F + Z.of_nat i) by lia. by eapply cstr_rd.
      * task_loads. rewrite R2. rewrite decide_False by lia. rewrite A1 by lia. apply Hz. lia.
  - task_fields. task_loads. rewrite L2 by lia. unfold m1. task_fields. by task_loads.
  - intros i Hi. unfold entry. task_fields. task_loads. destruct (Z.eqb_spec i 511) as [->|Hne].
    + task_loads. rewrite u64_small by apply load64_range. rewrite L2 by lia. apply load_agree. intros b Hb. apply A1; task_fields; lia.
    + task_loads. apply (load_memset_zero 8); lia.
  - intros b H1 H2. task_fields. task_loads. rewrite R2. rewrite decide_False by lia. apply A1; lia.
Qed.

Section Program.
Context (fuel mf : nat) (fl : Z) (N : nat).
#[local] Instance program_source : PageSource := mem_page_source mf fl.
#[local] Instance program_laws : PageSourceLaws program_source := mem_page_source_laws mf fl N.

Abbreviation settled := (ElfProps.settled mf fl N).
Abbreviation kept := (ElfProps.kept mf fl N).

(** ** Blocks of several pages *)

(** The pages of a first fit are free, and so are no table and no array. *)
Lemma fit_free g n i k :
  runs_ok g → first_fit g (Z.of_nat n) i → (i + n <= length g)%nat → (k < n)%nat →
  pool_free g (PAGE_SIZE * Z.of_nat (i + k)).
Proof.
  intros Hr [(p & Hp & [Hf Hb]%fits_true) _] Hl Hk.
  destruct (runs_ok_run g i p k Hr Hp Hf) as (q & Hq & Hqf & _); [lia|lia|]. by exists (i + k)%nat, q.
Qed.

Lemma in_block_page i n b : in_block i n b → ∃ k, (k < n)%nat ∧ in_page (PAGE_SIZE * Z.of_nat (i + k)) b.
Proof.
  unfold in_block, in_page, PAGE_SIZE. intros Hb. exists (Z.to_nat (b / 4096 - Z.of_nat i)). lia.
Qed.

(** A byte of a free page that is taken becomes settled. *)
Lemma free_settled g m root T g' q b :
  wf g m root T → pool_free g q → in_page q b → (∀ p, pool_free g' p → p ≠ q ∧ pool_free g p) → settled g' T b.
Proof.
  intros Hwf Hq Hb Hg. destruct (ps_free_page _ _ _ (wf_inv _ _ _ _ Hwf) Hq) as (F1 & F2 & F3 & F4). split; [split|].
  - by apply F4.
  - intros π t Ht. destruct (wf_page _ _ _ _ Hwf _ _ Ht) as (S1 & S2 & S3 & S4 & _).
    assert (Hne : t ≠ q) by (intros ->; done). pose proof (pages_apart _ _ S1 F1 Hne). unfold disj, in_page in *. lia.
  - intros p [Hne Hp]%Hg Hin. destruct (ps_free_page _ _ _ (wf_inv _ _ _ _ Hwf) Hp) as (S1 & _).
    pose proof (pages_apart _ _ S1 F1 Hne). unfold disj, in_page in *. lia.
Qed.

Lemma filter_mark n : ∀ (g : list page) i, (i + n <= length g)%nat →
  (pool_avail mf g <= n + pool_avail mf (mark g i n))%nat.
Proof.
  induction n as [|n IH]; intros g i Hl; cbn [mark_with]; [lia|].
  specialize (IH (<[i := Page 1 (Z.of_nat (S n)) 1]> g) (S i)). rewrite length_insert in IH. specialize (IH ltac:(lia)).
  assert (pool_avail mf g <= S (pool_avail mf (<[i := Page 1 (Z.of_nat (S n)) 1]> g)))%nat; [|lia].
  unfold pool_avail. rewrite take_insert. case_decide; [apply filter_insert_length|lia].
Qed.

(** What taking a block does to an address space. *)
Record block_taken (g : list page) (m : mem) (root : Z) (T : gmap (list Z) Z) (i n : nat) (g' : list page) (m' : mem) : Prop := {
  bt_wf : wf g' m' root T;
  bt_free : ∀ q, pool_free g' q → pool_free g q ∧ ¬ in_block i n q;
  bt_avail : (pool_avail mf g <= n + pool_avail mf g')%nat;
  bt_kept : kept g T m g' T m';
  bt_vphys : ∀ va, vphys m' root va = vphys m root va;
  bt_new : ∀ b, in_block i n b → settled g' T b ∧ ¬ settled g T b ∧ rd m' b = 0;
  bt_range : 0 <= PAGE_SIZE * Z.of_nat i ∧ PAGE_SIZE * Z.of_nat (i + n) <= 2 ^ 31;
}.

Lemma alloc_block g m root T i n m' :
  wf g m root T → alloc_post m fl g i n m' → (0 < n)%nat → block_taken g m root T i n (mark g i n) m'.
Proof.
  intros Hwf [A1 A2 A3 A4 A5] Hn. pose proof (wf_inv _ _ _ _ Hwf) as [Hp Hlen].
  assert (Hfr : ∀ k, (k < n)%nat → pool_free g (PAGE_SIZE * Z.of_nat (i + k))).
  { intros k Hk. eapply fit_free; [apply Hp|exact A2|exact A3|exact Hk]. }
  assert (Hfree : ∀ q, pool_free (mark g i n) q → pool_free g q ∧ ¬ in_block i n q).
  { intros q (j & r & -> & Hj & Hr). rewrite lookup_mark in Hj by done. case_decide; simplify_eq.
    split; [by exists j, r|]. unfold in_block, PAGE_SIZE. lia. }
  assert (Hset : ∀ b, in_block i n b → settled (mark g i n) T b ∧ ¬ settled g T b).
  { intros b Hb. destruct (in_block_page i n b Hb) as (k & Hk & Hbk). specialize (Hfr k Hk). split.
    - eapply (free_settled g m root T _ _ b Hwf Hfr Hbk). intros p [Hp1 Hp2]%Hfree. split; [|done]. intros ->. apply Hp2.
      unfold in_block, in_page, PAGE_SIZE in *. lia.
    - intros [_ Hno]. by eapply Hno. }
  assert (Hkeep : ∀ b, (∀ q, pool_free g q → ¬ in_page q b) → ¬ pool_private fl N b → rd m' b = rd m b).
  { intros b Hno Hpr. apply A5.
    - intros Hb. destruct (in_block_page i n b Hb) as (k & Hk & Hbk). by eapply Hno; [apply (Hfr k)|].
    - intros Hb. apply Hpr. unfold in_array, pool_private in *. by rewrite Hlen in Hb. }
  destruct (wf_frame g m root T (mark g i n) m' Hwf) as [Hwf' Hv].
  - split; [exact A1|]. by rewrite length_mark.
  - intros q Hq. by apply Hfree.
  - intros π t b Ht Hb. destruct (wf_page _ _ _ _ Hwf _ _ Ht) as (S1 & S2 & S3 & S4 & S5). apply Hkeep; [|by apply S5].
    intros q Hq Hin. destruct (ps_free_page _ _ _ (wf_inv _ _ _ _ Hwf) Hq) as (F1 & _).
    assert (Hne : t ≠ q) by (intros ->; done). pose proof (pages_apart _ _ S1 F1 Hne). unfold disj, in_page in *. lia.
  - constructor; try done.
    + by apply filter_mark.
    + intros b Hb. split; [|by apply Hkeep; [apply Hb|apply (proj1 Hb)]].
      eapply settled_mono; [|by left|exact Hb]. intros q Hq. by apply Hfree.
    + intros b Hb. split; [by apply Hset|]. split; [by apply Hset|by apply A4].
    + destruct (pool_geometry _ _ _ Hp) as (G1 & G2 & G3). unfold PAGE_SIZE in *. lia.
Qed.

(** ** The two first allocations *)

(** A run of [n] free pages from page [j] on. *)
Definition free_run (g : list page) (j : nat) (n : Z) : Prop :=
  (∃ p, g !! j = Some p ∧ Mem.fits n p = true) ∧ Z.of_nat j + n <= Z.of_nat (length g).

Lemma first_fit_below g n j p : g !! j = Some p → Mem.fits n p = true → ∃ i, first_fit g n i ∧ (i <= j)%nat.
Proof.
  intros Hj Hp. destruct (list_first_dec (Mem.fits n) g) as [(i & q & Hi & Hq & Hmin)|Hno].
  - exists i. split; [split; eauto|]. destruct (decide (i <= j)%nat); [done|].
    specialize (Hmin j p ltac:(lia) Hj). congruence.
  - specialize (Hno j p Hj). congruence.
Qed.

Lemma fits_less n n' p : Mem.fits n p = true → n' <= n → Mem.fits n' p = true.
Proof. intros [H1 H2]%fits_true Hn. apply fits_true. split; [done|lia]. Qed.

(** In a run there is room for one page and then for a block. *)
Lemma two_fits g j (n : nat) : runs_ok g → free_run g j (Z.of_nat (S n)) → (0 < n)%nat →
  ∃ i0 i1, first_fit g 1 i0 ∧ (i0 <= j)%nat ∧ first_fit (mark g i0 1) (Z.of_nat n) i1 ∧ (i1 <= S j)%nat.
Proof.
  intros Hr [(p & Hj & Hp) Hl] Hn.
  destruct (first_fit_below g 1 j p Hj) as (i0 & Hff & Hi); [eapply fits_less; [exact Hp|lia]|].
  exists i0. pose proof (lookup_lt_Some _ _ _ Hj) as Hlt.
  assert (∃ j' q, (j' <= S j)%nat ∧ mark g i0 1 !! j' = Some q ∧ Mem.fits (Z.of_nat n) q = true) as (j' & q & Hj' & Hq & Hfit).
  { destruct (decide (i0 = j)) as [->|Hne].
    - apply fits_true in Hp as [Hf Hb]. destruct (runs_ok_run g j p 1 Hr Hj Hf) as (q & Hq & Hqf & Hqb); [lia..|].
      exists (j + 1)%nat, q. rewrite lookup_mark by lia. rewrite decide_False by lia. split; [lia|]. split; [done|].
      apply fits_true. split; [done|lia].
    - exists j, p. rewrite lookup_mark by lia. rewrite decide_False by lia. split; [lia|]. split; [done|].
      eapply fits_less; [exact Hp|lia]. }
  destruct (first_fit_below _ _ _ _ Hq Hfit) as (i1 & Hff1 & Hi1). exists i1. split; [done|]. split; [done|]. split; [done|lia].
Qed.

(** The search, as [kmalloc] and [kmalloc_stack] run it. *)
Lemma take_block g m root T size i :
  wf g m root T → 0 < size < 2 ^ 31 → first_fit g (Z.of_nat (npages size)) i → (i + npages size <= length g)%nat →
  (i < mf)%nat →
  ∃ m', kmalloc_loop VADDR mf m (pages_of_size size) (VADDR fl) 0 = Some (Some (PAGE_SIZE * Z.of_nat i), m') ∧
    block_taken g m root T i (npages size) (mark g i (npages size)) m'.
Proof.
  intros Hwf Hs Hff Hl Hi. destruct (pages_of_size_npages size Hs) as [E Hn]. pose proof (wf_inv _ _ _ _ Hwf) as [Hp _].
  destruct (kmalloc_loop_spec VADDR VADDR_window_phys VADDR_window_nonzero mf m fl g (npages size) i Hp Hn Hff Hl Hi)
    as (m' & Em & H1 & H2 & H3).
  exists m'. rewrite E, Em. split; [done|]. apply alloc_block; [done|by constructor|done].
Qed.

Lemma take_page g m root T size :
  wf g m root T → 0 < size <= PAGE_SIZE → (0 < pool_avail mf g)%nat →
  ∃ i g' m', kmalloc_loop VADDR mf m (pages_of_size size) (VADDR fl) 0 = Some (Some (PAGE_SIZE * Z.of_nat i), m') ∧
    block_taken g m root T i 1 g' m'.
Proof.
  intros Hwf Hs Hav. pose proof (wf_inv _ _ _ _ Hwf) as Hinv. unfold PAGE_SIZE in Hs.
  assert (Hn : npages size = 1%nat) by (unfold npages, PAGE_SIZE; lia).
  destruct (pool_avail_fit mf fl N g m Hinv Hav) as (i & Hff & Hi). pose proof (first_fit_lt _ _ _ Hff).
  destruct (take_block g m root T size i Hwf) as (m' & E & B); rewrite ?Hn in *; [lia|done|lia|done|]. eauto.
Qed.

(** ** A new address space *)

(** The tables of a task at its start: its own root, and below the last entry the
    kernel's. *)
Definition space_of (T : gmap (list Z) Z) (root : Z) : gmap (list Z) Z :=
  <[[] := root]> (filter (λ πt, head πt.1 = Some 511) T).

Lemma space_of_Some T root π t :
  space_of T root !! π = Some t ↔ π = [] ∧ t = root ∨ T !! π = Some t ∧ head π = Some 511.
Proof.
  unfold space_of. rewrite lookup_insert_Some, map_lookup_filter_Some. cbn [fst]. split.
  - intros [[<- <-]|(Hne & H1 & H2)]; auto.
  - intros [[-> ->]|[H1 H2]]; [by left|right]. split; [|done]. by intros <-.
Qed.

Lemma space_of_settled g T root b : settled g T b → ¬ in_page root b → settled g (space_of T root) b.
Proof.
  intros [[H1 H2] H3] Hr. split; [split; [done|]|done]. intros π t [[-> ->]|[Ht _]]%space_of_Some; [done|by eapply H2].
Qed.

(** A root page that holds only the kernel's last entry is an address space. *)
Lemma wf_space_of g m kroot T root m' :
  wf g m kroot T → root mod PAGE_SIZE = 0 → 0 <= root → root + PAGE_SIZE <= 2 ^ 31 →
  (∀ b, in_page root b → settled g T b) → (∀ b, ¬ settled g T b → rd m' b = rd m b) →
  (∀ i, 0 <= i < 512 → entry m' root i = if i =? 511 then entry m kroot 511 else 0) →
  wf g m' root (space_of T root).
Proof.
  intros Hwf R1 R2 R3 Hset Hag Hent.
  assert (Hroot : ∀ π t, T !! π = Some t → t ≠ root).
  { intros π t Ht ->. destruct (Hset root) as [[_ Hno] _]; [unfold in_page, PAGE_SIZE; lia|].
    apply (Hno π root Ht). unfold in_page, PAGE_SIZE. lia. }
  assert (He : ∀ π t i, T !! π = Some t → 0 <= i < 512 → entry m' t i = entry m t i).
  { intros π t i Ht Hi. apply entry_agree. intros b Hb. apply Hag. intros [[_ Hno] _]. apply (Hno π t Ht).
    unfold in_page, PAGE_SIZE. lia. }
  constructor.
  - eapply ps_stable; [apply Hwf|]. intros b Hb. apply Hag. intros [[Hno _] _]. done.
  - apply lookup_insert_eq.
  - intros π t [[-> ->]|[Ht _]]%space_of_Some; [|by eapply wf_page].
    split_and!; try done; [|intros b Hb; by apply (Hset b Hb)].
    intros Hf. destruct (Hset root) as [_ Hno]; [unfold in_page, PAGE_SIZE; lia|].
    apply (Hno root Hf). unfold in_page, PAGE_SIZE. lia.
  - intros π π' t [[-> ->]|[Ht _]]%space_of_Some [[-> E]|[Ht' _]]%space_of_Some; [done|..].
    + by apply Hroot in Ht'.
    + subst t. by apply Hroot in Ht.
    + by eapply wf_inj.
  - intros π i [t [[E _]|[Ht Hh]]%space_of_Some]; [by destruct π|]. destruct π as [|j π]; [by exists root; apply lookup_insert_eq|].
    destruct (wf_parent _ _ _ _ Hwf (j :: π) i) as [t' Ht']; [by exists t|]. exists t'. apply space_of_Some. right. by split.
  - intros π t i Hπ Hl Hi. apply option_eq. intros t'. rewrite space_of_Some.
    apply space_of_Some in Hπ as [[-> ->]|[Ht Hh]].
    + rewrite Hent by done. cbn [app head]. destruct (Z.eqb_spec i 511) as [->|Hne].
      * rewrite <- (wf_child _ _ _ _ Hwf [] kroot 511) by (apply Hwf || simpl; lia). cbn [app]. split; [intros [[? _]|[? _]]|]; auto. done.
      * split; [intros [[? _]|[_ [= ->]]]|]; done.
    + rewrite (He π) by done. rewrite <- (wf_child _ _ _ _ Hwf π t i Ht Hl Hi). split.
      * intros [[E _]|[? _]]; [by destruct π|done].
      * intros H. right. split; [done|]. by destruct π.
  - intros π t i [[-> ->]|[Ht _]]%space_of_Some Hi; [|by rewrite (He π); [eapply wf_small|..]].
    rewrite Hent by done. case_match; [|done]. eapply wf_small; [exact Hwf|apply Hwf|lia].
Qed.

(** ** The user stack *)

Lemma maps_kept k va n pa root g m T g' m' T' : maps k va n pa root g m T g' m' T' → kept g T m g' T' m'.
Proof.
  intros M b Hb.
  assert (Hb' : settled g' T' b).
  { eapply settled_mono; [apply (maps_free _ _ _ _ _ _ _ _ _ _ _ M)|apply (maps_new _ _ _ _ _ _ _ _ _ _ _ M)|exact Hb]. }
  split; [exact Hb'|]. apply (maps_frame _ _ _ _ _ _ _ _ _ _ _ M); [apply Hb|apply Hb'].
Qed.

(** The stack page and its place in the address space. *)
Lemma take_stack g m root T :
  wf g m root T → (4 <= pool_avail mf g)%nat →
  ∃ i g' m' T', let U := PAGE_SIZE * Z.of_nat i in
    kmalloc_stack mf fl m 1 (VADDR root) = Some (bumpPtr + U, m') ∧ wf g' m' root T' ∧ kept g T m g' T' m' ∧
    (pool_avail mf g <= 4 + pool_avail mf g')%nat ∧ mapped T' m' root (bumpPtr + U) PAGE_SIZE (λ k, U + k) ∧
    (∀ b, in_page U b → settled g' T' b ∧ ¬ settled g T b) ∧ 0 <= U ∧ U + PAGE_SIZE <= 2 ^ 31.
Proof.
  intros Hwf Hav. destruct (take_page g m root T 1 Hwf) as (i & g1 & m1 & E1 & [B1 B2 B3 B4 B5 B6 [B7 B8]]); [unfold PAGE_SIZE; lia|lia|].
  exists i. set (U := PAGE_SIZE * Z.of_nat i) in *.
  assert (HU : 0 <= U ∧ U + 4096 <= 2 ^ 31 ∧ U mod 4096 = 0) by (unfold U, PAGE_SIZE in *; lia). clear B7 B8.
  assert (Ha : bumpPtr +64 U = bumpPtr + U) by (apply u64_small; unfold bumpPtr; lia).
  destruct (init_map_spec (L := program_laws) g1 m1 root T (bumpPtr + U) U 1 1 B1) as (g2 & m2 & T2 & E2 & M);
    [unfold ps_avail; cbn; lia|lia| |lia|unfold PAGE_SIZE; lia|done|].
  { pose proof (PAGE_TABLE_INDEX_range (bumpPtr + U)). unfold ENTRIES_PER_PTE. lia. }
  exists g2, m2, T2. cbn zeta. pose proof (maps_kept _ _ _ _ _ _ _ _ _ _ _ M) as Hk.
  assert (Hset : ∀ b, in_page U b → settled g2 T2 b ∧ ¬ settled g T b).
  { intros b Hb. destruct (B6 b) as (S1 & S2 & _); [clear -Hb; unfold in_page in Hb; unfold in_block; unfold U in Hb; unfold PAGE_SIZE in *; lia|].
    split; [by apply Hk|done]. }
  assert (Etr : translate m2 root (bumpPtr + U) = Some U).
  { rewrite (maps_translate _ _ _ _ _ _ _ _ _ _ _ M). rewrite decide_True by (split; [done|lia]).
    rewrite Z.sub_diag, Z.mul_0_r, Z.add_0_r. f_equal. change (first_phys 1 U) with (Paging.frame U).
    rewrite frame_small by lia. lia. }
  split; [|split; [|split; [|split; [|split; [|split]]]]].
  - unfold kmalloc_stack. rewrite E1. cbn [mbind option_bind]. rewrite Ha. change (mem_page_source mf fl) with program_source.
    by rewrite E2.
  - apply M.
  - eapply kept_trans; [exact B4|exact Hk].
  - pose proof (maps_avail _ _ _ _ _ _ _ _ _ _ _ M) as A. unfold ps_avail in A. cbn in A. lia.
  - split.
    + intros k Hkr. split; [|destruct (Hset (U + k)) as [[Hd _] _]; [unfold in_page; lia|exact Hd]]. unfold vphys. rewrite translate_same_page, Etr.
      * cbn [mbind option_bind]. f_equal. unfold bumpPtr, PAGE_SIZE in *. lia.
      * unfold bumpPtr, PAGE_SIZE. lia.
      * done.
    + intros a b _ _. lia.
  - exact Hset.
  - unfold PAGE_SIZE. lia.
Qed.

(** ** The loop over the program headers *)

Lemma VADDR_add q n : VADDR q +64 n = VADDR (q + n).
Proof. apply add64_assoc. Qed.

Lemma load_phdr_agree m m' a : agree_on m m' a sizeof_phdr → load_phdr m' a = load_phdr m a.
Proof.
  intros H. unfold sizeof_phdr in H. unfold load_phdr, load64.
  repeat match goal with |- context [load ?n m' ?b] => rewrite (load_agree n m m' b) by (eapply agree_on_sub; [exact H|lia..]) end.
  done.
Qed.

Definition is_load (m : mem) (a : Z) : Prop := p_type (load_phdr m a) = ELF_PROG_LOAD.

Lemma load_segments_skip n : ∀ m pcb elfhdr q, 0 <= q → q + sizeof_phdr * Z.of_nat n <= 2 ^ 31 →
  (∀ j, 0 <= j < Z.of_nat n → ¬ is_load m (q + sizeof_phdr * j)) →
  load_segments fuel mf fl n m pcb elfhdr (VADDR q) = Some (m, []).
Proof.
  induction n as [|n IH]; intros m pcb elfhdr q H0 H1 Hno; cbn [load_segments]; [done|]. unfold sizeof_phdr in *.
  rewrite phys_VADDR by lia. pose proof (Hno 0 ltac:(lia)) as Hn0. rewrite Z.mul_0_r, Z.add_0_r in Hn0. unfold is_load in Hn0.
  rewrite (proj2 (Z.eqb_neq _ _) Hn0). cbn [mbind option_bind]. rewrite VADDR_add, IH; [done|lia|lia|].
  intros j Hj. replace (q + 56 + 56 * j) with (q + 56 * (j + 1)) by lia. apply Hno. lia.
Qed.

Lemma load_segments_one k : ∀ r m pcb elfhdr q m1 m2, 0 <= q → q + sizeof_phdr * Z.of_nat (k + S r) <= 2 ^ 31 →
  (∀ j, 0 <= j < Z.of_nat k → ¬ is_load m (q + sizeof_phdr * j)) →
  let hd := load_phdr m (q + sizeof_phdr * Z.of_nat k) in
  p_type hd = ELF_PROG_LOAD → p_filesz hd <= p_memsz hd →
  load_segment fuel mf fl m (load64 m (phys pcb + t_pml4)) elfhdr hd = Some m1 →
  record_vma mf fl m1 (load64 m1 (phys pcb + t_mm)) elfhdr hd = Some m2 →
  (∀ j, Z.of_nat k < j <= Z.of_nat (k + r) → ¬ is_load m2 (q + sizeof_phdr * j)) →
  load_segments fuel mf fl (k + S r) m pcb elfhdr (VADDR q) = Some (m2, []).
Proof.
  induction k as [|k IH]; intros r m pcb elfhdr q m1 m2 H0 H1 Hno hd Hty Hsz E1 E2 Hrest; cbn [Nat.add load_segments];
    unfold sizeof_phdr in *; rewrite phys_VADDR by lia.
  - unfold hd in *. clear hd. change (Z.of_nat 0) with 0 in *. rewrite Z.mul_0_r, Z.add_0_r in *. rewrite Hty. cbn [Z.eqb].
    rewrite Z.eqb_refl. rewrite (proj2 (Z.ltb_ge _ _) Hsz). rewrite E1. cbn [mbind option_bind]. rewrite E2. cbn [mbind option_bind].
    rewrite VADDR_add, load_segments_skip; [done|lia|unfold sizeof_phdr; lia|].
    intros j Hj. unfold sizeof_phdr. replace (q + 56 + 56 * j) with (q + 56 * (j + 1)) by lia. apply Hrest. lia.
  - pose proof (Hno 0 ltac:(lia)) as Hn0. rewrite Z.mul_0_r, Z.add_0_r in Hn0. unfold is_load in Hn0.
    rewrite (proj2 (Z.eqb_neq _ _) Hn0). cbn [mbind option_bind]. rewrite VADDR_add.
    unfold hd in *. clear hd. replace (q + 56 * Z.of_nat (S k)) with (q + 56 + 56 * Z.of_nat k) in * by lia.
    erewrite (IH r m pcb elfhdr (q + 56) m1 m2); [done|lia|lia| |exact Hty|exact Hsz|exact E1|exact E2|].
    + intros j Hj. replace (q + 56 + 56 * j) with (q + 56 * (j + 1)) by lia. apply Hno. lia.
    + intros j Hj. replace (q + 56 + 56 * j) with (q + 56 * (j + 1)) by lia. apply Hrest. lia.
Qed.

(** The record of the first segment of a task: a page for the structure, and
    the link in the [struct mm_struct] at [M]. *)
Lemma record_vma_spec g m root T M elfhdr ph :
  wf g m root T → (0 < pool_avail mf g)%nat → 0 <= M → M + 16 <= 2 ^ 31 → (∀ b, M <= b < M + 16 → settled g T b) →
  load64 m (M + 8) = 0 →
  ∃ g' m', record_vma mf fl m (VADDR M) elfhdr ph = Some m' ∧ wf g' m' root T ∧
    (∀ va, vphys m' root va = vphys m root va) ∧
    ∀ b, settled g T b → settled g' T b ∧ (¬ M <= b < M + 16 → rd m' b = rd m b).
Proof.
  intros Hwf Hav HM0 HM1 Hset Hz.
  destruct (take_page g m root T sizeof_vma Hwf) as (i & g' & m1 & E1 & [B1 B2 B3 B4 B5 B6 [B7 B8]]); [done|done|].
  set (V := PAGE_SIZE * Z.of_nat i) in *. assert (HV : 0 <= V ∧ V + 4096 <= 2 ^ 31) by (unfold V, PAGE_SIZE in *; lia).
  assert (Hnew : ∀ b, V <= b < V + 64 → settled g' T b ∧ ¬ settled g T b).
  { intros b Hb. destruct (B6 b) as (S1 & S2 & _); [|done].
    clear -Hb. unfold V, in_block, PAGE_SIZE in *. lia. }
  unfold record_vma, vma_malloc. rewrite phys_VADDR by lia. rewrite Hz. cbn [Z.eqb negb]. unfold kmalloc. rewrite E1.
  cbn [mbind option_bind]. rewrite phys_VADDR by lia. eexists g', _. split; [reflexivity|].
  match goal with |- context [wf g' ?x root T] => set (m' := x) end.
  assert (Ag : ∀ b, ¬ M <= b < M + 16 → ¬ V <= b < V + 64 → rd m' b = rd m1 b).
  { intros b H1 H2. unfold m'. by task_loads. }
  destruct (wf_data (L := program_laws) g' m1 root T m' B1) as [W V'].
  { intros b Hb. apply Ag; intros Hr; apply Hb.
    - by apply (B4 b (Hset b Hr)).
    - by apply (Hnew b Hr). }
  split; [exact W|]. split; [intros va; by rewrite V', B5|]. intros b Hb. destruct (B4 b Hb) as [S1 S2]. split; [exact S1|].
  intros Hm. rewrite Ag; [exact S2|exact Hm|]. intros Hr. by destruct (Hnew b Hr).
Qed.

(** ** Building the task *)

Lemma disj_common a n b k : 0 < n → 0 < k → (∀ x, a <= x < a + n → b <= x < b + k → False) → disj a n b k.
Proof. intros Hn Hk H. unfold disj. specialize (H (Z.max a b)). lia. Qed.

(** The pages of the table and of the structure. *)
Record pages_taken (g : list page) (m : mem) (kroot : Z) (T : gmap (list Z) Z) (R P : Z) (g' : list page) (m' : mem) : Prop := {
  pt_wf : wf g' m' kroot T;
  pt_kept : kept g T m g' T m';
  pt_avail : (pool_avail mf g <= 10 + pool_avail mf g')%nat;
  pt_table : ∀ b, in_page R b → settled g' T b ∧ ¬ settled g T b;
  pt_task : ∀ b, P <= b < P + block_size_ → settled g' T b ∧ ¬ settled g T b ∧ rd m' b = 0;
  pt_disj : disj P block_size_ R PAGE_SIZE;
  pt_root : R mod PAGE_SIZE = 0 ∧ 0 <= R ∧ R + PAGE_SIZE <= 2 ^ 31;
  pt_range : P mod PAGE_SIZE = 0 ∧ 0 <= P ∧ P + block_size_ <= 2 ^ 31;
  pt_free : pool_free g P;
}.

Lemma take_pages g m kroot T j :
  wf g m kroot T → free_run g j 10 → (S j < mf)%nat →
  ∃ R P g' m1 m', kmalloc mf fl m sizeof_page = Some (VADDR R, m1) ∧ kmalloc mf fl m1 sizeof_task = Some (VADDR P, m') ∧
    pages_taken g m kroot T R P g' m'.
Proof.
  intros Hwf Hrun Hj. pose proof (wf_inv _ _ _ _ Hwf) as [Hp _]. pose proof (proj2 Hrun) as Hl.
  destruct (two_fits g j 9 (pool_runs _ _ _ Hp) Hrun) as (i0 & i1 & F0 & L0 & F1 & L1); [lia|].
  destruct (take_block g m kroot T sizeof_page i0 Hwf) as (m1 & E1 & [A1 A2 A3 A4 A5 A6 A7]); [done|exact F0|change (npages sizeof_page) with 1%nat; lia|lia|].
  change (npages sizeof_page) with 1%nat in *.
  destruct (take_block (mark g i0 1) m1 kroot T sizeof_task i1 A1) as (m2 & E2 & [B1 B2 B3 B4 B5 B6 B7]); [done|exact F1| |lia|].
  { rewrite npages_task, length_mark. lia. }
  rewrite npages_task in *. exists (PAGE_SIZE * Z.of_nat i0), (PAGE_SIZE * Z.of_nat i1), (mark (mark g i0 1) i1 9), m1, m2.
  unfold kmalloc. rewrite E1, E2. split; [done|]. split; [done|].
  assert (HR : ∀ b, in_page (PAGE_SIZE * Z.of_nat i0) b → in_block i0 1 b) by (intros b; unfold in_page, in_block, PAGE_SIZE; lia).
  assert (HP : ∀ b, PAGE_SIZE * Z.of_nat i1 <= b < PAGE_SIZE * Z.of_nat i1 + block_size_ → in_block i1 9 b)
    by (intros b; unfold block_size_, in_block, PAGE_SIZE; lia).
  constructor; try done.
  - eapply kept_trans; [exact A4|exact B4].
  - lia.
  - intros b Hb. destruct (A6 b (HR b Hb)) as (S1 & S2 & _). split; [by apply B4|done].
  - intros b Hb. destruct (B6 b (HP b Hb)) as (S1 & S2 & S3). split; [done|]. split; [|done]. intros S4. by apply S2, A4.
  - apply disj_common; [done|done|]. intros x Hx1 Hx2. destruct (B6 x (HP x Hx1)) as (_ & S2 & _). apply S2. by apply A6, HR.
  - unfold PAGE_SIZE in *. lia.
  - unfold block_size_, PAGE_SIZE in *. lia.
  - apply (A2 (PAGE_SIZE * Z.of_nat i1)). pose proof (wf_inv _ _ _ _ A1) as [Hp1 _]. rewrite <- (Nat.add_0_r i1).
    eapply (fit_free _ 9); [apply Hp1|exact F1|rewrite length_mark; lia|lia].
Qed.

(** The structure is filled and the new space has its root. *)
Lemma build_space g m kroot T R P g2 m2 PID parent F name :
  pages_taken g m kroot T R P g2 m2 → cstr m (phys F) name → (length name < fuel)%nat → (length name < 104)%nat →
  (∀ b, phys F <= b <= phys F + Z.of_nat (length name) → settled g T b) →
  ∃ m3, init_pcb fuel m2 (VADDR P) (VADDR R) PID parent F (VADDR kroot) = Some m3 ∧ wf g2 m3 R (space_of T R) ∧
    kept g T m g2 (space_of T R) m3 ∧ task_fields_at m3 P R PID parent name ∧ load64 m3 (P + sizeof_task + 8) = 0 ∧
    ∀ b, P <= b < P + block_size_ → settled g2 (space_of T R) b.
Proof.
  intros [W K Av HR HP D (R1 & R2 & R3) (P1 & P2 & P3) _] Hs Hfu Hl Hset.
  destruct (wf_page _ _ _ _ W [] kroot (wf_root _ _ _ _ W)) as (K1 & K2 & K3 & _).
  assert (Htab : ∀ b, in_page kroot b → ¬ settled g2 T b).
  { intros b Hb [[_ Hno] _]. eapply Hno; [apply (wf_root _ _ _ _ W)|exact Hb]. }
  assert (Hb1 : 0 < block_size_) by done. assert (Hb2 : 0 < PAGE_SIZE) by done.
  destruct (init_pcb_spec fuel m2 P R PID parent F name kroot) as (m3 & E & TF & Z & En & Fr); try done.
  { apply disj_common; [done|lia|]. intros x Hx Hx2. destruct (HP x Hx) as (_ & H & _). apply H, Hset. lia. }
  { apply disj_common; [done|lia|]. intros x Hx Hx2. destruct (HR x Hx) as (_ & H). apply H, Hset. lia. }
  { apply disj_common; [done|done|]. intros x Hx Hx2. apply (Htab x Hx2). by apply HP. }
  { apply disj_common; [done|done|]. intros x Hx Hx2. apply (Htab x Hx2). by apply HR. }
  { eapply cstr_agree; [exact Hs|]. intros b Hb. apply K, Hset. lia. }
  { intros b Hb. by apply HP. }
  exists m3. split; [exact E|].
  assert (HPR : ∀ b, P <= b < P + block_size_ → ¬ in_page R b) by (unfold disj, in_page in *; lia).
  split; [|split; [|split; [exact TF|split; [exact Z|]]]].
  - apply (wf_space_of g2 m2 kroot T R m3 W R1 R2 R3); [intros b Hb; by apply HR| |exact En].
    intros b Hb. apply Fr; intros Hin; apply Hb; [by apply HP|by apply HR].
  - intros b Hb. destruct (K b Hb) as [S1 S2].
    assert (H1 : ¬ in_page R b) by (intros H; by destruct (HR b H)).
    assert (H2 : ¬ P <= b < P + block_size_) by (intros H; by destruct (HP b H) as (_ & ? & _)).
    split; [by apply space_of_settled|]. rewrite Fr; done.
  - intros b Hb. apply space_of_settled; [by apply HP|by apply HPR].
Qed.

Lemma start_reg_agree m m' argc argv r :
  agree_on m m' (phys argv) (8 * argc) → start_reg m' argc argv r = start_reg m argc argv r.
Proof.
  intros H. unfold start_reg. pose proof (place_range r). destruct (Z.eqb_spec (place r) 0); [done|].
  destruct (Z.leb_spec (place r) argc); [|done]. apply load_agree. eapply agree_on_sub; [exact H|lia..].
Qed.

(** The user stack of the task: allocated, mapped and cleared. *)
Record stack_at (g : list page) (m : mem) (R : Z) (T : gmap (list Z) Z) (us U : Z) : Prop := {
  sa_place : us = bumpPtr + U ∧ 0 <= U ∧ U + PAGE_SIZE <= 2 ^ 31;
  sa_mapped : ∀ k, 0 <= k < PAGE_SIZE → vphys m R (us + k) = Some (U + k);
  sa_zero : ∀ b, in_page U b → settled g T b ∧ rd m b = 0;
}.

Lemma clear_stack g m R T us U P :
  wf g m R T → mapped T m R us PAGE_SIZE (λ k, U + k) → (∀ b, P <= b < P + t_pid → settled g T b ∧ ¬ in_page U b) →
  us = bumpPtr + U ∧ 0 <= U ∧ U + PAGE_SIZE <= 2 ^ 31 → (∀ b, in_page U b → settled g T b) →
  0 <= P → load64 m (P + t_cr3) = R →
  let m1 := memset (store64 m (P + t_ustack) us) (P + t_kstack 0) 0 4096 in
  ∃ m2, vfill m1 (load64 m1 (P + t_cr3)) us 0 4096 = Some m2 ∧ wf g m2 R T ∧ stack_at g m2 R T us U ∧
    load64 m2 (P + t_ustack) = us ∧ ∀ b, ¬ in_page U b → ¬ P <= b < P + t_pid → rd m2 b = rd m b.
Proof.
  intros Hwf Hm Hset HU HUs HP Hcr m1.
  assert (A1 : ∀ b, ¬ P <= b < P + t_pid → rd m1 b = rd m b) by (intros b Hb; unfold m1; task_fields; by task_loads).
  destruct (wf_data (L := program_laws) g m R T m1 Hwf) as [W1 V1].
  { intros b Hb. apply A1. intros Hr. apply Hb. by apply (Hset b Hr). }
  assert (Ecr : load64 m1 (P + t_cr3) = R) by (rewrite <- Hcr; unfold m1; task_fields; by task_loads).
  unfold vfill. remember (Z.to_nat (u32 4096)) as n eqn:En.
  assert (Hn : Z.of_nat n = 4096) by (rewrite En, Z2Nat.id; [reflexivity|apply u32_range]). clear En.
  destruct (vfill_loop_spec (L := program_laws) g R T 0 n m1 us (λ k, U + k) W1) as (m2 & E2 & W2 & V2 & [Y1 Y2]); [|lia|].
  { rewrite Hn. destruct Hm as [M1 M2]. split; [|exact M2]. intros i Hi. rewrite V1. by apply M1. }
  rewrite Hn in Y1, Y2. exists m2. rewrite Ecr. split; [exact E2|]. split; [exact W2|].
  assert (Y3 : ∀ b, ¬ in_page U b → rd m2 b = rd m1 b).
  { intros b Hb. apply Y2. intros i Hi E. apply Hb. unfold in_page, PAGE_SIZE. lia. }
  split; [|split].
  - constructor; [done|intros k Hk; rewrite V2, V1; by apply Hm|]. intros b Hb. split; [by apply HUs|].
    unfold in_page, PAGE_SIZE in Hb. specialize (Y1 (b - U) ltac:(lia)). cbn beta in Y1. by replace (U + (b - U)) with b in Y1 by lia.
  - transitivity (load64 m1 (P + t_ustack)).
    + apply load_agree. intros b Hb. apply Y3, Hset. task_fields. lia.
    + unfold m1. task_fields. task_loads. apply u64_small. unfold bumpPtr in HU. lia.
  - intros b H1 H2. by rewrite Y3, A1.
Qed.

(** The task's stacks, from the allocation of the page to [init_kstack]. *)
Lemma build_stacks g m R T P isr32 argc argv :
  wf g m R T → (4 <= pool_avail mf g)%nat → (∀ b, P <= b < P + block_size_ → settled g T b) → 0 <= P → P + block_size_ <= 2 ^ 31 →
  load64 m (P + t_cr3) = R → 0 <= argc <= 14 →
  (∀ b, phys argv <= b < phys argv + 8 * argc → settled g T b ∧ ¬ P <= b < P + block_size_) →
  ∃ us U g' m4 m7 T', kmalloc_stack mf fl m 1 (VADDR R) = Some (us, m4) ∧
    (let m1 := memset (store64 m4 (P + t_ustack) us) (P + t_kstack 0) 0 4096 in
     vfill m1 (load64 m1 (P + t_cr3)) us 0 4096 = Some m7) ∧
    let m8 := init_kstack m7 (VADDR P) isr32 argc argv in
    wf g' m8 R T' ∧ (pool_avail mf g <= 4 + pool_avail mf g')%nat ∧ stack_at g' m8 R T' us U ∧
    stack_ready m8 P (VADDR P) isr32 (us +64 8 * 511) (start_reg m argc argv) ∧ (∀ b, settled g T b → ¬ in_page U b) ∧
    ∀ b, settled g T b → settled g' T' b ∧ (¬ P <= b < P + t_pid → rd m8 b = rd m b).
Proof.
  intros Hwf Hav Hset HP1 HP2 Hcr Hargc Hargv.
  destruct (take_stack g m R T Hwf Hav) as (i & g' & m4 & T' & E4 & W4 & K4 & A4 & M4 & N4 & U1 & U2).
  set (U := PAGE_SIZE * Z.of_nat i) in *. clearbody U. exists (bumpPtr + U), U, g', m4.
  assert (HU : ∀ b, settled g T b → ¬ in_page U b) by (intros b Hb Hin; by destruct (N4 b Hin)).
  assert (HPt : ∀ b, P <= b < P + t_pid → P <= b < P + block_size_) by (intros b; task_fields; lia).
  destruct (clear_stack g' m4 R T' (bumpPtr + U) U P W4 M4) as (m7 & E7 & W7 & S7 & L7 & F7).
  { intros b Hb. specialize (Hset b (HPt b Hb)). split; [by apply K4|by apply HU]. }
  { split; [reflexivity|]. split; assumption. }
  { intros b Hb. by apply N4. }
  { exact HP1. }
  { rewrite <- Hcr. apply load_agree. intros b Hb. apply K4, Hset. task_fields. lia. }
  exists m7, T'. split; [exact E4|]. split; [exact E7|]. cbn zeta.
  assert (Hag : agree_on m m7 (phys argv) (8 * argc)).
  { intros b Hb. destruct (Hargv b Hb) as [S1 S2]. rewrite F7; [by apply K4|by apply HU|]. intros H. by apply S2, HPt. }
  destruct (init_kstack_ready m7 (VADDR P) P isr32 argc argv) as [HR HF].
  { split; [done|]. task_fields. lia. }
  { done. }
  { intros Hpos. apply disj_common; [lia|lia|]. intros x Hx1 Hx2. destruct (Hargv x Hx2) as [_ H]. apply H. task_fields. lia. }
  set (m8 := init_kstack m7 (VADDR P) isr32 argc argv) in *.
  assert (F8 : ∀ b, ¬ P <= b < P + t_pid → rd m8 b = rd m7 b).
  { intros b Hb. apply (HF b 1); [|lia]. task_fields. lia. }
  destruct (wf_data (L := program_laws) g' m7 R T' m8 W7) as [W8 V8].
  { intros b Hb. apply F8. intros Hr. apply Hb. by apply (K4 b (Hset b (HPt b Hr))). }
  split; [exact W8|]. split; [exact A4|]. split; [|split; [|split; [exact HU|]]].
  - destruct S7 as [Q1 Q2 Q3]. constructor; [done|intros k Hk; rewrite V8; by apply Q2|]. intros b Hb. destruct (Q3 b Hb) as [Q4 Q5].
    split; [exact Q4|]. rewrite F8; [exact Q5|]. intros Hr. by apply (HU b (Hset b (HPt b Hr))).
  - rewrite L7 in HR. destruct HR as [H1 H2 H3 H4 H5 H6 H7].
    constructor; [exact H1|exact H2| |exact H4|exact H5|exact H6|exact H7]. intros r. rewrite H3. by apply start_reg_agree.
  - intros b Hb. split; [by apply K4|]. intros Hr. rewrite F8, F7; [by apply K4|by apply HU|done|done].
Qed.

(** ** Loading the program *)

(** A file of [size] bytes at [h] whose only segment to load is [hd], the [k]-th
    of its program headers, in the lower half of the address space. *)
Record program_file (g : list page) (T : gmap (list Z) Z) (m : mem) (h size : Z) (k : nat) (hd : phdr) : Prop := {
  pf_range : 0 <= h ∧ 64 <= size ∧ h + size < 2 ^ 31;
  pf_settled : ∀ b, h <= b < h + size → settled g T b;
  pf_headers : e_phoff m h + sizeof_phdr * e_phnum m h <= size;
  pf_index : Z.of_nat k < e_phnum m h;
  pf_segment : load_phdr m (h + e_phoff m h + sizeof_phdr * Z.of_nat k) = hd;
  pf_type : p_type hd = ELF_PROG_LOAD;
  pf_only : ∀ j, 0 <= j < e_phnum m h → j ≠ Z.of_nat k → ¬ is_load m (h + e_phoff m h + sizeof_phdr * j);
  pf_data : p_offset hd + p_filesz hd <= size;
  pf_sizes : p_filesz hd <= p_memsz hd ∧ p_memsz hd < 2 ^ 31 ∧ p_vaddr hd + p_memsz hd <= 2 ^ 47;
}.

Lemma ehdr_agree m m' h size : agree_on m m' h size → 64 <= size →
  e_phoff m' h = e_phoff m h ∧ e_phnum m' h = e_phnum m h ∧ e_entry m' h = e_entry m h.
Proof.
  intros Ag Hs. unfold e_phoff, e_phnum, e_entry, load64.
  split_and!; apply load_agree; (eapply agree_on_sub; [exact Ag|lia..]).
Qed.

Lemma e_phoff_range m h : 0 <= e_phoff m h.
Proof. apply load64_range. Qed.

Lemma program_file_agree g T m g' T' m' h size k hd :
  program_file g T m h size k hd → (∀ b, h <= b < h + size → settled g' T' b ∧ rd m' b = rd m b) →
  program_file g' T' m' h size k hd.
Proof.
  intros [F1 F2 F3 F4 F5 F6 F7 F8 F9] Ag. assert (A : agree_on m m' h size) by (intros b Hb; by apply Ag).
  destruct (ehdr_agree m m' h size A) as (E1 & E2 & _); [apply F1|]. pose proof (e_phoff_range m h).
  assert (Hl : ∀ j, 0 <= j < e_phnum m h →
    load_phdr m' (h + e_phoff m h + sizeof_phdr * j) = load_phdr m (h + e_phoff m h + sizeof_phdr * j)).
  { intros j Hj. apply load_phdr_agree. unfold sizeof_phdr in *. eapply agree_on_sub; [exact A|nia..]. }
  constructor; rewrite ?E1, ?E2; try assumption.
  - intros b Hb. by apply Ag.
  - rewrite Hl by lia. exact F5.
  - intros j Hj Hne. unfold is_load. rewrite Hl by done. by apply F7.
Qed.

(** The pages that a segment covers. *)
Definition seg_pages (hd : phdr) : nat :=
  Z.to_nat ((p_vaddr hd + p_memsz hd + (- (p_vaddr hd + p_memsz hd)) mod PAGE_SIZE - (p_vaddr hd - p_vaddr hd mod PAGE_SIZE)) / PAGE_SIZE).

Lemma phdr_range m a : 0 <= p_vaddr (load_phdr m a) ∧ 0 <= p_filesz (load_phdr m a) ∧ 0 <= p_offset (load_phdr m a).
Proof. split_and!; apply load64_range. Qed.

(** What the loop over the headers leaves: the segment in the new space, the
    upper half and the settled bytes as they were, but for the list of areas. *)
Lemma load_program g m R T P h size k hd :
  wf g m R T → program_file g T m h size k hd → (∀ b, P <= b < P + block_size_ → settled g T b) →
  0 <= P → P + block_size_ <= 2 ^ 31 → (∀ b, h <= b < h + size → ¬ P <= b < P + block_size_) →
  load64 m (P + t_pml4) = VADDR R → load64 m (P + t_mm) = VADDR (P + sizeof_task) → load64 m (P + sizeof_task + 8) = 0 →
  (4 * seg_pages hd + 1 <= pool_avail mf g)%nat → (seg_pages hd < fuel)%nat →
  ∃ g' T' m', load_segments fuel mf fl (Z.to_nat (e_phnum m h)) m (VADDR P) (VADDR h) (VADDR h +64 e_phoff m h) = Some (m', []) ∧
    wf g' m' R T' ∧
    (∀ i, 0 <= i < p_memsz hd → ∃ b, vphys m' R (p_vaddr hd + i) = Some b ∧ (settled g' T' b ∧ ¬ settled g T b) ∧
       rd m' b = if i <? p_filesz hd then rd m (h + p_offset hd + i) else 0) ∧
    (∀ a, 2 ^ 47 <= a < 2 ^ 48 → translate m' R a = translate m R a) ∧
    ∀ b, settled g T b → settled g' T' b ∧ (¬ P + sizeof_task <= b < P + sizeof_task + 16 → rd m' b = rd m b).
Proof.
  intros Hwf HF Hset HP1 HP2 Hdis Hpml Hmm Hmap Hav Hfu. pose proof HF as [(F1 & F1' & F1'') F2 F3 F4 F5 F6 F7 F8 (F9 & F10 & F11)].
  pose proof (phdr_range m (h + e_phoff m h + sizeof_phdr * Z.of_nat k)) as (R1 & R2 & R3). rewrite F5 in R1, R2, R3.
  pose proof (e_phoff_range m h) as R4.
  assert (Esrc : phys (VADDR h +64 p_offset hd) = h + p_offset hd) by (rewrite VADDR_add, phys_VADDR by lia; done).
  destruct (load_segment_spec fuel mf fl N g m R T (VADDR h) hd Hwf) as (g1 & m1 & T1 & E1 & W1 & B1 & O1 & K1 & A1);
    [exact (Nat.le_trans _ _ _ (Nat.le_add_r _ 1) Hav)|exact Hfu|exact R1|unfold PAGE_SIZE; lia|lia|exact F10|rewrite Esrc; intros j Hj; apply F2; lia|].
  fold (seg_pages hd) in A1. rewrite Esrc in B1.
  assert (Hblk : ∀ b, P <= b < P + block_size_ → settled g1 T1 b ∧ rd m1 b = rd m b) by (intros b Hb; by apply K1, Hset).
  assert (L1 : ∀ a, P <= a → a + 8 <= P + block_size_ → load64 m1 a = load64 m a).
  { intros a H1 H2. apply load_agree. intros b Hb. apply Hblk. lia. }
  destruct (record_vma_spec g1 m1 R T1 (P + sizeof_task) (VADDR h) hd W1) as (g2 & m2 & E2 & W2 & V2 & K2).
  { unfold ps_avail in A1. cbn in A1. lia. }
  { task_fields. lia. }
  { task_fields. lia. }
  { intros b Hb. apply Hblk. task_fields. lia. }
  { rewrite L1 by (task_fields; lia). exact Hmap. }
  exists g2, T1, m2.
  assert (KF : ∀ b, h <= b < h + size → rd m2 b = rd m b).
  { intros b Hb. destruct (K1 b (F2 b Hb)) as [S1 S2]. rewrite (proj2 (K2 b S1)); [exact S2|].
    specialize (Hdis b Hb). task_fields. lia. }
  split; [|split; [exact W2|split; [|split]]].
  - replace (Z.to_nat (e_phnum m h)) with (k + S (Z.to_nat (e_phnum m h) - k - 1))%nat by lia. rewrite VADDR_add.
    assert (Ep : phys (VADDR P) = P) by (apply phys_VADDR; task_fields; lia).
    apply (load_segments_one k _ m (VADDR P) (VADDR h) (h + e_phoff m h) m1 m2); rewrite ?Ep, ?F5.
    + lia.
    + unfold sizeof_phdr in *. nia.
    + intros j Hj. apply F7; lia.
    + exact F6.
    + exact F9.
    + rewrite Hpml. exact E1.
    + rewrite L1 by (task_fields; lia). rewrite Hmm. exact E2.
    + intros j Hj. unfold is_load. rewrite (load_phdr_agree m m2).
      * apply F7; lia.
      * intros b Hb. apply KF. unfold sizeof_phdr in *. nia.
  - intros i Hi. destruct (B1 i Hi) as (b & Eb & [S1 S2] & Hr). exists b. rewrite V2. split; [exact Eb|].
    destruct (K2 b S1) as [S3 S4]. split; [by split|]. rewrite S4; [exact Hr|]. intros Hin. apply S2, Hset. task_fields. lia.
  - intros a Ha. transitivity (translate m1 R a); [apply vphys_translate, V2|]. apply O1; [lia|]. unfold PAGE_SIZE in *. lia.
  - intros b Hb. destruct (K1 b Hb) as [S1 S2]. destruct (K2 b S1) as [S3 S4]. split; [exact S3|]. intros Hn. by rewrite S4.
Qed.

(** ** elf_run_bin *)

Lemma task_fields_agree m m' P R PID parent name :
  (length name < 104)%nat → agree_on m m' (P + t_pid) (t_entry - t_pid) →
  task_fields_at m P R PID parent name → task_fields_at m' P R PID parent name.
Proof.
  intros Hl Ag [H1 H2 H3 H4 H5 H6].
  constructor; try (etransitivity; [apply load_agree; eapply agree_on_sub; [exact Ag|task_fields; lia..]|assumption]).
  eapply cstr_agree; [exact H6|]. eapply agree_on_sub; [exact Ag|task_fields; lia..].
Qed.

(** What the caller gives: the kernel's space with a run of ten free pages and
    enough pages after it, the file, its name and the arguments. *)
Record run_bin_ok (g : list page) (m : mem) (kroot : Z) (T : gmap (list Z) Z) (h size : Z) (k : nat) (hd : phdr)
    (F : Z) (name : list Z) (argc argv : Z) : Prop := {
  rb_wf : wf g m kroot T;
  rb_run : ∃ j, free_run g j 10 ∧ (S j < mf)%nat;
  rb_avail : (15 + 4 * seg_pages hd <= pool_avail mf g)%nat;
  rb_fuel : (seg_pages hd < fuel)%nat ∧ (length name < fuel)%nat;
  rb_file : program_file g T m h size k hd;
  rb_name : cstr m (phys F) name ∧ (length name < 104)%nat;
  rb_name_settled : ∀ b, phys F <= b <= phys F + Z.of_nat (length name) → settled g T b;
  rb_argc : 0 <= argc <= 14;
  rb_argv : ∀ b, phys argv <= b < phys argv + 8 * argc → settled g T b;
}.

(** What the user finds in the new address space: the segment and the stack,
    apart from the task structure at [P]. *)
Record user_space (m m' : mem) (P R h : Z) (hd : phdr) (us : Z) : Prop := {
  us_segment : ∀ i, 0 <= i < p_memsz hd → ∃ b, vphys m' R (p_vaddr hd + i) = Some b ∧ ¬ P <= b < P + block_size_ ∧
    rd m' b = if i <? p_filesz hd then rd m (h + p_offset hd + i) else 0;
  us_stack : ∀ i, 0 <= i < PAGE_SIZE → ∃ b, vphys m' R (us + i) = Some b ∧ ¬ P <= b < P + block_size_ ∧ rd m' b = 0;
  us_place : 2 ^ 47 < us < 2 ^ 64 - PAGE_SIZE;
}.

(** A task whose stacks are prepared and whose segments are not yet loaded. *)
Record task_ready (g : list page) (m : mem) (R : Z) (T : gmap (list Z) Z) (P PID parent : Z) (name : list Z)
    (isr32 us U : Z) (regs : reg → Z) : Prop := {
  ty_wf : wf g m R T;
  ty_block : ∀ b, P <= b < P + block_size_ → settled g T b;
  ty_range : 0 <= P ∧ P + block_size_ <= 2 ^ 31;
  ty_fields : task_fields_at m P R PID parent name;
  ty_areas : load64 m (P + sizeof_task + 8) = 0;
  ty_stack : stack_at g m R T us U;
  ty_apart : ∀ b, P <= b < P + block_size_ → ¬ in_page U b;
  ty_ready : stack_ready m P (VADDR P) isr32 (us +64 8 * 511) regs;
}.

(** The rest of [elf_run_bin]: the segments and the entry point. *)
Definition load_and_enter (m : mem) (P h : Z) : option (mem * list elf_msg) :=
  '(m, msgs) ← load_segments fuel mf fl (Z.to_nat (e_phnum m h)) m (VADDR P) (VADDR h) (VADDR h +64 e_phoff m h);
  let m := store64 m (P + t_entry) (e_entry m h) in
  Some (store64 m (P + t_kstack 507) (load64 m (P + t_entry)), msgs).

Lemma some_bind {A B} (f : A → option B) x : (Some x ≫= f) = f x.
Proof. reflexivity. Qed.

(** The binds are reduced one at a time: the page-wise loops below them are
    long. *)
Lemma elf_run_bin_steps m m1 m2 m3 m4 m7 P R K PID parent isr32 h F argc argv us :
  kmalloc mf fl m sizeof_page = Some (VADDR R, m1) → kmalloc mf fl m1 sizeof_task = Some (VADDR P, m2) →
  init_pcb fuel m2 (VADDR P) (VADDR R) PID parent F K = Some m3 →
  phys (VADDR P) = P → phys (VADDR h) = h → load64 m3 (P + t_pml4) = VADDR R →
  kmalloc_stack mf fl m3 1 (VADDR R) = Some (us, m4) →
  (let m' := memset (store64 m4 (P + t_ustack) us) (P + t_kstack 0) 0 4096 in
   vfill m' (load64 m' (P + t_cr3)) us 0 4096 = Some m7) →
  elf_run_bin fuel mf fl m PID parent K isr32 (VADDR h) F argc argv =
    ('(m'', msgs) ← load_and_enter (init_kstack m7 (VADDR P) isr32 argc argv) P h; Some (VADDR P, i32 (PID + 1), m'', msgs)).
Proof.
  intros E1 E2 E3 Ep Eh Epm E4 E7. unfold elf_run_bin. rewrite E1, some_bind. cbv beta iota. rewrite E2, some_bind. cbv beta iota.
  rewrite E3, some_bind. cbv beta iota zeta. rewrite Ep, Epm, E4, some_bind. cbv beta iota zeta in E7 |- *. rewrite E7, some_bind, Eh.
  unfold load_and_enter. destruct (load_segments _ _ _ _ _ _ _ _) as [[m9 msgs]|]; reflexivity.
Qed.

Lemma build_task g m kroot T h size k hd PID parent isr32 F name argc argv :
  run_bin_ok g m kroot T h size k hd F name argc argv →
  ∃ P R us U g' T' m', elf_run_bin fuel mf fl m PID parent (VADDR kroot) isr32 (VADDR h) F argc argv =
      ('(m'', msgs) ← load_and_enter m' P h; Some (VADDR P, i32 (PID + 1), m'', msgs)) ∧
    task_ready g' m' R T' P PID parent name isr32 us U (start_reg m argc argv) ∧
    (pool_avail mf g <= 14 + pool_avail mf g')%nat ∧ pool_free g P ∧
    ∀ b, settled g T b → ¬ P <= b < P + block_size_ ∧ settled g' T' b ∧ rd m' b = rd m b.
Proof.
  intros [Hwf (j & Hrun & Hj) Hav [Hfu1 Hfu2] HF [Hn1 Hn2] Hns Hargc Hargv].
  destruct (take_pages g m kroot T j Hwf Hrun Hj) as (R & P & g2 & m1 & m2 & E1 & E2 & PT).
  destruct (build_space g m kroot T R P g2 m2 PID parent F name PT Hn1 Hfu2 Hn2 Hns) as (m3 & E3 & W3 & K3 & TF3 & Z3 & B3).
  pose proof PT as [_ _ Av2 _ HP _ _ (P1 & P2 & P3) Hpf].
  assert (Hout : ∀ b, settled g T b → ¬ P <= b < P + block_size_) by (intros b Hb Hin; by destruct (HP b Hin) as (_ & ? & _)).
  destruct (build_stacks g2 m3 R (space_of T R) P isr32 argc argv) as (us & U & g4 & m4 & m7 & T4 & E4 & E7 & W8 & Av4 & SA & SR & HU & K8);
    [exact W3|lia|exact B3|exact P2|exact P3|apply TF3|exact Hargc| |].
  { intros b Hb. specialize (Hargv b Hb). split; [by apply K3|by apply Hout]. }
  set (m8 := init_kstack m7 (VADDR P) isr32 argc argv) in *. exists P, R, us, U, g4, T4, m8.
  assert (Ep : phys (VADDR P) = P) by (apply phys_VADDR; task_fields; lia).
  assert (Eh : phys (VADDR h) = h) by (pose proof (pf_range _ _ _ _ _ _ _ HF); apply phys_VADDR; lia).
  split; [|split; [|split; [lia|split; [exact Hpf|]]]].
  - exact (elf_run_bin_steps m m1 m2 m3 m4 m7 P R (VADDR kroot) PID parent isr32 h F argc argv us E1 E2 E3 Ep Eh
      (tf_pml4 _ _ _ _ _ _ TF3) E4 E7).
  - constructor; [exact W8|intros b Hb; by apply K8, B3|by split| | |exact SA|intros b Hb; by apply HU, B3|].
    + eapply task_fields_agree; [exact Hn2| |exact TF3]. intros b Hb. apply K8; [apply B3; task_fields; lia|task_fields; lia].
    + rewrite <- Z3. apply load_agree. intros b Hb. apply K8; [apply B3; task_fields; lia|task_fields; lia].
    + destruct SR as [H1 H2 H3 H4 H5 H6 H7]. constructor; [exact H1|exact H2| |exact H4|exact H5|exact H6|exact H7].
      intros r. rewrite H3. apply start_reg_agree. intros b Hb. by apply K3, Hargv.
  - intros b Hb. split; [by apply Hout|]. destruct (K3 b Hb) as [S1 S2]. destruct (K8 b S1) as [S3 S4]. split; [exact S3|].
    rewrite S4; [exact S2|]. intros Hin. apply (Hout b Hb). task_fields. lia.
Qed.

Lemma finish_task g m R T P PID parent name isr32 us U regs h size k hd :
  task_ready g m R T P PID parent name isr32 us U regs → program_file g T m h size k hd →
  (∀ b, h <= b < h + size → ¬ P <= b < P + block_size_) → (length name < 104)%nat →
  (4 * seg_pages hd + 1 <= pool_avail mf g)%nat → (seg_pages hd < fuel)%nat →
  ∃ m' g' T', load_and_enter m P h = Some (m', []) ∧ task_fields_at m' P R PID parent name ∧ user_space m m' P R h hd us ∧
    (∀ b, settled g T b → ¬ P <= b < P + block_size_ → rd m' b = rd m b) ∧
    stack_ready m' P (VADDR P) isr32 (us +64 8 * 511) regs ∧ load64 m' (P + t_kstack 507) = e_entry m h ∧
    wf g' m' R T' ∧ ∀ b, P <= b < P + block_size_ → settled g' T' b.
Proof.
  intros [W B [P1 P2] TF Z SA AP SR] HF Hout Hl Hav Hfu.
  pose proof (pf_settled _ _ _ _ _ _ _ HF) as HFs. pose proof (pf_range _ _ _ _ _ _ _ HF) as (F1 & F2 & F3).
  destruct (load_program g m R T P h size k hd W HF B P1 P2 Hout (tf_pml4 _ _ _ _ _ _ TF) (tf_mm _ _ _ _ _ _ TF) Z Hav Hfu)
    as (g9 & T9 & m9 & E9 & W9 & SEG & O9 & K9).
  destruct (ehdr_agree m m9 h size) as (_ & _ & He); [|exact F2|].
  { intros b Hb. apply (K9 b (HFs b Hb)). intros Hin. apply (Hout b Hb). task_fields. lia. }
  unfold load_and_enter. rewrite E9. cbn [mbind option_bind]. eexists _, g9, T9. split; [reflexivity|]. rewrite He.
  set (m10 := store64 m9 (P + t_entry) (e_entry m h)).
  assert (L10 : load64 m10 (P + t_entry) = e_entry m h) by (unfold m10; rewrite load64_store64_eq; apply u64_small, load64_range).
  rewrite L10. set (m11 := store64 m10 (P + t_kstack 507) (e_entry m h)).
  assert (F11 : ∀ b, ¬ P + t_entry <= b < P + t_entry + 8 → ¬ P + t_kstack 507 <= b < P + t_kstack 508 → rd m11 b = rd m9 b).
  { intros b H1 H2. unfold m11, m10. task_fields. by task_loads. }
  assert (Fb : ∀ b, P <= b < P + t_entry → ¬ P + t_kstack 507 <= b < P + t_kstack 508 → rd m11 b = rd m b).
  { intros b H1 H2. rewrite F11 by (task_fields; lia). apply K9; [apply B; task_fields; lia|task_fields; lia]. }
  assert (Fo : ∀ b, ¬ P <= b < P + block_size_ → rd m11 b = rd m9 b) by (intros b Hb; apply F11; task_fields; lia).
  destruct (wf_data (L := program_laws) g9 m9 R T9 m11 W9) as [W11 V11].
  { intros b Hb. apply Fo. intros Hin. apply Hb. by apply K9, B. }
  split; [|split; [|split; [|split; [|split; [|split; [exact W11|intros b Hb; by apply K9, B]]]]]].
  - eapply task_fields_agree; [exact Hl| |exact TF]. intros b Hb. apply Fb; task_fields; lia.
  - destruct SA as [(-> & U1 & U2) SM SZ]. constructor.
    + intros i Hi. destruct (SEG i Hi) as (b & Eb & [_ S2] & Hr). exists b. rewrite V11. split; [exact Eb|].
      assert (Hb' : ¬ P <= b < P + block_size_) by (intros Hin; by apply S2, B). split; [exact Hb'|]. by rewrite Fo.
    + intros i Hi. exists (U + i). destruct (SZ (U + i)) as [S1 S2]; [unfold in_page; lia|]. rewrite V11.
      assert (Hi' : ¬ P <= U + i < P + block_size_) by (intros Hin; apply (AP _ Hin); unfold in_page; lia). split; [|split; [exact Hi'|]].
      * rewrite <- (SM i Hi). unfold vphys. f_equal. rewrite <- (translate_low48 m9), <- (translate_low48 m).
        apply O9. unfold bumpPtr, PAGE_SIZE in *. lia.
      * rewrite Fo by exact Hi'. rewrite <- S2. apply K9; [exact S1|]. task_fields. lia.
    + unfold bumpPtr, PAGE_SIZE in *. lia.
  - intros b Hb Hn. rewrite Fo by exact Hn. apply K9; [exact Hb|]. task_fields. lia.
  - eapply stack_ready_agree; [|exact SR]. intros b Hb1 Hb2. apply Fb; [task_fields; lia|exact Hb2].
  - unfold m11. rewrite load64_store64_eq. apply u64_small, load64_range.
Qed.

(** A task that is loaded: its record, its memory and the stack from which the
    first switch returns. *)
Record program_loaded (g : list page) (T : gmap (list Z) Z) (m m' : mem) (P R h : Z) (hd : phdr) (us PID parent : Z) (name : list Z)
    (isr32 argc argv : Z) : Prop := {
  pl_pcb : pcb_at (VADDR P) P;
  pl_free : pool_free g P;
  pl_fields : task_fields_at m' P R PID parent name;
  pl_space : user_space m m' P R h hd us;
  pl_kept : ∀ b, settled g T b → ¬ P <= b < P + block_size_ ∧ rd m' b = rd m b;
  pl_ready : stack_ready m' P (VADDR P) isr32 (us +64 8 * 511) (start_reg m argc argv);
  pl_entry : load64 m' (P + t_kstack 507) = e_entry m h;
  pl_wf : ∃ g' T', wf g' m' R T' ∧ ∀ b, P <= b < P + block_size_ → settled g' T' b;
}.

Lemma elf_run_bin_spec g m kroot T h size k hd PID parent isr32 F name argc argv :
  run_bin_ok g m kroot T h size k hd F name argc argv →
  ∃ P R us m', elf_run_bin fuel mf fl m PID parent (VADDR kroot) isr32 (VADDR h) F argc argv =
      Some (VADDR P, i32 (PID + 1), m', []) ∧ program_loaded g T m m' P R h hd us PID parent name isr32 argc argv.
Proof.
  intros Hok. destruct (build_task g m kroot T h size k hd PID parent isr32 F name argc argv Hok)
    as (P & R & us & U & g' & T' & m8 & E & TR & Av & Hpf & K). pose proof Hok as [_ _ Hav [Hfu _] HF [_ Hl] _ _ _].
  pose proof (pf_settled _ _ _ _ _ _ _ HF) as HFs. pose proof (pf_range _ _ _ _ _ _ _ HF) as (F1 & F2 & F3).
  assert (A8 : agree_on m m8 h size) by (intros b Hb; by apply K, HFs).
  destruct (finish_task g' m8 R T' P PID parent name isr32 us U (start_reg m argc argv) h size k hd TR)
    as (m' & g9 & T9 & E' & TF & [U1 U2 U3] & Fr & SR & En & W9 & B9); [|intros b Hb; by apply K, HFs|exact Hl|lia|exact Hfu|].
  { eapply program_file_agree; [exact HF|]. intros b Hb. split; by apply K, HFs. }
  exists P, R, us, m'. split; [by rewrite E, E'|]. destruct (ty_range _ _ _ _ _ _ _ _ _ _ _ _ TR) as [P1 P2].
  constructor; [split; [done|task_fields; lia]|exact Hpf|exact TF| | |exact SR| |by exists g9, T9].
  - constructor; [|exact U2|exact U3]. intros i Hi. destruct (U1 i Hi) as (b & Eb & Hb & Hr). exists b. split; [exact Eb|].
    split; [exact Hb|]. rewrite Hr. destruct (Z.ltb_spec i (p_filesz hd)) as [Hlt|]; [|done]. apply A8.
    pose proof (pf_data _ _ _ _ _ _ _ HF). pose proof (phdr_range m (h + e_phoff m h + sizeof_phdr * Z.of_nat k)) as (_ & _ & R3).
    rewrite (pf_segment _ _ _ _ _ _ _ HF) in R3. lia.
  - intros b Hb. destruct (K b Hb) as (K1 & K2 & K3). split; [exact K1|]. by rewrite Fr.
  - rewrite En. by apply (ehdr_agree m m8 h size A8 F2).
Qed.

(** The first switch to a loaded task. *)
Definition enters_program (code : Z → option instr) (C : cfun → machine → option machine) (m m' : mem) (P h us argc argv : Z) : Prop :=
  ∀ c, m_mem c = m' → ∃ c', steps code C (switch_return (load64 m' P) c) c' ∧
    m_rip c' = e_entry m h ∧ m_cs c' = 0x1b ∧ m_ss c' = 0x23 ∧ m_rsp c' = us + 8 * 511 ∧
    Z.testbit (m_rflags c') IF_BIT = true ∧ gpr c' RAX = argc ∧
    (∀ r, 1 <= place r <= argc → gpr c' r = load64 m (phys argv + 8 * (place r - 1))) ∧ m_mem c' = m'.

Lemma loaded_enters code C g T m m' P R h hd us PID parent name isr32 argc argv :
  program_loaded g T m m' P R h hd us PID parent name isr32 argc argv → placed code isr32 isr32_code →
  enters_program code C m m' P h us argc argv.
Proof.
  intros PL Hcode c Hm. pose proof (us_place _ _ _ _ _ _ _ (pl_space _ _ _ _ _ _ _ _ _ _ _ _ _ _ _ PL)) as U3.
  destruct (launch_ready code C isr32 (VADDR P) P m' c _ _ Hcode (pl_pcb _ _ _ _ _ _ _ _ _ _ _ _ _ _ _ PL)
    (pl_ready _ _ _ _ _ _ _ _ _ _ _ _ _ _ _ PL) Hm) as (c' & S & G & E1 & E2 & E3 & E4 & E5 & E6).
  exists c'. split; [exact S|]. split; [by rewrite E1, (pl_entry _ _ _ _ _ _ _ _ _ _ _ _ _ _ _ PL)|]. split; [exact E2|].
  split; [exact E3|]. split; [rewrite E5; apply u64_small; unfold PAGE_SIZE in U3; lia|]. split; [by rewrite E4|].
  split; [by rewrite G|]. split; [|exact E6]. intros r Hr. rewrite G. unfold start_reg.
  by rewrite (proj2 (Z.eqb_neq (place r) 0)), (proj2 (Z.leb_le (place r) argc)) by lia.
Qed.

(** C9: a program file becomes a running program.  In a kernel with a run of ten
    free pages and enough pages after it, [elf_run_bin] on a file with one
    segment to load returns the task under the next pid: its fields name it, its
    parent and its own tables, through which the processor finds the bytes of the
    segment, zeros behind them and a cleared stack; nothing else that was in use
    is written.  The first switch to the task arrives in user mode at the entry
    point of the file, on that stack, with argc in rax, the arguments in the
    registers from which [_start] takes them, and interrupts on. *)
Theorem loaded_program_starts code C g m kroot T h size k hd PID parent isr32 F name argc argv :
  run_bin_ok g m kroot T h size k hd F name argc argv → placed code isr32 isr32_code →
  ∃ P R us m', elf_run_bin fuel mf fl m PID parent (VADDR kroot) isr32 (VADDR h) F argc argv =
      Some (VADDR P, i32 (PID + 1), m', []) ∧
    task_fields_at m' P R PID parent name ∧ user_space m m' P R h hd us ∧ (∀ b, settled g T b → rd m' b = rd m b) ∧
    enters_program code C m m' P h us argc argv.
Proof.
  intros Hok Hcode. destruct (elf_run_bin_spec g m kroot T h size k hd PID parent isr32 F name argc argv Hok)
    as (P & R & us & m' & E & PL). exists P, R, us, m'. split; [exact E|]. split; [apply PL|]. split; [apply PL|].
  split; [intros b Hb; by apply PL|by eapply loaded_enters].
Qed.
End Program.

(** ** A program in the memory after boot

    The file at 1500000 has one header; its segment of 512 bytes, five of them in
    the file, goes to 0x400100.  Its name is [sh], its argument 42. *)
Definition small_file (m : mem) : mem :=
  let h := 1500000 in
  let m := store64 m (h + 24) 0x400123 in
  let m := store64 m (h + 32) 64 in
  let m := store 2 m (h + 56) 1 in
  let m := store 4 m (h + 64) 1 in
  let m := store 4 m (h + 68) 5 in
  let m := store64 m (h + 72) 120 in
  let m := store64 m (h + 80) 0x400100 in
  let m := store64 m (h + 96) 5 in
  let m := store64 m (h + 104) 512 in
  let m := store 5 m (h + 120) 0x0908070605 in
  let m := store 3 m (h + 200) 0x006873 in
  store64 m (h + 208) 42.

Lemma small_file_frame m b : ¬ 1500000 <= b < 1500216 → rd (small_file m) b = rd m b.
Proof. intros H. unfold small_file. cbv zeta. by task_loads. Qed.

Ltac file_loads := unfold small_file; cbv zeta; unfold load64, store64; repeat rewrite load_store_ne by lia;
  rewrite load_store_eq; reflexivity.

Lemma small_file_header m :
  e_entry (small_file m) 1500000 = 0x400123 ∧ e_phoff (small_file m) 1500000 = 64 ∧ e_phnum (small_file m) 1500000 = 1 ∧
  load_phdr (small_file m) 1500064 = Phdr 1 5 120 0x400100 5 512 ∧ load64 (small_file m) 1500208 = 42.
Proof.
  unfold e_entry, e_phoff, e_phnum. split; [file_loads|]. split; [file_loads|]. split; [file_loads|]. split; [|file_loads].
  unfold load_phdr. f_equal; file_loads.
Qed.

Lemma small_file_name m : cstr (small_file m) 1500200 [115; 104].
Proof.
  assert (E : ∀ b, load 1 (small_file m) b = rd (small_file m) b) by (intros b; cbn [load]; lia).
  assert (L : load 3 (small_file m) 1500200 = 0x006873) by file_loads. cbn [load] in L.
  pose proof (rd_range (small_file m) 1500200). pose proof (rd_range (small_file m) (1500200 + 1)).
  pose proof (rd_range (small_file m) (1500200 + 1 + 1)). cbn [cstr]. lia.
Qed.

(** The kernel's space: a root page without entries, the file behind the pool. *)
Lemma small_kernel : ∃ g m, let root := PAGE_SIZE * 3 in run_bin_ok 10 341 4096 341 g (small_file m) root {[ [] := root ]} 1500000 200 0 (Phdr 1 5 120 0x400100 5 512)
  (VADDR 1500200) [115; 104] 1 (VADDR 1500208).
Proof.
  destruct (kmalloc_init_ok 341 boot_mem 4096 boot_pages 1 3 boot_pool) as (m & E & A);
    [lia|exact boot_first_fit|rewrite length_boot_pages; change (npages 1) with 1%nat; lia|lia|].
  change (npages 1) with 1%nat in A. pose proof (alloc_post_granted 341 4096 341 boot_pages boot_mem 3 m boot_inv A) as G.
  change (PAGE_SIZE * Z.of_nat 3) with (PAGE_SIZE * 3) in *. exists (mark boot_pages 3 1), m. intros root.
  pose proof (wf_fresh_root (L := boot_laws) _ _ _ _ _ boot_inv G) as W.
  assert (Hset : ∀ b, 1500000 <= b < 1500300 → settled 341 4096 341 (mark boot_pages 3 1) {[ [] := root ]} b).
  { intros b Hb. split; [split|].
    - cbn. unfold pool_private, sizeof_page. lia.
    - intros π t Ht. apply lookup_singleton_Some in Ht as [_ <-]. unfold root, in_page, PAGE_SIZE. lia.
    - intros q (i & r & -> & Hi & _). apply lookup_lt_Some in Hi. rewrite length_mark, length_boot_pages in Hi.
      unfold in_page, PAGE_SIZE. lia. }
  destruct (small_file_header m) as (H1 & H2 & H3 & H4 & H5). constructor.
  - apply (wf_data (L := boot_laws) _ m); [exact W|]. intros b Hb. apply small_file_frame. intros Hr. apply Hb. by apply Hset; lia.
  - exists 4%nat. split; [|lia]. split; [eexists; split; vm_compute; reflexivity|]. vm_compute. discriminate.
  - apply Nat.leb_le. vm_compute. reflexivity.
  - split; apply Nat.ltb_lt; vm_compute; reflexivity.
  - constructor; rewrite ?H2, ?H3; [lia|intros b Hb; apply Hset; lia|unfold sizeof_phdr; lia|lia|exact H4|reflexivity| |cbn; lia|cbn; lia].
    intros j Hj Hne. lia.
  - split; [|cbn; lia]. rewrite phys_VADDR by lia. apply small_file_name.
  - rewrite phys_VADDR by lia. cbn [length]. intros b Hb. apply Hset. lia.
  - lia.
  - rewrite phys_VADDR by lia. intros b Hb. apply Hset. lia.
Qed.

Lemma loaded_program_starts_witness :
  ∃ m P m' c', elf_run_bin 10 341 4096 m 3 1 (VADDR (PAGE_SIZE * 3)) (demo_isr 32) (VADDR 1500000) (VADDR 1500200) 1 (VADDR 1500208)
      = Some (VADDR P, 4, m', []) ∧
    steps (code_of (demo_isr 32) isr32_code) return_at_once (switch_return (load64 m' P) (set_mem demo_machine m')) c' ∧
    m_rip c' = 0x400123 ∧ gpr c' RAX = 1 ∧ gpr c' RBX = 42.
Proof.
  destruct small_kernel as (g & m & Hok). destruct (small_file_header m) as (H1 & _ & _ & _ & H5).
  destruct (loaded_program_starts 10 341 4096 341 (code_of (demo_isr 32) isr32_code) return_at_once g (small_file m) (PAGE_SIZE * 3)
    {[ [] := PAGE_SIZE * 3 ]} 1500000 200 0 (Phdr 1 5 120 0x400100 5 512) 3 1 (demo_isr 32) (VADDR 1500200) [115; 104] 1 (VADDR 1500208))
    as (P & R & us & m' & E & _ & _ & _ & H).
  - exact Hok.
  - apply placed_code_of; vm_compute; [discriminate|reflexivity].
  - destruct (H (set_mem demo_machine m') eq_refl) as (c' & S & E1 & _ & _ & _ & _ & E2 & E3 & _).
    exists (small_file m), P, m', c'. split; [exact E|]. split; [exact S|]. split; [by rewrite E1|]. split; [exact E2|].
    rewrite E3 by (cbn; lia). rewrite phys_VADDR by lia. exact H5.
Defined.
