(* ===== verification/ForkChild.v ===== *)
(** * ForkChild: where the child of sys_fork starts

    The registers that the trap left on the parent's kernel stack go through a
    temporary page to the child's, and the user stack is copied; the child then
    starts like any task that has not run. *)
From S2P Require Import Prelude Memory Utils PageSource Mem Paging Region Console Tarfs Elf ElfProps Process Fork Interrupts Stubs StubsProps Launch.

(** ** A page of user memory *)

(** The addresses of the entries the processor reads for [va]. *)
Definition walk (m : mem) (root va : Z) : list Z :=
  let a4 := root + 8 * PAGE_PML4_INDEX va in
  match hw_step m root (PAGE_PML4_INDEX va) with
  | None => [a4]
  | Some t3 =>
      let a3 := t3 + 8 * PAGE_PDP_INDEX va in
      match hw_step m t3 (PAGE_PDP_INDEX va) with
      | None => [a4; a3]
      | Some t2 =>
          let a2 := t2 + 8 * PAGE_DIR_INDEX va in
          match hw_step m t2 (PAGE_DIR_INDEX va) with
          | None => [a4; a3; a2]
          | Some t1 => [a4; a3; a2; t1 + 8 * PAGE_TABLE_INDEX va]
          end
      end
  end.

(** No entry of the walk is in the [n] bytes at [a]. *)
Definition walk_off (m : mem) (root va a n : Z) : Prop := Forall (λ e, disj a n e 8) (walk m root va).

Lemma hw_step_agree m m' t i : load64 m' (t + 8 * i) = load64 m (t + 8 * i) → hw_step m' t i = hw_step m t i.
Proof. intros E. unfold hw_step, entry. by rewrite E. Qed.

Lemma walk_agree m m' root va :
  Forall (λ e, load64 m' e = load64 m e) (walk m root va) →
  translate m' root va = translate m root va ∧ walk m' root va = walk m root va.
Proof.
  unfold walk, translate. intros H.
  assert (E4 : hw_step m' root (PAGE_PML4_INDEX va) = hw_step m root (PAGE_PML4_INDEX va)).
  { apply hw_step_agree. destruct (hw_step m root _) as [t3|]; [|by apply Forall_cons in H as [? _]].
    destruct (hw_step m t3 _) as [t2|]; [|by apply Forall_cons in H as [? _]].
    destruct (hw_step m t2 _) as [t1|]; by apply Forall_cons in H as [? _]. }
  rewrite E4. destruct (hw_step m root _) as [t3|]; [|done]. cbn [mbind option_bind].
  assert (E3 : hw_step m' t3 (PAGE_PDP_INDEX va) = hw_step m t3 (PAGE_PDP_INDEX va)).
  { apply hw_step_agree. destruct (hw_step m t3 _) as [t2|]; [|by do 2 apply Forall_cons in H as [? H]].
    destruct (hw_step m t2 _) as [t1|]; by do 2 apply Forall_cons in H as [? H]. }
  rewrite E3. destruct (hw_step m t3 _) as [t2|]; [|done]. cbn [mbind option_bind].
  assert (E2 : hw_step m' t2 (PAGE_DIR_INDEX va) = hw_step m t2 (PAGE_DIR_INDEX va)).
  { apply hw_step_agree. destruct (hw_step m t2 _) as [t1|]; by do 3 apply Forall_cons in H as [? H]. }
  rewrite E2. destruct (hw_step m t2 _) as [t1|]; [|done]. cbn [mbind option_bind]. split; [|done].
  apply hw_step_agree. by do 4 apply Forall_cons in H as [? H].
Qed.

(** The page at [va] is the frame [U]. *)
Record user_page (m : mem) (root va U : Z) : Prop := {
  up_align : va mod PAGE_SIZE = 0;
  up_range : 0 <= va ∧ va + PAGE_SIZE <= 2 ^ 64;
  up_frame : translate m root va = Some U;
}.

Lemma user_page_byte m root va U k : user_page m root va U → 0 <= k < PAGE_SIZE → vphys m root (va + k) = Some (U + k).
Proof.
  intros [Ha Hr Hf] Hk. unfold vphys. rewrite translate_same_page, Hf by done. cbn [mbind option_bind]. f_equal.
  unfold PAGE_SIZE in *. lia.
Qed.

Lemma user_page_agree m m' root va U a n :
  user_page m root va U → walk_off m root va a n → (∀ b k, disj a n b k → agree_on m m' b k) →
  user_page m' root va U ∧ walk m' root va = walk m root va.
Proof.
  intros [Ha Hr Hf] Hw Hag. destruct (walk_agree m m' root va) as [E1 E2].
  { eapply Forall_impl; [exact Hw|]. intros e He. by apply load_agree, Hag. }
  split; [|exact E2]. constructor; try done. by rewrite E1.
Qed.

Lemma vload_user n : ∀ m root va U k,
  user_page m root va U → 0 <= k → k + Z.of_nat n <= PAGE_SIZE → vload n m root (va + k) = Some (load n m (U + k)).
Proof.
  induction n as [|n IH]; intros m root va U k Hu Hk Hn; [done|]. cbn [vload].
  rewrite (user_page_byte m root va U k) by (done || lia). cbn [mbind option_bind].
  replace (va + k + 1) with (va + (k + 1)) by lia. rewrite (IH m root va U (k + 1)) by (done || lia). cbn [mbind option_bind load].
  by replace (U + k + 1) with (U + (k + 1)) by lia.
Qed.

Lemma vstore_user n : ∀ m root va U k v,
  user_page m root va U → walk_off m root va U PAGE_SIZE → 0 <= k → k + Z.of_nat n <= PAGE_SIZE →
  vstore n m root (va + k) v = Some (store n m (U + k) v).
Proof.
  induction n as [|n IH]; intros m root va U k v Hu Hw Hk Hn; [done|]. cbn [vstore].
  rewrite (user_page_byte m root va U k) by (done || lia). cbn [mbind option_bind store].
  destruct (user_page_agree m (wr m (U + k) v) root va U U PAGE_SIZE Hu Hw) as [Hu' Ew].
  { intros b j Hd c Hc. apply rd_wr_ne. unfold disj in Hd. lia. }
  replace (va + k + 1) with (va + (k + 1)) by lia. replace (U + k + 1) with (U + (k + 1)) by lia.
  apply IH; try done; [|lia..]. unfold walk_off. by rewrite Ew.
Qed.

(** ** From the parent to the temporary pages *)

Section Copy.
Context (k u C p Up us root parent : Z).
Hypothesis Hpages : Forall (λ a, 0 <= a ∧ a + PAGE_SIZE <= 2 ^ 31) [k; u; C].
Hypothesis Hku : disj k PAGE_SIZE u PAGE_SIZE.
Hypothesis HkC : disj k PAGE_SIZE C PAGE_SIZE.
Hypothesis HuC : disj u PAGE_SIZE C PAGE_SIZE.
Hypothesis Hp : phys parent = p.

(** Away from the pages that are written. *)
Definition off_temp (a n : Z) : Prop := Forall (λ q, disj q PAGE_SIZE a n) [k; u; C].

Hypothesis Hpo : off_temp p sizeof_task.
Hypothesis HUo : off_temp Up PAGE_SIZE.

(** The parent's stack pointer field, its stack page and the tables it is
    reached through. *)
Record parent_ok (m : mem) : Prop := {
  po_field : load64 m (p + t_ustack) = us;
  po_page : user_page m root us Up;
  po_walk : Forall (λ q, walk_off m root us q PAGE_SIZE) [k; u; C];
}.

Lemma off_temp_sub a n b l : off_temp a n → a <= b → b + l <= a + n → off_temp b l.
Proof. unfold off_temp. intros H H1 H2. eapply Forall_impl; [exact H|]. intros q Hq. unfold disj in *. lia. Qed.

Lemma store_temp_agree m q j v a n :
  q ∈ [k; u; C] → 0 <= j < 512 → off_temp a n → agree_on m (store64 m (q + 8 * j) v) a n.
Proof.
  intros Hq Hj Ho. unfold off_temp in Ho. rewrite Forall_forall in Ho. specialize (Ho q Hq). apply store_agree. unfold disj, PAGE_SIZE in *. lia.
Qed.

Lemma parent_ok_store m q j v : q ∈ [k; u; C] → 0 <= j < 512 → parent_ok m → parent_ok (store64 m (q + 8 * j) v).
Proof.
  intros Hq Hj [H1 H2 H3]. set (m' := store64 m (q + 8 * j) v).
  assert (Hw : walk_off m root us q PAGE_SIZE) by (rewrite Forall_forall in H3; by apply H3).
  destruct (user_page_agree m m' root us Up q PAGE_SIZE H2 Hw) as [Hu Ew].
  { intros b l Hd. apply store_agree. unfold disj, PAGE_SIZE in *. lia. }
  constructor; [|done|].
  - rewrite <- H1. apply load_agree, store_temp_agree; [done..|]. eapply off_temp_sub; [exact Hpo|unfold t_ustack, sizeof_task; lia..].
  - eapply Forall_impl; [exact H3|]. unfold walk_off. by rewrite Ew.
Qed.

(** One round: a word to each of the three pages. *)
Lemma fork_copy_step n m j : 0 <= j < 512 → parent_ok m →
  ∃ x, let m3 := store64 (store64 (store64 m (k + 8 * j) (load64 m (p + t_kstack j))) (u + 8 * j) (load64 m (Up + 8 * j))) (C + 8 * j) x in
  fork_copy (S n) m (VADDR k) (VADDR u) (VADDR C) parent root j = fork_copy n m3 (VADDR k) (VADDR u) (VADDR C) parent root (j + 1) ∧
  parent_ok m3.
Proof.
  intros Hj Hok. apply Forall_cons in Hpages as [Bk [Bu [BC _]%Forall_cons]%Forall_cons]. unfold PAGE_SIZE in Bk, Bu, BC.
  set (m1 := store64 m (k + 8 * j) (load64 m (p + t_kstack j))).
  assert (H1 : parent_ok m1) by (apply parent_ok_store; [constructor|done..]).
  assert (EU : load64 m1 (Up + 8 * j) = load64 m (Up + 8 * j)).
  { apply load_agree, store_temp_agree; [constructor|done|]. eapply off_temp_sub; [exact HUo|unfold PAGE_SIZE; lia..]. }
  set (m2 := store64 m1 (u + 8 * j) (load64 m (Up + 8 * j))).
  assert (H2 : parent_ok m2) by (apply parent_ok_store; [repeat constructor|done..]).
  eexists. cbv zeta. split; [|apply parent_ok_store; [repeat constructor|done|exact H2]].
  cbn [fork_copy]. rewrite Hp, !phys_VADDR by lia. fold m1. rewrite (po_field m1 H1).
  destruct (up_range _ _ _ _ (po_page m1 H1)) as [U1 U2]. unfold PAGE_SIZE in U2. rewrite (u64_small (us + 8 * j)) by lia.
  rewrite (vload_user 8 m1 root us Up (8 * j) (po_page m1 H1)) by (unfold PAGE_SIZE; lia). cbn [mbind option_bind].
  change (load 8 m1 (Up + 8 * j)) with (load64 m1 (Up + 8 * j)). rewrite EU. reflexivity.
Qed.

Lemma fork_copy_words n : ∀ m j, 0 <= j → j + Z.of_nat n <= 512 → parent_ok m →
  ∃ m', fork_copy n m (VADDR k) (VADDR u) (VADDR C) parent root j = Some m' ∧ parent_ok m' ∧
    (∀ i, j <= i < j + Z.of_nat n → load64 m' (k + 8 * i) = load64 m (p + t_kstack i) ∧ load64 m' (u + 8 * i) = load64 m (Up + 8 * i)) ∧
    (∀ i, 0 <= i < j → load64 m' (k + 8 * i) = load64 m (k + 8 * i) ∧ load64 m' (u + 8 * i) = load64 m (u + 8 * i)) ∧
    ∀ a l, off_temp a l → agree_on m m' a l.
Proof.
  induction n as [|n IH]; intros m j Hj Hn Hok.
  { exists m. split_and!; try done. intros; lia. }
  destruct (fork_copy_step n m j ltac:(lia) Hok) as (x & E & Hok3). cbv zeta in E, Hok3. set (m3 := store64 _ (C + 8 * j) x) in *.
  assert (A3 : ∀ a l, off_temp a l → agree_on m m3 a l).
  { intros a l Ho. unfold m3. repeat (eapply agree_on_trans; [|apply store_temp_agree; [repeat constructor|lia|exact Ho]]). apply agree_on_refl. }
  assert (K3 : ∀ i, 0 <= i < 512 → load64 m3 (k + 8 * i) = if decide (i = j) then load64 m (p + t_kstack j) else load64 m (k + 8 * i)).
  { intros i Hi. unfold m3. unfold disj, PAGE_SIZE in Hku, HkC. rewrite !(load64_store64_ne _ _ _ (k + 8 * i)) by lia.
    case_decide as Ei; [subst i; rewrite load64_store64_eq; apply u64_small, load64_range|apply load64_store64_ne; lia]. }
  assert (U3 : ∀ i, 0 <= i < 512 → load64 m3 (u + 8 * i) = if decide (i = j) then load64 m (Up + 8 * j) else load64 m (u + 8 * i)).
  { intros i Hi. unfold m3. unfold disj, PAGE_SIZE in Hku, HuC. rewrite (load64_store64_ne _ (C + 8 * j)) by lia.
    case_decide as Ei; [subst i; rewrite load64_store64_eq; apply u64_small, load64_range|].
    rewrite !load64_store64_ne by lia. done. }
  assert (S3 : ∀ i, 0 <= i < 512 → load64 m3 (p + t_kstack i) = load64 m (p + t_kstack i) ∧ load64 m3 (Up + 8 * i) = load64 m (Up + 8 * i)).
  { intros i Hi. split; apply load_agree, A3; eapply off_temp_sub; [exact Hpo| | |exact HUo| |]; unfold t_kstack, sizeof_task, PAGE_SIZE; lia. }
  destruct (IH m3 (j + 1)) as (m' & E' & Hok' & W & O & A); [lia|lia|exact Hok3|].
  exists m'. split; [by rewrite E|]. split; [exact Hok'|]. split; [|split].
  - intros i Hi. destruct (decide (i = j)) as [->|Hne].
    + destruct (O j ltac:(lia)) as [-> ->]. rewrite K3, U3 by lia. by rewrite !decide_True by done.
    + destruct (W i ltac:(lia)) as [-> ->]. apply S3. lia.
  - intros i Hi. destruct (O i ltac:(lia)) as [-> ->]. rewrite K3, U3 by lia. by rewrite !decide_False by lia.
  - intros a l Ho. eapply agree_on_trans; [by apply A3|by apply A].
Qed.
End Copy.

(** ** From the temporary pages to the child *)

Section Stacks.
Context (k u c Uc us root child : Z).
Hypothesis Hk : 0 <= k ∧ k + PAGE_SIZE <= 2 ^ 31.
Hypothesis Hu : 0 <= u ∧ u + PAGE_SIZE <= 2 ^ 31.
Hypothesis Hc : phys child = c.

(** Away from the child's stacks. *)
Definition off_stacks (a n : Z) : Prop := disj (c + t_kstack 0) PAGE_SIZE a n ∧ disj Uc PAGE_SIZE a n.

Hypothesis Hko : off_stacks k PAGE_SIZE.
Hypothesis Huo : off_stacks u PAGE_SIZE.
Hypothesis HUc : disj (c + t_kstack 0) PAGE_SIZE Uc PAGE_SIZE.
Hypothesis Hfo : disj Uc PAGE_SIZE (c + t_ustack) 8.

Record child_ok (m : mem) : Prop := {
  ch_field : load64 m (c + t_ustack) = us;
  ch_page : user_page m root us Uc;
  ch_walk : walk_off m root us Uc PAGE_SIZE;
  ch_walk' : walk_off m root us (c + t_kstack 0) PAGE_SIZE;
}.

Lemma child_ok_store m a v :
  (∃ j, 0 <= j < 512 ∧ (a = c + t_kstack j ∨ a = Uc + 8 * j)) → child_ok m → child_ok (store64 m a v).
Proof.
  intros (j & Hj & Ha) [H1 H2 H3 H4]. set (m' := store64 m a v).
  assert (Hin : ∃ q, (q = Uc ∨ q = c + t_kstack 0) ∧ q <= a ∧ a + 8 <= q + PAGE_SIZE ∧ walk_off m root us q PAGE_SIZE).
  { destruct Ha as [->| ->]; [exists (c + t_kstack 0)|exists Uc]; split_and!; auto; unfold t_kstack, PAGE_SIZE; lia. }
  destruct Hin as (q & Hq & Hq1 & Hq2 & Hw). destruct (user_page_agree m m' root us Uc q PAGE_SIZE H2 Hw) as [Hu' Ew].
  { intros b l Hd. apply store_agree. unfold disj in *. lia. }
  constructor; [|done|unfold walk_off; by rewrite Ew..].
  rewrite <- H1. apply load_agree, store_agree. unfold disj, t_kstack, t_ustack, PAGE_SIZE in *. destruct Ha; lia.
Qed.

Lemma off_stacks_store m a v b n :
  (∃ j, 0 <= j < 512 ∧ (a = c + t_kstack j ∨ a = Uc + 8 * j)) → off_stacks b n → agree_on m (store64 m a v) b n.
Proof.
  intros (j & Hj & Ha) [O1 O2]. apply store_agree. unfold disj, t_kstack, PAGE_SIZE in *. destruct Ha; lia.
Qed.

Lemma fork_stacks_step n m j : 0 <= j < 512 → child_ok m →
  let m2 := store64 (store64 m (Uc + 8 * j) (load64 m (u + 8 * j))) (c + t_kstack j) (load64 m (k + 8 * j)) in
  fork_stacks (S n) m (VADDR k) (VADDR u) child root j = fork_stacks n m2 (VADDR k) (VADDR u) child root (j + 1) ∧ child_ok m2.
Proof.
  intros Hj Hok m2. unfold PAGE_SIZE in Hk, Hu.
  assert (H1 : child_ok (store64 m (Uc + 8 * j) (load64 m (u + 8 * j)))) by (apply child_ok_store; eauto).
  split; [|by apply child_ok_store; eauto].
  cbn [fork_stacks]. rewrite Hc, !phys_VADDR, (ch_field m Hok) by lia.
  destruct (up_range _ _ _ _ (ch_page m Hok)) as [U1 U2]. unfold PAGE_SIZE in U2. rewrite (u64_small (us + 8 * j)) by lia.
  rewrite (vstore_user 8 m root us Uc (8 * j) _ (ch_page m Hok) (ch_walk m Hok)) by (unfold PAGE_SIZE; lia).
  cbn [mbind option_bind]. fold (store64 m (Uc + 8 * j) (load64 m (u + 8 * j))). unfold m2. do 2 f_equal.
  apply load_agree, off_stacks_store; [eauto|]. unfold off_stacks, disj, PAGE_SIZE in *. lia.
Qed.

Lemma fork_stacks_words n : ∀ m j, 0 <= j → j + Z.of_nat n <= 512 → child_ok m →
  ∃ m', fork_stacks n m (VADDR k) (VADDR u) child root j = Some m' ∧ child_ok m' ∧
    (∀ i, j <= i < j + Z.of_nat n →
       load64 m' (c + t_kstack i) = load64 m (k + 8 * i) ∧ load64 m' (Uc + 8 * i) = load64 m (u + 8 * i)) ∧
    (∀ i, 0 <= i < j →
       load64 m' (c + t_kstack i) = load64 m (c + t_kstack i) ∧ load64 m' (Uc + 8 * i) = load64 m (Uc + 8 * i)) ∧
    ∀ a l, off_stacks a l → agree_on m m' a l.
Proof.
  induction n as [|n IH]; intros m j Hj Hn Hok.
  { exists m. split_and!; try done. intros; lia. }
  destruct (fork_stacks_step n m j ltac:(lia) Hok) as [E Hok2]. set (m2 := store64 _ (c + t_kstack j) _) in *.
  assert (A2 : ∀ a l, off_stacks a l → agree_on m m2 a l).
  { intros a l Ho. unfold m2. repeat (eapply agree_on_trans; [|apply off_stacks_store; [exists j; split; [lia|auto]|exact Ho]]).
    apply agree_on_refl. }
  assert (T2 : ∀ i, 0 <= i < 512 → load64 m2 (k + 8 * i) = load64 m (k + 8 * i) ∧ load64 m2 (u + 8 * i) = load64 m (u + 8 * i)).
  { intros i Hi. unfold off_stacks, disj, PAGE_SIZE in *. split; apply load_agree, A2; unfold off_stacks, disj; lia. }
  assert (K2 : ∀ i, 0 <= i < 512 → load64 m2 (c + t_kstack i) = if decide (i = j) then load64 m (k + 8 * j) else load64 m (c + t_kstack i)).
  { intros i Hi. unfold m2. unfold disj, t_kstack, PAGE_SIZE in *. case_decide as Ei.
    - subst i. rewrite load64_store64_eq. apply u64_small, load64_range.
    - by rewrite !load64_store64_ne by lia. }
  assert (U2 : ∀ i, 0 <= i < 512 → load64 m2 (Uc + 8 * i) = if decide (i = j) then load64 m (u + 8 * j) else load64 m (Uc + 8 * i)).
  { intros i Hi. unfold m2. unfold disj, t_kstack, PAGE_SIZE in *. rewrite (load64_store64_ne _ (c + (8 + 8 * j))) by lia.
    case_decide as Ei; [subst i; rewrite load64_store64_eq; apply u64_small, load64_range|apply load64_store64_ne; lia]. }
  destruct (IH m2 (j + 1)) as (m' & E' & Hok' & W & O & A); [lia|lia|exact Hok2|].
  exists m'. split; [by rewrite E|]. split; [exact Hok'|]. split; [|split].
  - intros i Hi. destruct (decide (i = j)) as [->|Hne].
    + destruct (O j ltac:(lia)) as [-> ->]. rewrite K2, U2 by lia. by rewrite !decide_True by done.
    + destruct (W i ltac:(lia)) as [-> ->]. apply T2. lia.
  - intros i Hi. destruct (O i ltac:(lia)) as [-> ->]. rewrite K2, U2 by lia. by rewrite !decide_False by lia.
  - intros a l Ho. eapply agree_on_trans; [by apply A2|by apply A].
Qed.
End Stacks.

(** ** The frame *)

Lemma first_word_range n : ∀ m tu i, i <= first_word n m tu i <= i + Z.of_nat n.
Proof.
  induction n as [|n IH]; intros m tu i; cbn [first_word]; [lia|]. case_match; [lia|]. specialize (IH m tu (i + 1)). lia.
Qed.

Lemma first_word_ext n : ∀ m m' tu tu' i,
  (∀ j, i <= j < i + Z.of_nat n → load64 m' (phys tu' + 8 * j) = load64 m (phys tu + 8 * j)) →
  first_word n m' tu' i = first_word n m tu i.
Proof.
  induction n as [|n IH]; intros m m' tu tu' i H; cbn [first_word]; [done|]. rewrite (H i) by lia.
  case_match; [done|]. apply IH. intros j Hj. apply H. lia.
Qed.

(** The index of the child's stack pointer is one more than the first word that
    is not zero. *)
Lemma frame_index i : 0 <= i <= 512 → u64 (511 - u64 (511 - i - 1)) = i + 1.
Proof. unfold u64. lia. Qed.

(** The registers the child starts with. *)
Definition child_reg (m : mem) (c : Z) (r : reg) : Z :=
  if decide (r = RAX) then 0 else load64 m (c + t_kstack (506 - place r)).

Lemma fork_frame_ready m child c k u isr32 :
  pcb_at child c → 0 <= k → k + PAGE_SIZE <= 2 ^ 31 → disj c (t_kstack 512) k PAGE_SIZE →
  let i := first_word 512 m (VADDR u) 0 in
  let m' := fork_frame m child (VADDR k) (VADDR u) isr32 in
  stack_ready m' c child isr32 (load64 m (c + t_ustack) +64 8 * (i + 1)) (child_reg m c) ∧
  load64 m' (c + t_kstack 507) = load64 m (k + 8 * 506) ∧ ∀ a l, disj c (t_kstack 512) a l → agree_on m m' a l.
Proof.
  intros Ht Hk1 Hk2 Hd i m'. destruct (task_addr _ _ Ht) as [Ep _]. unfold PAGE_SIZE in Hk2.
  assert (Hi : 0 <= i <= 512) by (pose proof (first_word_range 512 m (VADDR u) 0); lia).
  assert (Em : m' = fork_frame m child (VADDR k) (VADDR u) isr32) by done.
  unfold fork_frame in Em. fold i in Em. rewrite Ep, frame_index in Em by done. rewrite phys_VADDR in Em by lia.
  unfold disj, PAGE_SIZE, t_kstack in Hd.
  repeat (rewrite (load64_store64_ne _ _ _ (k + 8 * 506)) in Em by (unfold t_kstack; lia)).
  repeat (rewrite (load64_store64_ne _ _ _ (c + t_ustack)) in Em by (unfold t_kstack, t_ustack; lia)).
  rewrite Em. split; [|split].
  - constructor; kstack_loads; try done; try (apply u64_small, u64_range).
    intros r. pose proof (place_range r). unfold child_reg. case_decide as Er.
    + subst r. cbn [place]. rewrite Z.sub_0_r. kstack_loads. done.
    + assert (place r ≠ 0) by (destruct r; done). by kstack_loads.
  - kstack_loads. apply u64_small, load64_range.
  - intros a l Ha. unfold disj, t_kstack in Ha. unfold store64.
    repeat (eapply agree_on_trans; [|apply store_agree; unfold t_kstack; lia]). apply agree_on_refl.
Qed.

(** ** The child continues after the parent's call *)

(** Where things are: the temporary pages [k] and [u] and the child's table [Cp],
    the structures [p] and [c] of parent and child, and their stack pages. *)
Record fork_layout (k u Cp p Up c Uc : Z) : Prop := {
  fl_pages : Forall (λ a, 0 <= a ∧ a + PAGE_SIZE <= 2 ^ 31) [k; u; Cp; Up];
  fl_ku : disj k PAGE_SIZE u PAGE_SIZE;
  fl_kC : disj k PAGE_SIZE Cp PAGE_SIZE;
  fl_uC : disj u PAGE_SIZE Cp PAGE_SIZE;
  fl_parent : off_temp k u Cp p sizeof_task;
  fl_stack : off_temp k u Cp Up PAGE_SIZE;
  fl_child : Forall (λ a, disj c sizeof_task a PAGE_SIZE) [k; u; Uc];
  fl_k : disj Uc PAGE_SIZE k PAGE_SIZE;
  fl_u : disj Uc PAGE_SIZE u PAGE_SIZE;
}.

(** The three steps of [sys_fork] that make the child's stacks; between the
    copies the child's stack page is allocated, which leaves the temporary pages
    alone. *)
Lemma fork_stacks_ready k u Cp p Up c Uc us us' root root' parent child isr32 m0 :
  fork_layout k u Cp p Up c Uc → phys parent = p → pcb_at child c → parent_ok k u Cp p Up us root m0 →
  ∃ m1, fork_copy 512 m0 (VADDR k) (VADDR u) (VADDR Cp) parent root 0 = Some m1 ∧
  ∀ m2, agree_on m1 m2 k PAGE_SIZE → agree_on m1 m2 u PAGE_SIZE → child_ok c Uc us' root' m2 →
  ∃ m3, fork_stacks 512 m2 (VADDR k) (VADDR u) child root' 0 = Some m3 ∧
  let m4 := fork_frame m3 child (VADDR k) (VADDR u) isr32 in
  (∀ j, 0 <= j < 512 → load64 m4 (Uc + 8 * j) = load64 m0 (Up + 8 * j)) ∧
  stack_ready m4 c child isr32 (us' +64 8 * (first_word 512 m0 (VADDR Up) 0 + 1)) (child_reg m0 p) ∧
  load64 m4 (c + t_kstack 507) = load64 m0 (p + t_kstack 506).
Proof.
  intros [Pg Dku DkC DuC Dp DU Dc Dk Du] Hp Ht Hok. destruct (task_addr _ _ Ht) as [Ec _].
  apply Forall_cons in Pg as [Bk [Bu [BC [BU _]%Forall_cons]%Forall_cons]%Forall_cons].
  apply Forall_cons in Dc as [Ck [Cu [CU _]%Forall_cons]%Forall_cons].
  destruct (fork_copy_words k u Cp p Up us root parent) with (n := 512%nat) (m := m0) (j := 0) as (m1 & E1 & _ & W1 & _ & A1); try done.
  { by repeat (apply Forall_cons; split; [done|]). }
  exists m1. split; [exact E1|]. intros m2 Ak Au Hch. unfold disj, sizeof_task, PAGE_SIZE in Ck, Cu, CU, Dk, Du.
  destruct (fork_stacks_words k u c Uc us' root' child) with (n := 512%nat) (m := m2) (j := 0) as (m3 & E3 & Hok3 & W3 & _ & A3);
    try done; try (unfold off_stacks, disj, t_kstack, t_ustack, PAGE_SIZE; lia).
  exists m3. split; [exact E3|]. intros m4.
  assert (Hoff : ∀ a, (a = k ∨ a = u) → off_stacks c Uc a PAGE_SIZE) by
    (intros a Ha; unfold off_stacks, disj, t_kstack, PAGE_SIZE; destruct Ha; subst; lia).
  assert (Ku : ∀ j, 0 <= j < 512 → load64 m2 (u + 8 * j) = load64 m0 (Up + 8 * j) ∧ load64 m2 (k + 8 * j) = load64 m0 (p + t_kstack j)).
  { intros j Hj. destruct (W1 j ltac:(lia)) as [<- <-].
    split; apply load_agree; eapply agree_on_sub; [exact Au| | |exact Ak| |]; unfold PAGE_SIZE; lia. }
  assert (T3 : ∀ j, 0 <= j < 512 → load64 m3 (u + 8 * j) = load64 m2 (u + 8 * j) ∧ load64 m3 (k + 8 * j) = load64 m2 (k + 8 * j)).
  { intros j Hj. split; apply load_agree.
    - eapply agree_on_sub; [apply (A3 u), Hoff; auto|unfold PAGE_SIZE; lia..].
    - eapply agree_on_sub; [apply (A3 k), Hoff; auto|unfold PAGE_SIZE; lia..]. }
  destruct (fork_frame_ready m3 child c k u isr32 Ht) as (Hs & H507 & A4);
    [lia|lia|unfold disj, t_kstack, PAGE_SIZE; lia|]. fold m4 in Hs, H507, A4. split; [|split].
  - intros j Hj. rewrite <- (proj1 (Ku j Hj)), <- (proj2 (W3 j ltac:(lia))). apply load_agree, A4.
    unfold disj, t_kstack. lia.
  - assert (Ei : first_word 512 m3 (VADDR u) 0 = first_word 512 m0 (VADDR Up) 0).
    { apply first_word_ext. intros j Hj. unfold PAGE_SIZE in Bu, BU. rewrite !phys_VADDR by lia.
      by rewrite (proj1 (T3 j ltac:(lia))), (proj1 (Ku j ltac:(lia))). }
    rewrite Ei, (ch_field _ _ _ _ _ Hok3) in Hs. destruct Hs as [S1 S2 S3 S4 S5 S6 S7]. constructor; try done.
    intros r. rewrite S3. unfold child_reg. pose proof (place_range r). case_decide; [done|].
    by rewrite (proj1 (W3 (506 - place r) ltac:(lia))), (proj2 (Ku (506 - place r) ltac:(lia))).
  - by rewrite H507, (proj2 (T3 506 ltac:(lia))), (proj2 (Ku 506 ltac:(lia))).
Qed.

(** The registers of the trap on the parent's kernel stack. *)
Lemma trap_words m parent p c :
  pcb_at parent p → stack_holds m (parent + t_kstack 492) ((gpr c <$> restored_call) ++ frame c) →
  (∀ r, r ≠ RAX → load64 m (p + t_kstack (506 - place r)) = gpr c r) ∧ load64 m (p + t_kstack 506) = m_rip c.
Proof.
  intros Ht H. destruct (task_addr _ _ Ht) as [_ Ea].
  assert (Hw : ∀ i w, ((gpr c <$> restored_call) ++ frame c) !! i = Some w → load64 m (p + t_kstack (492 + Z.of_nat i)) = w).
  { intros i w Hi. rewrite <- (word_at _ _ _ _ _ H Hi). unfold word. rewrite phys_kernel; unfold t_kstack;
      [f_equal; lia|destruct Ht as (_ & ? & _); lia]. }
  split; [|apply (Hw 14%nat); reflexivity].
  intros r Hr. destruct r; [done|..]; cbn [place];
    match goal with |- load64 _ (_ + t_kstack ?e) = _ => replace e with (492 + Z.of_nat (Z.to_nat (e - 492))) by lia end;
    apply Hw; reflexivity.
Qed.

(** C8: the child of [sys_fork] continues where the parent called it.  When a
    user program makes its system call with [int 0x80], the trap and [isr128]
    leave its registers on the kernel stack; [sys_fork] copies them and the user
    stack to the child, and the first switch to the child arrives in user mode
    after the parent's [int 0x80] with 0 in rax and the parent's other registers,
    on a stack that holds the parent's words.  Its stack pointer is one word above
    the first word of the stack page that is not zero, wherever the parent's was.
    [cu] is the parent at its call, [m0] the memory at the first copy, in which
    the saved registers and the frame are as the stub left them, [m2] at the
    second and [m5] at the switch. *)
Theorem fork_child_continues code C isr IDT parent p child c k u Cp Up us root Uc us' root' cu :
  is_word (isr 128) → placed code (isr 128) isr128_code → placed code (isr 32) isr32_code →
  fits cu → Z.land (m_cs cu) 3 = 3 → pcb_at parent p → p mod 16 = 0 → pcb_at child c → fork_layout k u Cp p Up c Uc →
  ∃ ct c0, interrupt (idt_init isr IDT) (parent +64 kstack_top) 128 true None cu = Some ct ∧ enters code C ct syscall_handler c0 ∧
  ∀ m0, agree_on (m_mem c0) m0 (p + t_kstack 492) 160 → parent_ok k u Cp p Up us root m0 →
  ∃ m1, fork_copy 512 m0 (VADDR k) (VADDR u) (VADDR Cp) parent root 0 = Some m1 ∧
  ∀ m2, agree_on m1 m2 k PAGE_SIZE → agree_on m1 m2 u PAGE_SIZE → child_ok c Uc us' root' m2 →
  ∃ m3, fork_stacks 512 m2 (VADDR k) (VADDR u) child root' 0 = Some m3 ∧
  let m4 := fork_frame m3 child (VADDR k) (VADDR u) (isr 32) in
  (∀ j, 0 <= j < 512 → load64 m4 (Uc + 8 * j) = load64 m0 (Up + 8 * j)) ∧
  ∀ m5 cl, agree_on m4 m5 c (t_kstack 512) → m_mem cl = m5 →
  ∃ c', steps code C (switch_return (load64 m5 c) cl) c' ∧ m_rip c' = m_rip cu ∧ gpr c' RAX = 0 ∧
    (∀ r, r ≠ RAX → gpr c' r = gpr cu r) ∧ m_cs c' = 0x1b ∧ m_ss c' = 0x23 ∧
    m_rsp c' = us' +64 8 * (first_word 512 m0 (VADDR Up) 0 + 1) ∧ m_mem c' = m5.
Proof.
  intros Hi Hc128 Hc32 Hf Hcpl Ht Hal Htc HL. destruct (task_addr _ _ Ht) as [Ep Ea].
  assert (Hb : 0 <= p ∧ p + sizeof_task <= 2 ^ 31) by apply Ht. unfold sizeof_task in Hb.
  assert (Etop : frame_top (parent +64 kstack_top) cu = parent + kstack_top).
  { unfold frame_top. rewrite Hcpl. cbn [Z.eqb]. rewrite u64_small by (unfold kstack_top, KERNEL_VADDR in *; lia).
    unfold kstack_top, KERNEL_VADDR in *. lia. }
  destruct (isr128_run code C isr IDT (parent +64 kstack_top) cu Hi Hc128 Hf) as (ct & c0 & Ht0 & N0 & _ & R0 & _ & W0 & _).
  { rewrite Etop. unfold room, kstack_top. unfold KERNEL_VADDR in *. lia. }
  exists ct, c0. split; [exact Ht0|]. split; [exact N0|]. intros m0 Ag Hok. rewrite Etop in R0.
  replace (m_rsp c0 + 8) with (parent + t_kstack 492) in W0 by (rewrite R0; unfold kstack_top, t_kstack; lia).
  destruct (trap_words _ parent p cu Ht W0) as [Hregs Hrip].
  assert (E0 : ∀ q, 492 <= q < 512 → load64 m0 (p + t_kstack q) = load64 (m_mem c0) (p + t_kstack q)).
  { intros q Hq. apply load_agree. eapply agree_on_sub; [exact Ag|unfold t_kstack; lia..]. }
  destruct (fork_stacks_ready k u Cp p Up c Uc us us' root root' parent child (isr 32) m0 HL Ep Htc Hok) as (m1 & E1 & Hrest).
  exists m1. split; [exact E1|]. intros m2 Ak Au Hch. destruct (Hrest m2 Ak Au Hch) as (m3 & E3 & Hcopy & Hs & H507).
  exists m3. split; [exact E3|]. intros m4. split; [exact Hcopy|]. intros m5 cl Ag5 Hm. fold m4 in Hs, H507.
  assert (Hs5 : stack_ready m5 c child (isr 32) (us' +64 8 * (first_word 512 m0 (VADDR Up) 0 + 1)) (child_reg m0 p)).
  { eapply stack_ready_agree; [|exact Hs]. intros b Hb1 _. apply Ag5. lia. }
  destruct (launch_ready code C (isr 32) child c m5 cl _ _ Hc32 Htc Hs5 Hm) as (c' & S & G & P1 & P2 & P3 & P4 & P5 & P6).
  exists c'. split; [exact S|]. split; [|split; [by rewrite G|split; [|by split_and!]]].
  - rewrite P1, <- Hrip, <- (E0 506) by lia. rewrite <- H507. apply load_agree. eapply agree_on_sub; [exact Ag5|unfold t_kstack; lia..].
  - intros r Hr. rewrite G. unfold child_reg. rewrite decide_False by done. pose proof (place_range r).
    rewrite E0 by lia. by apply Hregs.
Qed.

(** ** A fork on a small machine

    Parent and child structures at 0x210000 and 0x230000; each has its stack
    page at 0x400000 behind four tables of its own. *)

Lemma present_entry t : t mod 4096 = 0 → 0 <= t < 2 ^ 31 → IS_PRESENT_PAGE (t + 7) = true ∧ hw_frame (t + 7) = t.
Proof.
  intros Ha Ht. split; [|rewrite hw_frame_small by lia; lia].
  unfold IS_PRESENT_PAGE. rewrite testbit0_odd_add by lia. reflexivity.
Qed.

(** The tables [t3], [t2] and [t1] below [root] map the page 0x400000 to [U]. *)
Lemma small_walk m root t3 t2 t1 U :
  Forall (λ t, t mod 4096 = 0 ∧ 0 <= t < 2 ^ 31) [t3; t2; t1; U] →
  load64 m root = t3 + 7 → load64 m t3 = t2 + 7 → load64 m (t2 + 16) = t1 + 7 → load64 m t1 = U + 7 →
  user_page m root 0x400000 U ∧ walk m root 0x400000 = [root; t3; t2 + 16; t1].
Proof.
  intros HF H1 H2 H3 H4.
  apply Forall_cons in HF as [[A3 B3] [[A2 B2] [[A1 B1] [[AU BU] _]%Forall_cons]%Forall_cons]%Forall_cons].
  assert (E : ∀ t i x, load64 m (t + 8 * i) = x + 7 → x mod 4096 = 0 → 0 <= x < 2 ^ 31 → hw_step m t i = Some x).
  { intros t i x El Hx Hb. unfold hw_step, entry. rewrite El. by destruct (present_entry x Hx Hb) as [-> ->]. }
  unfold walk. change (PAGE_PML4_INDEX 0x400000) with 0. change (PAGE_PDP_INDEX 0x400000) with 0.
  change (PAGE_DIR_INDEX 0x400000) with 2. change (PAGE_TABLE_INDEX 0x400000) with 0.
  rewrite (E root 0 t3), (E t3 0 t2), (E t2 2 t1) by (done || (rewrite ?Z.mul_0_r, ?Z.add_0_r; done)). split.
  - constructor; [done|unfold PAGE_SIZE; lia|]. unfold translate. change (PAGE_PML4_INDEX 0x400000) with 0.
    change (PAGE_PDP_INDEX 0x400000) with 0. change (PAGE_DIR_INDEX 0x400000) with 2. change (PAGE_TABLE_INDEX 0x400000) with 0.
    assert (E3 : hw_step m root 0 = Some t3) by (apply E; [by rewrite Z.mul_0_r, Z.add_0_r|done..]).
    assert (E2 : hw_step m t3 0 = Some t2) by (apply E; [by rewrite Z.mul_0_r, Z.add_0_r|done..]).
    assert (E1 : hw_step m t2 2 = Some t1) by (by apply E).
    assert (E0 : hw_step m t1 0 = Some U) by (apply E; [by rewrite Z.mul_0_r, Z.add_0_r|done..]).
    rewrite E3. cbn [mbind option_bind]. rewrite E2. cbn [mbind option_bind]. rewrite E1. exact E0.
  - by rewrite !Z.mul_0_r, !Z.add_0_r.
Qed.

Definition demo_stores (root U field : Z) (m : mem) : mem :=
  store64 (store64 (store64 (store64 (store64 m root (root + 0x1007)) (root + 0x1000) (root + 0x2007))
    (root + 0x2010) (root + 0x3007)) (root + 0x3000) (U + 7)) field 0x400000.

(** The five stores, read back. *)
Lemma demo_stores_ok root U field m :
  root mod 4096 = 0 → 0 <= root < 2 ^ 30 → U mod 4096 = 0 → 0 <= U < 2 ^ 31 → disj root 0x4000 field 8 →
  load64 (demo_stores root U field m) field = 0x400000 ∧ user_page (demo_stores root U field m) root 0x400000 U ∧
  walk (demo_stores root U field m) root 0x400000 = [root; root + 0x1000; root + 0x2000 + 16; root + 0x3000] ∧
  ∀ a n, disj root 0x4000 a n → disj field 8 a n → agree_on m (demo_stores root U field m) a n.
Proof.
  intros Hr1 Hr2 HU1 HU2 Hd. unfold disj in Hd. unfold demo_stores. split; [by rewrite load64_store64_eq|].
  destruct (small_walk (demo_stores root U field m) root (root + 0x1000) (root + 0x2000) (root + 0x3000) U) as [W1 W2].
  - repeat (apply Forall_cons; split; [lia|]). constructor.
  - unfold demo_stores. repeat (rewrite load64_store64_ne by lia). rewrite load64_store64_eq, u64_small by lia. lia.
  - unfold demo_stores. repeat (rewrite load64_store64_ne by lia). rewrite load64_store64_eq, u64_small by lia. lia.
  - unfold demo_stores. repeat (rewrite load64_store64_ne by lia). replace (root + 0x2000 + 16) with (root + 0x2010) by lia.
    rewrite load64_store64_eq, u64_small by lia. lia.
  - unfold demo_stores. repeat (rewrite load64_store64_ne by lia). rewrite load64_store64_eq, u64_small by lia. lia.
  - split; [exact W1|]. split; [exact W2|]. intros a n H1 H2. unfold disj in *. unfold store64.
    repeat (eapply agree_on_trans; [|apply store_agree; lia]). apply agree_on_refl.
Qed.

(** The stubs of the two vectors. *)
Definition demo_code (a : Z) : option instr :=
  match code_of (demo_isr 128) isr128_code a with Some i => Some i | None => code_of (demo_isr 32) isr32_code a end.

Lemma at_offset_neg prog off : off < 0 → at_offset prog off = None.
Proof.
  intros H. destruct prog as [|i p]; cbn [at_offset]; rewrite (proj2 (Z.eqb_neq off 0)) by lia; [done|].
  pose proof (size_pos i). by rewrite (proj2 (Z.ltb_lt off (size i))) by lia.
Qed.

Lemma demo_code_128 : placed demo_code (demo_isr 128) isr128_code.
Proof.
  intros off i rest H. unfold demo_code. erewrite (placed_code_of (demo_isr 128) isr128_code); [done| | |exact H]; vm_compute; done.
Qed.

Lemma demo_code_32 : placed demo_code (demo_isr 32) isr32_code.
Proof.
  intros off i rest H. unfold demo_code. pose proof (at_offset_bound _ _ _ _ H) as Hb.
  assert (Hsz : foldr (λ j s, size j + s) 0 isr32_code < 100) by (vm_compute; done).
  assert (E : code_of (demo_isr 128) isr128_code (demo_isr 32 +64 off) = None).
  { unfold code_of. rewrite at_offset_neg; [done|]. unfold demo_isr. rewrite u64_small by lia. lia. }
  rewrite E. eapply (placed_code_of (demo_isr 32) isr32_code); [vm_compute; done..|exact H].
Qed.

Lemma fork_child_continues_witness :
  ∃ m5 cl c', steps demo_code return_at_once (switch_return (load64 m5 0x230000) cl) c' ∧ m_rip c' = 0x400123 ∧
    gpr c' RAX = 0 ∧ gpr c' RBX = 101.
Proof.
  set (k := 0x250000). set (u := 0x251000). set (Cp := 0x252000). set (Up := 0x253000). set (Uc := 0x254000).
  destruct (fork_child_continues demo_code return_at_once demo_isr ∅ (VADDR 0x210000) 0x210000 (VADDR 0x230000) 0x230000
    k u Cp Up 0x400000 0x260000 Uc 0x400000 0x270000 demo_machine) as (ct & c0 & _ & _ & H0).
  - split; [discriminate|reflexivity].
  - exact demo_code_128.
  - exact demo_code_32.
  - exact demo_fits.
  - reflexivity.
  - split; [reflexivity|]. unfold sizeof_task. lia.
  - reflexivity.
  - split; [reflexivity|]. unfold sizeof_task. lia.
  - constructor; unfold off_temp, disj, sizeof_task, PAGE_SIZE, k, u, Cp, Up, Uc; try lia;
      repeat (apply Forall_cons; split; [lia|]); constructor.
  - destruct (demo_stores_ok 0x260000 Up (0x210000 + t_ustack) (m_mem c0)) as (F1 & F2 & F3 & F4);
      [unfold Up, disj, t_ustack; lia..|].
    destruct (H0 (demo_stores 0x260000 Up (0x210000 + t_ustack) (m_mem c0))) as (m1 & _ & H1).
    + apply F4; unfold disj, t_kstack, t_ustack, PAGE_SIZE; lia.
    + constructor; [exact F1|exact F2|]. unfold walk_off. rewrite F3.
      repeat (apply Forall_cons; split; [repeat (apply Forall_cons; split; [unfold disj, PAGE_SIZE, k, u, Cp; lia|]); constructor|]).
      constructor.
    + destruct (demo_stores_ok 0x270000 Uc (0x230000 + t_ustack) m1) as (D1 & D2 & D3 & D4); [unfold Uc, disj, t_ustack; lia..|].
      destruct (H1 (demo_stores 0x270000 Uc (0x230000 + t_ustack) m1)) as (m3 & _ & H3).
      * apply D4; unfold disj, PAGE_SIZE, t_ustack, k; lia.
      * apply D4; unfold disj, PAGE_SIZE, t_ustack, u; lia.
      * constructor; [exact D1|exact D2| |]; unfold walk_off; rewrite D3;
          repeat (apply Forall_cons; split; [unfold disj, PAGE_SIZE, t_kstack, Uc; lia|]); constructor.
      * destruct H3 as [_ H3]. destruct (H3 _ (set_mem demo_machine _) (agree_on_refl _ _ _) eq_refl) as (c' & S & E1 & E2 & E3 & _).
        eexists _, _, c'. split; [exact S|]. split; [exact E1|]. split; [exact E2|]. by rewrite E3.
Defined.
