(* ===== verification/Gdt.v ===== *)
(** * Gdt: segment descriptors and the task state segment, src/sys/gdt.c

    [gdt] is an array of 64-bit descriptors; the descriptor of the TSS takes
    entries 5 and 6 and is written through the bit fields of
    [struct sys_segment_descriptor]. *)
From S2P Require Import Prelude Memory.

(** ** Bit fields *)

(** The field of width [w] at bit [o]: reading it and assigning to it. *)
Definition get_field (v o w : Z) : Z := Z.land (Z.shiftr v o) (Z.ones w).
Definition set_field (v o w x : Z) : Z :=
  Z.lor (Z.ldiff v (Z.shiftl (Z.ones w) o)) (Z.shiftl (Z.land x (Z.ones w)) o).

Lemma set_field_spec v o w x i :
  0 <= o → 0 <= w → 0 <= i →
  Z.testbit (set_field v o w x) i = if (o <=? i) && (i <? o + w) then Z.testbit x (i - o) else Z.testbit v i.
Proof.
  intros Ho Hw Hi. unfold set_field. rewrite Z.lor_spec, Z.ldiff_spec, !Z.shiftl_spec by done.
  destruct (Z.leb_spec o i) as [Hoi|Hoi]; cbn [andb].
  - rewrite Z.land_spec, Z.testbit_ones_nonneg by lia. destruct (Z.ltb_spec (i - o) w), (Z.ltb_spec i (o + w)); try lia.
    + by rewrite andb_true_r, andb_false_r.
    + by rewrite andb_false_r, orb_false_r, andb_true_r.
  - rewrite !(Z.testbit_neg_r _ (i - o)) by lia. by rewrite andb_true_r, orb_false_r.
Qed.

Lemma get_field_spec v o w i :
  0 <= o → 0 <= w → 0 <= i → Z.testbit (get_field v o w) i = (i <? w) && Z.testbit v (i + o).
Proof.
  intros Ho Hw Hi. unfold get_field. rewrite Z.land_spec, Z.shiftr_spec, Z.testbit_ones_nonneg by lia. apply andb_comm.
Qed.

Lemma get_set_eq v o w x : 0 <= o → 0 <= w → get_field (set_field v o w x) o w = Z.land x (Z.ones w).
Proof.
  intros Ho Hw. apply Z.bits_inj'. intros i Hi. rewrite get_field_spec by done. rewrite set_field_spec by lia.
  rewrite Z.land_spec, Z.testbit_ones_nonneg by done. replace (i + o - o) with i by lia.
  destruct (Z.ltb_spec i w); cbn [andb]; [|by rewrite andb_false_r].
  rewrite (proj2 (Z.leb_le o (i + o))), (proj2 (Z.ltb_lt (i + o) (o + w))) by lia. cbn [andb]. by rewrite andb_true_r.
Qed.

Lemma get_set_ne v o w x o' w' :
  0 <= o → 0 <= w → 0 <= o' → 0 <= w' → o' + w' <= o ∨ o + w <= o' →
  get_field (set_field v o w x) o' w' = get_field v o' w'.
Proof.
  intros Ho Hw Ho' Hw' Hd. apply Z.bits_inj'. intros i Hi. rewrite !get_field_spec by done.
  destruct (Z.ltb_spec i w'); [|done]. cbn [andb]. rewrite set_field_spec by lia.
  destruct (Z.leb_spec o (i + o')), (Z.ltb_spec (i + o') (o + w)); try lia; done.
Qed.

(** ** The table *)

Definition GDT_CS : Z := 0x00180000000000.
Definition GDT_DS : Z := 0x00100000000000.
Definition DPL0 : Z := 0x00000000000000.
Definition DPL3 : Z := 0x00600000000000.
Definition P_ : Z := 0x00800000000000.
Definition L_ : Z := 0x20000000000000.
Definition W_ : Z := 0x00020000000000.
Definition MAX_GDT : nat := 32.

Definition lor_all (l : list Z) : Z := foldr Z.lor 0 l.

(** The initial contents; the entries after the TSS are 0. *)
Definition gdt0 : list Z :=
  [0; lor_all [GDT_CS; P_; DPL0; L_]; lor_all [GDT_DS; P_; W_; DPL0]; lor_all [GDT_CS; P_; DPL3; L_];
   lor_all [GDT_DS; P_; W_; DPL3]; 0; 0] ++ replicate 25 0.

(** [sizeof(struct tss_t)]; rsp0 is at offset 4. *)
Definition sizeof_tss : Z := 104.
Definition tss_rsp0_off : Z := 4.

(** The assignments to the fields of [*sd], a 128-bit structure. *)
Definition tss_descriptor (sd tss : Z) : Z :=
  let sd := set_field sd 0 16 (sizeof_tss - 1) in
  let sd := set_field sd 16 24 tss in
  let sd := set_field sd 40 5 9 in
  let sd := set_field sd 45 2 0 in
  let sd := set_field sd 47 1 1 in
  let sd := set_field sd 48 4 0 in
  let sd := set_field sd 55 1 0 in
  set_field sd 56 40 (Z.shiftr tss 24).

(** [sd] points to entry 5. *)
Definition init_gdt (gdt : list Z) (tss : Z) : list Z :=
  let sd := nth 5 gdt 0 + 2 ^ 64 * nth 6 gdt 0 in
  let sd := tss_descriptor sd tss in
  <[5%nat := sd mod 2 ^ 64]> (<[6%nat := sd / 2 ^ 64]> gdt).

(** [set_tss_rsp] stores the pointer; [get_tss_rsp] returns the word it points
    to.  [tss] is the physical address of the structure. *)
Definition set_tss_rsp (m : mem) (tss rsp : Z) : mem := store64 m (tss + tss_rsp0_off) rsp.
Definition get_tss_rsp (m : mem) (tss : Z) : Z := load64 m (phys (load64 m (tss + tss_rsp0_off))).

(** ** What the processor reads *)

(** A system descriptor of 16 bytes, [lo] then [hi]: base address bits 0 to 23
    at 16, 24 to 31 at 56, 32 to 63 in the upper word; the limit in two parts;
    type, privilege level and the present bit. *)
Definition hw_base (lo hi : Z) : Z :=
  Z.lor (get_field lo 16 24) (Z.lor (Z.shiftl (get_field lo 56 8) 24) (Z.shiftl (get_field hi 0 32) 32)).
Definition hw_limit (lo : Z) : Z := Z.lor (get_field lo 0 16) (Z.shiftl (get_field lo 48 4) 16).
Definition hw_type (lo : Z) : Z := get_field lo 40 5.
Definition hw_dpl (lo : Z) : Z := get_field lo 45 2.
Definition hw_present (lo : Z) : Z := get_field lo 47 1.

Lemma get_field_low v o w : 0 <= o → 0 <= w → o + w <= 64 → get_field (v mod 2 ^ 64) o w = get_field v o w.
Proof.
  intros Ho Hw Hb. apply Z.bits_inj'. intros i Hi. rewrite !get_field_spec by done.
  destruct (Z.ltb_spec i w); [|done]. cbn [andb]. by rewrite Z.mod_pow2_bits_low by lia.
Qed.

Lemma get_field_high v o w : 0 <= o → 0 <= w → get_field (v / 2 ^ 64) o w = get_field v (o + 64) w.
Proof.
  intros Ho Hw. apply Z.bits_inj'. intros i Hi. rewrite !get_field_spec by lia.
  f_equal. rewrite Z.div_pow2_bits by lia. f_equal. lia.
Qed.

(** A field inside a field that was assigned. *)
Lemma get_set_inner v o w x o' w' :
  0 <= o → 0 <= o' → 0 <= w' → o <= o' → o' + w' <= o + w →
  get_field (set_field v o w x) o' w' = get_field x (o' - o) w'.
Proof.
  intros Ho Ho' Hw' H1 H2. apply Z.bits_inj'. intros i Hi. rewrite !get_field_spec by lia.
  destruct (Z.ltb_spec i w'); [|done]. cbn [andb]. rewrite set_field_spec by lia.
  rewrite (proj2 (Z.leb_le o (i + o'))), (proj2 (Z.ltb_lt (i + o') (o + w))) by lia. f_equal. lia.
Qed.

Lemma split_base tss :
  0 <= tss < 2 ^ 64 →
  Z.lor (get_field tss 0 24) (Z.lor (Z.shiftl (get_field (Z.shiftr tss 24) 0 8) 24)
    (Z.shiftl (get_field (Z.shiftr tss 24) 8 32) 32)) = tss.
Proof.
  intros Ht. apply Z.bits_inj'. intros i Hi. rewrite !Z.lor_spec, !Z.shiftl_spec, get_field_spec by lia.
  rewrite Z.add_0_r. destruct (Z.lt_ge_cases i 24) as [H1|H1].
  { rewrite !(Z.testbit_neg_r _ (i - _)) by lia. rewrite (proj2 (Z.ltb_lt i 24)) by lia. by rewrite !orb_false_r. }
  rewrite (proj2 (Z.ltb_ge i 24)) by lia. cbn [andb orb]. rewrite get_field_spec, Z.shiftr_spec by lia.
  destruct (Z.lt_ge_cases i 32) as [H2|H2].
  { rewrite (Z.testbit_neg_r _ (i - 32)) by lia. rewrite (proj2 (Z.ltb_lt (i - 24) 8)) by lia.
    rewrite orb_false_r. cbn [andb]. f_equal. lia. }
  rewrite (proj2 (Z.ltb_ge (i - 24) 8)) by lia. cbn [andb orb]. rewrite get_field_spec, Z.shiftr_spec by lia.
  destruct (Z.lt_ge_cases i 64) as [H3|H3].
  - rewrite (proj2 (Z.ltb_lt (i - 32) 32)) by lia. cbn [andb]. f_equal. lia.
  - rewrite (proj2 (Z.ltb_ge (i - 32) 32)) by lia. cbn [andb]. symmetry.
    destruct (decide (tss = 0)) as [->|Hne]; [apply Z.bits_0|]. apply Z.bits_above_log2; [lia|].
    apply Z.log2_lt_pow2; [lia|]. eapply Z.lt_le_trans; [apply Ht|]. apply Z.pow_le_mono_r; lia.
Qed.

(** C36: after [init_gdt] the processor finds at selector 0x28 the descriptor of
    an available, present 64-bit TSS of privilege 0 whose base is the address
    of [tss] and whose limit is its size less one; the code and data segments
    of kernel and user are unchanged, present, and of privilege 0 and 3. *)
Theorem init_gdt_describes_tss tss :
  0 <= tss < 2 ^ 64 →
  ∃ lo hi, init_gdt gdt0 tss !! 5%nat = Some lo ∧ init_gdt gdt0 tss !! 6%nat = Some hi ∧
    hw_base lo hi = tss ∧ hw_limit lo = sizeof_tss - 1 ∧ hw_type lo = 9 ∧ hw_dpl lo = 0 ∧ hw_present lo = 1 ∧
    (∀ i, i ≠ 5%nat → i ≠ 6%nat → init_gdt gdt0 tss !! i = gdt0 !! i) ∧
    Forall2 (λ i d, ∃ e, gdt0 !! i = Some e ∧ hw_dpl e = d ∧ hw_present e = 1) [1; 2; 3; 4]%nat [0; 0; 3; 3].
Proof.
  intros Ht. unfold init_gdt. set (sd := nth 5 gdt0 0 + 2 ^ 64 * nth 6 gdt0 0). set (d := tss_descriptor sd tss).
  exists (d mod 2 ^ 64), (d / 2 ^ 64). split_and!.
  - by rewrite list_lookup_insert_eq by (rewrite length_insert; simpl; lia).
  - rewrite list_lookup_insert_ne by done. by rewrite list_lookup_insert_eq by (simpl; lia).
  - unfold hw_base. rewrite !get_field_low, get_field_high by lia. unfold d, tss_descriptor.
    rewrite (get_set_inner _ 56 40 _ 56 8), (get_set_inner _ 56 40 _ (0 + 64) 32) by lia.
    rewrite !(get_set_ne _ _ _ _ 16 24) by lia. rewrite (get_set_inner _ 16 24 _ 16 24) by lia. by apply split_base.
  - unfold hw_limit. rewrite !get_field_low by lia. unfold d, tss_descriptor.
    rewrite !(get_set_ne _ _ _ _ 48 4), !(get_set_ne _ _ _ _ 0 16) by lia. rewrite !get_set_eq by lia. done.
  - unfold hw_type. rewrite !get_field_low by lia. unfold d, tss_descriptor.
    rewrite !(get_set_ne _ _ _ _ 40 5) by lia. by rewrite get_set_eq by lia.
  - unfold hw_dpl. rewrite !get_field_low by lia. unfold d, tss_descriptor.
    rewrite !(get_set_ne _ _ _ _ 45 2) by lia. by rewrite get_set_eq by lia.
  - unfold hw_present. rewrite !get_field_low by lia. unfold d, tss_descriptor.
    rewrite !(get_set_ne _ _ _ _ 47 1) by lia. by rewrite get_set_eq by lia.
  - intros i H5 H6. by rewrite !list_lookup_insert_ne by done.
  - repeat constructor; eexists; split_and!; reflexivity.
Qed.

Lemma init_gdt_describes_tss_witness :
  ∃ lo hi, init_gdt gdt0 0xffffffff80204060 !! 5%nat = Some lo ∧ init_gdt gdt0 0xffffffff80204060 !! 6%nat = Some hi ∧
    hw_base lo hi = 0xffffffff80204060.
Proof.
  destruct (init_gdt_describes_tss 0xffffffff80204060) as (lo & hi & H1 & H2 & H3 & _); [lia|].
  exists lo, hi. split; [exact H1|]. split; [exact H2|exact H3].
Defined.
