(* ===== verification/PtOps.v ===== *)
(** * PtOps: the operations on table entries, src/sys/ptops.c

    The functions of the four levels have the same bodies, with constants of
    the same values (src/include/sys/paging.h): one definition serves the four
    names of each operation.  An entry is a 64-bit number; [bool] is an
    enumeration, so a predicate returns the masked bit, not 0 or 1. *)
From S2P Require Import Prelude.

Definition PTE_PRESENT : Z := 1.
Definition PTE_WRITABLE : Z := 2.
Definition PTE_USER : Z := 4.
Definition PTE_FRAME : Z := 0x0000FFFFFFFFF000.

(** [~x] on 64 bits. *)
Definition not64 (x : Z) : Z := Z.lxor x (2 ^ 64 - 1).

Definition pte_entry_add_attr (e attr : Z) : Z := Z.lor e attr.
Definition pte_entry_del_attr (e attr : Z) : Z := Z.land e (not64 attr).
Definition pte_entry_set_frame (e phy_addr : Z) : Z :=
  Z.lor (Z.land e (not64 PTE_FRAME)) (u64 (Z.shiftl phy_addr 12)).
Definition pte_entry_get_pfn (e : Z) : Z := Z.land e PTE_FRAME.
Definition pte_entry_is_writable (e : Z) : Z := Z.land e PTE_WRITABLE.
Definition pte_entry_is_present (e : Z) : Z := Z.land e PTE_PRESENT.
Definition pte_entry_is_user (e : Z) : Z := Z.land e PTE_USER.

(** The page-directory, page-directory-pointer and top levels. *)
Definition pde_entry_add_attr : Z → Z → Z := pte_entry_add_attr.
Definition pde_entry_del_attr : Z → Z → Z := pte_entry_del_attr.
Definition pde_entry_set_frame : Z → Z → Z := pte_entry_set_frame.
Definition pde_entry_get_pfn : Z → Z := pte_entry_get_pfn.
Definition pde_entry_is_writable : Z → Z := pte_entry_is_writable.
Definition pde_entry_is_present : Z → Z := pte_entry_is_present.
Definition pde_entry_is_user : Z → Z := pte_entry_is_user.
Definition pdp_entry_add_attr : Z → Z → Z := pte_entry_add_attr.
Definition pdp_entry_del_attr : Z → Z → Z := pte_entry_del_attr.
Definition pdp_entry_set_frame : Z → Z → Z := pte_entry_set_frame.
Definition pdp_entry_get_pfn : Z → Z := pte_entry_get_pfn.
Definition pdp_entry_is_writable : Z → Z := pte_entry_is_writable.
Definition pdp_entry_is_present : Z → Z := pte_entry_is_present.
Definition pdp_entry_is_user : Z → Z := pte_entry_is_user.
Definition pml4_entry_add_attr : Z → Z → Z := pte_entry_add_attr.
Definition pml4_entry_del_attr : Z → Z → Z := pte_entry_del_attr.
Definition pml4_entry_set_frame : Z → Z → Z := pte_entry_set_frame.
Definition pml4_entry_get_pfn : Z → Z := pte_entry_get_pfn.
Definition pml4_entry_is_writable : Z → Z := pte_entry_is_writable.
Definition pml4_entry_is_present : Z → Z := pte_entry_is_present.
Definition pml4_entry_is_user : Z → Z := pte_entry_is_user.

(** ** Bits *)

Lemma testbit_mask o n i : 0 <= o → 0 <= n → 0 <= i →
  Z.testbit (Z.shiftl (Z.ones n) o) i = (o <=? i) && (i <? o + n).
Proof.
  intros Ho Hn Hi. rewrite Z.shiftl_spec by done. destruct (Z.leb_spec o i); cbn [andb].
  - rewrite Z.testbit_ones_nonneg by lia. destruct (Z.ltb_spec (i - o) n), (Z.ltb_spec i (o + n)); done || lia.
  - apply Z.testbit_neg_r. lia.
Qed.

Lemma frame_bits i : 0 <= i → Z.testbit PTE_FRAME i = (12 <=? i) && (i <? 48).
Proof. intros. change PTE_FRAME with (Z.shiftl (Z.ones 36) 12). by apply testbit_mask. Qed.

Lemma not64_spec x i : 0 <= i < 64 → Z.testbit (not64 x) i = negb (Z.testbit x i).
Proof.
  intros. unfold not64. change (2 ^ 64 - 1) with (Z.ones 64). rewrite Z.lxor_spec, Z.testbit_ones_nonneg by lia.
  rewrite (proj2 (Z.ltb_lt i 64)) by lia. apply xorb_true_r.
Qed.

(** The frame stored by [set_frame] is the page whose *number* is given:
    for a page number below 2^36 [get_pfn] returns 4096 times it, the flags in
    the low twelve bits and the bits above the frame are kept, and adding and
    deleting an attribute set and clear exactly its bits. *)
Theorem set_frame_get_pfn e n attr i :
  0 <= n < 2 ^ 36 → 0 <= i < 64 →
  pte_entry_get_pfn (pte_entry_set_frame e n) = 4096 * n ∧
  (i < 12 ∨ 48 <= i → Z.testbit (pte_entry_set_frame e n) i = Z.testbit e i) ∧
  Z.testbit (pte_entry_add_attr e attr) i = Z.testbit e i || Z.testbit attr i ∧
  Z.testbit (pte_entry_del_attr e attr) i = Z.testbit e i && negb (Z.testbit attr i).
Proof.
  intros Hn Hi.
  assert (Es : u64 (Z.shiftl n 12) = Z.shiftl n 12) by (apply u64_small; rewrite Z.shiftl_mul_pow2 by lia; lia).
  assert (Hbit : ∀ j, 0 <= j → Z.testbit (pte_entry_set_frame e n) j =
    Z.testbit (Z.land e (not64 PTE_FRAME)) j || Z.testbit n (j - 12)).
  { intros j Hj. unfold pte_entry_set_frame. by rewrite Z.lor_spec, Es, Z.shiftl_spec. }
  assert (Hhigh : ∀ j, 36 <= j → Z.testbit n j = false).
  { intros j Hj. destruct (decide (n = 0)) as [->|]; [apply Z.bits_0|]. apply Z.bits_above_log2; [lia|].
    apply Z.log2_lt_pow2; [lia|]. eapply Z.lt_le_trans; [apply Hn|apply Z.pow_le_mono_r; lia]. }
  split_and!.
  - change (4096 * n) with (2 ^ 12 * n). rewrite Z.mul_comm, <- Z.shiftl_mul_pow2 by lia.
    apply Z.bits_inj'. intros j Hj. unfold pte_entry_get_pfn. rewrite Z.land_spec, Hbit, frame_bits, Z.shiftl_spec by done.
    destruct (Z.leb_spec 12 j); cbn [andb]; [|rewrite andb_false_r; symmetry; apply Z.testbit_neg_r; lia].
    destruct (Z.ltb_spec j 48); [|by rewrite andb_false_r, Hhigh by lia].
    rewrite Z.land_spec, not64_spec, frame_bits by lia. rewrite (proj2 (Z.leb_le 12 j)), (proj2 (Z.ltb_lt j 48)) by lia.
    cbn [andb negb]. by rewrite andb_false_r, andb_true_r.
  - intros Hout. rewrite Hbit, Z.land_spec, not64_spec, frame_bits by lia.
    assert ((12 <=? i) && (i <? 48) = false) as -> by (destruct (Z.leb_spec 12 i), (Z.ltb_spec i 48); done || lia).
    cbn [negb]. rewrite andb_true_r. destruct Hout as [Hlo|Hhi].
    + by rewrite (Z.testbit_neg_r n), orb_false_r by lia.
    + by rewrite Hhigh, orb_false_r by lia.
  - unfold pte_entry_add_attr. by rewrite Z.lor_spec.
  - unfold pte_entry_del_attr. by rewrite Z.land_spec, not64_spec.
Qed.

Lemma set_frame_get_pfn_witness : pte_entry_get_pfn (pte_entry_set_frame 7 5) = 20480.
Proof. exact (proj1 (set_frame_get_pfn 7 5 0 0 ltac:(lia) ltac:(lia))). Defined.
