(* ===== verification/Ptmgr.v ===== *)
(** * Ptmgr: the older page-table manager, src/sys/ptmgr.c

    The kernel no longer calls it.  Tables lie in the flat memory and are
    reached through kernel pointers; the globals and the two control registers
    are a record.  The prints of [init_page_table] and [vmem_init] are left out.
    The lemmas say what the processor makes of the entries it writes. *)
From S2P Require Import Prelude Memory Utils Mem MemProps Paging PtOps.

(** ** State *)

(** [pte] is a static array of 512 pointers, given by its address where it is
    used. *)
Record ptmgr := Ptmgr {
  current_pml4 : Z;
  curr_pml4br : Z;
  cr0 : Z;
  cr3 : Z;
}.

Definition ptmgr_paging_enable (st : ptmgr) (b : bool) : ptmgr :=
  Ptmgr (current_pml4 st) (curr_pml4br st) (if b then Z.lor (cr0 st) 0x80000000 else Z.land (cr0 st) 0x7FFFFFFF) (cr3 st).
Definition ptmgr_load_PML4BR (st : ptmgr) (addr : Z) : ptmgr := Ptmgr (current_pml4 st) (curr_pml4br st) (cr0 st) addr.

Definition ptmgr_switch_pml4 (st : ptmgr) (pml4 : Z) : bool * ptmgr :=
  if pml4 =? 0 then (false, st)
  else
    let st := Ptmgr pml4 (curr_pml4br st) (cr0 st) (cr3 st) in
    (true, ptmgr_load_PML4BR st (curr_pml4br st)).
Definition get_pml4 (st : ptmgr) : Z := current_pml4 st.

(** ** Entries in tables *)

Definition lookup_pte_entry (p virt_addr : Z) : Z := if p =? 0 then 0 else p +64 8 * PAGE_TABLE_INDEX virt_addr.
Definition lookup_pdp_entry (p virt_addr : Z) : Z := if p =? 0 then 0 else p +64 8 * PAGE_PDP_INDEX virt_addr.
Definition lookup_pml4_entry (p virt_addr : Z) : Z := if p =? 0 then 0 else p +64 8 * PAGE_PML4_INDEX virt_addr.

(** [add_attr(e, PRESENT); add_attr(e, WRITABLE); set_frame(e, frame)] on the
    entry at the pointer [e], as at every level. *)
Definition set_entry (m : mem) (e frame : Z) : mem :=
  let m := store64 m (phys e) (pte_entry_add_attr (load64 m (phys e)) PTE_PRESENT) in
  let m := store64 m (phys e) (pte_entry_add_attr (load64 m (phys e)) PTE_WRITABLE) in
  store64 m (phys e) (pte_entry_set_frame (load64 m (phys e)) frame).

Section Manager.
Context (mf : nat) (free_list : Z).

Definition allocate_page_pt (m : mem) (e : Z) : option (bool * mem) :=
  '(p, m) ← kmalloc mf free_list m 1;
  if p =? 0 then Some (false, m)
  else
    let m := store64 m (phys e) (pte_entry_set_frame (load64 m (phys e)) p) in
    Some (true, store64 m (phys e) (pte_entry_add_attr (load64 m (phys e)) PTE_PRESENT)).

Definition free_page_pt (m : mem) (e : Z) : mem :=
  store64 m (phys e) (pte_entry_del_attr (load64 m (phys e)) PTE_PRESENT).

(** ** init_page_table *)

(** [pte[i] = kmalloc(PAGE_SIZE); pdt[i] = pte[i];] for [n] more tables *)
Fixpoint alloc_tables (n : nat) (m : mem) (pte pdt i : Z) : option mem :=
  match n with
  | O => Some m
  | S n' =>
      '(p, m) ← kmalloc mf free_list m PAGE_SIZE;
      let m := store64 m (pte + 8 * i) p in
      alloc_tables n' (pt_set m pdt i (load64 m (pte + 8 * i))) pte pdt (i + 1)
  end.

(** [pte[i][j] = KERNEL_VADDR + inc*PAGE_SIZE; inc++;] *)
Fixpoint fill_table (n : nat) (m : mem) (table j inc : Z) : mem * Z :=
  match n with
  | O => (m, inc)
  | S n' => fill_table n' (pt_set m table j (KERNEL_VADDR +64 inc *64 PAGE_SIZE)) table (j + 1) (inc + 1)
  end.
Fixpoint fill_all_tables (n : nat) (m : mem) (pte i inc : Z) : mem :=
  match n with
  | O => m
  | S n' =>
      let '(m, inc) := fill_table (Z.to_nat PAGE_SIZE) m (load64 m (pte + 8 * i)) 0 inc in
      fill_all_tables n' m pte (i + 1) inc
  end.

Definition init_page_table (m : mem) (pte num_pages : Z) : option (Z * mem) :=
  let num_pte := num_pages / PAGE_SIZE in
  '(pml4, m) ← kmalloc mf free_list m PAGE_SIZE;
  '(pdpt, m) ← kmalloc mf free_list m PAGE_SIZE;
  '(pdt, m) ← kmalloc mf free_list m PAGE_SIZE;
  let m := pt_set (pt_set m pml4 0 pdpt) pdpt 0 pdt in
  m ← alloc_tables (Z.to_nat num_pte) m pte pdt 0;
  Some (pml4, fill_all_tables (Z.to_nat num_pte) m pte 0 0).

(** ** map_virt_phys *)

(** Only an absent top-level entry is filled; [pd] is cleared twice and [pt] not
    at all. *)
Definition map_virt_phys (m : mem) (st : ptmgr) (phys_addr virt : Z) : option mem :=
  let pml4_table := get_pml4 st in
  let e := pml4_table +64 8 * PAGE_PML4_INDEX virt in
  if negb (Z.land (load64 m (phys e)) PTE_PRESENT =? PTE_PRESENT) then
    '(pdp, m) ← kmalloc mf free_list m 1;
    if pdp =? 0 then Some m
    else
      let m := memset m (phys pdp) 0 0x1000 in
      let m := set_entry m e pdp in
      '(pd, m) ← kmalloc mf free_list m 1;
      let m := memset m (phys pd) 0 0x1000 in
      let m := set_entry m (pdp +64 8 * PAGE_PDP_INDEX virt) pd in
      '(pt, m) ← kmalloc mf free_list m 1;
      let m := memset m (phys pd) 0 0x1000 in
      let m := set_entry m (pd +64 8 * PAGE_DIR_INDEX virt) pt in
      Some (set_entry m (pt +64 8 * PAGE_TABLE_INDEX virt) phys_addr)
  else Some m.

(** ** vmem_init *)

(** An entry built in a local variable. *)
Definition new_entry (frame : Z) : Z :=
  pte_entry_set_frame (pte_entry_add_attr (pte_entry_add_attr 0 PTE_PRESENT) PTE_WRITABLE) frame.

(** [frame] and [virt] are [int]s: the indices of the lower levels come from the
    [int], the top one from its extension to 64 bits. *)
Fixpoint vmem_loop (n : nat) (m : mem) (table pd pdp pml4 frame virt : Z) : mem :=
  match n with
  | O => m
  | S n' =>
      let m := pt_set m table (PAGE_TABLE_INDEX virt) (new_entry (u64 frame)) in
      let m := pt_set m pd (PAGE_DIR_INDEX virt) (new_entry table) in
      let m := pt_set m pdp (PAGE_PDP_INDEX virt) (new_entry pd) in
      let m := pt_set m pml4 (PAGE_PML4_INDEX (u64 virt)) (new_entry pdp) in
      vmem_loop n' m table pd pdp pml4 (i32 (frame + 4096)) (i32 (virt + 4096))
  end.

(** [memset(pml4, 0, sizeof(pml4))] clears the size of a pointer. *)
Definition vmem_init (m : mem) (st : ptmgr) (physbase : Z) : option (ptmgr * mem) :=
  '(table, m) ← kmalloc mf free_list m 1;
  if table =? 0 then Some (st, m)
  else
    let m := memset m (phys table) 0 0x1000 in
    '(pml4, m) ← kmalloc mf free_list m 1;
    if pml4 =? 0 then Some (st, m)
    else
      let m := memset m (phys pml4) 0 8 in
      '(pdp, m) ← kmalloc mf free_list m 1;
      if pdp =? 0 then Some (st, m)
      else
        let m := memset m (phys pdp) 0 8 in
        '(pd, m) ← kmalloc mf free_list m 1;
        if pd =? 0 then Some (st, m)
        else
          let m := memset m (phys pd) 0 8 in
          let m := vmem_loop 512 m table pd pdp pml4 (i32 physbase) (i32 (KERNEL_VADDR +64 physbase)) in
          let st := Ptmgr (current_pml4 st) pml4 (cr0 st) (cr3 st) in
          let '(_, st) := ptmgr_switch_pml4 st pml4 in
          Some (ptmgr_paging_enable st true, m).
End Manager.

(** ** What the processor makes of an entry *)

(** The frame stored for a kernel pointer lies above 2^47, whatever page the
    pointer designates: no table is reached through it. *)
Lemma get_pfn_any e n : pte_entry_get_pfn (pte_entry_set_frame e n) = 4096 * (n mod 2 ^ 36).
Proof.
  change (4096 * (n mod 2 ^ 36)) with (2 ^ 12 * (n mod 2 ^ 36)). rewrite Z.mul_comm, <- Z.shiftl_mul_pow2 by lia.
  apply Z.bits_inj'. intros j Hj. unfold pte_entry_get_pfn, pte_entry_set_frame, u64.
  rewrite Z.land_spec, Z.lor_spec, frame_bits, Z.shiftl_spec by done.
  destruct (Z.leb_spec 12 j); cbn [andb]; [|rewrite andb_false_r; symmetry; apply Z.testbit_neg_r; lia].
  destruct (Z.ltb_spec j 48).
  - rewrite Z.land_spec, not64_spec, frame_bits by lia. rewrite (proj2 (Z.leb_le 12 j)), (proj2 (Z.ltb_lt j 48)) by lia.
    cbn [andb negb]. rewrite andb_false_r, andb_true_r, orb_false_l.
    rewrite !Z.mod_pow2_bits_low by lia. by rewrite Z.shiftl_spec.
  - rewrite andb_false_r. symmetry. apply Z.mod_pow2_bits_high. lia.
Qed.

Lemma table_pointer_misplaced e p :
  0 <= p < 2 ^ 31 → pte_entry_get_pfn (pte_entry_set_frame e (VADDR p)) = 2 ^ 48 - 2 ^ 43 + 4096 * p.
Proof. intros Hp. rewrite get_pfn_any. unfold VADDR, KERNEL_VADDR, u64. lia. Qed.

(** On the machine of [MemProps.boot_mem] with a table at 0x200000: neither the
    page given to [map_virt_phys] nor the kernel's own page after [vmem_init] is
    translated. *)
Lemma map_virt_phys_maps_nothing :
  (λ m, translate m 0x200000 0x400000) <$> map_virt_phys 341 4096 boot_mem (Ptmgr (VADDR 0x200000) 0 0 0) 0x207000 0x400000 =
  Some None.
Proof. vm_compute. reflexivity. Qed.
Lemma vmem_init_maps_nothing :
  (λ r, (cr3 r.1 - current_pml4 r.1, translate r.2 (PADDR (current_pml4 r.1)) (KERNEL_VADDR +64 0x200000))) <$>
  vmem_init 341 4096 boot_mem (Ptmgr 0 0 0 0) 0x200000 = Some (0, None).
Proof. vm_compute. reflexivity. Qed.
