(* ===== verification/Libc.v ===== *)
(** * Libc: the C library of the user programs, src/libc

    The string functions (src/libc/string.c), [printf] and the system-call
    stubs.  The library's own copies of the kernel's string functions are the
    same code, so they are the same definitions; a user program's memory is the
    flat byte store of [Memory].  A system call is the contents of the registers
    at [int 0x80]; what comes back in [rax] is an argument of the stub's
    result. *)
From S2P Require Import Prelude Memory Utils Strings.

(** ** string.c: the functions shared with the kernel *)

Definition COMM_LEN : Z := 50.

Definition str_cpy : nat → mem → Z → Z → option mem := Strings.str_cpy.
Definition str_len : nat → mem → Z → option Z := Strings.str_len.
Definition str_cmp : nat → mem → Z → Z → option Z := Strings.str_cmp.
Definition str_contains : nat → mem → Z → Z → option Z := Strings.str_contains.
Definition str_substr : mem → Z → Z → Z → Z → mem := Strings.str_substr.
Definition itoa : mem → Z → Z → Z → Z * mem := Utils.itoa.
Definition mem_set : mem → Z → Z → Z → mem := Memory.memset.
Definition memcpy : mem → Z → Z → Z → mem := Memory.memcpy.

(** ** string.c: searching *)

Fixpoint occurence_loop (fuel : nat) (m : mem) (str query occr i find_ctr : Z) : option Z :=
  match fuel with
  | O => None
  | S f =>
      if rd m (str + i) =? 0 then Some i
      else
        let find_ctr := if rd m (str + i) =? query then find_ctr + 1 else find_ctr in
        if find_ctr =? occr then Some i else occurence_loop f m str query occr (i + 1) find_ctr
  end.

Definition strfind_occurence (fuel : nat) (m : mem) (str query occr : Z) : option Z :=
  occurence_loop fuel m str query occr 0 0.

Definition is_blank (c : Z) : bool := (c =? 32) || (c =? 9) || (c =? 10).

(** The index at which the loop stops. *)
Fixpoint delim_loop (fuel : nat) (m : mem) (str i : Z) : option Z :=
  match fuel with
  | O => None
  | S f =>
      if rd m (str + i) =? 0 then Some i
      else if is_blank (rd m (str + i)) then Some i
      else delim_loop f m str (i + 1)
  end.

Definition strfind_delim (fuel : nat) (m : mem) (str frm : Z) : option Z :=
  i ← delim_loop fuel m str (frm + 1);
  Some (if rd m (str + i) =? 0 then i - 1 else i).

(** ** string.c: splitting and joining *)

(** The loop of [split_delim] and [split], which differ in the test for a
    delimiter; a row of [out] has [COMM_LEN] bytes. *)
Fixpoint rows_loop (is_delim : Z → bool) (fuel : nat) (m : mem) (str out prev_ptr i arg_ctr : Z)
    : option (Z * mem) :=
  match fuel with
  | O => None
  | S f =>
      if rd m (str + i) =? 0 then
        Some (arg_ctr + 1, str_substr m str prev_ptr (i - 1) (out + COMM_LEN * arg_ctr))
      else if is_delim (rd m (str + i)) then
        rows_loop is_delim f (str_substr m str prev_ptr (i - 1) (out + COMM_LEN * arg_ctr))
          str out (i + 1) (i + 1) (arg_ctr + 1)
      else rows_loop is_delim f m str out prev_ptr (i + 1) arg_ctr
  end.

Definition split_delim (fuel : nat) (m : mem) (str delim out : Z) : option (Z * mem) :=
  rows_loop (λ c, c =? delim) fuel m str out 0 0 0.

Definition split (fuel : nat) (m : mem) (str out : Z) : option (Z * mem) :=
  rows_loop (λ c, (c =? 9) || (c =? 32)) fuel m str out 0 0 0.

Definition str_concat (fuel : nat) (m : mem) (prev current after dest : Z) : option mem :=
  '(i, m) ← copy_loop fuel m dest prev 0;
  let m := wr m (dest + i) 0 in
  '(j, m) ← copy_loop fuel m (dest + i) current 0;
  let m := wr m (dest + (i + j)) 0 in
  '(k, m) ← copy_loop fuel m (dest + (j + i)) after 0;
  Some (wr m (dest + (i + j + k)) 0).

(** ** syscall.h: the stubs

    The registers at [int 0x80]; [None] is a register the stub does not load.
    [call_ret] is what the library function returns when the kernel leaves a
    value in [rax]. *)

Record regs := Regs { rax : Z; rbx : option Z; rcx : option Z; rdx : option Z }.
Record call := Call { call_regs : regs; call_ret : Z → Z }.

(** [DEFN_SYSCALL0] and [DEFN_SYSCALL1] return an [int], the others the 64 bits
    of [rax]. *)
Definition DEFN_SYSCALL0 (num : Z) : call := Call (Regs num None None None) i32.
Definition DEFN_SYSCALL1 (num p1 : Z) : call := Call (Regs num (Some (u64 p1)) None None) i32.
Definition DEFN_SYSCALL2 (num p1 p2 : Z) : call := Call (Regs num (Some (u64 p1)) (Some (u64 p2)) None) u64.
Definition DEFN_SYSCALL3 (num p1 p2 p3 : Z) : call :=
  Call (Regs num (Some (u64 p1)) (Some (u64 p2)) (Some (u64 p3))) u64.

(** A library function that converts the stub's result to its own type. *)
Definition returns (f : Z → Z) (c : call) : call := Call (call_regs c) (λ a, f (call_ret c a)).

(** The [_syscall] macros go through a [long], which has the width of [rax]. *)
Definition i64 (z : Z) : Z := (z + 2 ^ 63) mod 2 ^ 64 - 2 ^ 63.
Definition _syscall1 (nr arg1 : Z) : call := Call (Regs nr (Some (u64 arg1)) None None) (λ a, i32 (i64 a)).
Definition _syscall2 (nr arg1 arg2 : Z) : call :=
  Call (Regs nr (Some (u64 arg1)) (Some (u64 arg2)) None) (λ a, i32 (i64 a)).
Definition _syscall3 (nr arg1 arg2 arg3 : Z) : call :=
  Call (Regs nr (Some (u64 arg1)) (Some (u64 arg2)) (Some (u64 arg3))) (λ a, i32 (i64 a)).

(** ** The library functions over them, one per file of src/libc

    Results are converted to the function's type: [pid_t] is [uint32_t],
    [ssize_t] and pointers have 64 bits. *)

Definition fork : call := returns u32 (DEFN_SYSCALL0 4).
Definition getpid : call := returns u32 (DEFN_SYSCALL0 26).
Definition getppid : call := returns (λ a, u32 (i32 a)) (DEFN_SYSCALL0 28).
Definition yield : call := DEFN_SYSCALL0 6.
Definition wait : call := returns (λ a, u32 (i32 a)) (DEFN_SYSCALL0 32).
Definition waitpid (pid is_bg : Z) : call := returns (λ a, u32 (i32 a)) (DEFN_SYSCALL2 20 pid is_bg).
Definition exec (proc : Z) : call := returns i32 (DEFN_SYSCALL1 7 proc).
Definition execvp (proc arg : Z) : call := returns i32 (DEFN_SYSCALL2 8 proc arg).
Definition exit (status : Z) : call := DEFN_SYSCALL1 10 status.
Definition gets (s : Z) : call := returns i32 (DEFN_SYSCALL1 30 s).
Definition open (filename : Z) : call := returns u64 (DEFN_SYSCALL1 34 filename).
Definition close (fd : Z) : call := returns i32 (DEFN_SYSCALL1 36 fd).
Definition read_file (fd buf size : Z) : call := returns (λ a, u64 (i32 a)) (DEFN_SYSCALL3 38 fd buf size).
Definition opendir (buf : Z) : call := returns u64 (DEFN_SYSCALL1 40 buf).
Definition read_dir (buf : Z) : call := returns u64 (DEFN_SYSCALL1 42 buf).
Definition closedir (buf : Z) : call := returns u64 (DEFN_SYSCALL1 44 buf).

(** The descriptor is not passed on. *)
Definition write (fd s size : Z) : call := returns i32 (DEFN_SYSCALL3 1 1 s size).
Definition read (fd s size : Z) : call := returns i32 (DEFN_SYSCALL3 2 0 s size).

Definition print (stream s : Z) : call := DEFN_SYSCALL2 1 stream s.
(** [s] is the address of the parameter. *)
Definition putchar (s : Z) : call := returns (λ _, 1) (DEFN_SYSCALL2 1 1 s).
Definition puts (fuel : nat) (m : mem) (s : Z) : option call :=
  n ← str_len fuel m s; Some (returns i32 (write 1 s n)).

Definition chdir (path : Z) : call := _syscall1 12 path.
Definition pipe (pipefd : Z) : call := _syscall1 42 pipefd.
Definition dup2 (oldfd newfd : Z) : call := _syscall2 63 oldfd newfd.
Definition execve (file argv envp : Z) : call := _syscall3 1 file argv envp.

(** ** printf.c *)

Section Printf.
(** [write_buf] and [istr]: the addresses of the static buffer of 1024 bytes and
    of the local one of 100 bytes. *)
Context (fuel : nat) (write_buf istr : Z).

(** [memcpy(write_buf + len, str, str_len(str)); len += str_len(str);] *)
Definition put_str (m : mem) (len str : Z) : option (Z * mem) :=
  n ← str_len fuel m str;
  let m := memcpy m (write_buf + len) str n in
  n ← str_len fuel m str;
  Some (i32 (len + n), m).

(** [memcpy(write_buf + len, ptr, 1); len += 1;] *)
Definition put_byte (m : mem) (len ptr : Z) : Z * mem := (i32 (len + 1), memcpy m (write_buf + len) ptr 1).

(** The conversions; [v] is the argument's eight bytes. *)
Definition put_d (m : mem) (len v : Z) : option (Z * mem) :=
  let ival := i32 v in
  let '(isNegative, ival) := if ival <? 0 then (true, i32 (- ival)) else (false, ival) in
  let '(dstr, m) := itoa m (u64 ival) (istr + 99) 10 in
  let '(dstr, m) := if (isNegative : bool) then (dstr - 1, wr m (dstr - 1) 45) else (dstr, m) in
  put_str m len dstr.

Definition put_p (m : mem) (len v : Z) : option (Z * mem) :=
  let '(pstr, m) := itoa m (u64 v) (istr + 99) 16 in
  let m := wr m (pstr - 1) 120 in
  let m := wr m (pstr - 2) 48 in
  put_str m len (pstr - 2).

Definition put_x (m : mem) (len v : Z) : option (Z * mem) :=
  let '(xtr, m) := itoa m (u64 v) (istr + 99) 16 in
  put_str m len xtr.

Definition put_c (m : mem) (len v : Z) : Z * mem := (i32 (len + 1), wr m (write_buf + len) v).

(** One conversion, [c] the character behind the percent sign and [ptr] its
    address; answers the arguments left.  A missing argument is outside the
    model. *)
Definition convert (m : mem) (len ptr c : Z) (ap : list Z) : option (list Z * (Z * mem)) :=
  let with_arg (f : Z → option (Z * mem)) :=
    match ap with v :: ap => r ← f v; Some (ap, r) | [] => None end in
  if c =? 100 then with_arg (put_d m len)
  else if c =? 112 then with_arg (put_p m len)
  else if c =? 120 then with_arg (put_x m len)
  else if c =? 99 then with_arg (λ v, Some (put_c m len v))
  else if c =? 115 then with_arg (λ v, put_str m len (u64 v))
  else Some (ap, put_byte m len ptr).

Fixpoint printf_loop (n : nat) (m : mem) (ptr len : Z) (ap : list Z) : option (Z * mem) :=
  match n with
  | O => None
  | S n' =>
      if rd m ptr =? 0 then Some (len, m)
      else if rd m ptr =? 37 then
        let ptr := ptr + 1 in
        if rd m ptr =? 0 then printf_loop n' m ptr len ap
        else
          '(ap, (len, m)) ← convert m len ptr (rd m ptr) ap;
          printf_loop n' m (ptr + 1) len ap
      else
        let '(len, m) := put_byte m len ptr in
        printf_loop n' m (ptr + 1) len ap
  end.

(** The memory at the system call and the call. *)
Definition printf (m : mem) (str : Z) (ap : list Z) : option (mem * call) :=
  '(len, m) ← printf_loop fuel m str 0 ap;
  let m := wr m (write_buf + len) 0 in
  n ← str_len fuel m write_buf;
  Some (m, returns i32 (write 1 write_buf n)).
End Printf.
