(* ===== verification/LibcProps.v ===== *)
(** * LibcProps: what the C library computes

    Splitting against the list of fields, with the join as its inverse; the
    searches; [printf] against a renderer of formats on lists. *)
From S2P Require Import Prelude Memory Utils Strings Libc.

(** ** Fields *)

(** The fields of [rest], the characters [cur] read since the last delimiter. *)
Fixpoint fields (p : Z → bool) (cur rest : list Z) : list (list Z) :=
  match rest with
  | [] => [cur]
  | c :: rest' => if p c then cur :: fields p [] rest' else fields p (cur ++ [c]) rest'
  end.

Fixpoint join (d : Z) (fs : list (list Z)) : list Z :=
  match fs with
  | [] => []
  | [f] => f
  | f :: fs' => f ++ d :: join d fs'
  end.

Lemma fields_nonempty p rest : ∀ cur, fields p cur rest ≠ [].
Proof. induction rest as [|c rest IH]; intros cur; simpl; [done|]. by case_match. Qed.

Lemma join_fields d rest : ∀ cur, join d (fields (λ c, c =? d) cur rest) = cur ++ rest.
Proof.
  induction rest as [|c rest IH]; intros cur; simpl; [by rewrite app_nil_r|].
  destruct (Z.eqb_spec c d) as [->|].
  - simpl. specialize (IH []). pose proof (fields_nonempty (λ c, c =? d) rest []).
    destruct (fields _ _ _); [done|]. by rewrite IH.
  - rewrite IH. by rewrite <- app_assoc.
Qed.

Lemma fields_clean p rest : ∀ cur,
  Forall (λ c, p c = false) cur → Forall (Forall (λ c, p c = false)) (fields p cur rest).
Proof.
  induction rest as [|c rest IH]; intros cur Hc; simpl; [by repeat constructor|].
  destruct (p c) eqn:E; [constructor; [done|]; apply IH; constructor|].
  apply IH, Forall_app. split; [done|by repeat constructor].
Qed.

Lemma rows_loop_spec p rest : ∀ pre cur fuel m str out ctr,
  cstr m str (pre ++ cur ++ rest) → (length rest < fuel)%nat → 0 <= ctr →
  Forall (λ f, Z.of_nat (length f) < COMM_LEN) (fields p cur rest) →
  disj str (Z.of_nat (length (pre ++ cur ++ rest)) + 1)
       (out + COMM_LEN * ctr) (COMM_LEN * Z.of_nat (length (fields p cur rest))) →
  ∃ m', rows_loop p fuel m str out (Z.of_nat (length pre)) (Z.of_nat (length pre + length cur)) ctr =
        Some (ctr + Z.of_nat (length (fields p cur rest)), m') ∧
    (∀ k f, fields p cur rest !! k = Some f → cstr m' (out + COMM_LEN * (ctr + Z.of_nat k)) f) ∧
    (∀ b, b < out + COMM_LEN * ctr ∨
          out + COMM_LEN * (ctr + Z.of_nat (length (fields p cur rest))) <= b → rd m' b = rd m b).
Proof.
  unfold disj, COMM_LEN.
  induction rest as [|c rest IH]; intros pre cur [|fuel] m str out ctr Hs Hf Hctr Hp Hd;
    cbn [length] in Hf; try lia; cbn [rows_loop fields] in *.
  - rewrite (end_behind m str pre cur Hs). cbn [Z.eqb length] in *. apply Forall_cons in Hp as [Hp1 _].
    destruct (substr_middle m str pre cur [] (out + 50 * ctr) Hs) as [W1 W2]; [unfold disj; lia|].
    eexists. split; [done|]. split.
    + intros [|k] f Hk; simplify_eq/=. by rewrite Z.add_0_r.
    + intros b Hb. apply W2. lia.
  - destruct (char_behind m str pre cur c rest Hs) as [-> Hc0]. destruct (Z.eqb_spec c 0); [done|].
    destruct (p c) eqn:Ec.
    + apply Forall_cons in Hp as [Hp1 Hp2]. cbn [length] in *.
      destruct (substr_middle m str pre cur (c :: rest) (out + 50 * ctr) Hs) as [W1 W2]; [unfold disj; lia|].
      unfold str_substr. set (m1 := Strings.str_substr _ _ _ _ _) in *.
      destruct (IH (pre ++ cur ++ [c]) [] fuel m1 str out (ctr + 1)) as (m' & E & Q1 & Q2);
        [|lia|lia|done|rewrite !length_app in *; simpl in *; lia|].
      { rewrite <- !app_assoc. eapply cstr_agree; [exact Hs|]. intros b Hb. apply W2. rewrite !length_app in *. simpl in *. lia. }
      exists m'. rewrite !length_app in E. cbn [length] in E. rewrite ?Nat.add_0_r, ?Nat.add_assoc, ?Nat2Z.inj_add in E. change (Z.of_nat 1) with 1 in E.
      rewrite ?Nat2Z.inj_add. split; [rewrite E; f_equal; f_equal; lia|]. split.
      * intros [|k] f Hk; simplify_eq/=.
        { rewrite Z.add_0_r. eapply cstr_agree; [exact W1|]. intros b Hb. apply Q2. lia. }
        replace (ctr + Z.of_nat (S k)) with (ctr + 1 + Z.of_nat k) by lia. by apply Q1.
      * intros b Hb. rewrite Q2 by lia. apply W2. lia.
    + destruct (IH pre (cur ++ [c]) fuel m str out ctr) as (m' & E & Q1 & Q2);
        [by rewrite <- app_assoc|lia|done|done|rewrite !length_app in *; simpl in *; lia|].
      exists m'. rewrite length_app, Nat.add_assoc, (Nat2Z.inj_add _ (length [c])) in E. done.
Qed.

Lemma rows_spec p fuel m str s out :
  cstr m str s → (length s < fuel)%nat →
  Forall (λ f, Z.of_nat (length f) < COMM_LEN) (fields p [] s) →
  disj str (Z.of_nat (length s) + 1) out (COMM_LEN * Z.of_nat (length (fields p [] s))) →
  ∃ m', rows_loop p fuel m str out 0 0 0 = Some (Z.of_nat (length (fields p [] s)), m') ∧
    (∀ k f, fields p [] s !! k = Some f → cstr m' (out + COMM_LEN * Z.of_nat k) f) ∧
    (∀ b, b < out ∨ out + COMM_LEN * Z.of_nat (length (fields p [] s)) <= b → rd m' b = rd m b).
Proof.
  intros Hs Hf Hp Hd.
  destruct (rows_loop_spec p s [] [] fuel m str out 0) as (m' & E & Q1 & Q2); [done..| |].
  { replace (out + COMM_LEN * 0) with out by lia. done. }
  exists m'. split; [exact E|]. split.
  - intros k f Hk. by apply Q1.
  - intros b Hb. apply Q2. lia.
Qed.

(** C39: [split_delim] stores the fields of the string in the rows of [out] and
    returns their number, writing nothing else, and the fields joined with the
    delimiter are the string again: splitting loses nothing. *)
Theorem split_delim_join fuel m str s d out :
  cstr m str s → (length s < fuel)%nat →
  Forall (λ f, Z.of_nat (length f) < COMM_LEN) (fields (λ c, c =? d) [] s) →
  disj str (Z.of_nat (length s) + 1) out (COMM_LEN * Z.of_nat (length (fields (λ c, c =? d) [] s))) →
  ∃ fs m', split_delim fuel m str d out = Some (Z.of_nat (length fs), m') ∧
    (∀ k f, fs !! k = Some f → cstr m' (out + COMM_LEN * Z.of_nat k) f) ∧
    (∀ b, b < out ∨ out + COMM_LEN * Z.of_nat (length fs) <= b → rd m' b = rd m b) ∧
    join d fs = s ∧ Forall (λ f, d ∉ f) fs.
Proof.
  intros Hs Hf Hp Hd. destruct (rows_spec _ _ _ _ _ _ Hs Hf Hp Hd) as (m' & E & Q1 & Q2).
  exists (fields (λ c, c =? d) [] s), m'. split_and!; [exact E|exact Q1|exact Q2|apply join_fields|].
  eapply Forall_impl; [apply (fields_clean _ s []); constructor|].
  intros f Hfc Hin. rewrite Forall_forall in Hfc. specialize (Hfc d Hin). lia.
Qed.

(** "a,b" split at the comma. *)
Lemma split_delim_join_witness :
  let m := wr (wr (wr (wr ∅ 0 97) 1 44) 2 98) 3 0 in
  ∃ fs m', split_delim 4 m 0 44 100 = Some (Z.of_nat (length fs), m') ∧
    (∀ k f, fs !! k = Some f → cstr m' (100 + COMM_LEN * Z.of_nat k) f) ∧
    (∀ b, b < 100 ∨ 100 + COMM_LEN * Z.of_nat (length fs) <= b → rd m' b = rd m b) ∧
    join 44 fs = [97; 44; 98] ∧ Forall (λ f, 44 ∉ f) fs.
Proof.
  intros m. apply split_delim_join.
  - vm_compute. split_and!; done.
  - simpl. lia.
  - unfold COMM_LEN. simpl. repeat constructor; simpl; lia.
  - unfold disj, COMM_LEN. simpl. lia.
Defined.

(** ** Searching *)

(** How often [q] occurs in [s]. *)
Definition occurrences (q : Z) (s : list Z) : Z := Z.of_nat (length (filter (λ c, c = q) s)).

Lemma occurrences_cons q c s : occurrences q (c :: s) = (if c =? q then 1 else 0) + occurrences q s.
Proof.
  unfold occurrences. rewrite filter_cons. destruct (Z.eqb_spec c q) as [->|].
  - rewrite decide_True by done. simpl. lia.
  - rewrite decide_False by done. lia.
Qed.

Lemma occurence_loop_spec s : ∀ fuel m str q occr i ctr,
  cstr m (str + i) s → (length s < fuel)%nat → ctr < occr →
  ∃ k, occurence_loop fuel m str q occr i ctr = Some (i + Z.of_nat k) ∧
    (k <= length s)%nat ∧ ctr + occurrences q (take k s) < occr ∧
    (s !! k = Some q ∧ ctr + occurrences q (take k s) = occr - 1 ∨ k = length s).
Proof.
  induction s as [|c s IH]; intros [|fuel] m str q occr i ctr Hs Hf Hc; cbn [length] in Hf; try lia.
  - simpl in Hs. cbn [occurence_loop]. rewrite Hs. exists 0%nat. simpl. unfold occurrences. simpl.
    split_and!; [f_equal; lia|lia|lia|by right].
  - destruct Hs as (H1 & H2 & H3). cbn [occurence_loop]. rewrite H1.
    destruct (Z.eqb_spec c 0); [done|].
    destruct (Z.eqb_spec c q) as [->|Hne].
    + destruct (Z.eqb_spec (ctr + 1) occr).
      * exists 0%nat. unfold occurrences. simpl. split_and!; [f_equal; lia|lia|lia|left; split; [done|lia]].
      * destruct (IH fuel m str q occr (i + 1) (ctr + 1)) as (k & E & K1 & K2 & K3);
          [by rewrite Z.add_assoc|lia|lia|].
        exists (S k). rewrite E. cbn [take length lookup list_lookup]. rewrite occurrences_cons, Z.eqb_refl.
        split_and!; [f_equal; lia|lia|lia|]. destruct K3 as [[? ?]|K3]; [left; split; [done|lia]|right; lia].
    + destruct (Z.eqb_spec ctr occr); [lia|].
      destruct (IH fuel m str q occr (i + 1) ctr) as (k & E & K1 & K2 & K3);
        [by rewrite Z.add_assoc|lia|lia|].
      exists (S k). rewrite E. cbn [take length lookup list_lookup]. rewrite occurrences_cons.
      apply Z.eqb_neq in Hne. rewrite Hne.
      split_and!; [f_equal; lia|lia|lia|]. destruct K3 as [[? ?]|K3]; [left; split; [done|lia]|right; lia].
Qed.

(** For a positive count [strfind_occurence] answers the index of that
    occurrence of the character, or the length of the string when there are
    fewer. *)
Lemma strfind_occurence_spec fuel m str s q occr :
  cstr m str s → (length s < fuel)%nat → 0 < occr →
  ∃ k, strfind_occurence fuel m str q occr = Some (Z.of_nat k) ∧
    (s !! k = Some q ∧ occurrences q (take k s) = occr - 1 ∨
     k = length s ∧ occurrences q s < occr).
Proof.
  intros Hs Hf Ho. destruct (occurence_loop_spec s fuel m str q occr 0 0) as (k & E & K1 & K2 & K3);
    [by rewrite Z.add_0_r|done|done|].
  exists k. split; [exact E|]. destruct K3 as [[? ?]| ->]; [left; split; [done|lia]|].
  right. split; [done|]. rewrite firstn_all in K2. lia.
Qed.

Lemma delim_loop_spec s : ∀ fuel m str i,
  cstr m (str + i) s → (length s < fuel)%nat →
  delim_loop fuel m str i =
  Some (i + Z.of_nat (match list_find is_blank s with Some (k, _) => k | None => length s end)).
Proof.
  induction s as [|c s IH]; intros [|fuel] m str i Hs Hf; cbn [length] in Hf; try lia.
  - simpl in Hs. cbn [delim_loop]. rewrite Hs. simpl. f_equal. lia.
  - destruct Hs as (H1 & H2 & H3). cbn [delim_loop list_find]. rewrite H1.
    destruct (Z.eqb_spec c 0); [done|]. destruct (is_blank c) eqn:E.
    + rewrite decide_True by done. f_equal. lia.
    + rewrite decide_False by (exact id).
      rewrite (IH fuel m str (i + 1)) by (try rewrite Z.add_assoc; done || lia).
      destruct (list_find is_blank s) as [[k e]|]; cbn; f_equal; lia.
Qed.

(** [strfind_delim] answers the index of the first blank after [frm], or that of
    the last character when there is none. *)
Lemma strfind_delim_spec fuel m str s (frm : nat) :
  cstr m str s → (length s < fuel)%nat → (frm < length s)%nat →
  strfind_delim fuel m str (Z.of_nat frm) =
  Some (match list_find is_blank (drop (S frm) s) with
        | Some (k, _) => Z.of_nat (S frm + k)
        | None => Z.of_nat (length s) - 1
        end).
Proof.
  intros Hs Hf Hl. unfold strfind_delim.
  pose proof (cstr_drop m s str (S frm) Hs ltac:(lia)) as Hd.
  replace (str + Z.of_nat (S frm)) with (str + (Z.of_nat frm + 1)) in Hd by lia.
  rewrite (delim_loop_spec _ _ _ _ _ Hd) by (rewrite length_drop; lia).
  cbn [mbind option_bind]. destruct (list_find is_blank (drop (S frm) s)) as [[k e]|] eqn:E.
  - apply list_find_Some in E as (E & _ & _). rewrite lookup_drop in E.
    destruct (cstr_rd m s str _ _ Hs E) as [Hr Hne].
    replace (str + (_ + 1 + _)) with (str + Z.of_nat (S frm + k)) by lia. rewrite Hr.
    destruct (Z.eqb_spec e 0); [done|]. f_equal. lia.
  - rewrite length_drop. replace (Z.of_nat frm + 1 + Z.of_nat (length s - S frm)) with (Z.of_nat (length s)) by lia.
    rewrite (cstr_end m s str Hs). done.
Qed.

(** ** Joining *)

(** [str_concat] of the library writes its three strings one after the other,
    terminated, and nothing else: it is the kernel's two-string function run
    twice. *)
Lemma str_concat_three fuel m prev cur after dest s t u :
  cstr m prev s → cstr m cur t → cstr m after u →
  (length s < fuel)%nat → (length t < fuel)%nat → (length u < fuel)%nat →
  (let n := Z.of_nat (length s + length t + length u) + 1 in
   disj prev (Z.of_nat (length s) + 1) dest n ∧ disj cur (Z.of_nat (length t) + 1) dest n ∧
   disj after (Z.of_nat (length u) + 1) dest n) →
  ∃ m', str_concat fuel m prev cur after dest = Some m' ∧ cstr_written m m' dest (s ++ t ++ u).
Proof.
  intros Hs Ht Hu Hf1 Hf2 Hf3 (Hd1 & Hd2 & Hd3). unfold disj in *.
  destruct (str_concat_spec fuel m prev cur dest s t) as (m1 & E1 & W1 & W2); try done; [unfold disj; lia..|].
  unfold Strings.str_concat in E1. unfold str_concat.
  destruct (copy_loop fuel m dest prev 0) as [[i ma]|] eqn:Ea; [|done]. cbn [mbind option_bind] in *.
  destruct (copy_loop fuel (wr ma (dest + i) 0) (dest + i) cur 0) as [[j mb]|] eqn:Eb; [|done].
  cbn [mbind option_bind] in *. injection E1 as E1. rewrite E1.
  assert (Hi : i = Z.of_nat (length s)).
  { destruct (copy_loop_spec s fuel m dest prev 0) as (? & E & _); [by rewrite Z.add_0_r|done|unfold disj; lia|].
    rewrite E in Ea. by simplify_eq. }
  assert (Hj : j = Z.of_nat (length t)).
  { destruct (copy_loop_spec t fuel (wr ma (dest + i) 0) (dest + i) cur 0) as (? & E & _); [|done|unfold disj; lia|].
    - rewrite Z.add_0_r. eapply cstr_agree; [exact Ht|]. intros b Hb. rewrite rd_wr_ne by lia.
      destruct (copy_loop_spec s fuel m dest prev 0) as (? & E & Hm); [by rewrite Z.add_0_r|done|unfold disj; lia|].
      rewrite E in Ea. simplify_eq. rewrite Hm. case_decide; [lia|done].
    - rewrite E in Eb. by simplify_eq. }
  rewrite length_app in W2. subst i j.
  destruct (copy_loop_spec u fuel m1 (dest + (Z.of_nat (length t) + Z.of_nat (length s))) after 0) as (m3 & E3 & Hm3).
  { rewrite Z.add_0_r. eapply cstr_agree; [exact Hu|]. intros b Hb. apply W2. lia. }
  { done. } { unfold disj. lia. }
  rewrite E3. cbn [mbind option_bind]. eexists. split; [done|]. rewrite app_assoc. split.
  - apply cstr_intro.
    + intros i c Hi. apply lookup_lt_Some in Hi as Hl. rewrite !length_app in Hl.
      rewrite rd_wr_ne by lia. rewrite Hm3. case_decide.
      * rewrite lookup_app_r in Hi by (rewrite length_app; lia). rewrite length_app in Hi.
        rewrite W2 by lia.
        replace (after + _) with (after + Z.of_nat (i - (length s + length t))) by lia. by eapply cstr_rd.
      * rewrite lookup_app_l in Hi by (rewrite length_app; lia). by eapply cstr_rd.
    + rewrite !length_app, rd_wr. case_decide; [done|lia].
  - intros b Hb. rewrite !length_app in Hb. rewrite rd_wr_ne by lia. rewrite Hm3.
    case_decide; [lia|]. apply W2. lia.
Qed.

(** ** itoa with its frame *)

(** The digits of a number in base 10 or 16. *)
Definition number (base v : Z) : list Z := if v =? 0 then [48] else digits_of 20 base v [].

Lemma length_digits_of fuel base : ∀ v acc, (length (digits_of fuel base v acc) <= fuel + length acc)%nat.
Proof.
  induction fuel as [|f IH]; intros v acc; simpl; [lia|]. case_match; [lia|].
  etrans; [apply IH|]. simpl. lia.
Qed.

Lemma length_number base v : (length (number base v) <= 20)%nat.
Proof. unfold number. case_match; [simpl; lia|]. pose proof (length_digits_of 20 base v []) as Hd. cbn [length] in Hd. lia. Qed.

Lemma itoa_loop_frame fuel base : ∀ m val str b,
  let '(p, m') := itoa_loop fuel m val str base in
  p <= str ∧ (b < p ∨ str <= b → rd m' b = rd m b).
Proof.
  induction fuel as [|f IH]; intros m val str b; simpl; [split; [lia|done]|].
  destruct (val =? 0); [split; [lia|done]|].
  specialize (IH (wr m (str - 1) (hexdigit (val mod base))) (val / base) (str - 1) b).
  destruct (itoa_loop f _ _ _ _) as [p m']. destruct IH as [H1 H2]. split; [lia|].
  intros Hb. rewrite H2 by lia. apply rd_wr_ne. lia.
Qed.

(** [itoa] leaves the digits right before the end it is given. *)
Lemma itoa_written m v str base :
  base = 10 ∨ base = 16 → 0 <= v →
  let '(p, m') := itoa m v str base in
  p = str - Z.of_nat (length (number base v)) ∧ cstr m' p (number base v) ∧
  (∀ b, b < p ∨ str < b → rd m' b = rd m b).
Proof.
  intros Hb Hv. unfold itoa, Utils.itoa, number. destruct (Z.eqb_spec v 0) as [->|Hv0].
  { cbn [length]. split_and!; [lia| |].
    - simpl. split_and!; [by rewrite rd_wr_eq|lia|].
      replace (str - 1 + 1) with str by lia. rewrite rd_wr_ne, rd_wr_eq by lia. done.
    - intros b ?. rewrite !rd_wr_ne by lia. done. }
  replace (negb (base =? 10) && negb (base =? 16)) with false by (destruct Hb as [-> | ->]; done).
  pose proof (itoa_loop_spec 20 base (wr m str 0) v str [] ltac:(lia) ltac:(lia)
                ltac:(simpl; by rewrite rd_wr_eq)) as H.
  pose proof (λ b, itoa_loop_frame 20 base (wr m str 0) v str b) as Hfr.
  destruct (itoa_loop 20 _ _ _ _) as [p m']. destruct H as [H1 H2].
  cbn [length] in H1. rewrite Nat.sub_0_r in H1. split; [exact H1|]. split; [exact H2|].
  intros b Hbb. destruct (Hfr b) as [? Hr]. rewrite Hr by lia. apply rd_wr_ne. lia.
Qed.

(** ** printf *)

(** Values of the variable arguments. *)
Inductive varg := VInt (z : Z) | VU64 (z : Z) | VChar (c : Z) | VStr (s : list Z).

(** What one conversion prints. *)
Definition render_conv (c : Z) (args : list varg) : option (list Z * list varg) :=
  if c =? 100 then
    match args with
    | VInt z :: args => Some (if z <? 0 then 45 :: number 10 (- z) else number 10 z, args)
    | _ => None
    end
  else if c =? 112 then match args with VU64 z :: args => Some ([48; 120] ++ number 16 z, args) | _ => None end
  else if c =? 120 then match args with VU64 z :: args => Some (number 16 z, args) | _ => None end
  else if c =? 99 then match args with VChar ch :: args => Some ([ch], args) | _ => None end
  else if c =? 115 then match args with VStr s :: args => Some (s, args) | _ => None end
  else Some ([c], args).

(** The text of a format; a percent sign at its end prints nothing. *)
Fixpoint render (fmt : list Z) (args : list varg) : option (list Z) :=
  match fmt with
  | [] => Some []
  | c :: fmt =>
      if c =? 37 then
        match fmt with
        | [] => Some []
        | k :: fmt =>
            '(s, args) ← render_conv k args;
            t ← render fmt args;
            Some (s ++ t)
        end
      else t ← render fmt args; Some (c :: t)
  end.

Section Printf.
Context (fuel : nat) (write_buf istr : Z).

(** A range apart from both buffers. *)
Definition apart (a n : Z) : Prop := disj a n write_buf 1024 ∧ disj a n istr 100.

(** The word [w] passes the value [a]. *)
Definition passes (m : mem) (a : varg) (w : Z) : Prop :=
  match a with
  | VInt z => i32 w = z ∧ z ≠ - 2 ^ 31
  | VU64 z => u64 w = z
  | VChar c => u8 w = c
  | VStr s => cstr m (u64 w) s ∧ (length s < fuel)%nat ∧ apart (u64 w) (Z.of_nat (length s) + 1)
  end.

(** [out] stands in the buffer. *)
Definition holds (m : mem) (out : list Z) : Prop := ∀ i c, out !! i = Some c → rd m (write_buf + Z.of_nat i) = c.

(** The memory outside the two buffers. *)
Definition keeps (m m' : mem) : Prop :=
  ∀ b, (b < write_buf ∨ write_buf + 1024 <= b) ∧ (b < istr ∨ istr + 100 <= b) → rd m' b = rd m b.

Hypothesis buffers_disjoint : disj write_buf 1024 istr 100.

Lemma keeps_trans m1 m2 m3 : keeps m1 m2 → keeps m2 m3 → keeps m1 m3.
Proof. intros H1 H2 b Hb. by rewrite H2, H1. Qed.

Lemma keeps_cstr m m' a s : keeps m m' → cstr m a s → apart a (Z.of_nat (length s) + 1) → cstr m' a s.
Proof.
  intros Hk Hs [H1 H2]. unfold disj in *. eapply cstr_agree; [exact Hs|]. intros b Hb. apply Hk. lia.
Qed.

Lemma keeps_passes m m' a w : keeps m m' → passes m a w → passes m' a w.
Proof. intros Hk. destruct a; simpl; try done. intros (H1 & H2 & H3). split_and!; [by eapply keeps_cstr|done..]. Qed.

Lemma holds_snoc m out s m' :
  holds m out →
  (∀ b, rd m' b = if decide (write_buf + Z.of_nat (length out) <= b < write_buf + Z.of_nat (length (out ++ s)))
                  then default 0 (s !! Z.to_nat (b - write_buf - Z.of_nat (length out))) else rd m b) →
  holds m' (out ++ s).
Proof.
  intros Hh Hm i c Hi. apply lookup_lt_Some in Hi as Hl. rewrite Hm. case_decide.
  - rewrite lookup_app_r in Hi by lia.
    replace (Z.to_nat _) with (i - length out)%nat by lia. by rewrite Hi.
  - rewrite lookup_app_l in Hi by lia. by apply Hh.
Qed.

Lemma put_str_spec m out str s :
  holds m out → cstr m str s → (length s < fuel)%nat →
  disj str (Z.of_nat (length s) + 1) write_buf 1024 → Z.of_nat (length (out ++ s)) < 1024 →
  ∃ m', put_str fuel write_buf m (Z.of_nat (length out)) str = Some (Z.of_nat (length (out ++ s)), m') ∧
    holds m' (out ++ s) ∧ (∀ b, b < write_buf ∨ write_buf + 1024 <= b → rd m' b = rd m b).
Proof.
  intros Hh Hs Hf Hd Hl. rewrite length_app in Hl. unfold disj in Hd. unfold put_str, str_len.
  rewrite (str_len_spec _ _ _ s Hs Hf). cbn [mbind option_bind].
  set (m' := memcpy _ _ _ _).
  assert (Hm : ∀ b, rd m' b = if decide (write_buf + Z.of_nat (length out) <= b <
      write_buf + Z.of_nat (length out) + Z.of_nat (length s))
      then rd m (str + (b - (write_buf + Z.of_nat (length out)))) else rd m b).
  { intros b. unfold m', memcpy. apply memcpy_rd. lia. }
  assert (Hs' : cstr m' str s).
  { eapply cstr_agree; [exact Hs|]. intros b Hb. rewrite Hm. case_decide; [lia|done]. }
  rewrite (str_len_spec _ _ _ s Hs' Hf). cbn [mbind option_bind].
  exists m'. split_and!.
  - rewrite length_app, i32_small by lia. f_equal. f_equal. lia.
  - apply (holds_snoc m); [done|]. intros b. rewrite Hm, length_app. repeat case_decide; try lia; try done.
    destruct (lookup_lt_is_Some_2 s (Z.to_nat (b - write_buf - Z.of_nat (length out)))) as [c Hc]; [lia|].
    rewrite Hc. simpl. destruct (cstr_rd _ _ _ _ _ Hs Hc) as [<- _]. f_equal. lia.
  - intros b Hb. rewrite Hm. case_decide; [lia|done].
Qed.

(** A single byte. *)
Lemma holds_wr m out v :
  holds m out → holds (wr m (write_buf + Z.of_nat (length out)) v) (out ++ [u8 v]).
Proof.
  intros Hh. apply (holds_snoc m); [done|]. intros b. rewrite rd_wr, length_app. simpl.
  repeat case_decide; try lia; try done. replace (Z.to_nat _) with 0%nat by lia. done.
Qed.

(** A string written in the local buffer is appended. *)
Lemma put_local m0 m out p s :
  keeps m0 m → holds m out → cstr m p s → (length s < fuel)%nat →
  istr <= p → p + Z.of_nat (length s) < istr + 100 → Z.of_nat (length (out ++ s)) < 1024 →
  ∃ m', put_str fuel write_buf m (Z.of_nat (length out)) p = Some (Z.of_nat (length (out ++ s)), m') ∧
    holds m' (out ++ s) ∧ keeps m0 m'.
Proof.
  intros Hk Hh Hs Hf H1 H2 Hl. unfold disj in buffers_disjoint.
  destruct (put_str_spec m out p s) as (m' & E & Hh' & Hfr); [done..|unfold disj; lia|done|].
  exists m'. split_and!; [done..|]. eapply keeps_trans; [exact Hk|]. intros b Hb. apply Hfr. lia.
Qed.

Lemma holds_agree m m' out :
  holds m out → Z.of_nat (length out) <= 1024 → (∀ b, b < istr ∨ istr + 100 <= b → rd m' b = rd m b) → holds m' out.
Proof.
  intros Hh Hl Hm i c Hi. apply lookup_lt_Some in Hi as ?. unfold disj in buffers_disjoint.
  rewrite Hm by lia. by apply Hh.
Qed.

(** A number with up to two characters before it. *)
Lemma put_number m out pre v base :
  holds m out → (base = 10 ∨ base = 16) → 0 <= v → (22 < fuel)%nat → (length pre <= 2)%nat →
  Forall (λ c, 0 < c < 256) pre →
  Z.of_nat (length (out ++ pre ++ number base v)) < 1024 →
  let '(p, m1) := itoa m v (istr + 99) base in
  ∀ m2, (∀ b, rd m2 b = if decide (p - Z.of_nat (length pre) <= b < p)
                         then default 0 (pre !! Z.to_nat (b - (p - Z.of_nat (length pre)))) else rd m1 b) →
  ∃ m', put_str fuel write_buf m2 (Z.of_nat (length out)) (p - Z.of_nat (length pre)) =
        Some (Z.of_nat (length (out ++ pre ++ number base v)), m') ∧
    holds m' (out ++ pre ++ number base v) ∧ keeps m m'.
Proof.
  intros Hh Hb Hv Hf Hp Hpc Hl. pose proof (itoa_written m v (istr + 99) base Hb Hv) as H.
  pose proof (length_number base v) as Hn. rewrite !length_app in Hl.
  destruct (itoa m v (istr + 99) base) as [p m1]. destruct H as (H1 & H2 & H3). intros m2 Hm2.
  assert (Hfr : ∀ b, b < istr ∨ istr + 100 <= b → rd m2 b = rd m b).
  { intros b ?. rewrite Hm2. case_decide; [lia|]. apply H3. lia. }
  assert (Hk : keeps m m2) by (intros b ?; apply Hfr; lia).
  assert (Hh2 : holds m2 out) by (eapply holds_agree; [exact Hh|lia|exact Hfr]).
  apply (put_local m m2); [exact Hk|exact Hh2| |rewrite length_app; lia|lia|rewrite length_app; lia|rewrite !length_app; lia].
  apply cstr_intro.
  - intros i c Hi. rewrite Hm2. case_decide.
    + rewrite lookup_app_l in Hi by lia. replace (Z.to_nat _) with i by lia. rewrite Hi. simpl. split; [done|].
      eapply Forall_lookup_1 in Hpc; [|exact Hi]. lia.
    + rewrite lookup_app_r in Hi by lia.
      destruct (cstr_rd _ _ _ _ _ H2 Hi) as [<- ?]. split; [f_equal; lia|done].
  - rewrite Hm2, length_app. case_decide; [lia|].
    rewrite <- (cstr_end _ _ _ H2). f_equal. lia.
Qed.

(** The result of appending [s] to the text. *)
Definition appended (m : mem) (out s : list Z) (r : option (Z * mem)) : Prop :=
  ∃ m', r = Some (Z.of_nat (length (out ++ s)), m') ∧ holds m' (out ++ s) ∧ keeps m m'.

Lemma put_d_spec m out w z :
  holds m out → (22 < fuel)%nat → passes m (VInt z) w →
  let s := if z <? 0 then 45 :: number 10 (- z) else number 10 z in
  Z.of_nat (length (out ++ s)) < 1024 →
  appended m out s (put_d fuel write_buf istr m (Z.of_nat (length out)) w).
Proof.
  intros Hh Hf [Hz Hmin] s Hl. pose proof (i32_range w). unfold put_d. rewrite Hz. unfold s in *.
  destruct (Z.ltb_spec z 0).
  - rewrite (i32_small (- z)), (u64_small (- z)) by lia.
    pose proof (put_number m out [45] (- z) 10 Hh ltac:(by left) ltac:(lia) Hf ltac:(simpl; lia)
      ltac:(repeat constructor; lia) Hl) as Hp.
    destruct (itoa m (- z) (istr + 99) 10) as [p m1]. cbn [length Z.of_nat Pos.of_succ_nat] in Hp.
    apply Hp. intros b. rewrite rd_wr. repeat case_decide; try lia; try done.
    subst. by rewrite Z.sub_diag.
  - rewrite (u64_small z) by lia.
    pose proof (put_number m out [] z 10 Hh ltac:(by left) ltac:(lia) Hf ltac:(simpl; lia)
      ltac:(constructor) Hl) as Hp.
    destruct (itoa m z (istr + 99) 10) as [p m1]. cbn [length Z.of_nat] in Hp. rewrite Z.sub_0_r in Hp.
    apply Hp. intros b. case_decide; [lia|done].
Qed.

Lemma put_x_spec m out w :
  holds m out → (22 < fuel)%nat → Z.of_nat (length (out ++ number 16 (u64 w))) < 1024 →
  appended m out (number 16 (u64 w)) (put_x fuel write_buf istr m (Z.of_nat (length out)) w).
Proof.
  intros Hh Hf Hl. pose proof (u64_range w). unfold put_x.
  pose proof (put_number m out [] (u64 w) 16 Hh ltac:(by right) ltac:(lia) Hf ltac:(simpl; lia)
    ltac:(constructor) Hl) as Hp.
  destruct (itoa m (u64 w) (istr + 99) 16) as [p m1]. cbn [length Z.of_nat] in Hp. rewrite Z.sub_0_r in Hp.
  apply Hp. intros b. case_decide; [lia|done].
Qed.

Lemma put_p_spec m out w :
  holds m out → (22 < fuel)%nat → Z.of_nat (length (out ++ [48; 120] ++ number 16 (u64 w))) < 1024 →
  appended m out ([48; 120] ++ number 16 (u64 w)) (put_p fuel write_buf istr m (Z.of_nat (length out)) w).
Proof.
  intros Hh Hf Hl. pose proof (u64_range w). unfold put_p.
  pose proof (put_number m out [48; 120] (u64 w) 16 Hh ltac:(by right) ltac:(lia) Hf ltac:(simpl; lia)
    ltac:(repeat constructor; lia) Hl) as Hp.
  destruct (itoa m (u64 w) (istr + 99) 16) as [p m1]. cbn [length Z.of_nat Pos.of_succ_nat Pos.succ] in Hp.
  apply Hp. intros b. rewrite !rd_wr. repeat case_decide; try lia; try done.
  - subst. by rewrite Z.sub_diag.
  - subst. by replace (Z.to_nat _) with 1%nat by lia.
Qed.

Lemma put_char_spec m out v :
  holds m out → Z.of_nat (length (out ++ [u8 v])) < 1024 →
  appended m out [u8 v] (Some (i32 (Z.of_nat (length out) + 1), wr m (write_buf + Z.of_nat (length out)) v)).
Proof.
  intros Hh Hl. rewrite length_app in Hl. simpl in Hl. eexists. split_and!; [|by apply holds_wr|].
  - rewrite i32_small, length_app by lia. simpl. f_equal. f_equal. lia.
  - intros b ?. apply rd_wr_ne. lia.
Qed.

Lemma put_byte_spec m out ptr :
  holds m out → disj ptr 1 write_buf 1024 → Z.of_nat (length (out ++ [rd m ptr])) < 1024 →
  appended m out [rd m ptr] (Some (put_byte write_buf m (Z.of_nat (length out)) ptr)).
Proof.
  intros Hh _ Hl. unfold put_byte, memcpy, Memory.memcpy. simpl memcpy_loop.
  pose proof (put_char_spec m out (rd m ptr)) as Hc. rewrite u8_small in Hc by apply rd_range. by apply Hc.
Qed.

Lemma convert_spec m out ptr vs ws s vs' :
  holds m out → (22 < fuel)%nat → disj ptr 1 write_buf 1024 → Forall2 (passes m) vs ws →
  render_conv (rd m ptr) vs = Some (s, vs') → Z.of_nat (length (out ++ s)) < 1024 →
  ∃ ws' m', convert fuel write_buf istr m (Z.of_nat (length out)) ptr (rd m ptr) ws =
            Some (ws', (Z.of_nat (length (out ++ s)), m')) ∧
    holds m' (out ++ s) ∧ keeps m m' ∧ Forall2 (passes m) vs' ws'.
Proof.
  intros Hh Hf Hd Hvs Hr Hl.
  assert (Hgo : ∀ ws' r, appended m out s r → Forall2 (passes m) vs' ws' →
    ∃ ws'' m', (r ≫= λ r, Some (ws', r)) = Some (ws'', (Z.of_nat (length (out ++ s)), m')) ∧
      holds m' (out ++ s) ∧ keeps m m' ∧ Forall2 (passes m) vs' ws'').
  { intros ws' r (m' & -> & ? & ?) ?. exists ws', m'. by split_and!. }
  unfold render_conv in Hr. unfold convert.
  assert (Hw : ∀ a vs0, vs = a :: vs0 → ∃ w ws0, ws = w :: ws0 ∧ passes m a w ∧ Forall2 (passes m) vs0 ws0).
  { intros a vs0 ->. inversion Hvs; subst. eauto. }
  destruct (rd m ptr =? 100); [|destruct (rd m ptr =? 112); [|destruct (rd m ptr =? 120);
    [|destruct (rd m ptr =? 99); [|destruct (rd m ptr =? 115)]]]].
  1-5: destruct vs as [|[z|z|z|z] vs]; try done; injection Hr as <- <-;
    destruct (Hw _ _ eq_refl) as (w & ws0 & -> & Hp & Hvs'); apply Hgo; try exact Hvs'.
  - pose proof (put_d_spec m out w z Hh Hf Hp) as H'. by apply H'.
  - simpl in Hp. subst. by apply put_p_spec.
  - simpl in Hp. subst. by apply put_x_spec.
  - simpl in Hp. subst. by apply put_char_spec.
  - destruct Hp as (Hs & Hn & Ha & _).
    destruct (put_str_spec m out (u64 w) z Hh Hs Hn Ha Hl) as (m' & E & ? & Hfr).
    exists m'. split_and!; [exact E|done|]. intros b ?. apply Hfr. lia.
  - injection Hr as <- <-.
    destruct (put_byte_spec m out ptr Hh Hd Hl) as (m' & E & ? & ?). apply (inj Some) in E. rewrite E. 
    exists ws, m'. by split_and!.
Qed.

(** The loop from position [ptr] on, with the text [out] written so far. *)
Lemma printf_loop_spec n : ∀ m out ptr fmt vs ws t,
  (length fmt < n)%nat → holds m out → (22 < fuel)%nat →
  cstr m ptr fmt → apart ptr (Z.of_nat (length fmt) + 1) → Forall2 (passes m) vs ws →
  render fmt vs = Some t → Z.of_nat (length (out ++ t)) < 1024 →
  appended m out t (printf_loop fuel write_buf istr n m ptr (Z.of_nat (length out)) ws).
Proof.
  induction n as [|n IH]; intros m out ptr fmt vs ws t Hn Hh Hf Hs Ha Hvs Hr Hl; [lia|].
  assert (Hstep : ∀ m' fmt' s ptr' vs' ws' t',
    (length fmt' < n)%nat → holds m' (out ++ s) → keeps m m' → cstr m ptr' fmt' →
    apart ptr' (Z.of_nat (length fmt') + 1) → Forall2 (passes m) vs' ws' →
    render fmt' vs' = Some t' → t = s ++ t' →
    appended m out t (printf_loop fuel write_buf istr n m' ptr' (Z.of_nat (length (out ++ s))) ws')).
  { intros m' fmt' s ptr' vs' ws' t' Hn' Hh' Hk' Hs' Ha' Hvs' Hr' ->.
    destruct (IH m' (out ++ s) ptr' fmt' vs' ws' t') as (m'' & E & Hh'' & Hk''); try done.
    - by eapply keeps_cstr.
    - eapply Forall2_impl; [exact Hvs'|]. intros ? ? ?. by eapply keeps_passes.
    - by rewrite <- app_assoc.
    - exists m''. rewrite <- !app_assoc in *. split_and!; [done..|]. by eapply keeps_trans. }
  destruct fmt as [|c fmt]; cbn [render] in Hr.
  { simplify_eq. simpl in Hs. cbn [printf_loop]. rewrite Hs. exists m. rewrite app_nil_r. by split_and!. }
  destruct Hs as (H1 & H2 & H3). cbn [printf_loop]. rewrite H1. destruct (Z.eqb_spec c 0); [done|].
  destruct Ha as [Ha1 Ha2]. unfold disj in Ha1, Ha2. cbn [length] in *.
  destruct (Z.eqb_spec c 37) as [->|].
  - destruct fmt as [|k fmt].
    + simpl in H3. rewrite H3. simpl. simplify_eq.
      destruct n as [|n]; [simpl in Hn; lia|]. cbn [printf_loop]. rewrite H3. exists m. rewrite app_nil_r. by split_and!.
    + destruct H3 as (H3 & H4 & H5). rewrite H3. destruct (Z.eqb_spec k 0); [done|].
      destruct (render_conv k vs) as [[s vs']|] eqn:Ec; [|done]. cbn [mbind option_bind] in Hr.
      destruct (render fmt vs') as [t'|] eqn:Er; [|done]. simplify_eq/=.
      rewrite !length_app in Hl.
      destruct (convert_spec m out (ptr + 1) vs ws s vs') as (ws' & m' & E & Hh' & Hk' & Hvs'); try done.
      { unfold disj. lia. } { rewrite length_app. lia. }
      rewrite E. cbn [mbind option_bind]. eapply (Hstep m' fmt s); [lia|done|done|done| |done|done|done].
      split; unfold disj; lia.
  - destruct (render fmt vs) as [t'|] eqn:Er; [|done]. cbn [mbind option_bind] in Hr. injection Hr as <-.
    destruct (put_byte_spec m out ptr Hh) as (m' & E & Hh' & Hk').
    { unfold disj. lia. } { rewrite !length_app in *. simpl in *. lia. }
    apply (inj Some) in E. rewrite E. eapply (Hstep m' fmt [rd m ptr]); [lia|done|done|done| |done|done|by rewrite H1].
    split; unfold disj; lia.
Qed.
End Printf.

Lemma printf_spec fuel write_buf istr m str fmt vs ws t :
  disj write_buf 1024 istr 100 → 0 <= write_buf < 2 ^ 64 →
  cstr m str fmt → apart write_buf istr str (Z.of_nat (length fmt) + 1) →
  Forall2 (passes fuel write_buf istr m) vs ws →
  render fmt vs = Some t → Forall (λ c, c ≠ 0) t → Z.of_nat (length t) < 1024 →
  (length fmt < fuel)%nat → (1024 <= fuel)%nat →
  ∃ m' c, printf fuel write_buf istr m str ws = Some (m', c) ∧
    call_regs c = Regs 1 (Some 1) (Some write_buf) (Some (Z.of_nat (length t))) ∧
    (∀ a, call_ret c a = i32 a) ∧
    cstr m' write_buf t ∧ keeps write_buf istr m m'.
Proof.
  intros Hd Hw Hs Ha Hvs Hr Ht Hl Hf1 Hf2. unfold printf.
  destruct (printf_loop_spec fuel write_buf istr Hd fuel m [] str fmt vs ws t)
    as (m1 & E & Hh & Hk); try done; try lia.
  rewrite app_nil_l in E, Hh. cbn [length] in E. change (Z.of_nat 0) with 0 in E.
  rewrite E. cbn [mbind option_bind].
  assert (Hc : cstr (wr m1 (write_buf + Z.of_nat (length t)) 0) write_buf t).
  { apply cstr_intro.
    - intros i c Hi. apply lookup_lt_Some in Hi as ?. rewrite rd_wr_ne by lia. split; [by apply Hh|].
      by eapply Forall_lookup_1 in Ht.
    - by rewrite rd_wr_eq. }
  unfold str_len. rewrite (str_len_spec fuel _ write_buf t Hc) by lia. cbn [mbind option_bind].
  do 2 eexists. split_and!; [reflexivity| | |exact Hc|].
  - cbn. rewrite !u64_small by lia. done.
  - intros a. cbn. unfold i32, u64. lia.
  - eapply keeps_trans; [exact Hk|]. intros b Hb. apply rd_wr_ne. lia.
Qed.

(** C21: [printf] of a format whose text has fewer than 1024 characters ends with
    that text, terminated, in [write_buf] and with the system call that writes
    it: number 1, stream 1, the buffer and the length of the text; nothing
    outside the two buffers changes.  The text is that of the renderer: signed
    decimals, hexadecimals with and without 0x, characters, strings, and every
    other character for itself.  The smallest [int] is excluded, its negation
    overflows. *)
Theorem printf_renders fuel write_buf istr m str fmt vs ws t :
  disj write_buf 1024 istr 100 → 0 <= write_buf < 2 ^ 64 →
  cstr m str fmt → apart write_buf istr str (Z.of_nat (length fmt) + 1) →
  Forall2 (passes fuel write_buf istr m) vs ws →
  render fmt vs = Some t → Forall (λ c, c ≠ 0) t → Z.of_nat (length t) < 1024 →
  (length fmt < fuel)%nat → (1024 <= fuel)%nat →
  ∃ m' c, printf fuel write_buf istr m str ws = Some (m', c) ∧
    call_regs c = Regs 1 (Some 1) (Some write_buf) (Some (Z.of_nat (length t))) ∧
    (∀ a, call_ret c a = i32 a) ∧
    cstr m' write_buf t ∧ keeps write_buf istr m m'.
Proof. apply printf_spec. Qed.

(** Memory with a string at an address, for the examples. *)
Fixpoint poke (m : mem) (a : Z) (s : list Z) : mem :=
  match s with [] => wr m a 0 | c :: s => wr (poke m (a + 1) s) a c end.

(** printf("%d %s", -7, "ok") *)
Lemma printf_renders_witness :
  let m := poke (poke ∅ 0 [37; 100; 32; 37; 115]) 50 [111; 107] in
  ∃ m' c, printf 1024 1000 2048 m 0 [-7; 50] = Some (m', c) ∧
    call_regs c = Regs 1 (Some 1) (Some 1000) (Some (Z.of_nat (length [45; 55; 32; 111; 107]))) ∧
    (∀ a, call_ret c a = i32 a) ∧
    cstr m' 1000 [45; 55; 32; 111; 107] ∧ keeps 1000 2048 m m'.
Proof.
  intros m. apply (printf_renders 1024 1000 2048 m 0 [37; 100; 32; 37; 115] [VInt (-7); VStr [111; 107]] [-7; 50]).
  - unfold disj. lia.
  - lia.
  - vm_compute. by split_and!.
  - split; unfold disj; simpl; lia.
  - apply Forall2_cons. split; [split; [reflexivity|lia]|]. apply Forall2_cons. split; [|by apply Forall2_nil].
    split; [vm_compute; by split_and!|]. split; [simpl; lia|].
    change (u64 50) with 50. split; unfold disj; simpl; lia.
  - reflexivity.
  - repeat constructor; done.
  - simpl. lia.
  - simpl. lia.
  - lia.
Defined.

(** The bytes at an address. *)
Fixpoint get_bytes (m : mem) (a : Z) (n : nat) : list Z :=
  match n with O => [] | S n => rd m a :: get_bytes m (a + 1) n end.

(** The smallest [int] is printed as the 64-bit number it is extended to. *)
Lemma printf_min_int :
  ('(m, _) ← printf 30 1000 2048 (poke ∅ 0 [37; 100]) 0 [- 2 ^ 31]; Some (get_bytes m 1000 22)) =
  Some [45; 49; 56; 52; 52; 54; 55; 52; 52; 48; 55; 49; 53; 54; 50; 48; 54; 55; 57; 54; 56; 0].
Proof. vm_compute. reflexivity. Qed.
