(* ===== verification/User.v ===== *)
(** * User: the shell and the tools, src/bin and src/crt

    What the shell [oxterm] does to its buffers in a round: clearing them and
    cutting the line that [gets] delivered into command and argument; its loop is
    in [Shell].  The tools are the system calls they make.  A program is the list of
    its calls in order; what the kernel does is in [Syscalls]. *)
From S2P Require Import Prelude Memory Utils Strings Libc LibcProps.

(** ** oxterm *)

Section Oxterm.
(** The three buffers of [COMM_LEN] bytes on the stack of [main]. *)
Context (fuel : nat) (input cmd arg : Z).

(** [for (i = 0; i < COMM_LEN; i++) { input[i] = 0; cmd[i] = 0; arg[i] = 0; }] *)
Fixpoint clear_loop (n : nat) (m : mem) (i : Z) : mem :=
  match n with
  | O => m
  | S n' => clear_loop n' (wr (wr (wr m (input + i) 0) (cmd + i) 0) (arg + i) 0) (i + 1)
  end.

Definition clear_buffers (m : mem) : mem := clear_loop (Z.to_nat COMM_LEN) m 0.

(** From [strfind_delim] to the last terminator. *)
Definition parse_command (m : mem) : option mem :=
  delim ← strfind_delim fuel m input 0;
  let m := str_substr m input 0 (delim - 1) cmd in
  len ← str_len fuel m input;
  let m := str_substr m input (delim + 1) len arg in
  let m := wr m (cmd + delim) 0 in
  len ← str_len fuel m input;
  Some (wr m (arg + (len - delim - 2)) 0).

(** What a round does with the line that [gets] left in [input]. *)
Inductive round := Again | TooLong | Run (m : mem).

Definition oxterm_round (m : mem) : option round :=
  if rd m input =? 10 then Some Again
  else
    n ← str_len fuel m input;
    if COMM_LEN <=? n then Some TooLong else m ← parse_command m; Some (Run m).
End Oxterm.

(** ** The tools

    [argc] and [argv0] come from [_start]; [msg] is the address of the usage
    message, [len] its length. *)

Definition tool (num : Z) (argc argv0 msg len : Z) : list call :=
  (if argc <? 1 then [write 2 msg len] else [DEFN_SYSCALL1 num argv0]) ++ [exit 1].

Definition cat_main : Z → Z → Z → Z → list call := tool 14.
Definition echo_main : Z → Z → Z → Z → list call := tool 16.
Definition sleep_main : Z → Z → Z → Z → list call := tool 22.
Definition kill_main : Z → Z → Z → Z → list call := tool 24.
Definition ls_main : list call := [DEFN_SYSCALL0 12; exit 1].
Definition ps_main : list call := [DEFN_SYSCALL0 18; exit 1].
Definition clear_main : list call := [DEFN_SYSCALL0 46; exit 1].

(** [_start] finds [argc] and the argument in the registers that the loader put
    on the task's stack; [ret] is what [main] returns. *)
Definition _start (main : Z → Z → list call) (r_ax r_bx ret : Z) : list call := main (i32 r_ax) r_bx ++ [exit ret].

(** ** What the shell cuts out of a line *)

(** A word: not empty, with no blank behind its first character. *)
Definition word (w : list Z) : Prop :=
  ∃ c w', w = c :: w' ∧ Forall (λ c, is_blank c = false) w'.

Lemma find_blank w d rest :
  Forall (λ c, is_blank c = false) w → is_blank d = true →
  list_find is_blank (w ++ d :: rest) = Some (length w, d).
Proof.
  intros Hw Hd. apply list_find_Some. split_and!.
  - rewrite lookup_app_r, Nat.sub_diag by lia. done.
  - by rewrite Hd.
  - intros j y Hj Hl. rewrite lookup_app_l in Hj by done. eapply Forall_lookup_1 in Hw; [|exact Hj]. simpl in Hw. rewrite Hw. exact id.
Qed.

Lemma strfind_delim_word fuel m str w d rest :
  cstr m str (w ++ d :: rest) → word w → is_blank d = true → (length (w ++ d :: rest) < fuel)%nat →
  strfind_delim fuel m str 0 = Some (Z.of_nat (length w)).
Proof.
  intros Hs (c & w' & -> & Hw) Hd Hf. change 0 with (Z.of_nat 0).
  rewrite (strfind_delim_spec fuel m str _ 0 Hs Hf) by (simpl; lia).
  change (drop 1 ((c :: w') ++ d :: rest)) with (w' ++ d :: rest). rewrite (find_blank w' d rest Hw Hd). done.
Qed.

(** The three buffers do not overlap. *)
Definition shell_buffers (input cmd arg : Z) : Prop :=
  disj input COMM_LEN cmd COMM_LEN ∧ disj input COMM_LEN arg COMM_LEN ∧ disj cmd COMM_LEN arg COMM_LEN.

(** The memory after a line [w d rest], byte by byte. *)
Lemma parse_command_rd fuel input cmd arg m w d rest :
  shell_buffers input cmd arg → cstr m input (w ++ d :: rest) → word w → is_blank d = true →
  Z.of_nat (length (w ++ d :: rest)) < COMM_LEN → (COMM_LEN <= Z.of_nat fuel) →
  ∃ m', parse_command fuel input cmd arg m = Some m' ∧
    ∀ b, rd m' b =
      if decide (b = arg + (Z.of_nat (length rest) - 1)) then 0
      else if decide (arg <= b < arg + Z.of_nat (length rest) + 2) then default 0 (rest !! Z.to_nat (b - arg))
      else if decide (cmd <= b <= cmd + Z.of_nat (length w)) then default 0 (w !! Z.to_nat (b - cmd))
      else rd m b.
Proof.
  unfold shell_buffers, disj, COMM_LEN. intros (D1 & D2 & D3) Hs Hw Hd Hl Hf.
  unfold parse_command. rewrite (strfind_delim_word fuel m input w d rest) by (done || lia).
  cbn [mbind option_bind]. cbv zeta. set (line := w ++ d :: rest) in *.
  assert (Hlen : length line = (length w + 1 + length rest)%nat) by (unfold line; rewrite length_app; simpl; lia).
  destruct (str_substr_spec m input line 0 (Z.of_nat (length w) - 1) cmd) as [W1 W2];
    [done|lia|lia|unfold disj; lia|].
  replace (Z.to_nat (_ - 0 + 1)) with (length w) in W1, W2 by lia.
  change (Z.to_nat 0) with 0%nat in W1, W2. unfold line in W1, W2.
  rewrite drop_0, take_app_length in W1, W2. fold line in W1, W2.
  unfold str_substr. set (m1 := Strings.str_substr _ _ _ _ cmd) in *.
  assert (Hs1 : cstr m1 input line).
  { eapply cstr_agree; [exact Hs|]. intros b Hb. apply W2. lia. }
  unfold str_len. rewrite (str_len_spec fuel m1 input line Hs1) by lia. cbn [mbind option_bind].
  unfold str_substr, Strings.str_substr. set (m2 := substr_loop _ m1 _ _ _ _).
  assert (H2 : ∀ b, rd m2 b = if decide (arg <= b < arg + Z.of_nat (length rest) + 2)
                    then default 0 (rest !! Z.to_nat (b - arg)) else rd m1 b).
  { intros b. unfold m2. rewrite substr_loop_rd by (unfold disj; lia).
    replace (Z.of_nat (Z.to_nat _)) with (Z.of_nat (length rest) + 1) by lia. rewrite Z.add_0_r.
    destruct (decide (arg <= b < arg + (Z.of_nat (length rest) + 1))).
    - rewrite decide_True by lia. destruct (decide (b = arg + Z.of_nat (length rest))) as [->|].
      + replace (input + _ + _) with (input + Z.of_nat (length line)) by lia. rewrite (cstr_end _ _ _ Hs1).
        rewrite lookup_ge_None_2 by lia. done.
      + destruct (lookup_lt_is_Some_2 rest (Z.to_nat (b - arg))) as [c Hc]; [lia|]. rewrite Hc. simpl.
        replace (input + _ + _) with (input + Z.of_nat (length w + 1 + Z.to_nat (b - arg))) by lia.
        apply (cstr_rd m1 line); [done|]. unfold line. rewrite lookup_app_r by lia.
        replace (length w + 1 + Z.to_nat (b - arg) - length w)%nat with (S (Z.to_nat (b - arg))) by lia. done.
    - destruct (decide (b = _)) as [->|].
      + rewrite decide_True by lia. rewrite lookup_ge_None_2 by lia. done.
      + rewrite decide_False by lia. done. }
  set (m3 := wr m2 (cmd + Z.of_nat (length w)) 0).
  assert (Hs3 : cstr m3 input line).
  { eapply cstr_agree; [exact Hs1|]. intros b Hb. unfold m3. rewrite rd_wr_ne, H2 by lia.
    rewrite decide_False by lia. done. }
  rewrite (str_len_spec fuel m3 input line Hs3) by lia. cbn [mbind option_bind].
  eexists. split; [done|]. intros b. rewrite rd_wr.
  replace (arg + (Z.of_nat (length line) - Z.of_nat (length w) - 2)) with (arg + (Z.of_nat (length rest) - 1)) by lia.
  destruct (decide (b = arg + (Z.of_nat (length rest) - 1))); [by rewrite decide_True|rewrite decide_False by lia].
  unfold m3. rewrite rd_wr, H2. destruct (decide (cmd + Z.of_nat (length w) = b)) as [<-|].
  { rewrite decide_False, decide_True by lia. rewrite lookup_ge_None_2 by lia. done. }
  destruct (decide (arg <= b < _)); [done|]. destruct (decide (cmd <= b <= _)).
  - destruct (lookup_lt_is_Some_2 w (Z.to_nat (b - cmd))) as [c Hc]; [lia|]. rewrite Hc. simpl.
    destruct (cstr_rd m1 w cmd _ c W1 Hc) as [<- _]. f_equal. lia.
  - apply W2. lia.
Qed.

(** A line "word argument" of fewer than 50 characters with its newline makes
    the shell run: [cmd] holds the word and [arg] the argument, newline dropped,
    and nothing outside the two buffers changes.  A line with only a word gives
    the word and an empty argument, but the last terminator is stored one byte
    before [arg]. *)
Theorem oxterm_parses_line fuel input cmd arg m w :
  shell_buffers input cmd arg → word w → head w ≠ Some 10 → COMM_LEN <= Z.of_nat fuel →
  (∀ d a, cstr m input (w ++ d :: a ++ [10]) → d = 32 ∨ d = 9 →
    Z.of_nat (length (w ++ d :: a ++ [10])) < COMM_LEN →
    ∃ m', oxterm_round fuel input cmd arg m = Some (Run m') ∧ cstr m' cmd w ∧ cstr m' arg a ∧
      ∀ b, (b < cmd ∨ cmd + COMM_LEN <= b) ∧ (b < arg ∨ arg + COMM_LEN <= b) → rd m' b = rd m b) ∧
  (cstr m input (w ++ [10]) → Z.of_nat (length (w ++ [10])) < COMM_LEN →
    ∃ m', oxterm_round fuel input cmd arg m = Some (Run m') ∧ cstr m' cmd w ∧ cstr m' arg [] ∧
      rd m' (arg - 1) = 0 ∧
      ∀ b, (b < cmd ∨ cmd + COMM_LEN <= b) ∧ (b < arg ∨ arg + COMM_LEN <= b) → b ≠ arg - 1 → rd m' b = rd m b).
Proof.
  intros Hb Hw Hnl Hf.
  assert (Hrun : ∀ d rest, cstr m input (w ++ d :: rest) → Z.of_nat (length (w ++ d :: rest)) < COMM_LEN →
    oxterm_round fuel input cmd arg m = m' ← parse_command fuel input cmd arg m; Some (Run m')).
  { intros d rest Hs Hl. unfold oxterm_round. destruct Hw as (c & w' & -> & ?).
    destruct Hs as (H1 & H2 & H3). rewrite H1. destruct (Z.eqb_spec c 10) as [->|]; [done|].
    unfold str_len. rewrite (str_len_spec fuel m input ((c :: w') ++ d :: rest)) by (done || unfold COMM_LEN in *; lia).
    cbn [mbind option_bind]. destruct (Z.leb_spec COMM_LEN (Z.of_nat (length ((c :: w') ++ d :: rest)))); [lia|done]. }
  assert (Hword : ∀ m', (∀ b, cmd <= b <= cmd + Z.of_nat (length w) → rd m' b = default 0 (w !! Z.to_nat (b - cmd))) →
    ∀ rest, cstr m input (w ++ rest) → cstr m' cmd w).
  { intros m' Hm rest Hs. apply cstr_intro.
    - intros i c Hi. apply lookup_lt_Some in Hi as ?. rewrite Hm by lia.
      replace (Z.to_nat _) with i by lia. rewrite Hi. split; [done|].
      apply (cstr_rd m _ input i c Hs). by apply lookup_app_l_Some.
    - rewrite Hm by lia. rewrite lookup_ge_None_2 by lia. done. }
  split.
  - intros d a Hs Hd Hl.
    destruct (parse_command_rd fuel input cmd arg m w d (a ++ [10])) as (m' & E & Hm); try done.
    { destruct Hd as [-> | ->]; done. }
    rewrite (Hrun _ _ Hs Hl), E. exists m'. unfold shell_buffers, disj, COMM_LEN in *.
    rewrite !length_app in *. cbn [length] in *. rewrite !length_app in *. cbn [length] in *.
    split_and!; [done| | |].
    + eapply Hword; [|exact Hs]. intros b Hb'. rewrite Hm. rewrite !decide_False, decide_True by lia. done.
    + apply cstr_intro.
      * intros i c Hi. apply lookup_lt_Some in Hi as ?. rewrite Hm.
        rewrite decide_False, decide_True by lia. replace (Z.to_nat _) with i by lia.
        rewrite lookup_app_l, Hi by lia. split; [done|].
        apply (cstr_rd m _ input (length w + S i) c Hs). rewrite lookup_app_r by lia.
        replace (length w + S i - length w)%nat with (S i) by lia. simpl. rewrite lookup_app_l by lia. done.
      * rewrite Hm, decide_True by lia. done.
    + intros b Hb'. rewrite Hm, !decide_False by lia. done.
  - intros Hs Hl. destruct (parse_command_rd fuel input cmd arg m w 10 []) as (m' & E & Hm); try done.
    rewrite (Hrun _ _ Hs Hl), E. exists m'. unfold shell_buffers, disj, COMM_LEN in *.
    rewrite !length_app in *. cbn [length] in *.
    split_and!; [done| | | |].
    + eapply Hword; [|exact Hs]. intros b Hb'. rewrite Hm. rewrite !decide_False, decide_True by lia. done.
    + simpl. rewrite Hm, decide_False, decide_True by lia. by rewrite Z.sub_diag.
    + rewrite Hm, decide_True by lia. done.
    + intros b Hb' ?. rewrite Hm, !decide_False by lia. done.
Qed.

(** "cat f" and "ls" at 0, the buffers after it. *)
Lemma oxterm_parses_line_witness :
  (∃ m', oxterm_round 50 0 50 100 (poke ∅ 0 [99; 97; 116; 32; 102; 10]) = Some (Run m') ∧
     cstr m' 50 [99; 97; 116] ∧ cstr m' 100 [102]) ∧
  (∃ m', oxterm_round 50 0 50 100 (poke ∅ 0 [108; 115; 10]) = Some (Run m') ∧
     cstr m' 50 [108; 115] ∧ cstr m' 100 []).
Proof.
  assert (Hb : shell_buffers 0 50 100) by (unfold shell_buffers, disj, COMM_LEN; lia).
  split.
  - destruct (oxterm_parses_line 50 0 50 100 (poke ∅ 0 [99; 97; 116; 32; 102; 10]) [99; 97; 116]) as [H _];
      [exact Hb|exists 99, [97; 116]; split; [done|repeat constructor]|done|unfold COMM_LEN; lia|].
    destruct (H 32 [102]) as (m' & ? & ? & ? & _); [vm_compute; by split_and!|by left|unfold COMM_LEN; simpl; lia|].
    by exists m'.
  - destruct (oxterm_parses_line 50 0 50 100 (poke ∅ 0 [108; 115; 10]) [108; 115]) as [_ H];
      [exact Hb|exists 108, [115]; split; [done|repeat constructor]|done|unfold COMM_LEN; lia|].
    destruct H as (m' & ? & ? & ? & _); [vm_compute; by split_and!|unfold COMM_LEN; simpl; lia|].
    by exists m'.
Defined.
