(* ===== verification/Shell.v ===== *)
(** * Shell: the loop of oxterm, src/bin/oxterm/oxterm.c

    [main] never ends: it is an interaction tree whose events are the system
    calls.  A call hands the kernel the program's memory and gets back rax and the
    memory.  The shell is compared with an automaton of six phases: whatever the
    kernel answers, its calls come in the automaton's order, and the program it
    runs for a line is that line's. *)
From ITree Require Import ITree.
From S2P Require Import Prelude Memory Utils Strings Libc LibcProps User.

Variant sysE : Type → Type := Sys (c : call) (m : mem) : sysE (Z * mem).

(** The call and the conversion of what comes back. *)
Definition sys (c : call) (m : mem) : itree sysE (Z * mem) :=
  ITree.bind (ITree.trigger (Sys c m)) (λ r, Ret (call_ret c r.1, r.2)).

Section Main.
(** The buffers of [main], those of [printf], and the addresses of its strings:
    the format, the empty string and the complaint. *)
Context (fuel : nat) (input cmd arg write_buf istr fmt empty careful : Z).

(** The end of a loop whose fuel ran out. *)
Definition stuck : itree sysE (mem + ()) := Ret (inr ()).

(** [pid = fork(); if (pid == 0) execvp(cmd, arg); else { yield(); wait(); }] *)
Definition run_command (m : mem) : itree sysE (mem + ()) :=
  ITree.bind (sys fork m) (λ r,
    if r.1 =? 0 then ITree.bind (sys (execvp cmd arg) r.2) (λ r, Ret (inl r.2))
    else ITree.bind (sys yield r.2) (λ r, ITree.bind (sys wait r.2) (λ r, Ret (inl r.2)))).

(** From the line to the end of the round; [printf("%s", "")] writes nothing. *)
Definition serve_line (m : mem) : itree sysE (mem + ()) :=
  match oxterm_round fuel input cmd arg m with
  | Some Again => Ret (inl m)
  | Some TooLong =>
      match printf fuel write_buf istr m careful [] with
      | Some (m, c) => ITree.bind (sys c m) (λ r, Ret (inl r.2))
      | None => stuck
      end
  | Some (Run m) =>
      match printf fuel write_buf istr m fmt [empty] with
      | Some (m, c) => ITree.bind (sys c m) (λ r, run_command r.2)
      | None => stuck
      end
  | None => stuck
  end.

Definition main_round (m : mem) : itree sysE (mem + ()) :=
  ITree.bind (sys (gets input) (clear_buffers input cmd arg m)) (λ r, serve_line r.2).

Definition main : mem → itree sysE () := ITree.iter main_round.
End Main.

(** ** Traces *)

(** A call, the memory at the trap, and the kernel's answer. *)
Abbreviation event := (call * mem * (Z * mem))%type.

Inductive trace {R} : itree sysE R → list event → Prop :=
  | trace_nil t : trace t []
  | trace_tau t u tr : observe t = TauF u → trace u tr → trace t tr
  | trace_vis t c m k a tr : observe t = VisF (Sys c m) k → trace (k a) tr → trace t ((c, m, a) :: tr).

Lemma trace_observe {R} (t t' : itree sysE R) tr : observe t = observe t' → trace t tr → trace t' tr.
Proof.
  intros E H. destruct H as [t|t u tr E1 H|t c m k a tr E1 H].
  - constructor.
  - eapply trace_tau; [by rewrite <- E|exact H].
  - eapply trace_vis; [by rewrite <- E|exact H].
Qed.

(** The call at the top of a tree, and what follows each answer. *)
Definition next_call {R} (t : itree sysE R) : option (call * mem * (Z * mem → itree sysE R)) :=
  match observe t with
  | VisF e k => match e in sysE X return (X → itree sysE R) → option (call * mem * (Z * mem → itree sysE R)) with
                | Sys c m => λ k, Some (c, m, k) end k
  | _ => None
  end.

Lemma next_call_vis {R} (t : itree sysE R) c m k : observe t = VisF (Sys c m) k → next_call t = Some (c, m, k).
Proof. unfold next_call. by intros ->. Qed.

(** One call at the start of a tree. *)
Lemma observe_sys {A R} c m (f : Z * mem → itree sysE A) (k : A → itree sysE R) :
  observe (ITree.bind (ITree.bind (sys c m) f) k) =
  VisF (Sys c m) (λ a, ITree.bind (ITree.bind (ITree.bind (Ret a) (λ r, Ret (call_ret c r.1, r.2))) f) k).
Proof. reflexivity. Qed.

Lemma trace_sys {A R} c m (f : Z * mem → itree sysE A) (k : A → itree sysE R) tr :
  trace (ITree.bind (ITree.bind (sys c m) f) k) tr ↔
  tr = [] ∨ ∃ r m' tr', tr = (c, m, (r, m')) :: tr' ∧ trace (ITree.bind (f (call_ret c r, m')) k) tr'.
Proof.
  pose proof (observe_sys c m f k) as E0. apply next_call_vis in E0 as N0. split.
  - intros H. inversion H as [t|t u tr0 E1 H1|t c0 m0 k0 [r m'] tr0 E1 H1]; subst; [by left|discriminate E1|].
    right. apply next_call_vis in E1. rewrite N0 in E1. injection E1 as <- <- <-.
    exists r, m', tr0. split; [done|]. eapply trace_observe; [|exact H1]. reflexivity.
  - intros [->|(r & m' & tr' & -> & H)]; [constructor|]. eapply trace_vis; [exact E0|].
    eapply trace_observe; [|exact H]. reflexivity.
Qed.

(** The rounds of a loop. *)
Abbreviation again body := (λ lr, match lr with inl l => Tau (ITree.iter body l) | inr r => Ret r end).

Lemma trace_iter {I R} (body : I → itree sysE (I + R)) i tr :
  trace (ITree.iter body i) tr ↔ trace (ITree.bind (body i) (again body)) tr.
Proof. split; apply trace_observe; reflexivity. Qed.

Lemma trace_again {I R} (body : I → itree sysE (I + R)) i tr :
  trace (ITree.bind (Ret (inl i)) (again body)) tr ↔ trace (ITree.iter body i) tr.
Proof.
  split.
  - intros H. inversion H as [t|t u tr0 E1 H1|t c0 m0 k0 a tr0 E1 H1]; subst; [constructor| |discriminate E1].
    cbn in E1. injection E1 as <-. exact H1.
  - intros H. apply (trace_tau _ (ITree.iter body i)); [reflexivity|exact H].
Qed.

(** ** The automaton *)

(** What the shell cuts out of a line: the first word, which may start with a
    blank, and what follows the blank behind it. *)
Definition words (body : list Z) : list Z * list Z :=
  match body with
  | [] => ([], [])
  | c :: b => match list_find is_blank b with
              | Some (k, _) => (c :: take k b, drop (S k) b)
              | None => (body, [])
              end
  end.

Inductive phase := Prompt | Ready (body : list Z) | Forking (body : list Z) | Child (body : list Z) | Yielding | Waiting.

Section Automaton.
Context (input cmd arg write_buf : Z).

Inductive shell_step : phase → event → phase → Prop :=
  | shell_blank m r m' : cstr m' input [10] → shell_step Prompt (gets input, m, (r, m')) Prompt
  | shell_line m r m' body : body ≠ [] → cstr m' input (body ++ [10]) → shell_step Prompt (gets input, m, (r, m')) (Ready body)
  | shell_print c m r m' body : call_regs c = Regs 1 (Some 1) (Some write_buf) (Some 0) → shell_step (Ready body) (c, m, (r, m')) (Forking body)
  | shell_fork m r m' body :
      shell_step (Forking body) (fork, m, (r, m')) (if call_ret fork r =? 0 then Child body else Yielding)
  | shell_exec m r m' body : cstr m cmd (words body).1 → cstr m arg (words body).2 →
      shell_step (Child body) (execvp cmd arg, m, (r, m')) Prompt
  | shell_yield m r m' : shell_step Yielding (yield, m, (r, m')) Waiting
  | shell_wait m r m' : shell_step Waiting (wait, m, (r, m')) Prompt.

(** The automaton makes these calls, from [p] on. *)
Inductive accepts : phase → list event → Prop :=
  | accepts_nil p : accepts p []
  | accepts_cons p e p' tr : shell_step p e p' → accepts p' tr → accepts p (e :: tr).

(** A line that was typed: characters, then the newline; it fits the buffer. *)
Definition typed (body : list Z) : Prop := Forall (λ c, c ≠ 0 ∧ c ≠ 10) body ∧ Z.of_nat (length body) + 1 < COMM_LEN.

(** What is asked of the kernel: [gets] delivers a typed line into the buffer,
    the other calls leave the program's memory alone. *)
Definition lawful (e : event) : Prop :=
  let '(c, m, (r, m')) := e in
  if rax (call_regs c) =? 30 then
    (∃ body, typed body ∧ cstr m' input (body ++ [10])) ∧ ∀ b, b < input ∨ input + COMM_LEN <= b → rd m' b = rd m b
  else m' = m.
End Automaton.

(** ** The shell is the automaton *)

(** Every trace of [t] that a lawful kernel answers, up to length [n], is one of
    the automaton, and goes on with one more call whatever the answer. *)
Definition follows (input cmd arg write_buf : Z) {R} (n : nat) (t : itree sysE R) (p : phase) : Prop :=
  ∀ tr, (length tr <= n)%nat → trace t tr → Forall (lawful input) tr →
    accepts input cmd arg write_buf p tr ∧ ∃ c m, ∀ a, trace t (tr ++ [(c, m, a)]).

Section Refines.
Context (fuel : nat) (input cmd arg write_buf istr fmt empty careful : Z).
Abbreviation main := (main fuel input cmd arg write_buf istr fmt empty careful).
Abbreviation follows := (follows input cmd arg write_buf).

Lemma follows_iff {R} n (t t' : itree sysE R) p : (∀ tr, trace t tr ↔ trace t' tr) → follows n t' p → follows n t p.
Proof.
  intros H F tr Hl Ht Hlaw. destruct (F tr Hl (proj1 (H tr) Ht) Hlaw) as (H1 & c & m & H2). split; [exact H1|].
  exists c, m. intros a. apply H, H2.
Qed.

Lemma follows_sys {A R} n c m (f : Z * mem → itree sysE A) (k : A → itree sysE R) p :
  (∀ n' r m', (n' < n)%nat → lawful input (c, m, (r, m')) →
     ∃ p', shell_step input cmd arg write_buf p (c, m, (r, m')) p' ∧ follows n' (ITree.bind (f (call_ret c r, m')) k) p') →
  follows n (ITree.bind (ITree.bind (sys c m) f) k) p.
Proof.
  intros H tr Hl Ht Hlaw. apply trace_sys in Ht as [->|(r & m' & tr' & -> & Ht)].
  - split; [constructor|]. exists c, m. intros [r m']. apply trace_sys. right. exists r, m', []. split; [done|constructor].
  - apply Forall_cons in Hlaw as [H1 H2]. cbn [length] in Hl.
    destruct (H (length tr') r m' ltac:(lia) H1) as (p' & Hp & F). destruct (F tr' ltac:(lia) Ht H2) as (Ha & c' & m2 & He).
    split; [by econstructor|]. exists c', m2. intros a. apply trace_sys. right. exists r, m', (tr' ++ [(c', m2, a)]). by split.
Qed.

(** Where the strings and buffers lie: the strings of the program apart from
    everything that is written, the buffers of [printf] apart from the words. *)
Definition string_apart (a n : Z) : Prop :=
  disj a n input COMM_LEN ∧ disj a n cmd COMM_LEN ∧ disj a n (arg - 1) (COMM_LEN + 1) ∧ apart write_buf istr a n.

Record layout : Prop := {
  ly_buffers : shell_buffers input cmd arg;
  ly_printf : disj write_buf 1024 istr 100 ∧ 0 <= write_buf < 2 ^ 64;
  ly_fmt : string_apart fmt 3;
  ly_empty : string_apart empty 1 ∧ 0 <= empty < 2 ^ 64;
  ly_cmd : apart write_buf istr cmd COMM_LEN;
  ly_arg : apart write_buf istr arg COMM_LEN;
  ly_fuel : (1024 <= fuel)%nat;
}.

(** The program's strings. *)
Definition strings (m : mem) : Prop := cstr m fmt [37; 115] ∧ cstr m empty [].

Context (L : layout).

Lemma strings_agree m m' : strings m → (∀ b, fmt <= b < fmt + 3 ∨ b = empty → rd m' b = rd m b) → strings m'.
Proof.
  intros [H1 H2] H. split; [eapply cstr_agree; [exact H1|]|eapply cstr_agree; [exact H2|]]; cbn; intros b Hb; apply H; lia.
Qed.

Lemma clear_loop_rd n : ∀ m i b, 0 <= i →
  (b < input ∨ input + i + Z.of_nat n <= b) → (b < cmd ∨ cmd + i + Z.of_nat n <= b) → (b < arg ∨ arg + i + Z.of_nat n <= b) →
  rd (clear_loop input cmd arg n m i) b = rd m b.
Proof.
  induction n as [|n IH]; intros m i b Hi H1 H2 H3; cbn [clear_loop]; [done|]. rewrite IH by lia. by rewrite !rd_wr_ne by lia.
Qed.

Lemma strings_clear m : strings m → strings (clear_buffers input cmd arg m).
Proof.
  intros H. eapply strings_agree; [exact H|]. intros b Hb. destruct L as [_ _ (F1 & F2 & F3 & _) ((E1 & E2 & E3 & _) & _) _ _ _].
  unfold clear_buffers. change (Z.to_nat COMM_LEN) with 50%nat. unfold disj, COMM_LEN in *. apply clear_loop_rd; lia.
Qed.

(** The words of a typed line. *)
Lemma round_typed m body :
  body ≠ [] → typed body → cstr m input (body ++ [10]) →
  ∃ m', oxterm_round fuel input cmd arg m = Some (Run m') ∧ cstr m' cmd (words body).1 ∧ cstr m' arg (words body).2 ∧
    ∀ b, (b < cmd ∨ cmd + COMM_LEN <= b) → (b < arg - 1 ∨ arg + COMM_LEN <= b) → rd m' b = rd m b.
Proof.
  intros Hne [Hch Hlen] Hs. destruct body as [|c b]; [done|]. apply Forall_cons in Hch as [[_ Hc] Hb].
  assert (Hf : COMM_LEN <= Z.of_nat fuel) by (pose proof (ly_fuel L); unfold COMM_LEN; lia).
  unfold words. destruct (list_find is_blank b) as [[k d]|] eqn:Ef.
  - apply list_find_Some in Ef as (Hk & Hd & Hmin). rewrite <- (take_drop_middle b k d Hk) in Hs, Hlen.
    destruct (oxterm_parses_line fuel input cmd arg m (c :: take k b) (ly_buffers L)) as [H _]; [| |exact Hf|].
    + exists c, (take k b). split; [done|]. apply Forall_lookup. intros j y [Hj Hjk]%lookup_take_Some. apply not_true_iff_false. intros E.
      apply (Hmin j y Hj Hjk). by rewrite E.
    + cbn. congruence.
    + destruct (H d (drop (S k) b)) as (m' & E & H1 & H2 & H3).
      * cbn [app] in Hs |- *. by rewrite <- app_assoc in Hs.
      * eapply Forall_lookup_1 in Hb as [_ Hd10]; [|exact Hk]. unfold is_blank in Hd. destruct (Z.eqb_spec d 32); [by left|].
        destruct (Z.eqb_spec d 9); [by right|]. by destruct (Z.eqb_spec d 10).
      * cbn [length app] in *. rewrite !length_app in *. cbn [length] in *. rewrite !length_app. cbn [length]. lia.
      * exists m'. split_and!; [done..|]. intros x Hx1 Hx2. apply H3. lia.
  - destruct (oxterm_parses_line fuel input cmd arg m (c :: b) (ly_buffers L)) as [_ H]; [| |exact Hf|].
    + exists c, b. split; [done|]. apply list_find_None in Ef. eapply Forall_impl; [exact Ef|]. intros y Hy.
      by apply Is_true_false.
    + cbn. congruence.
    + destruct H as (m' & E & H1 & H2 & _ & H3); [exact Hs|rewrite length_app; cbn [length] in *; lia|].
      exists m'. split_and!; [done..|]. intros x Hx1 Hx2. apply H3; lia.
Qed.

(** [printf("%s", "")] makes the call that writes nothing and keeps the words. *)
Lemma print_nothing m : strings m →
  ∃ m' c, printf fuel write_buf istr m fmt [empty] = Some (m', c) ∧ call_regs c = Regs 1 (Some 1) (Some write_buf) (Some 0) ∧
    keeps write_buf istr m m'.
Proof.
  intros [S1 S2]. destruct L as [_ [P1 P2] (_ & _ & _ & F) ((_ & _ & _ & E) & Er) _ _ Hf].
  destruct (printf_spec fuel write_buf istr m fmt [37; 115] [VStr []] [empty] []) as (m' & c & H1 & H2 & _ & _ & H3); try done.
  - constructor; [|constructor]. cbn. rewrite u64_small by exact Er. split; [exact S2|]. split; [lia|exact E].
  - cbn. lia.
  - by exists m', c.
Qed.

Lemma strings_keeps m m' : keeps write_buf istr m m' → strings m → strings m'.
Proof.
  intros Hk H. eapply strings_agree; [exact H|]. intros b Hb. apply Hk.
  destruct L as [_ _ (_ & _ & _ & [F1 F2]) ((_ & _ & _ & [E1 E2]) & _) _ _ _]. unfold disj in *. lia.
Qed.

(** A string of one of the buffers. *)
Lemma words_keeps m m' a s : keeps write_buf istr m m' → apart write_buf istr a COMM_LEN → Z.of_nat (length s) < COMM_LEN →
  cstr m a s → cstr m' a s.
Proof.
  intros Hk [A1 A2] Hl H. eapply keeps_cstr; [apply (ly_printf L)|exact Hk|exact H|]. unfold apart, disj in *. lia.
Qed.

Lemma words_length body : (length (words body).1 <= length body)%nat ∧ (length (words body).2 <= length body)%nat.
Proof.
  destruct body as [|c b]; cbn; [lia|]. destruct (list_find is_blank b) as [[k d]|]; cbn; [|lia].
  rewrite length_take, length_drop. lia.
Qed.

Lemma follows_again n m p : follows n (main m) p → follows n (ITree.bind (Ret (inl m)) (again (main_round fuel input cmd arg write_buf istr fmt empty careful))) p.
Proof. apply follows_iff. intros tr. apply trace_again. Qed.

Lemma main_follows n : ∀ m, strings m → follows n (main m) Prompt.
Proof.
  induction n as [n IH] using lt_wf_ind. intros m Hstr. eapply follows_iff; [intros tr; apply trace_iter|].
  unfold main_round at 1. apply follows_sys. intros n1 r m1 H1 [(body & Hty & Hs) Hfr]. cbn in Hfr.
  assert (S1 : strings m1).
  { eapply strings_agree; [by apply strings_clear|]. intros b Hb. apply Hfr.
    destruct L as [_ _ (F & _) ((E & _) & _) _ _ _]. unfold disj in *. lia. }
  cbn [snd]. unfold serve_line. destruct (decide (body = [])) as [->|Hne].
  { exists Prompt. split; [by constructor|]. unfold oxterm_round. destruct Hs as [-> _]. cbn. apply follows_again. by apply IH. }
  destruct (round_typed m1 body Hne Hty Hs) as (m2 & E2 & C2 & A2 & F2). rewrite E2.
  assert (S2 : strings m2).
  { eapply strings_agree; [exact S1|]. intros b Hb.
    destruct L as [_ _ (_ & F & F' & _) ((_ & E & E' & _) & _) _ _ _]. unfold disj in *. apply F2; lia. }
  destruct (print_nothing m2 S2) as (m3 & c & E3 & R3 & K3). rewrite E3. pose proof (strings_keeps _ _ K3 S2) as S3.
  destruct (words_length body) as [W1 W2]. destruct Hty as [_ Hlen].
  apply (words_keeps _ _ _ _ K3 (ly_cmd L)) in C2; [|lia]. apply (words_keeps _ _ _ _ K3 (ly_arg L)) in A2; [|lia].
  exists (Ready body). split; [by constructor|]. apply follows_sys. intros n2 r2 m4 H2 Hl2.
  unfold lawful in Hl2. rewrite R3 in Hl2. cbn in Hl2. subst m4. exists (Forking body). split; [by constructor|]. cbn [snd]. unfold run_command.
  apply follows_sys. intros n3 r3 m4 H3 ->. eexists. split; [apply shell_fork|]. cbn [fst snd]. destruct (_ =? 0).
  - apply follows_sys. intros n4 r4 m5 H4 ->. exists Prompt. split; [by constructor|]. apply follows_again. apply IH; [lia|done].
  - apply follows_sys. intros n4 r4 m5 H4 ->. exists Waiting. split; [by constructor|]. cbn [snd].
    apply follows_sys. intros n5 r5 m6 H5 ->. exists Prompt. split; [by constructor|]. apply follows_again. apply IH; [lia|done].
Qed.

(** C15: The shell serves line after line.  Whatever a kernel answers that
    delivers typed lines of fewer than 50 characters to [gets] and leaves the
    program's memory alone otherwise, the system calls of [main] come in the
    order of the automaton: after each line that is not blank a fork; the child's
    next call is execvp, with the first word of that line in [cmd] and the rest in
    [arg]; the parent yields, waits and asks for the next line.  And it never
    stops: after every such run there is a next call. *)
Theorem shell_serves_lines m tr :
  strings m → trace (main m) tr → Forall (lawful input) tr →
  accepts input cmd arg write_buf Prompt tr ∧ ∃ c m', ∀ a, trace (main m) (tr ++ [(c, m', a)]).
Proof. intros Hs Ht Hl. by apply (main_follows (length tr) m Hs tr). Qed.
End Refines.

(** ** A line

    The buffers at 0, 50 and 100, those of [printf] at 1000 and 2048, the strings
    from 5000 on; the line is "cat f" and the trace the child's. *)

Definition demo_start : mem := poke (poke ∅ 5000 [37; 115]) 5010 [].
Definition demo_cleared : mem := clear_buffers 0 50 100 demo_start.
Definition demo_line : mem := poke demo_cleared 0 [99; 97; 116; 32; 102; 10].
Definition demo_cut : mem :=
  match oxterm_round 1024 0 50 100 demo_line with Some (Run m) => m | _ => ∅ end.
Definition demo_call : mem * call := default (∅, yield) (printf 1024 1000 2048 demo_cut 5000 [5010]).
Definition demo_printed : mem := demo_call.1.
Definition demo_trace : list event :=
  [(gets 0, demo_cleared, (0, demo_line)); (demo_call.2, demo_printed, (0, demo_printed)); (fork, demo_printed, (0, demo_printed));
   (execvp 50 100, demo_printed, (0, demo_printed))].

Lemma demo_cut_eq : oxterm_round 1024 0 50 100 demo_line = Some (Run demo_cut).
Proof.
  unfold demo_cut. assert (H : match oxterm_round 1024 0 50 100 demo_line with Some (Run _) => true | _ => false end = true)
    by (vm_compute; reflexivity).
  destruct (oxterm_round _ _ _ _ _) as [[| |m]|]; [discriminate H..|reflexivity|discriminate H].
Qed.
Lemma demo_call_eq : printf 1024 1000 2048 demo_cut 5000 [5010] = Some demo_call.
Proof.
  unfold demo_call. assert (H : match printf 1024 1000 2048 demo_cut 5000 [5010] with Some _ => true | _ => false end = true)
    by (vm_compute; reflexivity).
  destruct (printf _ _ _ _ _ _) as [c|]; [reflexivity|discriminate H].
Qed.

Abbreviation demo_main := (main 1024 0 50 100 1000 2048 5000 5010 6000).

Lemma demo_runs : trace (demo_main demo_start) demo_trace.
Proof.
  apply trace_iter. unfold main_round at 1. apply trace_sys. right. exists 0, demo_line. eexists. split; [reflexivity|]. cbn [snd].
  unfold serve_line. rewrite demo_cut_eq, demo_call_eq. rewrite (surjective_pairing demo_call).
  apply trace_sys. right. exists 0, demo_printed. eexists. split; [reflexivity|]. cbn [snd]. unfold run_command.
  apply trace_sys. right. exists 0, demo_printed. eexists. split; [reflexivity|]. change (call_ret fork 0 =? 0) with true. cbn [fst snd].
  apply trace_sys. right. exists 0, demo_printed. eexists. split; [reflexivity|]. constructor.
Qed.

Lemma demo_layout : layout 1024 0 50 100 1000 2048 5000 5010.
Proof. constructor; unfold shell_buffers, string_apart, apart, disj, COMM_LEN; lia. Qed.

Lemma demo_quiet c : rax (call_regs c) ≠ 30 → lawful 0 (c, demo_printed, (0, demo_printed)).
Proof. intros H. unfold lawful. by rewrite (proj2 (Z.eqb_neq _ _) H). Qed.

Lemma demo_lawful : Forall (lawful 0) demo_trace.
Proof.
  unfold demo_trace. rewrite !Forall_cons. split; [|split; [|split; [|split; [|constructor]]]]; [|apply demo_quiet; vm_compute; discriminate..].
  split.
  - exists [99; 97; 116; 32; 102]. split; [split; [repeat constructor; discriminate|reflexivity]|vm_compute; repeat split; discriminate].
  - intros b Hb. unfold demo_line. cbn [poke]. generalize demo_cleared. intros m.
    do 7 (rewrite rd_wr_ne by (unfold COMM_LEN in Hb; lia)). reflexivity.
Qed.

Lemma shell_serves_lines_witness :
  accepts 0 50 100 1000 Prompt demo_trace ∧ cstr demo_printed 50 [99; 97; 116] ∧ cstr demo_printed 100 [102].
Proof.
  split; [|vm_compute; repeat split; discriminate].
  apply (shell_serves_lines 1024 0 50 100 1000 2048 5000 5010 6000 demo_layout demo_start).
  - vm_compute. repeat split; discriminate.
  - exact demo_runs.
  - exact demo_lawful.
Defined.
