(* ===== verification/Ahci.v ===== *)
(** * Ahci: the PCI scan and the SATA driver, src/sys/pci.c

    The controller is hardware: a class of operations on its state, the reads
    and writes of its memory-mapped registers (which may also move data to or
    from main memory) and the two configuration ports.  The driver is a state
    monad over the controller, main memory, the global [ahci_addr] and the
    messages printed; a polling loop takes fuel and answers [None] when the
    device never becomes ready.  The layouts are those of
    src/include/sys/ahci.h.  Empty delay loops are left out. *)
From S2P Require Import Prelude Memory.

(** ** The hardware *)

(** Register accesses of [n] bytes at a physical address, and the instructions
    [inl] and [outl]. *)
Class Device (D : Type) := {
  dev_read : nat → D → mem → Z → Z * D * mem;
  dev_write : nat → D → mem → Z → Z → D * mem;
  dev_in : D → Z → Z * D;
  dev_out : D → Z → Z → D;
}.

(** The messages, with their numbers. *)
Inductive pci_msg :=
  | Over | Over1 | Over2 | Over3 | NoSlot | Hung | ReadError | WriteError
  | SataAt (i : Z) | SatapiAt (i : Z) | SembAt (i : Z) | PmAt (i : Z)
  | AhciAt (a : Z) | MultiFunc (vendor device : Z) | Vendor (vendor device : Z)
  | TestOut (v : Z) | Detected (bus device : Z).

Record hw (D : Type) := Hw { dev : D; ram : mem; ahci_addr : Z; log : list pci_msg }.
Arguments Hw {D}. Arguments dev {D}. Arguments ram {D}. Arguments ahci_addr {D}. Arguments log {D}.

Definition HM (D A : Type) : Type := hw D → option (A * hw D).

#[export] Instance hm_ret D : MRet (HM D) := λ A a h, Some (a, h).
#[export] Instance hm_bind D : MBind (HM D) := λ A B f x h,
  match x h with Some (a, h') => f a h' | None => None end.

(** ** Registers (hba_port_t, hba_mem_t) *)

Definition PxCLB : Z := 0x00.
Definition PxFB : Z := 0x08.
Definition PxIS : Z := 0x10.
Definition PxCMD : Z := 0x18.
Definition PxTFD : Z := 0x20.
Definition PxSIG : Z := 0x24.
Definition PxSSTS : Z := 0x28.
Definition PxSCTL : Z := 0x2C.
Definition PxSERR : Z := 0x30.
Definition PxSACT : Z := 0x34.
Definition PxCI : Z := 0x38.

Definition HBA_CAP : Z := 0x00.
Definition HBA_GHC : Z := 0x04.
Definition HBA_PI : Z := 0x0C.
Definition port_addr (abar i : Z) : Z := abar + 0x100 + 0x80 * i.

Definition HBA_PxCMD_ST : Z := 1.
Definition HBA_PxCMD_SUD : Z := Z.shiftl 1 1.
Definition HBA_PxCMD_POD : Z := Z.shiftl 1 2.
Definition HBA_PxCMD_CLO : Z := Z.shiftl 1 3.
Definition HBA_PxCMD_FRE : Z := Z.shiftl 1 4.
Definition HBA_PxCMD_FR : Z := Z.shiftl 1 14.
Definition HBA_PxCMD_CR : Z := Z.shiftl 1 15.
Definition HBA_PxCMD_ICC : Z := Z.shiftl 1 28.
Definition HBA_PxIS_TFES : Z := Z.shiftl 1 30.
Definition HBA_PxTDF_BSY : Z := Z.shiftl 1 7.
Definition HBA_PxTDF_DRQ : Z := Z.shiftl 1 3.
Definition HBA_PxTDF_ERR : Z := 1.

Definition AHCI_DEV_SATA : Z := 0x00000101.
Definition AHCI_DEV_SATAPI : Z := 0xEB140101.
Definition AHCI_DEV_SEMB : Z := 0xC33C0101.
Definition AHCI_DEV_PM : Z := 0x96690101.

Definition AHCI_BASE : Z := 0x400000.
Definition MEM_ADDR : Z := 0xa6000.
Definition ATA_CMD_READ_DMA_EX : Z := 0x25.
Definition ATA_CMD_WRITE_DMA_EX : Z := 0x35.
Definition FIS_TYPE_REG_H2D : Z := 0x27.

(** The complement of a 32-bit mask. *)
Definition not32 (x : Z) : Z := 2 ^ 32 - 1 - x.

(** ** Structures in memory *)

(** Assigning a bit field of [w] bits at bit [lo] of an [n]-byte word. *)
Definition set_bits (n : nat) (m : mem) (a lo w v : Z) : mem :=
  let x := load n m a in
  let old := (x / 2 ^ lo) mod 2 ^ w in
  store n m a (x + (v mod 2 ^ w - old) * 2 ^ lo).

(** hba_cmd_header_t: 32 bytes; the bit fields of its first two bytes. *)
Definition sizeof_cmd_header : Z := 32.
Definition set_cfl (m : mem) (h v : Z) : mem := set_bits 1 m h 0 5 v.
Definition set_w (m : mem) (h v : Z) : mem := set_bits 1 m h 6 1 v.
Definition set_c (m : mem) (h v : Z) : mem := set_bits 1 m (h + 1) 2 1 v.
Definition set_prdtl (m : mem) (h v : Z) : mem := store 2 m (h + 2) v.
Definition prdtl (m : mem) (h : Z) : Z := load 2 m (h + 2).
Definition set_ctba (m : mem) (h v : Z) : mem := store64 m (h + 8) v.
Definition ctba (m : mem) (h : Z) : Z := load64 m (h + 8).

(** hba_cmd_tbl_t: the command FIS at 0, the region descriptors at 0x80; 144
    bytes rounded up to its alignment of 128. *)
Definition sizeof_cmd_tbl : Z := 256.
Definition sizeof_prdt_entry : Z := 16.
Definition prdt_entry (tbl i : Z) : Z := tbl + 0x80 + sizeof_prdt_entry * i.
Definition set_dba (m : mem) (e v : Z) : mem := store 4 m e v.
Definition set_dbau (m : mem) (e v : Z) : mem := store 4 m (e + 4) v.
Definition set_dbc (m : mem) (e v : Z) : mem := set_bits 4 m (e + 12) 0 22 v.
Definition set_i (m : mem) (e v : Z) : mem := set_bits 4 m (e + 12) 31 1 v.

(** ** Building a command *)

(** The entries before the last: [n] are left, the next one is [i]. *)
Fixpoint fill_prdt (n : nat) (m : mem) (tbl i buf count : Z) : Z * Z * mem :=
  match n with
  | O => (buf, count, m)
  | S n' =>
      let e := prdt_entry tbl i in
      let m := set_dba m e buf in
      let m := set_dbc m e (8 * 1024) in
      let m := set_i m e 1 in
      fill_prdt n' m tbl (i + 1) (u64 (buf + 4 * 1024)) (u32 (count - 16))
  end.

(** The command FIS: type, command bit, command, the six bytes of the block
    address, the device register and the sector count. *)
Definition fill_fis (m : mem) (fis command startl starth count : Z) : mem :=
  let m := wr m fis FIS_TYPE_REG_H2D in
  let m := set_bits 1 m (fis + 1) 7 1 1 in
  let m := wr m (fis + 2) command in
  let m := wr m (fis + 4) startl in
  let m := wr m (fis + 5) (Z.shiftr startl 8) in
  let m := wr m (fis + 6) (Z.shiftr startl 16) in
  let m := wr m (fis + 7) (Z.shiftl 1 6) in
  let m := wr m (fis + 8) (Z.shiftr startl 24) in
  let m := wr m (fis + 9) starth in
  let m := wr m (fis + 10) (Z.shiftr starth 8) in
  let m := wr m (fis + 12) (Z.land count 0xff) in
  wr m (fis + 13) (Z.land (Z.shiftr count 8) 0xff).

(** From the header's fields to the command FIS, in main memory only. *)
Definition build_command (m : mem) (cmdheader w command startl starth count buf : Z) : mem :=
  let m := set_cfl m cmdheader 5 in
  let m := set_w m cmdheader w in
  let m := set_prdtl m cmdheader (u16 (Z.shiftr (u32 (count - 1)) 4) + 1) in
  let m := set_c m cmdheader 1 in
  let tbl := ctba m cmdheader in
  let m := memset m tbl 0 (sizeof_cmd_tbl + (prdtl m cmdheader - 1) * sizeof_prdt_entry) in
  let n := Z.to_nat (prdtl m cmdheader - 1) in
  let '(buf, count, m) := fill_prdt n m tbl 0 buf count in
  let e := prdt_entry tbl (Z.of_nat n) in
  let m := set_dba m e (Z.land buf 0xFFFFFFFF) in
  let m := set_dbau m e (Z.land (Z.shiftr buf 32) 0xFFFFFFFF) in
  let m := set_dbc m e (Z.shiftl count 9) in
  let m := set_i m e 1 in
  fill_fis m tbl command startl starth count.

Section Driver.
Context {D : Type} `{Device D} (fuel : nat).

(** ** Primitive operations *)

Definition rreg (n : nat) (a : Z) : HM D Z := λ h,
  let '(v, d, m) := dev_read n (dev h) (ram h) a in
  Some (v mod 2 ^ (8 * Z.of_nat n), Hw d m (ahci_addr h) (log h)).
Definition wreg (n : nat) (a v : Z) : HM D () := λ h,
  let '(d, m) := dev_write n (dev h) (ram h) a (v mod 2 ^ (8 * Z.of_nat n)) in
  Some ((), Hw d m (ahci_addr h) (log h)).
Definition inl (port : Z) : HM D Z := λ h,
  let '(v, d) := dev_in (dev h) port in Some (u32 v, Hw d (ram h) (ahci_addr h) (log h)).
Definition outl (port value : Z) : HM D () := λ h,
  Some ((), Hw (dev_out (dev h) port (u32 value)) (ram h) (ahci_addr h) (log h)).

Definition get_ahci : HM D Z := λ h, Some (ahci_addr h, h).
Definition put_ahci (a : Z) : HM D () := λ h, Some ((), Hw (dev h) (ram h) a (log h)).
Definition get_ram : HM D mem := λ h, Some (ram h, h).
Definition put_ram (m : mem) : HM D () := λ h, Some ((), Hw (dev h) m (ahci_addr h) (log h)).
Definition say (x : pci_msg) : HM D () := λ h, Some ((), Hw (dev h) (ram h) (ahci_addr h) (log h ++ [x])).
Definition stuck {A} : HM D A := λ _, None.

(** [reg &= mask], [reg |= bits] *)
Definition and_reg (a mask : Z) : HM D () := v ← rreg 4 a; wreg 4 a (Z.land v mask).
Definition or_reg (a bits : Z) : HM D () := v ← rreg 4 a; wreg 4 a (Z.lor v bits).

(** [while (reg & mask);] *)
Fixpoint wait_clear (n : nat) (a mask : Z) : HM D () :=
  match n with
  | O => stuck
  | S n' => v ← rreg 4 a; if Z.land v mask =? 0 then mret () else wait_clear n' a mask
  end.

(** A loop that reads the register once per mask and starts over at the first
    mask with a bit set. *)
Fixpoint wait_masks (n : nat) (a : Z) (masks todo : list Z) : HM D () :=
  match n with
  | O => stuck
  | S n' =>
      match todo with
      | [] => mret ()
      | mask :: todo =>
          v ← rreg 4 a;
          if Z.land v mask =? 0 then wait_masks n' a masks todo else wait_masks n' a masks masks
      end
  end.

(** ** The command engine *)

Definition start_cmd (port : Z) : HM D () :=
  _ ← wait_clear fuel (port + PxCMD) HBA_PxCMD_CR;
  _ ← or_reg (port + PxCMD) HBA_PxCMD_FRE;
  or_reg (port + PxCMD) HBA_PxCMD_ST.

Definition stop_cmd (port : Z) : HM D () :=
  _ ← and_reg (port + PxCMD) (not32 HBA_PxCMD_ST);
  _ ← wait_masks fuel (port + PxCMD) [HBA_PxCMD_FR; HBA_PxCMD_CR] [HBA_PxCMD_FR; HBA_PxCMD_CR];
  and_reg (port + PxCMD) (not32 HBA_PxCMD_FRE).

Definition setBits (port : Z) : HM D () :=
  _ ← and_reg (port + PxCMD) 0xFFFFFFFE;
  _ ← wait_clear fuel (port + PxCMD) HBA_PxCMD_CR;
  _ ← say Over;
  _ ← and_reg (port + PxCMD) 0xFFFFFFEF;
  _ ← wait_clear fuel (port + PxCMD) HBA_PxCMD_FR;
  _ ← say Over1;
  _ ← or_reg (port + PxCMD) HBA_PxCMD_ICC;
  _ ← or_reg (port + PxCMD) HBA_PxCMD_POD;
  _ ← or_reg (port + PxCMD) HBA_PxCMD_SUD;
  _ ← or_reg (port + PxCMD) HBA_PxCMD_CLO;
  _ ← wreg 4 (port + PxSCTL) 0x301;
  _ ← wreg 4 (port + PxSCTL) 0x300;
  _ ← wreg 4 (port + PxSERR) 0xffffffff;
  or_reg (port + PxCMD) HBA_PxCMD_ST.

(** [while ((det != 3 || det != 1) && ipm != 1) { ipm = ...; det = ...; }] *)
Fixpoint wait_link (n : nat) (port ipm det : Z) : HM D () :=
  match n with
  | O => stuck
  | S n' =>
      if (negb (det =? 3) || negb (det =? 1)) && negb (ipm =? 1) then
        s ← rreg 4 (port + PxSSTS);
        let ipm := Z.land (Z.shiftr s 8) 0x0F in
        s ← rreg 4 (port + PxSSTS);
        let det := Z.land s 0x0F in
        wait_link n' port ipm det
      else mret ()
  end.

Definition set_bits_after_di (port : Z) : HM D () :=
  _ ← or_reg (port + PxCMD) HBA_PxCMD_FRE;
  _ ← or_reg (port + PxCMD) HBA_PxCMD_SUD;
  s ← rreg 4 (port + PxSSTS);
  let ipm := Z.land (Z.shiftr s 8) 0x0F in
  s ← rreg 4 (port + PxSSTS);
  let det := Z.land s 0x0F in
  _ ← wait_link fuel port ipm det;
  _ ← say Over2;
  _ ← wait_masks fuel (port + PxTFD) [HBA_PxTDF_BSY; HBA_PxTDF_DRQ; HBA_PxTDF_ERR]
        [HBA_PxTDF_BSY; HBA_PxTDF_DRQ; HBA_PxTDF_ERR];
  _ ← say Over3;
  or_reg (port + PxCMD) 1.

(** The 32 command headers: 8 descriptors each and the address of the table. *)
Fixpoint init_headers (n : nat) (m : mem) (cmdheader portno i : Z) : mem :=
  match n with
  | O => m
  | S n' =>
      let h := cmdheader + sizeof_cmd_header * i in
      let m := set_prdtl m h 8 in
      let m := set_ctba m h (AHCI_BASE + Z.shiftl 40 10 + Z.shiftl portno 13 + Z.shiftl i 8) in
      init_headers n' (memset m (ctba m h) 0 256) cmdheader portno (i + 1)
  end.

(** [sizeof(port->clb)] is 8. *)
Definition port_rebase (port portno : Z) : HM D () :=
  _ ← stop_cmd port;
  _ ← wreg 8 (port + PxCLB) (AHCI_BASE + Z.shiftl portno 10);
  clb ← rreg 8 (port + PxCLB);
  m ← get_ram;
  _ ← put_ram (memset m clb 0 8);
  _ ← wreg 8 (port + PxFB) (AHCI_BASE + Z.shiftl 32 10 + Z.shiftl portno 8);
  fb ← rreg 8 (port + PxFB);
  m ← get_ram;
  _ ← put_ram (memset m fb 0 256);
  cmdheader ← rreg 8 (port + PxCLB);
  m ← get_ram;
  _ ← put_ram (init_headers 32 m cmdheader portno 0);
  start_cmd port.

(** ** Reading and writing sectors *)

(** The first clear bit of [slots] among [n] from index [i] on, or -1. *)
Fixpoint slot_loop (n : nat) (slots i : Z) : Z :=
  match n with
  | O => -1
  | S n' => if Z.land slots 1 =? 0 then i else slot_loop n' (Z.shiftr slots 1) (i + 1)
  end.

Definition find_cmdslot (port : Z) : HM D Z :=
  sact ← rreg 4 (port + PxSACT);
  ci ← rreg 4 (port + PxCI);
  abar ← get_ahci;
  cap ← rreg 4 (abar + HBA_CAP);
  let cmdslots := Z.shiftr (Z.land cap 0xf00) 8 in
  let slot := slot_loop (Z.to_nat cmdslots) (Z.lor sact ci) 0 in
  _ ← (if slot =? -1 then say NoSlot else mret ());
  mret slot.

(** [while ((port->tfd & (BUSY | DRQ)) && spin < 1000000) spin++;] *)
Fixpoint spin_loop (n : nat) (port spin : Z) : HM D Z :=
  match n with
  | O => stuck
  | S n' =>
      tfd ← rreg 4 (port + PxTFD);
      if negb (Z.land tfd 0x88 =? 0) && (spin <? 1000000) then spin_loop n' port (spin + 1) else mret spin
  end.

(** Waits for the slot's bit to clear; [false] on a task file error. *)
Fixpoint wait_done (n : nat) (port slot : Z) : HM D bool :=
  match n with
  | O => stuck
  | S n' =>
      ci ← rreg 4 (port + PxCI);
      if Z.land ci (Z.shiftl 1 slot) =? 0 then mret true
      else
        st ← rreg 4 (port + PxIS);
        if negb (Z.land st HBA_PxIS_TFES =? 0) then mret false else wait_done n' port slot
  end.

(** The bodies of [read_pci] and [write] differ in the direction bit, the
    command and the error message. *)
Definition transfer (w command : Z) (err : pci_msg) (port startl starth count buf : Z) : HM D Z :=
  _ ← wreg 4 (port + PxIS) 0xffff;
  slot ← find_cmdslot port;
  if slot =? -1 then mret 0
  else
    clb ← rreg 8 (port + PxCLB);
    m ← get_ram;
    _ ← put_ram (build_command m (clb + sizeof_cmd_header * slot) w command startl starth count buf);
    _ ← set_bits_after_di port;
    spin ← spin_loop fuel port 0;
    if spin =? 1000000 then _ ← say Hung; mret 0
    else
      _ ← wreg 4 (port + PxCI) (Z.shiftl 1 slot);
      ok ← wait_done fuel port slot;
      if negb ok then _ ← say err; mret 0
      else
        st ← rreg 4 (port + PxIS);
        if negb (Z.land st HBA_PxIS_TFES =? 0) then _ ← say err; mret 0
        else mret 1.

Definition read_pci : Z → Z → Z → Z → Z → HM D Z := transfer 0 ATA_CMD_READ_DMA_EX ReadError.
Definition write : Z → Z → Z → Z → Z → HM D Z := transfer 1 ATA_CMD_WRITE_DMA_EX WriteError.

(** ** Probing *)

Definition check_type (port : Z) : HM D Z :=
  sig ← rreg 4 (port + PxSIG);
  mret (if sig =? 0xEB140101 then AHCI_DEV_SATAPI
        else if sig =? 0xC33C0101 then AHCI_DEV_SEMB
        else if sig =? 0x96690101 then AHCI_DEV_PM
        else AHCI_DEV_SATA).

Definition init_write : HM D () :=
  abar ← get_ahci;
  let port := port_addr abar 0 in
  _ ← port_rebase port 0;
  m ← get_ram;
  _ ← put_ram (store64 m 0x300000 23);
  _ ← setBits port;
  _ ← write port 0 0 1 0x300000;
  _ ← setBits port;
  _ ← read_pci port 0 0 1 0x600000;
  m ← get_ram;
  say (TestOut (load64 m 0x600000)).

(** [n] ports are left, the next one is [i]. *)
Fixpoint probe_loop (n : nat) (abar pi i : Z) : HM D Z :=
  match n with
  | O => mret (-1)
  | S n' =>
      if negb (Z.land pi 1 =? 0) then
        dt ← check_type (port_addr abar i);
        if dt =? AHCI_DEV_SATA then
          _ ← say (SataAt i); _ ← init_write; mret 1
        else
          _ ← (if dt =? AHCI_DEV_SATAPI then say (SatapiAt i)
               else if dt =? AHCI_DEV_SEMB then say (SembAt i)
               else if dt =? AHCI_DEV_PM then say (PmAt i) else mret ());
          probe_loop n' abar (Z.shiftr pi 1) (i + 1)
      else probe_loop n' abar (Z.shiftr pi 1) (i + 1)
  end.

Definition probe_port (abar : Z) : HM D Z := pi ← rreg 4 (abar + HBA_PI); probe_loop 32 abar pi 0.

(** ** The configuration space *)

Definition config_address (bus slot func offset : Z) : Z :=
  Z.lor (Z.lor (Z.lor (Z.lor (Z.shiftl bus 16) (Z.shiftl slot 11)) (Z.shiftl func 8)) (Z.land offset 0xfc)) 0x80000000.

Definition pciConfigReadWord (bus slot func offset : Z) : HM D Z :=
  _ ← outl 0xCF8 (config_address bus slot func offset);
  _ ← outl 0xCFC MEM_ADDR;
  v ← inl 0xCFC;
  mret (u16 (Z.land (Z.shiftr v (Z.land offset 2 * 8)) 0xffff)).

Definition fetch_ahci_addr (bus_num device_num func : Z) : HM D () :=
  l_addr ← pciConfigReadWord bus_num device_num func 0x24;
  h_addr ← pciConfigReadWord bus_num device_num func 0x26;
  _ ← put_ahci (Z.lor (Z.shiftl h_addr 16) l_addr);
  say (AhciAt (Z.lor (Z.shiftl h_addr 16) l_addr)).

(** The functions of a multi-function device: [n] left, the next one [fun]. *)
Fixpoint func_loop (n : nat) (bus_num device_num fn : Z) : HM D Z :=
  match n with
  | O => mret (-1)
  | S n' =>
      vendorid ← pciConfigReadWord bus_num device_num fn 0;
      if negb (vendorid =? 0xFFFF) then
        class_scId ← pciConfigReadWord bus_num device_num fn 0x0A;
        if class_scId =? 0x0106 then
          _ ← fetch_ahci_addr bus_num device_num fn;
          deviceid ← pciConfigReadWord bus_num device_num fn 0x02;
          _ ← say (MultiFunc vendorid deviceid);
          mret 1
        else func_loop n' bus_num device_num (fn + 1)
      else func_loop n' bus_num device_num (fn + 1)
  end.

Definition check_device (bus_num device_num : Z) : HM D Z :=
  vendorid ← pciConfigReadWord bus_num device_num 0 0;
  if vendorid =? 0xFFFF then mret (-1)
  else
    class_scId ← pciConfigReadWord bus_num device_num 0 0x0A;
    header ← pciConfigReadWord bus_num device_num 0 0x0E;
    if Z.land header 0xff =? 0x80 then func_loop 8 bus_num device_num 0
    else if class_scId =? 0x0106 then
      _ ← fetch_ahci_addr bus_num device_num 0;
      deviceid ← pciConfigReadWord bus_num device_num 0 0x02;
      _ ← say (Vendor vendorid deviceid);
      mret 1
    else mret (-1).

(** One bus: [n] devices left, the next one [j]; answers [found] and the value
    of [j] when the loop ends. *)
Fixpoint device_loop (n : nat) (i j : Z) : HM D (Z * Z) :=
  match n with
  | O => mret (0, j)
  | S n' =>
      r ← check_device i j;
      if 0 <? r then
        abar ← get_ahci;
        _ ← or_reg (abar + HBA_GHC) 0x00000001;
        _ ← or_reg (abar + HBA_GHC) 0x80000000;
        _ ← or_reg (abar + HBA_GHC) 0x00000002;
        p ← probe_port abar;
        mret (if 0 <? p then 1 else 0, j)
      else device_loop n' i (u8 (j + 1))
  end.

(** The loop over the buses; [i] is a [uint8_t].  Answers [found], [i] and the
    last [j]. *)
Fixpoint bus_loop (n : nat) (i j : Z) : HM D (Z * Z * Z) :=
  match n with
  | O => stuck
  | S n' =>
      if i <? 256 then
        '(found, j) ← device_loop 32 i 0;
        let i := u8 (i + 1) in
        if found =? 0 then bus_loop n' i j else mret (found, i, j)
      else mret (0, i, j)
  end.

Definition enumerate_pci : HM D () :=
  '(found, i, j) ← bus_loop fuel 0 0;
  if found =? 1 then say (Detected (u8 (i - 1)) (u8 (j - 1))) else mret ().

Definition find_ahci : HM D () := enumerate_pci.
End Driver.
