(* ===== verification/AhciProps.v ===== *)
(** * AhciProps: what the SATA driver does to the controller

    The slot search, and the command built in memory as the controller decodes
    it. *)
From S2P Require Import Prelude Memory Ahci.

(** ** Running the monad *)

Lemma hm_bind_some {D A B} (x : HM D A) (f : A → HM D B) h a h' :
  x h = Some (a, h') → (x ≫= f) h = f a h'.
Proof. intros E. unfold mbind, hm_bind. by rewrite E. Qed.

Lemma hm_bind_none {D A B} (x : HM D A) (f : A → HM D B) h : x h = None → (x ≫= f) h = None.
Proof. intros E. unfold mbind, hm_bind. by rewrite E. Qed.

(** ** The free slot *)

Lemma slot_loop_spec n : ∀ slots i,
  0 <= i →
  let s := slot_loop n slots i in
  (∃ k, s = i + Z.of_nat k ∧ (k < n)%nat ∧ Z.testbit slots (Z.of_nat k) = false ∧
        ∀ j, (j < k)%nat → Z.testbit slots (Z.of_nat j) = true) ∨
  (s = -1 ∧ ∀ j, (j < n)%nat → Z.testbit slots (Z.of_nat j) = true).
Proof.
  induction n as [|n IH]; intros slots i Hi; cbn [slot_loop]; [right; split; [done|lia]|].
  assert (H0 : Z.land slots 1 = if Z.testbit slots 0 then 1 else 0).
  { change 1 with (2 ^ 1 - 1) at 1. rewrite land_ones_mod by done. change (2 ^ 1) with 2.
    rewrite <- Z.bit0_mod. by destruct (Z.testbit slots 0). }
  rewrite H0. destruct (Z.testbit slots 0) eqn:E; cbn [Z.eqb].
  - destruct (IH (Z.shiftr slots 1) (i + 1) ltac:(lia)) as [(k & E1 & K1 & K2 & K3)|[E1 K]].
    + left. exists (S k). rewrite E1. split_and!; [lia|lia| |].
      * rewrite Z.shiftr_spec in K2 by lia. rewrite <- K2. f_equal. lia.
      * intros [|j] Hj; [done|]. specialize (K3 j ltac:(lia)). rewrite Z.shiftr_spec in K3 by lia.
        rewrite <- K3. f_equal. lia.
    + right. split; [exact E1|]. intros [|j] Hj; [done|]. specialize (K j ltac:(lia)).
      rewrite Z.shiftr_spec in K by lia. rewrite <- K. f_equal. lia.
  - left. exists 0%nat. split_and!; [lia|lia|done|lia].
Qed.

(** [find_cmdslot] answers the lowest command slot whose bits in PxSACT and
    PxCI are both clear, or -1 with a message when there is none.  It looks only
    at as many slots as bits 8 to 11 of CAP say: none at all when they are zero,
    although the number of slots is the five bits 8 to 12 plus one. *)
Theorem find_cmdslot_lowest {D} `{Device D} (h : hw D) port sact ci cap d1 m1 d2 m2 d3 m3 :
  dev_read 4 (dev h) (ram h) (port + PxSACT) = (sact, d1, m1) →
  dev_read 4 d1 m1 (port + PxCI) = (ci, d2, m2) →
  dev_read 4 d2 m2 (ahci_addr h + HBA_CAP) = (cap, d3, m3) →
  0 <= sact < 2 ^ 32 → 0 <= ci < 2 ^ 32 → 0 <= cap < 2 ^ 32 →
  let n := (cap / 2 ^ 8) mod 2 ^ 4 in
  let busy k := Z.testbit sact (Z.of_nat k) || Z.testbit ci (Z.of_nat k) in
  (∃ k, find_cmdslot port h = Some (Z.of_nat k, Hw d3 m3 (ahci_addr h) (log h)) ∧
        Z.of_nat k < n ∧ busy k = false ∧ ∀ j, (j < k)%nat → busy j = true) ∨
  (find_cmdslot port h = Some (-1, Hw d3 m3 (ahci_addr h) (log h ++ [NoSlot])) ∧
   ∀ j, Z.of_nat j < n → busy j = true).
Proof.
  intros E1 E2 E3 Hs Hc Hcap n busy.
  assert (Hn : Z.shiftr (Z.land cap 0xf00) 8 = n).
  { rewrite Z.shiftr_land. change (Z.shiftr 0xf00 8) with (2 ^ 4 - 1). rewrite land_ones_mod by done.
    rewrite Z.shiftr_div_pow2 by done. done. }
  assert (Hrun : find_cmdslot port h =
    (let slot := slot_loop (Z.to_nat n) (Z.lor sact ci) 0 in
     if slot =? -1 then Some (slot, Hw d3 m3 (ahci_addr h) (log h ++ [NoSlot]))
     else Some (slot, Hw d3 m3 (ahci_addr h) (log h)))).
  { unfold find_cmdslot, rreg, get_ahci, say, mbind, hm_bind, mret, hm_ret. rewrite E1. cbn [dev ram ahci_addr].
    rewrite E2. cbn [dev ram ahci_addr]. rewrite E3. cbn [dev ram ahci_addr log].
    rewrite !(Z.mod_small _ (2 ^ (8 * Z.of_nat 4))) by done. rewrite Hn. cbv zeta. destruct (slot_loop _ _ _ =? -1); done. }
  rewrite Hrun. assert (Hb : ∀ j, Z.testbit (Z.lor sact ci) (Z.of_nat j) = busy j) by (intros; by rewrite Z.lor_spec).
  pose proof (Z.mod_pos_bound (cap / 2 ^ 8) (2 ^ 4) ltac:(lia)) as Hn'. fold n in Hn'. clearbody n.
  destruct (slot_loop_spec (Z.to_nat n) (Z.lor sact ci) 0 ltac:(lia)) as [(k & E & K1 & K2 & K3)|[E K]]; rewrite E.
  - left. exists k. cbv zeta. destruct (Z.eqb_spec (0 + Z.of_nat k) (-1)); [lia|]. rewrite Z.add_0_l.
    split_and!; [done|lia|by rewrite <- Hb|]. intros j Hj. rewrite <- Hb. by apply K3.
  - right. cbv zeta. split; [done|]. intros j Hj. rewrite <- Hb. apply K. lia.
Qed.

(** ** Bit fields in memory *)

Lemma set_bits_agree n m a lo w v b k :
  b + k <= a ∨ a + Z.of_nat n <= b → agree_on m (set_bits n m a lo w v) b k.
Proof. apply store_agree. Qed.

Lemma set_bits_load n m a lo w v :
  let x := load n m a in
  let y := x + (v mod 2 ^ w - (x / 2 ^ lo) mod 2 ^ w) * 2 ^ lo in
  0 <= y < 2 ^ (8 * Z.of_nat n) → load n (set_bits n m a lo w v) a = y.
Proof. intros x y Hy. unfold set_bits. rewrite load_store_eq. by apply Z.mod_small. Qed.

(** The fields the driver assigns: the one assigned has the new value, the
    others keep theirs. *)
Lemma set_cfl_rd m h v :
  rd (set_cfl m h v) h mod 32 = v mod 32 ∧ rd (set_cfl m h v) h / 32 = rd m h / 32.
Proof.
  pose proof (rd_range m h). pose proof (set_bits_load 1 m h 0 5 v) as E. fold (set_cfl m h v) in E.
  cbn [load] in E. rewrite !Z.mul_0_r, !Z.add_0_r in E. change (2 ^ 0) with 1 in E. change (2 ^ 5) with 32 in E.
  change (2 ^ (8 * Z.of_nat 1)) with 256 in E. specialize (E ltac:(lia)). lia.
Qed.

Lemma set_w_rd m h v :
  (rd (set_w m h v) h / 64) mod 2 = v mod 2 ∧ rd (set_w m h v) h mod 64 = rd m h mod 64.
Proof.
  pose proof (rd_range m h). pose proof (set_bits_load 1 m h 6 1 v) as E. fold (set_w m h v) in E.
  cbn [load] in E. rewrite !Z.mul_0_r, !Z.add_0_r in E. change (2 ^ 6) with 64 in E. change (2 ^ 1) with 2 in E.
  change (2 ^ (8 * Z.of_nat 1)) with 256 in E. specialize (E ltac:(lia)). lia.
Qed.

Lemma set_bit7_rd m a : (rd (set_bits 1 m a 7 1 1) a / 128) mod 2 = 1.
Proof.
  pose proof (rd_range m a). pose proof (set_bits_load 1 m a 7 1 1) as E.
  cbn [load] in E. rewrite !Z.mul_0_r, !Z.add_0_r in E. change (2 ^ 7) with 128 in E. change (2 ^ 1) with 2 in E.
  change (2 ^ (8 * Z.of_nat 1)) with 256 in E. specialize (E ltac:(lia)). lia.
Qed.

(** ** Region descriptors *)

(** The fields of a descriptor: address, byte count and interrupt bit.  To the
    controller the region has one byte more than the count field says. *)
Definition prd_addr (m : mem) (e : Z) : Z := load 4 m e + 2 ^ 32 * load 4 m (e + 4).
Definition prd_dbc (m : mem) (e : Z) : Z := load 4 m (e + 12) mod 2 ^ 22.
Definition prd_int (m : mem) (e : Z) : Z := load 4 m (e + 12) / 2 ^ 31.

(** The last word of a descriptor that was zero. *)
Lemma set_last_word m e c :
  load 4 m (e + 12) = 0 →
  load 4 (set_i (set_dbc m e c) e 1) (e + 12) = c mod 2 ^ 22 + 2 ^ 31.
Proof.
  intros H0.
  assert (E1 : load 4 (set_dbc m e c) (e + 12) = c mod 2 ^ 22).
  { unfold set_dbc. rewrite set_bits_load; rewrite H0; [|change (8 * Z.of_nat 4) with 32];
      change (2 ^ 0) with 1; rewrite Z.div_1_r, Z.mod_0_l, Z.mul_1_r by lia; lia. }
  unfold set_i. rewrite set_bits_load; rewrite E1; [|change (8 * Z.of_nat 4) with 32];
    rewrite (Z.div_small (c mod 2 ^ 22)) by lia; change (1 mod 2 ^ 1) with 1; rewrite Z.mod_0_l by lia; lia.
Qed.

(** Filling one descriptor that was zero. *)
Lemma set_entry m e buf c :
  load 4 m (e + 12) = 0 →
  let m' := set_i (set_dbc (set_dba m e buf) e c) e 1 in
  load 4 m' e = u32 buf ∧ load 4 m' (e + 4) = load 4 m (e + 4) ∧
  load 4 m' (e + 12) = c mod 2 ^ 22 + 2 ^ 31 ∧
  (∀ b k, b + k <= e ∨ e + 16 <= b → agree_on m m' b k).
Proof.
  intros H0 m'.
  assert (Hag : ∀ b k, b + k <= e ∨ e + 4 <= b → b + k <= e + 12 ∨ e + 16 <= b → agree_on m m' b k).
  { intros b k H1 H2. eapply agree_on_trans; [apply (store_agree 4 m e buf b k); lia|].
    eapply agree_on_trans; [apply (set_bits_agree 4 _ (e + 12) 0 22 c b k); lia|].
    apply (set_bits_agree 4 _ (e + 12) 31 1 1 b k). lia. }
  split_and!.
  - unfold m'. rewrite (load_agree 4 (set_dba m e buf)).
    + unfold set_dba. rewrite load_store_eq. done.
    + eapply agree_on_trans; [apply (set_bits_agree 4 _ (e + 12) 0 22 c e 4); lia|].
      apply (set_bits_agree 4 _ (e + 12) 31 1 1 e 4). lia.
  - apply load_agree, Hag; lia.
  - apply set_last_word. unfold set_dba. rewrite load_store_ne by lia. done.
  - intros b k Hb. apply Hag; lia.
Qed.

(** The last one, with both halves of the address. *)
Lemma set_last_entry m e lo hi c :
  load 4 m (e + 12) = 0 →
  let m' := set_i (set_dbc (set_dbau (set_dba m e lo) e hi) e c) e 1 in
  load 4 m' e = u32 lo ∧ load 4 m' (e + 4) = u32 hi ∧ load 4 m' (e + 12) = c mod 2 ^ 22 + 2 ^ 31 ∧
  (∀ b k, b + k <= e ∨ e + 16 <= b → agree_on m m' b k).
Proof.
  intros H0 m'. set (m1 := set_dbau (set_dba m e lo) e hi) in *.
  assert (Hag : ∀ b k, b + k <= e + 12 ∨ e + 16 <= b → agree_on m1 m' b k).
  { intros b k H1. eapply agree_on_trans; [apply (set_bits_agree 4 _ (e + 12) 0 22 c b k); lia|].
    apply (set_bits_agree 4 _ (e + 12) 31 1 1 b k). lia. }
  split_and!.
  - rewrite (load_agree 4 m1) by (apply Hag; lia). unfold m1, set_dbau, set_dba.
    rewrite load_store_ne by lia. apply load_store_eq.
  - rewrite (load_agree 4 m1) by (apply Hag; lia). unfold m1, set_dbau. apply load_store_eq.
  - apply set_last_word. unfold m1, set_dbau, set_dba. rewrite !load_store_ne by lia. done.
  - intros b k Hb. eapply agree_on_trans; [apply (store_agree 4 m e lo b k); lia|].
    eapply agree_on_trans; [apply (store_agree 4 _ (e + 4) hi b k); lia|]. apply Hag. lia.
Qed.

(** The loop over the descriptors before the last. *)
Lemma fill_prdt_spec n : ∀ m tbl i buf count,
  0 <= buf < 2 ^ 64 → 0 <= count < 2 ^ 32 → 0 <= i →
  (∀ b, prdt_entry tbl i <= b < prdt_entry tbl (i + Z.of_nat n) → rd m b = 0) →
  let '(buf', count', m') := fill_prdt n m tbl i buf count in
  buf' = u64 (buf + 4096 * Z.of_nat n) ∧ count' = u32 (count - 16 * Z.of_nat n) ∧
  (∀ b k, b + k <= prdt_entry tbl i ∨ prdt_entry tbl (i + Z.of_nat n) <= b → agree_on m m' b k) ∧
  (∀ k, (k < n)%nat → let e := prdt_entry tbl (i + Z.of_nat k) in
     load 4 m' e = u32 (buf + 4096 * Z.of_nat k) ∧ load 4 m' (e + 4) = 0 ∧
     load 4 m' (e + 12) = 8192 + 2 ^ 31).
Proof.
  unfold prdt_entry, sizeof_prdt_entry.
  induction n as [|n IH]; intros m tbl i buf count Hbuf Hcount Hi Hz; cbn [fill_prdt].
  { split_and!; [unfold u64; lia|unfold u32; lia| |lia].
    intros b k ?. apply agree_on_refl. }
  unfold prdt_entry, sizeof_prdt_entry. set (e := tbl + 0x80 + 16 * i) in *.
  assert (Hz' : load 4 m (e + 12) = 0) by (apply load_zeros; intros b Hb; apply Hz; lia).
  destruct (set_entry m e buf (8 * 1024) Hz') as (E1 & E2 & E3 & E4).
  set (m1 := set_i _ e 1) in *.
  specialize (IH m1 tbl (i + 1) (u64 (buf + 4 * 1024)) (u32 (count - 16)) (u64_range _) (u32_range _) ltac:(lia)).
  destruct (fill_prdt n m1 tbl (i + 1) _ _) as [[buf' count'] m'].
  destruct IH as (I1 & I2 & I3 & I4).
  { intros b Hb. rewrite (E4 b 1) by lia. apply Hz. lia. }
  split_and!.
  - rewrite I1. unfold u64. rewrite Z.add_mod_idemp_l by lia. f_equal. lia.
  - rewrite I2. unfold u32. rewrite Zminus_mod_idemp_l. f_equal. lia.
  - intros b k Hb. eapply agree_on_trans; [apply (E4 b k); lia|]. apply I3. lia.
  - intros [|k] Hk.
    + change (Z.of_nat 0) with 0. rewrite !Z.mul_0_r, !Z.add_0_r. fold e. split_and!.
      * rewrite <- E1. apply load_agree, I3. lia.
      * rewrite (load_agree 4 m1) by (apply I3; lia). rewrite E2. apply load_zeros. intros b Hb. apply Hz. lia.
      * rewrite (load_agree 4 m1) by (apply I3; lia). rewrite E3. done.
    + destruct (I4 k ltac:(lia)) as (J1 & J2 & J3).
      replace (i + Z.of_nat (S k)) with (i + 1 + Z.of_nat k) by lia. split_and!; [|done..].
      rewrite J1. unfold u64, u32. lia.
Qed.

(** ** The command FIS *)

Definition fis_command (m : mem) (fis : Z) : Z := rd m (fis + 2).
Definition fis_lba (m : mem) (fis : Z) : Z :=
  rd m (fis + 4) + 2 ^ 8 * rd m (fis + 5) + 2 ^ 16 * rd m (fis + 6) + 2 ^ 24 * rd m (fis + 8) +
  2 ^ 32 * rd m (fis + 9) + 2 ^ 40 * rd m (fis + 10).
Definition fis_count (m : mem) (fis : Z) : Z := rd m (fis + 12) + 2 ^ 8 * rd m (fis + 13).

Lemma bytes_of_word x :
  x mod 2 ^ 8 + 2 ^ 8 * ((x / 2 ^ 8) mod 2 ^ 8) + 2 ^ 16 * ((x / 2 ^ 16) mod 2 ^ 8) + 2 ^ 24 * (x / 2 ^ 24) = x.
Proof.
  change (2 ^ 24) with (2 ^ 8 * 2 ^ 8 * 2 ^ 8). change (2 ^ 16) with (2 ^ 8 * 2 ^ 8).
  rewrite <- !Z.div_div by lia. change (2 ^ 8) with 256.
  pose proof (Z.div_mod x 256). pose proof (Z.div_mod (x / 256) 256). pose proof (Z.div_mod (x / 256 / 256) 256). lia.
Qed.

Lemma fill_fis_spec m fis command startl starth count :
  0 <= startl < 2 ^ 32 → 0 <= starth < 2 ^ 16 → 0 <= count < 2 ^ 16 → 0 <= command < 2 ^ 8 →
  let m' := fill_fis m fis command startl starth count in
  rd m' fis = FIS_TYPE_REG_H2D ∧ (rd m' (fis + 1) / 128) mod 2 = 1 ∧ (rd m' (fis + 7) / 64) mod 2 = 1 ∧
  fis_command m' fis = command ∧
  fis_lba m' fis = startl + 2 ^ 32 * starth ∧ fis_count m' fis = count ∧
  (∀ b k, b + k <= fis ∨ fis + 14 <= b → agree_on m m' b k).
Proof.
  intros Hl Hh Hc Hcmd m'.
  set (field k :=
    if k =? 13 then count / 2 ^ 8 else if k =? 12 then count mod 2 ^ 8
    else if k =? 10 then starth / 2 ^ 8 else if k =? 9 then starth mod 2 ^ 8
    else if k =? 8 then startl / 2 ^ 24 else if k =? 7 then 64
    else if k =? 6 then (startl / 2 ^ 16) mod 2 ^ 8 else if k =? 5 then (startl / 2 ^ 8) mod 2 ^ 8
    else if k =? 4 then startl mod 2 ^ 8 else if k =? 2 then command
    else if k =? 0 then FIS_TYPE_REG_H2D else rd m (fis + k)).
  assert (Hrd : ∀ k, k ≠ 1 → rd m' (fis + k) = field k).
  { intros k Hk. unfold m', fill_fis. rewrite !rd_wr.
    rewrite !Z.shiftr_div_pow2 by lia. change 0xff with (2 ^ 8 - 1). rewrite !land_ones_mod by lia.
    rewrite (set_bits_agree 1 _ (fis + 1) 7 1 1 (fis + k) 1) by lia. rewrite rd_wr. unfold u8, field, FIS_TYPE_REG_H2D.
    change (Z.shiftl 1 6 mod 2 ^ 8) with 64. change (39 mod 2 ^ 8) with 39. clear field.
    repeat (let E := fresh in case_decide as E; [first [
      match type of E with fis + ?n = _ => assert (k = n) as -> by lia end | assert (k = 0) as -> by lia];
      cbn [Z.eqb Pos.eqb]; clear -Hl Hh Hc Hcmd; lia|]).
    repeat match goal with |- context [k =? ?n] => destruct (Z.eqb_spec k n); [lia|] end. done. }
  unfold fis_command, fis_lba, fis_count. split_and!.
  - rewrite <- (Z.add_0_r fis). by rewrite (Hrd 0).
  - unfold m', fill_fis. rewrite !rd_wr. rewrite !decide_False by lia. apply set_bit7_rd.
  - by rewrite (Hrd 7).
  - by rewrite (Hrd 2).
  - rewrite (Hrd 4), (Hrd 5), (Hrd 6), (Hrd 8), (Hrd 9), (Hrd 10) by lia.
    unfold field. cbn [Z.eqb Pos.eqb]. pose proof (bytes_of_word startl). pose proof (Z.div_mod starth (2 ^ 8)). lia.
  - rewrite (Hrd 12), (Hrd 13) by lia. unfold field. cbn [Z.eqb Pos.eqb]. clear - Hc. lia.
  - intros b k Hb c Hc'. replace c with (fis + (c - fis)) by lia. rewrite Hrd by lia. unfold field.
    repeat match goal with |- context [?x =? ?n] => destruct (Z.eqb_spec x n); [lia|] end. done.
Qed.

(** ** The whole command *)

(** The descriptors the driver needs beside the last: one per 16 sectors. *)
Definition more_prds (count : Z) : Z := (count - 1) / 16.

(** What the controller finds in memory: the header, the FIS with the block
    address and the sector count [n], and the descriptors. *)
Record encodes (m : mem) (h w command lba n : Z) : Prop := Encodes {
  enc_cfl : rd m h mod 32 = 5;
  enc_w : (rd m h / 64) mod 2 = w;
  enc_fis : rd m (ctba m h) = FIS_TYPE_REG_H2D;
  enc_c : (rd m (ctba m h + 1) / 128) mod 2 = 1;
  enc_device : (rd m (ctba m h + 7) / 64) mod 2 = 1;
  enc_command : fis_command m (ctba m h) = command;
  enc_lba : fis_lba m (ctba m h) = lba;
  enc_count : fis_count m (ctba m h) = n;
}.

Lemma header_stage m h w v tbl :
  ctba m h = tbl → 0 <= w <= 1 → 0 <= v < 2 ^ 16 →
  let m' := set_c (set_prdtl (set_w (set_cfl m h 5) h w) h v) h 1 in
  ctba m' h = tbl ∧ prdtl m' h = v ∧ rd m' h mod 32 = 5 ∧ (rd m' h / 64) mod 2 = w ∧
  (∀ b k, b + k <= h ∨ h + 4 <= b → agree_on m m' b k).
Proof.
  intros Ht Hw Hv m'.
  assert (Hag : ∀ b k, b + k <= h ∨ h + 4 <= b → agree_on m m' b k).
  { intros b k Hb. eapply agree_on_trans; [apply (set_bits_agree 1 m h 0 5 5 b k); lia|].
    eapply agree_on_trans; [apply (set_bits_agree 1 _ h 6 1 w b k); lia|].
    eapply agree_on_trans; [apply (store_agree 2 _ (h + 2) v b k); lia|].
    apply (set_bits_agree 1 _ (h + 1) 2 1 1 b k). lia. }
  assert (H0 : rd m' h = rd (set_w (set_cfl m h 5) h w) h).
  { unfold m', set_c, set_prdtl. rewrite (set_bits_agree 1 _ (h + 1) 2 1 1 h 1) by lia.
    apply (store_agree 2 _ (h + 2) v h 1); lia. }
  destruct (set_cfl_rd m h 5) as [C1 _]. destruct (set_w_rd (set_cfl m h 5) h w) as [W1 W2].
  split_and!.
  - rewrite <- Ht. apply load_agree, Hag. lia.
  - unfold prdtl, m', set_c. rewrite (load_agree 2 (set_prdtl (set_w (set_cfl m h 5) h w) h v)).
    + unfold set_prdtl. rewrite load_store_eq. apply Z.mod_small. done.
    + apply set_bits_agree. lia.
  - rewrite H0. lia.
  - rewrite H0. lia.
  - exact Hag.
Qed.

(** The table and its descriptors. *)
Definition table_size (count : Z) : Z := sizeof_cmd_tbl + more_prds count * sizeof_prdt_entry.

(** The command in memory, all parts. *)
Lemma build_command_spec m h w command startl starth count buf :
  let tbl := ctba m h in
  let n := more_prds count in
  let left := count - 16 * n in
  0 <= w <= 1 → 0 <= command < 2 ^ 8 → 0 <= startl < 2 ^ 32 → 0 <= starth < 2 ^ 16 →
  1 <= count <= 2 ^ 20 - 16 → 0 <= buf < 2 ^ 64 → disj h 32 tbl (table_size count) →
  let m' := build_command m h w command startl starth count buf in
  encodes m' h w command (startl + 2 ^ 32 * starth) left ∧ ctba m' h = tbl ∧ prdtl m' h = n + 1 ∧
  (∀ k, 0 <= k < n → prd_addr m' (prdt_entry tbl k) = u32 (buf + 4096 * k) ∧ prd_dbc m' (prdt_entry tbl k) = 8192) ∧
  prd_addr m' (prdt_entry tbl n) = u64 (buf + 4096 * n) ∧ prd_dbc m' (prdt_entry tbl n) = 512 * left ∧
  (∀ b k, b + k <= h ∨ h + 4 <= b → b + k <= tbl ∨ tbl + table_size count <= b → agree_on m m' b k).
Proof.
  intros tbl n left Hw Hcmd Hl Hh Hc Hbuf Hd m'. unfold disj, table_size, sizeof_cmd_tbl, sizeof_prdt_entry in *.
  assert (Hn : 0 <= n < 2 ^ 16 - 1) by (unfold n, more_prds; lia).
  assert (Hleft : 1 <= left <= 16) by (unfold left, n, more_prds; lia).
  unfold m', build_command. rewrite (u32_small (count - 1)) by lia. rewrite Z.shiftr_div_pow2 by lia.
  change ((count - 1) / 2 ^ 4) with n. replace (u16 n) with n by (unfold u16; lia). clear m'.
  change (more_prds count) with n in Hd |- *. clearbody n.
  destruct (header_stage m h w (n + 1) tbl eq_refl Hw ltac:(lia)) as (A1 & A2 & A3 & A4 & A5).
  set (m1 := set_c _ h 1) in *. rewrite A1, A2. unfold sizeof_cmd_tbl, sizeof_prdt_entry.
  replace (n + 1 - 1) with n by lia.
  set (m2 := memset m1 tbl 0 (256 + n * 16)).
  assert (B1 : ∀ b, rd m2 b = if decide (tbl <= b < tbl + (256 + n * 16)) then 0 else rd m1 b) by (intros; apply memset_rd).
  assert (Bp : prdtl m2 h = n + 1).
  { rewrite <- A2. apply load_agree. intros b Hb. rewrite B1. rewrite decide_False by lia. done. }
  rewrite Bp. replace (n + 1 - 1) with n by lia.
  pose proof (fill_prdt_spec (Z.to_nat n) m2 tbl 0 buf count Hbuf ltac:(lia) ltac:(lia)) as C.
  destruct (fill_prdt (Z.to_nat n) m2 tbl 0 buf count) as [[buf' count'] m3].
  unfold prdt_entry, sizeof_prdt_entry in *. rewrite Z2Nat.id in * by lia.
  destruct C as (C1 & C2 & C3 & C4). { intros b Hb. rewrite B1, decide_True by lia. done. }
  set (e := tbl + 0x80 + 16 * n) in *. rewrite Z.add_0_l in C3. fold e in C3.
  assert (Hcount' : count' = left) by (subst count'; apply u32_small; unfold left in Hleft; lia). rewrite Hcount' in *.
  assert (Hbuf' : 0 <= buf' < 2 ^ 64) by (subst buf'; apply u64_range).
  replace (Z.shiftl left 9) with (512 * left) by (rewrite Z.shiftl_mul_pow2 by lia; lia).
  change 0xFFFFFFFF with (2 ^ 32 - 1). rewrite !land_ones_mod, Z.shiftr_div_pow2 by lia.
  assert (Hz : load 4 m3 (e + 12) = 0).
  { rewrite (load_agree 4 m2) by (apply C3; lia). apply load_zeros. intros b Hb. rewrite B1, decide_True by lia. done. }
  destruct (set_last_entry m3 e (buf' mod 2 ^ 32) ((buf' / 2 ^ 32) mod 2 ^ 32) (512 * left) Hz) as (D1 & D2 & D3 & D4).
  set (m4 := set_i _ e 1) in *.
  destruct (fill_fis_spec m4 tbl command startl starth left Hl Hh ltac:(lia) Hcmd) as (E1 & Ec & Ed & E2 & E3 & E4 & E5).
  set (m5 := fill_fis _ _ _ _ _ _) in *. clearbody m4 m5 left.
  assert (Hag : ∀ b k, b + k <= tbl ∨ tbl + (256 + n * 16) <= b → agree_on m1 m5 b k).
  { intros b k Hb. apply (agree_on_trans m1 m2); [|apply (agree_on_trans m2 m3); [apply C3; lia|]].
    - intros c Hc'. rewrite B1, decide_False by lia. done.
    - apply (agree_on_trans m3 m4); [apply D4; lia|apply E5; lia]. }
  assert (Hct : ctba m5 h = tbl) by (rewrite <- A1; apply load_agree, Hag; lia).
  assert (Hh0 : rd m5 h = rd m1 h) by (apply (Hag h 1); lia).
  split_and!; [|exact Hct| | | | |].
  - split; rewrite ?Hct, ?Hh0; done.
  - rewrite <- A2. apply load_agree, Hag. lia.
  - intros k Hk. destruct (C4 (Z.to_nat k) ltac:(lia)) as (K1 & K2 & K3). rewrite Z2Nat.id, Z.add_0_l in * by lia.
    assert (Hk' : agree_on m3 m5 (tbl + 128 + 16 * k) 16).
    { apply (agree_on_trans m3 m4); [apply D4; lia|apply E5; lia]. }
    unfold prd_addr, prd_dbc. rewrite !(load_agree 4 m3 m5) by (eapply agree_on_sub; [exact Hk'|lia|lia]).
    rewrite K1, K2, K3. split; [lia|done].
  - unfold prd_addr. rewrite !(load_agree 4 m4 m5) by (apply E5; lia). rewrite D1, D2. subst buf'.
    clear - Hbuf'. unfold u32. lia.
  - unfold prd_dbc. rewrite (load_agree 4 m4 m5) by (apply E5; lia). rewrite D3. clear - Hleft. lia.
  - intros b k H1 H2. apply (agree_on_trans m m1); [by apply A5|by apply Hag].
Qed.

(** The command for up to 16 sectors, with one descriptor. *)
Lemma build_command_small m h w command startl starth count buf :
  let tbl := ctba m h in
  0 <= w <= 1 → 0 <= command < 2 ^ 8 → 0 <= startl < 2 ^ 32 → 0 <= starth < 2 ^ 16 →
  1 <= count <= 16 → 0 <= buf < 2 ^ 64 → disj h 32 tbl 256 →
  let m' := build_command m h w command startl starth count buf in
  encodes m' h w command (startl + 2 ^ 32 * starth) count ∧ ctba m' h = tbl ∧ prdtl m' h = 1 ∧
  prd_addr m' (prdt_entry tbl 0) = buf ∧ prd_dbc m' (prdt_entry tbl 0) = 512 * count ∧
  (∀ b k, b + k <= h ∨ h + 4 <= b → b + k <= tbl ∨ tbl + 256 <= b → agree_on m m' b k).
Proof.
  intros tbl Hw Hcmd Hl Hh Hc Hbuf Hd m'.
  assert (Hn : more_prds count = 0) by (unfold more_prds; lia).
  destruct (build_command_spec m h w command startl starth count buf) as (E1 & E2 & E3 & _ & E5 & E6 & E7); try done; try lia.
  { unfold table_size. rewrite Hn. done. }
  unfold table_size in E7. rewrite Hn in *. change (256 + 0 * 16) with 256 in E7.
  rewrite Z.mul_0_r, Z.sub_0_r in *. rewrite Z.add_0_r, u64_small in E5 by lia.
  split_and!; done.
Qed.

(** C27: The command the driver builds for up to 16 sectors, field by field as the
    controller decodes it: the header announces a FIS of five words, the
    direction and one descriptor; the FIS is a host-to-device register FIS with
    the command bit, the command, the LBA bit of the device register, the
    48-bit block address and the number of sectors; the descriptor has the address of the buffer, and its count field
    is the number of bytes, where the controller expects one less.  Memory
    outside the header's first word and the table is not changed. *)
Theorem build_command_encodes m h w command startl starth count buf :
  let tbl := ctba m h in
  0 <= w <= 1 → 0 <= command < 2 ^ 8 → 0 <= startl < 2 ^ 32 → 0 <= starth < 2 ^ 16 →
  1 <= count <= 16 → 0 <= buf < 2 ^ 64 → disj h 32 tbl 256 →
  let m' := build_command m h w command startl starth count buf in
  encodes m' h w command (startl + 2 ^ 32 * starth) count ∧ ctba m' h = tbl ∧ prdtl m' h = 1 ∧
  prd_addr m' (prdt_entry tbl 0) = buf ∧ prd_dbc m' (prdt_entry tbl 0) = 512 * count ∧
  (∀ b k, b + k <= h ∨ h + 4 <= b → b + k <= tbl ∨ tbl + 256 <= b → agree_on m m' b k).
Proof. exact (build_command_small m h w command startl starth count buf). Qed.

Lemma build_command_encodes_witness :
  let m := store64 ∅ 8 4096 in
  let m' := build_command m 0 1 0x35 23 0 1 8192 in
  encodes m' 0 1 0x35 (23 + 2 ^ 32 * 0) 1 ∧ ctba m' 0 = 4096 ∧ prdtl m' 0 = 1 ∧
  prd_addr m' (prdt_entry 4096 0) = 8192 ∧ prd_dbc m' (prdt_entry 4096 0) = 512 * 1 ∧
  (∀ b k, b + k <= 0 ∨ 0 + 4 <= b → b + k <= 4096 ∨ 4096 + 256 <= b → agree_on m m' b k).
Proof.
  intros m m'. assert (E : ctba m 0 = 4096) by (vm_compute; reflexivity).
  pose proof (build_command_encodes m 0 1 0x35 23 0 1 8192) as T. cbv zeta in T. rewrite E in T.
  apply T; unfold disj; lia.
Defined.

(** Above 16 sectors the command is not the request: the FIS asks only for the
    sectors of the last descriptor, and each descriptor before it covers 8 K
    bytes although the next one starts 4 K further, so that the regions overlap. *)
Theorem large_command_truncated m h w command startl starth count buf :
  let tbl := ctba m h in
  0 <= w <= 1 → 0 <= command < 2 ^ 8 → 0 <= startl < 2 ^ 32 → 0 <= starth < 2 ^ 16 →
  16 < count <= 2 ^ 20 - 16 → 0 <= buf → buf + 4096 * count < 2 ^ 32 → disj h 32 tbl (table_size count) →
  let m' := build_command m h w command startl starth count buf in
  fis_count m' tbl <= 16 ∧
  prd_addr m' (prdt_entry tbl 1) = prd_addr m' (prdt_entry tbl 0) + 4096 ∧ prd_dbc m' (prdt_entry tbl 0) = 8192.
Proof.
  intros tbl Hw Hcmd Hl Hh Hc Hbuf Hb2 Hd m'.
  destruct (build_command_spec m h w command startl starth count buf) as (E1 & E2 & E3 & E4 & E5 & E6 & E7); try done; try lia.
  fold m' tbl in E1, E2, E3, E4, E5, E6, E7.
  assert (Hn : 1 <= more_prds count) by (unfold more_prds; lia).
  destruct (E4 0) as [K1 K2]; [lia|].
  split_and!; [|..|exact K2].
  - destruct E1. rewrite E2 in *. rewrite enc_count0. unfold more_prds. lia.
  - rewrite K1, u32_small by lia. destruct (decide (more_prds count = 1)) as [E|].
    + rewrite <- E at 1. rewrite E5, E, u64_small by lia. lia.
    + destruct (E4 1) as [-> _]; [lia|]. rewrite u32_small by lia. lia.
Qed.

Lemma large_command_truncated_witness :
  let m := store64 ∅ 8 4096 in
  let m' := build_command m 0 1 0x35 23 0 32 8192 in
  fis_count m' 4096 <= 16 ∧
  prd_addr m' (prdt_entry 4096 1) = prd_addr m' (prdt_entry 4096 0) + 4096 ∧ prd_dbc m' (prdt_entry 4096 0) = 8192.
Proof.
  intros m m'. assert (E : ctba m 0 = 4096) by (vm_compute; reflexivity).
  pose proof (large_command_truncated m 0 1 0x35 23 0 32 8192) as T. cbv zeta in T. rewrite E in T.
  apply T; unfold disj; change (table_size 32) with 272; lia.
Defined.
