(* ===== verification/AhciDisk.v ===== *)
(** * AhciDisk: transfers against a controller that executes commands

    The interface is a class of SATA ports that take some time for a command,
    post FISes to memory and count the bytes they moved; against it, writing and
    reading sectors move exactly the bytes asked for.  A second class adds ports
    whose engines start and stop at once, as those of an emulated controller:
    there the driver's self-test reads back what it wrote, and the stop sequence
    of a port with its FIS engine on does not end.  The bus scan does not end
    either on an empty bus. *)
From S2P Require Import Prelude Memory Ahci AhciProps.

(** ** A controller that executes commands *)

(** The memory addresses of a transfer, in order: the regions one after the
    other, as many bytes as the sectors of the FIS have. *)
Definition dma_addrs (m : mem) (h : Z) : list Z :=
  let tbl := ctba m h in
  take (Z.to_nat (512 * fis_count m tbl))
    (concat ((λ k, seqZ (prd_addr m (prdt_entry tbl k)) (prd_dbc m (prdt_entry tbl k) + 1)) <$> seqZ 0 (prdtl m h))).

Fixpoint to_disk (disk m : mem) (pos : Z) (addrs : list Z) : mem :=
  match addrs with
  | [] => disk
  | a :: addrs => to_disk (wr disk pos (rd m a)) m (pos + 1) addrs
  end.
Fixpoint from_disk (disk m : mem) (pos : Z) (addrs : list Z) : mem :=
  match addrs with
  | [] => m
  | a :: addrs => from_disk disk (wr m a (rd disk pos)) (pos + 1) addrs
  end.

(** The header [h] holds a DMA command for a disk of [size] sectors: a register FIS
    of five words with the command bit and the LBA bit, a table at a multiple of
    128, regions at even addresses that have room for the sectors. *)
Definition dma_command (size : Z) (m : mem) (h : Z) : bool :=
  let tbl := ctba m h in
  (rd m h mod 32 =? 5) && (tbl mod 128 =? 0) && (rd m tbl =? FIS_TYPE_REG_H2D) && ((rd m (tbl + 1) / 128) mod 2 =? 1) &&
  ((rd m (tbl + 7) / 64) mod 2 =? 1) && (0 <? fis_count m tbl) && (fis_lba m tbl + fis_count m tbl <=? size) &&
  forallb (λ k, prd_addr m (prdt_entry tbl k) mod 2 =? 0) (seqZ 0 (prdtl m h)) &&
  (Z.of_nat (length (dma_addrs m h)) =? 512 * fis_count m tbl).

(** Executing it: the disk after it, and the memory.  [None] for anything that is
    not a read or a write as above. *)
Definition run_command (size : Z) (disk m : mem) (h : Z) : option (mem * mem) :=
  let tbl := ctba m h in
  let pos := 512 * fis_lba m tbl in
  let w := (rd m h / 64) mod 2 in
  if dma_command size m h then
    if (fis_command m tbl =? ATA_CMD_WRITE_DMA_EX) && (w =? 1) then Some (to_disk disk m pos (dma_addrs m h), m)
    else if (fis_command m tbl =? ATA_CMD_READ_DMA_EX) && (w =? 0) then Some (disk, from_disk disk m pos (dma_addrs m h))
    else None
  else None.

(** Memory that the controller writes by itself: the 256 bytes for received FISes
    and, with a command, the count of transferred bytes in its header. *)
Definition fis_only (fb : Z) (m m' : mem) : Prop := ∀ b, b < fb ∨ fb + 256 <= b → rd m' b = rd m b.
Definition settled (fb h : Z) (m m' : mem) : Prop :=
  ∀ b, b < fb ∨ fb + 256 <= b → b < h + 4 ∨ h + 8 <= b → rd m' b = rd m b.

(** What the driver may expect of a working SATA port with a disk of [sectors]
    sectors, from the AHCI specification.  An idle port has no command pending, an
    active link, a device that is neither busy nor in error, and registers that
    keep their values until they are written.  Writes of PxIS, and of PxCMD with
    ST and FRE set, leave it idle.  A command issued while both are set is executed:
    the bit in PxCI stays set for at most [patience] readings of PxCI, meanwhile
    PxIS reports no error and nothing is known about the memory of the transfer;
    when the bit has cleared, the port is idle again and disk and memory are as the
    command says, apart from the byte count of the header.  With every access the
    port may post FISes to memory.

    Two things are not from the specification: it asks for an odd byte count in a
    region descriptor, whereas these ports take an even one as well (as one byte
    more), and they report no errors of the disk. *)
Class GoodPort (D : Type) `{Device D} (abar port : Z) := {
  idle : D → Prop;
  regval : D → nat → Z → Z;
  disk_of : D → mem;
  sectors : Z;
  patience : nat;
  (* [executing n slot d0 disk m0 d m]: the port is in [d] with the memory [m] and
     works on the command that was issued in [slot] in the state [d0] and leaves
     [disk] and [m0]; its bit is set for at most [n] more readings *)
  executing : nat → Z → D → mem → mem → D → mem → Prop;
  st (d : D) := Z.testbit (regval d 4 (port + PxCMD)) 0;
  fre (d : D) := Z.testbit (regval d 4 (port + PxCMD)) 4;
  clb (d : D) := regval d 8 (port + PxCLB);
  fb (d : D) := regval d 8 (port + PxFB);
  cap (d : D) := regval d 4 (abar + HBA_CAP);
  same (d d' : D) := idle d' ∧ clb d' = clb d ∧ fb d' = fb d ∧ cap d' = cap d;
  next (d : D) (m : mem) (d' : D) (m' : mem) := same d d' ∧ disk_of d' = disk_of d ∧ fis_only (fb d) m m';
  finished (slot : Z) (d0 : D) (disk m0 : mem) (d : D) (m : mem) :=
    same d0 d ∧ disk_of d = disk ∧ st d = true ∧ fre d = true ∧ settled (fb d0) (clb d0 + sizeof_cmd_header * slot) m0 m;
  good_read n d m a : idle d → ∃ m', dev_read n d m a = (regval d n a, d, m') ∧ fis_only (fb d) m m';
  good_width d n a : idle d → 0 <= regval d n a < 2 ^ (8 * Z.of_nat n);
  good_slots d : idle d → regval d 4 (port + PxSACT) = 0 ∧ regval d 4 (port + PxCI) = 0;
  good_link d : idle d → Z.land (Z.shiftr (regval d 4 (port + PxSSTS)) 8) 0x0F = 1 ∧
    Z.land (regval d 4 (port + PxTFD)) 0x89 = 0 ∧ Z.land (regval d 4 (port + PxIS)) HBA_PxIS_TFES = 0;
  good_cmd d m v : idle d → st d = true → Z.testbit v 0 = true → Z.testbit v 4 = true →
    ∃ d' m', dev_write 4 d m (port + PxCMD) v = (d', m') ∧ next d m d' m' ∧ st d' = true ∧ fre d' = true;
  good_is d m v : idle d →
    ∃ d' m', dev_write 4 d m (port + PxIS) v = (d', m') ∧ next d m d' m' ∧ st d' = st d ∧ fre d' = fre d;
  good_issue d m slot disk m0 : idle d → st d = true → fre d = true → 0 <= slot <= (cap d / 2 ^ 8) mod 2 ^ 5 →
    run_command sectors (disk_of d) m (clb d + sizeof_cmd_header * slot) = Some (disk, m0) →
    ∃ d' m', dev_write 4 d m (port + PxCI) (Z.shiftl 1 slot) = (d', m') ∧ executing patience slot d disk m0 d' m';
  good_poll n slot d0 disk m0 d m : executing n slot d0 disk m0 d m →
    ∃ v d' m', dev_read 4 d m (port + PxCI) = (v, d', m') ∧ 0 <= v < 2 ^ 32 ∧
      if Z.testbit v slot then ∃ n', n = S n' ∧ executing n' slot d0 disk m0 d' m' else finished slot d0 disk m0 d' m';
  good_status n slot d0 disk m0 d m : executing n slot d0 disk m0 d m →
    ∃ v d' m', dev_read 4 d m (port + PxIS) = (v, d', m') ∧ 0 <= v < 2 ^ 32 ∧ Z.land v HBA_PxIS_TFES = 0 ∧
      executing n slot d0 disk m0 d' m';
}.
Arguments sectors {D H abar port} GP : rename.
Arguments patience {D H abar port} GP : rename.

(** ** Moving bytes *)

Lemma seqZ_of_S a n : seqZ a (Z.of_nat (S n)) = a :: seqZ (a + 1) (Z.of_nat n).
Proof. rewrite seqZ_cons by lia. f_equal. f_equal; lia. Qed.

Lemma to_disk_rd m n : ∀ disk pos a b,
  rd (to_disk disk m pos (seqZ a (Z.of_nat n))) b =
  if decide (pos <= b < pos + Z.of_nat n) then rd m (a + (b - pos)) else rd disk b.
Proof.
  induction n as [|n IH]; intros disk pos a b; [simpl; case_decide; [lia|done]|].
  rewrite seqZ_of_S. cbn [to_disk]. rewrite IH, rd_wr. repeat case_decide; try lia; try done; subst.
  - f_equal. lia.
  - rewrite Z.sub_diag, Z.add_0_r. apply u8_small, rd_range.
Qed.

Lemma from_disk_rd disk n : ∀ m pos a b,
  rd (from_disk disk m pos (seqZ a (Z.of_nat n))) b =
  if decide (a <= b < a + Z.of_nat n) then rd disk (pos + (b - a)) else rd m b.
Proof.
  induction n as [|n IH]; intros m pos a b; [simpl; case_decide; [lia|done]|].
  rewrite seqZ_of_S. cbn [from_disk]. rewrite IH, rd_wr. repeat case_decide; try lia; try done; subst.
  - f_equal. lia.
  - rewrite Z.sub_diag, Z.add_0_r. apply u8_small, rd_range.
Qed.

Lemma dma_addrs_one m h w command lba count buf :
  encodes m h w command lba count → prdtl m h = 1 → 1 <= count <= 16 →
  prd_addr m (prdt_entry (ctba m h) 0) = buf → prd_dbc m (prdt_entry (ctba m h) 0) = 512 * count →
  dma_addrs m h = seqZ buf (Z.of_nat (Z.to_nat (512 * count))).
Proof.
  intros He Hp Hc Ha Hl. unfold dma_addrs. rewrite Hp, (enc_count _ _ _ _ _ _ He). change (seqZ 0 1) with [0].
  cbn [fmap list_fmap concat]. rewrite Ha, Hl, app_nil_r.
  replace (512 * count + 1) with (Z.of_nat (Z.to_nat (512 * count)) + 1) by lia.
  rewrite seqZ_app by lia. rewrite take_app_le by (rewrite length_seqZ; lia).
  apply take_ge. rewrite length_seqZ. lia.
Qed.

(** Where the driver's structures, the received FISes and the buffer lie. *)
Definition placed (m : mem) (h f buf n : Z) : Prop :=
  disj h 32 (ctba m h) 256 ∧ disj buf n h 32 ∧ disj buf n (ctba m h) 256 ∧
  disj f 256 h 32 ∧ disj f 256 (ctba m h) 256 ∧ disj f 256 buf n ∧ ctba m h mod 128 = 0 ∧ buf mod 2 = 0.

(** The command depends on the header and the table only. *)
Lemma encodes_agree m m' h w command lba n :
  agree_on m m' h 32 → agree_on m m' (ctba m h) 256 → encodes m h w command lba n →
  encodes m' h w command lba n ∧ ctba m' h = ctba m h ∧ prdtl m' h = prdtl m h ∧
  prd_addr m' (prdt_entry (ctba m h) 0) = prd_addr m (prdt_entry (ctba m h) 0) ∧
  prd_dbc m' (prdt_entry (ctba m h) 0) = prd_dbc m (prdt_entry (ctba m h) 0).
Proof.
  intros Ah At [E1 E2 E3 E4 E5 E6 E7 E8].
  assert (Ec : ctba m' h = ctba m h) by (apply load_agree; eapply agree_on_sub; [exact Ah|lia..]).
  assert (Hh : rd m' h = rd m h) by (apply Ah; lia).
  assert (Hf : ∀ i, 0 <= i < 256 → rd m' (ctba m h + i) = rd m (ctba m h + i)) by (intros; apply At; lia).
  pose proof (Hf 0 ltac:(lia)) as Hf0. rewrite Z.add_0_r in Hf0. unfold fis_command, fis_lba, fis_count in *.
  assert (Hl : ∀ i, 0 <= i < 252 → load 4 m' (ctba m h + i) = load 4 m (ctba m h + i))
    by (intros i Hi; apply load_agree; eapply agree_on_sub; [exact At|lia..]).
  split; [constructor; rewrite ?Ec, ?Hh; unfold fis_command, fis_lba, fis_count; rewrite ?Hf0, ?Hf by lia; done|].
  split; [exact Ec|]. split; [apply load_agree; eapply agree_on_sub; [exact Ah|lia..]|].
  unfold prd_addr, prd_dbc, prdt_entry, sizeof_prdt_entry. rewrite <- !Z.add_assoc. rewrite !Hl by lia. done.
Qed.

(** The command that was built, with what the port posted before and after,
    is executed. *)
Lemma built_command size disk m m1 m2 h f w command startl starth count buf :
  placed m h f buf (512 * count) → 0 <= startl < 2 ^ 32 → 0 <= starth < 2 ^ 16 → 1 <= count <= 16 → 0 <= buf < 2 ^ 64 →
  startl + 2 ^ 32 * starth + count <= size → (w, command) = (1, ATA_CMD_WRITE_DMA_EX) ∨ (w, command) = (0, ATA_CMD_READ_DMA_EX) →
  fis_only f m m1 → fis_only f (build_command m1 h w command startl starth count buf) m2 →
  let pos := 512 * (startl + 2 ^ 32 * starth) in
  let addrs := seqZ buf (Z.of_nat (Z.to_nat (512 * count))) in
  run_command size disk m2 h = Some (if w =? 1 then (to_disk disk m2 pos addrs, m2) else (disk, from_disk disk m2 pos addrs)) ∧
  ctba m2 h = ctba m h ∧
  (∀ b, b < h ∨ h + 4 <= b → b < ctba m h ∨ ctba m h + 256 <= b → b < f ∨ f + 256 <= b → rd m2 b = rd m b).
Proof.
  intros HP Hl Hh Hc Hb Hsz Hw F1 F2 pos addrs. unfold placed, disj in HP. destruct HP as (P1 & P2 & P3 & P4 & P5 & P6 & P7 & P8).
  assert (Et : ctba m1 h = ctba m h) by (apply load_agree; intros b ?; apply F1; lia).
  assert (Hw' : 0 <= w <= 1 ∧ 0 <= command < 2 ^ 8) by (destruct Hw as [E|E]; injection E as -> ->; done).
  destruct (build_command_small m1 h w command startl starth count buf) as (E1 & E2 & E3 & E4 & E5 & E6);
    [apply Hw'|apply Hw'|done..|unfold disj; rewrite Et; lia|].
  set (B := build_command _ _ _ _ _ _ _ _) in *. rewrite Et in *. rewrite <- E2 in E4, E5.
  destruct (encodes_agree B m2 h w command (startl + 2 ^ 32 * starth) count) as (G1 & G2 & G3 & G4 & G5);
    [intros b ?; apply F2; lia|rewrite E2; intros b ?; apply F2; lia|exact E1|].
  rewrite <- G4 in E4. rewrite <- G5 in E5. rewrite <- G3 in E3. rewrite E2 in G2. rewrite E2 in E4, E5. rewrite <- G2 in E4, E5.
  pose proof (dma_addrs_one _ _ _ _ _ _ _ G1 E3 Hc E4 E5) as Ha. fold addrs in Ha.
  split; [|split; [exact G2|]].
  - destruct G1 as [C1 C2 C3 C4 C5 C6 C7 C8]. unfold run_command, dma_command. rewrite Ha, C1, C2, C3, C4, C5, C6, C7, C8, E3.
    change (seqZ 0 1) with [0]. cbn [forallb]. rewrite E4, P8, G2, P7.
    rewrite (proj2 (Z.eqb_eq (Z.of_nat (length addrs)) (512 * count))) by (unfold addrs; rewrite length_seqZ; lia).
    rewrite (proj2 (Z.ltb_lt 0 count)) by lia. rewrite (proj2 (Z.leb_le _ size)) by lia.
    destruct Hw as [E|E]; injection E as -> ->; reflexivity.
  - intros b B1 B2 B3. rewrite F2 by done. rewrite (E6 b 1) by lia. by apply F1.
Qed.

(** A write stores the buffer, a read fills it; [m'] is the memory when the port
    is done. *)
Lemma run_write size disk m m1 m2 h f startl starth count buf :
  placed m h f buf (512 * count) → 0 <= startl < 2 ^ 32 → 0 <= starth < 2 ^ 16 → 1 <= count <= 16 → 0 <= buf < 2 ^ 64 →
  startl + 2 ^ 32 * starth + count <= size →
  fis_only f m m1 → fis_only f (build_command m1 h 1 ATA_CMD_WRITE_DMA_EX startl starth count buf) m2 →
  let pos := 512 * (startl + 2 ^ 32 * starth) in
  ∃ disk' m0, run_command size disk m2 h = Some (disk', m0) ∧
  (∀ b, rd disk' b = if decide (pos <= b < pos + 512 * count) then rd m (buf + (b - pos)) else rd disk b) ∧
  ∀ m', settled f h m0 m' → ctba m' h = ctba m h ∧
    ∀ b, b < h ∨ h + 8 <= b → b < ctba m h ∨ ctba m h + 256 <= b → b < f ∨ f + 256 <= b → rd m' b = rd m b.
Proof.
  intros HP Hl Hh Hc Hb Hsz F1 F2 pos.
  destruct (built_command size disk m m1 m2 h f _ _ startl starth count buf HP Hl Hh Hc Hb Hsz (or_introl eq_refl) F1 F2) as (E & Ec & Fr).
  unfold placed, disj in HP. do 2 eexists. split; [exact E|]. split.
  - intros b. fold pos. rewrite to_disk_rd, Z2Nat.id by lia. case_decide; [|done]. apply Fr; lia.
  - intros m' Hs. split; [rewrite <- Ec; apply load_agree; intros b ?; apply Hs; lia|].
    intros b B1 B2 B3. rewrite Hs by lia. apply Fr; lia.
Qed.

Lemma run_read size disk m m1 m2 h f startl starth count buf :
  placed m h f buf (512 * count) → 0 <= startl < 2 ^ 32 → 0 <= starth < 2 ^ 16 → 1 <= count <= 16 → 0 <= buf < 2 ^ 64 →
  startl + 2 ^ 32 * starth + count <= size →
  fis_only f m m1 → fis_only f (build_command m1 h 0 ATA_CMD_READ_DMA_EX startl starth count buf) m2 →
  let pos := 512 * (startl + 2 ^ 32 * starth) in
  ∃ m0, run_command size disk m2 h = Some (disk, m0) ∧
  ∀ m', settled f h m0 m' → (∀ b, buf <= b < buf + 512 * count → rd m' b = rd disk (pos + (b - buf))) ∧
    ∀ b, b < h ∨ h + 8 <= b → b < ctba m h ∨ ctba m h + 256 <= b → b < f ∨ f + 256 <= b →
      b < buf ∨ buf + 512 * count <= b → rd m' b = rd m b.
Proof.
  intros HP Hl Hh Hc Hb Hsz F1 F2 pos.
  destruct (built_command size disk m m1 m2 h f _ _ startl starth count buf HP Hl Hh Hc Hb Hsz (or_intror eq_refl) F1 F2) as (E & Ec & Fr).
  unfold placed, disj in HP. eexists. split; [exact E|]. intros m' Hs. fold pos in Hs. split.
  - intros b Hb'. rewrite Hs by lia. rewrite from_disk_rd, Z2Nat.id, decide_True by lia. done.
  - intros b B1 B2 B3 B4. rewrite Hs by lia. rewrite from_disk_rd, Z2Nat.id, decide_False by lia. apply Fr; lia.
Qed.

(** ** Accesses of a working port *)

Section Port.
Context {D : Type} `{GP : GoodPort D abar port}.
Implicit Types (d : D) (m : mem) (l : list pci_msg).

Lemma fis_only_refl f m : fis_only f m m.
Proof. done. Qed.
Lemma next_idle d m d' m' : next d m d' m' → idle d'.
Proof. by intros ((? & _) & _). Qed.
Lemma next_trans d m d1 m1 d2 m2 : next d m d1 m1 → next d1 m1 d2 m2 → next d m d2 m2.
Proof.
  intros ((_ & C1 & F1 & P1) & K1 & M1) ((I2 & C2 & F2 & P2) & K2 & M2). unfold next, same. rewrite C2, F2, P2, K2.
  split; [done|]. split; [done|]. intros b Hb. rewrite M2 by (by rewrite F1). by apply M1.
Qed.
Lemma next_fields d m d' m' :
  next d m d' m' → clb d' = clb d ∧ fb d' = fb d ∧ cap d' = cap d ∧ disk_of d' = disk_of d ∧ fis_only (fb d) m m'.
Proof. intros ((_ & ? & ? & ?) & ? & ?). done. Qed.

Lemma rreg_idle n a d m l :
  idle d → ∃ m', rreg n a (Hw d m abar l) = Some (regval d n a, Hw d m' abar l) ∧ next d m d m'.
Proof.
  intros Hd. destruct (good_read n d m a Hd) as (m' & E & Hm). exists m'. unfold rreg. cbn [dev ram]. rewrite E.
  rewrite Z.mod_small by (by apply good_width). done.
Qed.

Lemma say_run x d m l : say x (Hw d m abar l) = Some ((), Hw d m abar (l ++ [x])).
Proof. done. Qed.

(** Setting bits of PxCMD while ST is set. *)
Lemma or_cmd_on bits d m l :
  idle d → st d = true → fre d = true ∨ Z.testbit bits 4 = true →
  ∃ d' m', or_reg (port + PxCMD) bits (Hw d m abar l) = Some ((), Hw d' m' abar l) ∧ next d m d' m' ∧
    st d' = true ∧ fre d' = true.
Proof.
  intros Hd Hst Hf. unfold or_reg. destruct (rreg_idle 4 (port + PxCMD) d m l Hd) as (m1 & E1 & N1).
  rewrite (hm_bind_some _ _ _ _ _ E1). set (v := Z.lor (regval d 4 (port + PxCMD)) bits).
  destruct (good_cmd d m1 (v mod 2 ^ (8 * Z.of_nat 4)) Hd Hst) as (d' & m' & E & N & H1 & H2).
  - rewrite Z.mod_pow2_bits_low by lia. unfold v. rewrite Z.lor_spec. fold (st d). by rewrite Hst.
  - rewrite Z.mod_pow2_bits_low by lia. unfold v. rewrite Z.lor_spec. fold (fre d). destruct Hf as [-> | ->]; [done|apply orb_true_r].
  - exists d', m'. unfold wreg. cbn [dev ram ahci_addr log]. rewrite E. split; [done|]. split; [by eapply next_trans|done].
Qed.

(** Testing one bit. *)
Lemma land_bit v k : 0 <= k → (Z.land v (Z.shiftl 1 k) =? 0) = negb (Z.testbit v k).
Proof.
  intros Hk. rewrite Z.shiftl_1_l. destruct (Z.testbit v k) eqn:E; simpl.
  - apply Z.eqb_neq. intros H0.
    assert (Hb : Z.testbit (Z.land v (2 ^ k)) k = true) by (rewrite Z.land_spec, E, Z.pow2_bits_true by lia; done).
    rewrite H0, Z.bits_0 in Hb. done.
  - apply Z.eqb_eq, Z.bits_inj'. intros n Hn. rewrite Z.land_spec, Z.bits_0.
    destruct (decide (n = k)) as [->|]; [by rewrite E|]. rewrite Z.pow2_bits_false by lia. apply andb_false_r.
Qed.

(** All masks find clear bits. *)
Lemma wait_masks_clear a masks todo d l : ∀ n m,
  idle d → Forall (λ mask, Z.land (regval d 4 a) mask = 0) todo → (length todo < n)%nat →
  ∃ m', wait_masks n a masks todo (Hw d m abar l) = Some ((), Hw d m' abar l) ∧ next d m d m'.
Proof.
  induction todo as [|x todo IH]; intros [|n] m Hd Hf Hn; simpl in Hn; try lia; [by exists m|].
  apply Forall_cons in Hf as [Hx Hf]. cbn [wait_masks]. destruct (rreg_idle 4 a d m l Hd) as (m1 & E1 & N1).
  rewrite (hm_bind_some _ _ _ _ _ E1). rewrite Hx. cbn [Z.eqb]. destruct (IH n m1 Hd Hf ltac:(lia)) as (m' & E & N).
  exists m'. split; [exact E|by eapply next_trans].
Qed.

Lemma tfd_clear d mask : idle d → Z.land 0x89 mask = mask → Z.land (regval d 4 (port + PxTFD)) mask = 0.
Proof. intros Hd Hm. destruct (good_link d Hd) as (_ & H0 & _). rewrite <- Hm, Z.land_assoc, H0. apply Z.land_0_l. Qed.

Lemma set_bits_after_di_runs fuel d m l :
  idle d → st d = true → (3 < fuel)%nat →
  ∃ d' m', set_bits_after_di fuel port (Hw d m abar l) = Some ((), Hw d' m' abar (l ++ [Over2; Over3])) ∧ next d m d' m' ∧
    st d' = true ∧ fre d' = true.
Proof.
  intros Hd Hst Hf. unfold set_bits_after_di.
  destruct (or_cmd_on HBA_PxCMD_FRE d m l Hd Hst ltac:(by right)) as (d1 & m1 & E1 & N1 & T1 & F1). pose proof (next_idle _ _ _ _ N1) as I1.
  rewrite (hm_bind_some _ _ _ _ _ E1).
  destruct (or_cmd_on HBA_PxCMD_SUD d1 m1 l I1 T1 ltac:(by left)) as (d2 & m2 & E2 & N2 & T2 & F2). pose proof (next_idle _ _ _ _ N2) as I2.
  rewrite (hm_bind_some _ _ _ _ _ E2).
  destruct (rreg_idle 4 (port + PxSSTS) d2 m2 l I2) as (m3 & E3 & N3). rewrite (hm_bind_some _ _ _ _ _ E3).
  destruct (rreg_idle 4 (port + PxSSTS) d2 m3 l I2) as (m4 & E4 & N4). rewrite (hm_bind_some _ _ _ _ _ E4).
  cbv zeta. destruct (good_link d2 I2) as (L1 & L2 & L3). rewrite L1.
  rewrite (hm_bind_some _ _ _ () (Hw d2 m4 abar l)).
  2: { destruct fuel as [|fuel]; [lia|]. cbn [wait_link]. by rewrite andb_false_r. }
  rewrite (hm_bind_some _ _ _ _ _ (say_run Over2 d2 m4 l)).
  destruct (wait_masks_clear (port + PxTFD) [HBA_PxTDF_BSY; HBA_PxTDF_DRQ; HBA_PxTDF_ERR] [HBA_PxTDF_BSY; HBA_PxTDF_DRQ; HBA_PxTDF_ERR]
    d2 (l ++ [Over2]) fuel m4 I2) as (m5 & E5 & N5); [repeat constructor; by apply tfd_clear|simpl; lia|].
  rewrite (hm_bind_some _ _ _ _ _ E5). rewrite (hm_bind_some _ _ _ _ _ (say_run Over3 d2 m5 (l ++ [Over2]))).
  replace ((l ++ [Over2]) ++ [Over3]) with (l ++ [Over2; Over3]) by (by rewrite <- app_assoc).
  destruct (or_cmd_on 1 d2 m5 (l ++ [Over2; Over3]) I2 T2 ltac:(by left)) as (d6 & m6 & E6 & N6 & T6 & F6).
  exists d6, m6. split; [exact E6|]. split; [|done]. eapply next_trans; [exact N1|]. eapply next_trans; [exact N2|].
  eapply next_trans; [exact N3|]. eapply next_trans; [exact N4|]. eapply next_trans; [exact N5|exact N6].
Qed.

(** The number of slots the driver looks at is bits 8 to 11 of CAP. *)
Lemma cap_slots v : Z.shiftr (Z.land v 0xf00) 8 = (v / 2 ^ 8) mod 2 ^ 4.
Proof.
  rewrite Z.shiftr_land. change (Z.shiftr 0xf00 8) with (2 ^ 4 - 1). by rewrite land_ones_mod, Z.shiftr_div_pow2.
Qed.

Lemma find_cmdslot_idle d m l :
  idle d → (cap d / 2 ^ 8) mod 2 ^ 4 ≠ 0 → ∃ m', find_cmdslot port (Hw d m abar l) = Some (0, Hw d m' abar l) ∧ next d m d m'.
Proof.
  intros Hd Hcap. destruct (good_slots d Hd) as (H1 & H2). unfold find_cmdslot.
  destruct (rreg_idle 4 (port + PxSACT) d m l Hd) as (m1 & E1 & N1). rewrite (hm_bind_some _ _ _ _ _ E1).
  destruct (rreg_idle 4 (port + PxCI) d m1 l Hd) as (m2 & E2 & N2). rewrite (hm_bind_some _ _ _ _ _ E2).
  rewrite (hm_bind_some get_ahci _ _ abar (Hw d m2 abar l)) by done.
  destruct (rreg_idle 4 (abar + HBA_CAP) d m2 l Hd) as (m3 & E3 & N3). rewrite (hm_bind_some _ _ _ _ _ E3). fold (cap d).
  rewrite H1, H2, cap_slots. set (n := (cap d / 2 ^ 8) mod 2 ^ 4) in *.
  assert (0 < n) by (pose proof (Z.mod_pos_bound (cap d / 2 ^ 8) (2 ^ 4)); lia). clearbody n.
  exists m3. split; [|eapply next_trans; [exact N1|by eapply next_trans]].
  destruct (Z.to_nat n) as [|k] eqn:Ek; [lia|]. done.
Qed.

Lemma spin_idle fuel d m l : idle d → (0 < fuel)%nat → ∃ m', spin_loop fuel port 0 (Hw d m abar l) = Some (0, Hw d m' abar l) ∧ next d m d m'.
Proof.
  intros Hd Hf. destruct fuel as [|fuel]; [lia|]. cbn [spin_loop]. destruct (rreg_idle 4 (port + PxTFD) d m l Hd) as (m1 & E1 & N1).
  exists m1. split; [|exact N1]. rewrite (hm_bind_some _ _ _ _ _ E1). by rewrite (tfd_clear d 0x88 Hd).
Qed.

(** The wait for a command ends within the patience of the port. *)
Lemma wait_done_runs slot d0 disk m0 l : ∀ n fuel d m,
  executing n slot d0 disk m0 d m → 0 <= slot → (n < fuel)%nat →
  ∃ d' m', wait_done fuel port slot (Hw d m abar l) = Some (true, Hw d' m' abar l) ∧ finished slot d0 disk m0 d' m'.
Proof.
  induction n as [|n IH]; intros [|fuel] d m He Hs Hn; try lia; cbn [wait_done];
    destruct (good_poll _ _ _ _ _ _ _ He) as (v & d1 & m1 & E1 & Hv & H1);
    rewrite (hm_bind_some _ _ _ v (Hw d1 m1 abar l)) by (unfold rreg; cbn [dev ram]; rewrite E1, Z.mod_small by done; done);
    rewrite land_bit by done; destruct (Z.testbit v slot); cbn [negb].
  - by destruct H1 as (n' & ? & _).
  - by exists d1, m1.
  - destruct H1 as (n' & [= <-] & He1). destruct (good_status _ _ _ _ _ _ _ He1) as (v2 & d2 & m2 & E2 & Hv2 & Ht & He2).
    rewrite (hm_bind_some _ _ _ v2 (Hw d2 m2 abar l)) by (unfold rreg; cbn [dev ram]; rewrite E2, Z.mod_small by done; done).
    rewrite Ht. cbn [Z.eqb negb]. apply IH; [exact He2|done|lia].
  - by exists d1, m1.
Qed.

(** A transfer of an idle port issues the command it built in slot 0; the port
    executes it and the call answers 1. *)
Lemma transfer_runs fuel w command err startl starth count buf d m l (P : mem → mem → Prop) :
  idle d → st d = true → (cap d / 2 ^ 8) mod 2 ^ 4 ≠ 0 → (3 < fuel)%nat → (patience GP < fuel)%nat →
  (∀ m1 m2, fis_only (fb d) m m1 → fis_only (fb d) (build_command m1 (clb d) w command startl starth count buf) m2 →
     ∃ disk' m0, run_command (sectors GP) (disk_of d) m2 (clb d) = Some (disk', m0) ∧ P disk' m0) →
  ∃ d' m' disk' m0, transfer fuel w command err port startl starth count buf (Hw d m abar l) =
      Some (1, Hw d' m' abar (l ++ [Over2; Over3])) ∧ P disk' m0 ∧ finished 0 d disk' m0 d' m'.
Proof.
  intros Hd Hst Hcap Hf Hp Hrun. unfold transfer.
  destruct (good_is d m (0xffff mod 2 ^ (8 * Z.of_nat 4)) Hd) as (d1 & m1 & E1 & N1 & T1 & _). pose proof (next_idle _ _ _ _ N1) as I1.
  rewrite (hm_bind_some _ _ _ () (Hw d1 m1 abar l)) by (unfold wreg; cbn [dev ram ahci_addr log]; by rewrite E1).
  destruct (next_fields _ _ _ _ N1) as (C1 & B1 & P1 & K1 & M1). rewrite Hst in T1.
  destruct (find_cmdslot_idle d1 m1 l I1 ltac:(by rewrite P1)) as (m2 & E2 & N2). rewrite (hm_bind_some _ _ _ _ _ E2).
  change (0 =? -1) with false. cbv iota.
  destruct (rreg_idle 8 (port + PxCLB) d1 m2 l I1) as (m3 & E3 & N3). rewrite (hm_bind_some _ _ _ _ _ E3). fold (clb d1). rewrite C1.
  rewrite (hm_bind_some get_ram _ _ m3 (Hw d1 m3 abar l)) by done.
  replace (clb d + sizeof_cmd_header * 0) with (clb d) by (unfold sizeof_cmd_header; lia).
  set (B := build_command m3 (clb d) w command startl starth count buf).
  rewrite (hm_bind_some (put_ram B) _ _ () (Hw d1 B abar l)) by done.
  destruct (set_bits_after_di_runs fuel d1 B l I1 T1 Hf) as (d4 & m4 & E4 & N4 & T4 & F4). pose proof (next_idle _ _ _ _ N4) as I4.
  rewrite (hm_bind_some _ _ _ _ _ E4). set (l' := l ++ [Over2; Over3]).
  destruct (spin_idle fuel d4 m4 l' I4 ltac:(lia)) as (m5 & E5 & N5). rewrite (hm_bind_some _ _ _ _ _ E5).
  change (0 =? 1000000) with false. cbv iota.
  destruct (next_fields _ _ _ _ (next_trans _ _ _ _ _ _ N4 N5)) as (C5 & B5 & P5 & K5 & M5).
  destruct (next_fields _ _ _ _ (next_trans _ _ _ _ _ _ (next_trans _ _ _ _ _ _ N1 N2) N3)) as (_ & _ & _ & _ & M3).
  destruct (Hrun m3 m5 M3) as (disk' & m0 & R & HP); [by rewrite <- B1|].
  destruct (good_issue d4 m5 0 disk' m0 I4 T4 F4) as (d6 & m6 & E6 & X6).
  { split; [lia|]. apply Z.mod_pos_bound. lia. }
  { rewrite C5, C1, K5, K1. replace (clb d + sizeof_cmd_header * 0) with (clb d) by (unfold sizeof_cmd_header; lia). exact R. }
  rewrite (hm_bind_some _ _ _ () (Hw d6 m6 abar l')).
  2: { unfold wreg. cbn [dev ram ahci_addr log]. rewrite (Z.mod_small (Z.shiftl 1 0)) by done. by rewrite E6. }
  destruct (wait_done_runs 0 d4 disk' m0 l' _ fuel d6 m6 X6 ltac:(lia) Hp) as (d7 & m7 & E7 & ((I7 & C7 & B7 & P7) & K7 & T7 & F7 & S7)).
  rewrite (hm_bind_some _ _ _ _ _ E7). cbn [negb].
  destruct (rreg_idle 4 (port + PxIS) d7 m7 l' I7) as (m8 & E8 & (_ & _ & M8)). rewrite (hm_bind_some _ _ _ _ _ E8).
  destruct (good_link d7 I7) as (_ & _ & ->). cbn [Z.eqb negb].
  exists d7, m8, disk', m0. split; [done|]. split; [exact HP|]. unfold finished, same. rewrite C7, C5, C1, B7, B5, B1, P7, P5, P1.
  split; [done|]. split; [done|]. split; [done|]. split; [done|]. intros b H1 H2.
  rewrite M8 by (rewrite B7, B5, B1; exact H1). apply S7; rewrite ?B5, ?B1, ?C5, ?C1; done.
Qed.
End Port.

(** ** The theorems *)


(** ** Ports that react at once *)

(** An emulated port: the engines start and stop within the access (PxCMD.CR
    follows ST and FR follows FRE), a reset of the link leaves it up, and the base
    registers take what is written.  The self-test of the driver is stated for
    these. *)
Class QuickPort (D : Type) `{GP : GoodPort D abar port} : Prop := {
  quick_running d : idle d → Z.testbit (regval d 4 (port + PxCMD)) 15 = st d ∧
    Z.testbit (regval d 4 (port + PxCMD)) 14 = fre d;
  quick_cmd d m v : idle d → ∃ d' m', dev_write 4 d m (port + PxCMD) v = (d', m') ∧ next d m d' m' ∧
    st d' = Z.testbit v 0 ∧ fre d' = Z.testbit v 4;
  quick_link d m a v : idle d → a = port + PxSCTL ∨ a = port + PxSERR →
    ∃ d' m', dev_write 4 d m a v = (d', m') ∧ next d m d' m' ∧ st d' = st d ∧ fre d' = fre d;
  quick_clb d m v : idle d → 0 <= v < 2 ^ 64 →
    ∃ d' m', dev_write 8 d m (port + PxCLB) v = (d', m') ∧ idle d' ∧ disk_of d' = disk_of d ∧ clb d' = v ∧ fb d' = fb d ∧
      cap d' = cap d ∧ st d' = st d ∧ fre d' = fre d ∧ fis_only (fb d) m m';
  quick_fb d m v : idle d → 0 <= v < 2 ^ 64 →
    ∃ d' m', dev_write 8 d m (port + PxFB) v = (d', m') ∧ idle d' ∧ disk_of d' = disk_of d ∧ clb d' = clb d ∧ fb d' = v ∧
      cap d' = cap d ∧ st d' = st d ∧ fre d' = fre d ∧ fis_only (fb d) m m';
}.

Section Quick.
Context {D : Type} `{QP : QuickPort D abar port}.
Implicit Types (d : D) (m : mem) (l : list pci_msg).

(** Read-modify-write of PxCMD. *)
Lemma or_cmd bits d m l :
  idle d → ∃ d' m', or_reg (port + PxCMD) bits (Hw d m abar l) = Some ((), Hw d' m' abar l) ∧ next d m d' m' ∧
    st d' = (st d || Z.testbit bits 0)%bool ∧ fre d' = (fre d || Z.testbit bits 4)%bool.
Proof.
  intros Hd. unfold or_reg. destruct (rreg_idle 4 (port + PxCMD) d m l Hd) as (m1 & E1 & N1). rewrite (hm_bind_some _ _ _ _ _ E1).
  set (v := Z.lor (regval d 4 (port + PxCMD)) bits).
  destruct (quick_cmd d m1 (v mod 2 ^ (8 * Z.of_nat 4)) Hd) as (d' & m' & E & N & H1 & H2).
  exists d', m'. unfold wreg. cbn [dev ram ahci_addr log]. rewrite E. split; [done|]. split; [by eapply next_trans|].
  rewrite H1, H2, !Z.mod_pow2_bits_low by lia. unfold v. by rewrite !Z.lor_spec.
Qed.

Lemma and_cmd mask d m l :
  idle d → ∃ d' m', and_reg (port + PxCMD) mask (Hw d m abar l) = Some ((), Hw d' m' abar l) ∧ next d m d' m' ∧
    st d' = (st d && Z.testbit mask 0)%bool ∧ fre d' = (fre d && Z.testbit mask 4)%bool.
Proof.
  intros Hd. unfold and_reg. destruct (rreg_idle 4 (port + PxCMD) d m l Hd) as (m1 & E1 & N1). rewrite (hm_bind_some _ _ _ _ _ E1).
  set (v := Z.land (regval d 4 (port + PxCMD)) mask).
  destruct (quick_cmd d m1 (v mod 2 ^ (8 * Z.of_nat 4)) Hd) as (d' & m' & E & N & H1 & H2).
  exists d', m'. unfold wreg. cbn [dev ram ahci_addr log]. rewrite E. split; [done|]. split; [by eapply next_trans|].
  rewrite H1, H2, !Z.mod_pow2_bits_low by lia. unfold v. by rewrite !Z.land_spec.
Qed.

Lemma wait_clear_bit n k d m l :
  idle d → 0 <= k → Z.testbit (regval d 4 (port + PxCMD)) k = false → (0 < n)%nat →
  ∃ m', wait_clear n (port + PxCMD) (Z.shiftl 1 k) (Hw d m abar l) = Some ((), Hw d m' abar l) ∧ next d m d m'.
Proof.
  intros Hd Hk Hb Hn. destruct n as [|n]; [lia|]. cbn [wait_clear].
  destruct (rreg_idle 4 (port + PxCMD) d m l Hd) as (m1 & E1 & N1). exists m1. split; [|exact N1].
  rewrite (hm_bind_some _ _ _ _ _ E1). rewrite land_bit, Hb by done. done.
Qed.

Lemma wreg_link a v d m l :
  idle d → a = port + PxSCTL ∨ a = port + PxSERR →
  ∃ d' m', wreg 4 a v (Hw d m abar l) = Some ((), Hw d' m' abar l) ∧ next d m d' m' ∧ st d' = st d ∧ fre d' = fre d.
Proof.
  intros Hd Ha. destruct (quick_link d m a (v mod 2 ^ (8 * Z.of_nat 4)) Hd Ha) as (d' & m' & E & Hq).
  exists d', m'. unfold wreg. cbn [dev ram ahci_addr log]. rewrite E. done.
Qed.

(** *** The command engine *)

Lemma start_cmd_runs fuel d m l :
  idle d → st d = false → (0 < fuel)%nat →
  ∃ d' m', start_cmd fuel port (Hw d m abar l) = Some ((), Hw d' m' abar l) ∧ next d m d' m' ∧ st d' = true ∧ fre d' = true.
Proof.
  intros Hd Hst Hf. unfold start_cmd.
  destruct (wait_clear_bit fuel 15 d m l Hd ltac:(lia) ltac:(destruct (quick_running d Hd) as [-> _]; exact Hst) Hf) as (m1 & E1 & N1).
  rewrite (hm_bind_some _ _ _ _ _ E1).
  destruct (or_cmd HBA_PxCMD_FRE d m1 l Hd) as (d2 & m2 & E2 & N2 & T2 & F2). rewrite (hm_bind_some _ _ _ _ _ E2).
  destruct (or_cmd HBA_PxCMD_ST d2 m2 l (next_idle _ _ _ _ N2)) as (d3 & m3 & E3 & N3 & T3 & F3).
  exists d3, m3. split; [exact E3|]. split; [eapply next_trans; [exact N1|by eapply next_trans]|]. split.
  - rewrite T3. apply orb_true_r.
  - rewrite F3, F2. change (Z.testbit HBA_PxCMD_FRE 4) with true. by rewrite orb_true_r.
Qed.

Lemma stop_cmd_runs fuel d m l :
  idle d → fre d = false → (2 < fuel)%nat →
  ∃ d' m', stop_cmd fuel port (Hw d m abar l) = Some ((), Hw d' m' abar l) ∧ next d m d' m' ∧ st d' = false ∧ fre d' = false.
Proof.
  intros Hd Hfre Hf. unfold stop_cmd.
  destruct (and_cmd (not32 HBA_PxCMD_ST) d m l Hd) as (d1 & m1 & E1 & N1 & T1 & F1).
  change (Z.testbit (not32 HBA_PxCMD_ST) 0) with false in T1. rewrite andb_false_r in T1. rewrite Hfre in F1.
  pose proof (next_idle _ _ _ _ N1) as I1. destruct (quick_running d1 I1) as [R1 R2]. rewrite (hm_bind_some _ _ _ _ _ E1).
  destruct (wait_masks_clear (port + PxCMD) [HBA_PxCMD_FR; HBA_PxCMD_CR] [HBA_PxCMD_FR; HBA_PxCMD_CR] d1 l fuel m1 I1) as (m2 & E2 & N2);
    [|simpl; lia|].
  { repeat constructor; apply Z.eqb_eq; unfold HBA_PxCMD_FR, HBA_PxCMD_CR; rewrite land_bit by lia; [by rewrite R2, F1|by rewrite R1, T1]. }
  rewrite (hm_bind_some _ _ _ _ _ E2). destruct (and_cmd (not32 HBA_PxCMD_FRE) d1 m2 l I1) as (d3 & m3 & E3 & N3 & T3 & F3).
  exists d3, m3. split; [exact E3|]. split; [eapply next_trans; [exact N1|by eapply next_trans]|]. by rewrite T3, F3, T1, F1.
Qed.

(** The loop of [stop_cmd] never sees FR clear while FRE is set. *)
Lemma wait_masks_stuck a masks mask d l : ∀ n m,
  idle d → Z.land (regval d 4 a) mask ≠ 0 →
  wait_masks n a (mask :: masks) (mask :: masks) (Hw d m abar l) = None.
Proof.
  induction n as [|n IH]; intros m Hd Hm; [done|]. cbn [wait_masks].
  destruct (rreg_idle 4 a d m l Hd) as (m1 & E1 & _). rewrite (hm_bind_some _ _ _ _ _ E1).
  apply Z.eqb_neq in Hm as E. rewrite E. by apply IH.
Qed.

Lemma setBits_runs fuel d m l :
  idle d → (0 < fuel)%nat →
  ∃ d' m', setBits fuel port (Hw d m abar l) = Some ((), Hw d' m' abar (l ++ [Over; Over1])) ∧ next d m d' m' ∧ st d' = true.
Proof.
  intros Hd Hf. unfold setBits.
  destruct (and_cmd 0xFFFFFFFE d m l Hd) as (d1 & m1 & E1 & N1 & T1 & F1). pose proof (next_idle _ _ _ _ N1) as I1.
  change (Z.testbit 0xFFFFFFFE 0) with false in T1. rewrite andb_false_r in T1. rewrite (hm_bind_some _ _ _ _ _ E1).
  destruct (wait_clear_bit fuel 15 d1 m1 l I1 ltac:(lia) ltac:(destruct (quick_running d1 I1) as [-> _]; exact T1) Hf) as (m2 & E2 & N2).
  rewrite (hm_bind_some _ _ _ _ _ E2). rewrite (hm_bind_some _ _ _ _ _ (say_run Over d1 m2 l)).
  destruct (and_cmd 0xFFFFFFEF d1 m2 (l ++ [Over]) I1) as (d3 & m3 & E3 & N3 & T3 & F3). pose proof (next_idle _ _ _ _ N3) as I3.
  change (Z.testbit 0xFFFFFFEF 4) with false in F3. rewrite andb_false_r in F3. rewrite (hm_bind_some _ _ _ _ _ E3).
  destruct (wait_clear_bit fuel 14 d3 m3 (l ++ [Over]) I3 ltac:(lia) ltac:(destruct (quick_running d3 I3) as [_ ->]; exact F3) Hf)
    as (m4 & E4 & N4).
  rewrite (hm_bind_some _ _ _ _ _ E4). rewrite (hm_bind_some _ _ _ _ _ (say_run Over1 d3 m4 (l ++ [Over]))).
  replace ((l ++ [Over]) ++ [Over1]) with (l ++ [Over; Over1]) by (by rewrite <- app_assoc). set (l' := l ++ [Over; Over1]).
  destruct (or_cmd HBA_PxCMD_ICC d3 m4 l' I3) as (d5 & m5 & E5 & N5 & _). rewrite (hm_bind_some _ _ _ _ _ E5).
  destruct (or_cmd HBA_PxCMD_POD d5 m5 l' (next_idle _ _ _ _ N5)) as (d6 & m6 & E6 & N6 & _). rewrite (hm_bind_some _ _ _ _ _ E6).
  destruct (or_cmd HBA_PxCMD_SUD d6 m6 l' (next_idle _ _ _ _ N6)) as (d7 & m7 & E7 & N7 & _). rewrite (hm_bind_some _ _ _ _ _ E7).
  destruct (or_cmd HBA_PxCMD_CLO d7 m7 l' (next_idle _ _ _ _ N7)) as (d8 & m8 & E8 & N8 & _). rewrite (hm_bind_some _ _ _ _ _ E8).
  destruct (wreg_link (port + PxSCTL) 0x301 d8 m8 l' (next_idle _ _ _ _ N8) ltac:(auto)) as (d9 & m9 & E9 & N9 & _).
  rewrite (hm_bind_some _ _ _ _ _ E9).
  destruct (wreg_link (port + PxSCTL) 0x300 d9 m9 l' (next_idle _ _ _ _ N9) ltac:(auto)) as (d10 & m10 & E10 & N10 & _).
  rewrite (hm_bind_some _ _ _ _ _ E10).
  destruct (wreg_link (port + PxSERR) 0xffffffff d10 m10 l' (next_idle _ _ _ _ N10) ltac:(auto)) as (d11 & m11 & E11 & N11 & _).
  rewrite (hm_bind_some _ _ _ _ _ E11).
  destruct (or_cmd HBA_PxCMD_ST d11 m11 l' (next_idle _ _ _ _ N11)) as (d12 & m12 & E12 & N12 & T12 & _).
  exists d12, m12. split; [exact E12|]. split; [|rewrite T12; apply orb_true_r].
  eauto 15 using next_trans.
Qed.

(** ** port_rebase *)

Definition table_of (portno i : Z) : Z := AHCI_BASE + Z.shiftl 40 10 + Z.shiftl portno 13 + Z.shiftl i 8.

Lemma table_of_eq portno i : table_of portno i = AHCI_BASE + 40960 + 8192 * portno + 256 * i.
Proof. unfold table_of. rewrite !Z.shiftl_mul_pow2 by lia. lia. Qed.

(** The headers from [i] on get their tables; only headers and tables change. *)
Lemma init_headers_spec n : ∀ m c portno i,
  0 <= i → i + Z.of_nat n <= 32 → 0 <= portno < 32 → 0 <= c → c + 1024 <= table_of portno 0 →
  let m' := init_headers n m c portno i in
  (∀ k, (k < n)%nat → let h := c + 32 * (i + Z.of_nat k) in
     prdtl m' h = 8 ∧ ctba m' h = table_of portno (i + Z.of_nat k)) ∧
  (∀ b k, b + k <= c + 32 * i ∨ c + 32 * (i + Z.of_nat n) <= b →
     b + k <= table_of portno i ∨ table_of portno (i + Z.of_nat n) <= b → agree_on m m' b k).
Proof.
  induction n as [|n IH]; intros m c portno i Hi Hn Hp Hc Ht m'; [split; [lia|intros; apply agree_on_refl]|].
  unfold m'. cbn [init_headers]. unfold sizeof_cmd_header. fold (table_of portno i).
  set (h := c + 32 * i). set (m1 := set_ctba (set_prdtl m h 8) h (table_of portno i)).
  rewrite !table_of_eq in *. unfold AHCI_BASE in *.
  assert (H1 : ctba m1 h = table_of portno i).
  { unfold m1, ctba, set_ctba. rewrite load64_store64_eq, u64_small; [done|]. rewrite table_of_eq. unfold AHCI_BASE. lia. }
  assert (H2 : prdtl m1 h = 8).
  { unfold m1, prdtl, set_ctba, set_prdtl, store64. rewrite load_store_ne, load_store_eq by lia. done. }
  assert (H3 : ∀ b k, b + k <= h ∨ h + 32 <= b → agree_on m m1 b k).
  { intros b k Hb. eapply agree_on_trans; [apply (store_agree 2 m (h + 2) 8 b k); lia|].
    apply (store_agree 8 _ (h + 8) (table_of portno i) b k). lia. }
  rewrite H1. rewrite !table_of_eq. unfold AHCI_BASE. set (t := 4194304 + 40960 + 8192 * portno + 256 * i).
  set (m2 := memset m1 t 0 256).
  assert (H4 : ∀ b k, b + k <= t ∨ t + 256 <= b → agree_on m1 m2 b k) by (intros; by apply memset_agree).
  destruct (IH m2 c portno (i + 1)) as [Q1 Q2]; [lia|lia|done|done|rewrite table_of_eq; unfold AHCI_BASE; lia|].
  split.
  - intros [|k] Hk.
    + change (Z.of_nat 0) with 0. rewrite !Z.add_0_r. fold h. cbv zeta. rewrite table_of_eq in *. unfold AHCI_BASE in *. fold t.
      fold t in H1. split.
      * rewrite <- H2. etrans; [apply (load_agree 2 m2); apply Q2; rewrite ?table_of_eq; unfold AHCI_BASE; lia|].
        apply load_agree, H4. lia.
      * rewrite <- H1. etrans; [apply (load_agree 8 m2); apply Q2; rewrite ?table_of_eq; unfold AHCI_BASE; lia|].
        apply load_agree, H4. lia.
    + replace (i + Z.of_nat (S k)) with (i + 1 + Z.of_nat k) by lia. apply Q1. lia.
  - intros b k Hb1 Hb2. rewrite ?table_of_eq in *. unfold AHCI_BASE in *.
    apply (agree_on_trans m m1); [apply H3; lia|]. apply (agree_on_trans m1 m2); [apply H4; lia|].
    apply Q2; rewrite ?table_of_eq; unfold AHCI_BASE; lia.
Qed.

(** Rebasing a port whose FIS engine is off: the command list and the FIS area
    are where the driver puts them, the 32 headers have their tables. *)
Lemma port_rebase_runs fuel portno d m l :
  idle d → fre d = false → 0 <= portno < 32 → (2 < fuel)%nat →
  ∃ d' m', port_rebase fuel port portno (Hw d m abar l) = Some ((), Hw d' m' abar l) ∧
    idle d' ∧ disk_of d' = disk_of d ∧ clb d' = AHCI_BASE + 1024 * portno ∧ fb d' = AHCI_BASE + 32768 + 256 * portno ∧
    cap d' = cap d ∧ st d' = true ∧ fre d' = true ∧ (∀ k, 0 <= k < 32 → ctba m' (clb d' + 32 * k) = table_of portno k).
Proof.
  intros Hd Hfre Hp Hf. unfold port_rebase.
  destruct (stop_cmd_runs fuel d m l Hd Hfre Hf) as (d1 & m1 & E1 & ((I1 & C1 & B1 & P1) & D1 & _) & T1 & F1).
  rewrite (hm_bind_some _ _ _ _ _ E1).
  rewrite !Z.shiftl_mul_pow2 by lia. change (32 * 2 ^ 10) with 32768. change (2 ^ 10) with 1024. change (2 ^ 8) with 256.
  set (c := AHCI_BASE + portno * 1024). set (f := AHCI_BASE + 32768 + portno * 256).
  assert (Hc : 0 <= c < 2 ^ 64) by (unfold c, AHCI_BASE; lia). assert (Hfb : 0 <= f < 2 ^ 64) by (unfold f, AHCI_BASE; lia).
  destruct (quick_clb d1 m1 c I1 Hc) as (d2 & m2 & E2 & I2 & D2 & C2 & B2 & P2 & T2 & F2 & _).
  rewrite (hm_bind_some _ _ _ () (Hw d2 m2 abar l)).
  2: { unfold wreg. cbn [dev ram ahci_addr log]. rewrite Z.mod_small by done. by rewrite E2. }
  destruct (rreg_idle 8 (port + PxCLB) d2 m2 l I2) as (m3 & E3 & _). rewrite (hm_bind_some _ _ _ _ _ E3). fold (clb d2). rewrite C2.
  rewrite (hm_bind_some get_ram _ _ m3 (Hw d2 m3 abar l)) by done.
  rewrite (hm_bind_some (put_ram (memset m3 c 0 8)) _ _ () (Hw d2 (memset m3 c 0 8) abar l)) by done.
  destruct (quick_fb d2 (memset m3 c 0 8) f I2 Hfb) as (d4 & m4 & E4 & I4 & D4 & C4 & B4 & P4 & T4 & F4 & _).
  rewrite (hm_bind_some _ _ _ () (Hw d4 m4 abar l)).
  2: { unfold wreg. cbn [dev ram ahci_addr log]. rewrite Z.mod_small by done. by rewrite E4. }
  destruct (rreg_idle 8 (port + PxFB) d4 m4 l I4) as (m5 & E5 & _). rewrite (hm_bind_some _ _ _ _ _ E5). fold (fb d4). rewrite B4.
  rewrite (hm_bind_some get_ram _ _ m5 (Hw d4 m5 abar l)) by done.
  rewrite (hm_bind_some (put_ram (memset m5 f 0 256)) _ _ () (Hw d4 (memset m5 f 0 256) abar l)) by done.
  destruct (rreg_idle 8 (port + PxCLB) d4 (memset m5 f 0 256) l I4) as (m6 & E6 & _). rewrite (hm_bind_some _ _ _ _ _ E6).
  fold (clb d4). rewrite C4, C2. rewrite (hm_bind_some get_ram _ _ m6 (Hw d4 m6 abar l)) by done.
  set (m7 := init_headers 32 m6 c portno 0). rewrite (hm_bind_some (put_ram m7) _ _ () (Hw d4 m7 abar l)) by done.
  destruct (init_headers_spec 32 m6 c portno 0) as [Q1 _];
    [lia|lia|lia|lia|rewrite table_of_eq; unfold c, AHCI_BASE; lia|]. fold m7 in Q1.
  destruct (start_cmd_runs fuel d4 m7 l I4 ltac:(by rewrite T4, T2, T1) ltac:(lia)) as (d8 & m8 & E8 & ((I8 & C8 & B8 & P8) & D8 & M8) & T8 & F8).
  exists d8, m8. split; [exact E8|]. split; [exact I8|]. split; [by rewrite D8, D4, D2, D1|].
  split; [rewrite C8, C4, C2; unfold c; lia|]. split; [rewrite B8, B4; unfold f; lia|]. split; [by rewrite P8, P4, P2, P1|].
  split; [exact T8|]. split; [exact F8|]. intros k Hk. rewrite C8, C4, C2. destruct (Q1 (Z.to_nat k) ltac:(lia)) as [_ Q].
  rewrite Z2Nat.id, Z.add_0_l in Q by lia. rewrite <- Q. apply load_agree. intros b Hb'. apply M8. rewrite B4.
  unfold f, c, AHCI_BASE in *. lia.
Qed.
End Quick.

Lemma load_moved n : ∀ m m' a b,
  (∀ i, 0 <= i < Z.of_nat n → rd m' (a + i) = rd m (b + i)) → load n m' a = load n m b.
Proof.
  induction n as [|n IH]; intros m m' a b Hm; [done|]. cbn [load].
  rewrite <- (Z.add_0_r a), <- (Z.add_0_r b), (Hm 0) by lia. f_equal. f_equal. apply IH.
  intros i Hi. replace (a + 0 + 1 + i) with (a + (1 + i)) by lia. rewrite Hm by lia. f_equal. lia.
Qed.

(** The driver's self-test succeeds on a port of the second class whose FIS engine
    is off: it rebases the port, writes a sector that starts with 23, reads the
    sector into other memory and prints 23. *)
Theorem init_write_reads_back {D} `{QP : QuickPort D abar (port_addr abar 0)} fuel d m l :
  idle d → fre d = false → (cap d / 2 ^ 8) mod 2 ^ 4 ≠ 0 → 1 <= sectors GP → (3 < fuel)%nat → (patience GP < fuel)%nat →
  ∃ d' m', init_write fuel (Hw d m abar l) =
    Some ((), Hw d' m' abar (l ++ [Over; Over1; Over2; Over3; Over; Over1; Over2; Over3; TestOut 23])).
Proof.
  intros Hd Hfre Hcap Hsz Hf Hp. unfold init_write.
  rewrite (hm_bind_some get_ahci _ _ abar (Hw d m abar l)) by done.
  destruct (port_rebase_runs fuel 0 d m l Hd Hfre ltac:(lia) ltac:(lia)) as (d1 & m1 & E1 & I1 & D1 & C1 & B1 & P1 & T1 & F1 & Q1).
  rewrite (hm_bind_some _ _ _ _ _ E1). rewrite (hm_bind_some get_ram _ _ m1 (Hw d1 m1 abar l)) by done.
  specialize (Q1 0 ltac:(lia)). rewrite Z.mul_0_r, Z.add_0_r in *. rewrite table_of_eq in Q1. rewrite C1 in Q1.
  set (m2 := store64 m1 0x300000 23). rewrite (hm_bind_some (put_ram m2) _ _ () (Hw d1 m2 abar l)) by done.
  destruct (setBits_runs fuel d1 m2 l I1 ltac:(lia)) as (d3 & m3 & E3 & ((I3 & C3 & B3 & P3) & D3 & M3) & T3).
  rewrite (hm_bind_some _ _ _ _ _ E3). rewrite B1 in M3. rewrite C1 in C3. rewrite B1 in B3. rewrite P1 in P3. rewrite Z.mul_0_r, Z.add_0_r in *.
  assert (Ct : ctba m3 AHCI_BASE = AHCI_BASE + 40960).
  { transitivity (ctba m1 AHCI_BASE); [|rewrite Q1; lia]. apply load_agree. intros b Hb. rewrite M3 by (unfold AHCI_BASE in *; lia).
    apply (store_agree 8 m1 0x300000 23 b 1); unfold AHCI_BASE in *; lia. }
  destruct (transfer_runs fuel 1 ATA_CMD_WRITE_DMA_EX WriteError 0 0 1 0x300000 d3 m3 (l ++ [Over; Over1])
    (λ disk' m0, (∀ b, 0 <= b < 512 → rd disk' b = rd m3 (0x300000 + b)) ∧
       ∀ m', settled (fb d3) AHCI_BASE m0 m' → ctba m' AHCI_BASE = AHCI_BASE + 40960)
    I3 T3 ltac:(by rewrite P3) Hf Hp) as (d4 & m4 & disk4 & w4 & E4 & [W1 W2] & ((I4 & C4 & B4 & P4) & D4 & T4 & _ & S4)).
  { rewrite C3. intros x1 x2 M1 M2. destruct (run_write (sectors GP) (disk_of d3) m3 x1 x2 AHCI_BASE (fb d3) 0 0 1 0x300000)
      as (disk' & m0 & R & R1 & R2); try done; try lia.
    { unfold placed, disj. rewrite Ct, B3. unfold AHCI_BASE. lia. }
    exists disk', m0. split; [exact R|]. split.
    - intros b Hb. rewrite R1, decide_True by lia. f_equal. lia.
    - intros m' Hs. rewrite <- Ct. by apply R2. }
  unfold write. rewrite (hm_bind_some _ _ _ _ _ E4). rewrite C3 in S4, C4. change (AHCI_BASE + sizeof_cmd_header * 0) with AHCI_BASE in S4.
  specialize (W2 m4 S4).
  destruct (setBits_runs fuel d4 m4 ((l ++ [Over; Over1]) ++ [Over2; Over3]) I4 ltac:(lia)) as (d5 & m5 & E5 & ((I5 & C5 & B5 & P5) & D5 & M5) & T5).
  rewrite (hm_bind_some _ _ _ _ _ E5). rewrite C4 in C5. rewrite B4, B3 in B5, M5. rewrite P4, P3 in P5.
  assert (Ct' : ctba m5 AHCI_BASE = AHCI_BASE + 40960) by (rewrite <- W2; apply load_agree; intros b Hb; apply M5; unfold AHCI_BASE in *; lia).
  destruct (transfer_runs fuel 0 ATA_CMD_READ_DMA_EX ReadError 0 0 1 0x600000 d5 m5
    (((l ++ [Over; Over1]) ++ [Over2; Over3]) ++ [Over; Over1])
    (λ _ m0, ∀ m', settled (fb d5) AHCI_BASE m0 m' → ∀ b, 0x600000 <= b < 0x600000 + 512 → rd m' b = rd (disk_of d5) (b - 0x600000))
    I5 T5 ltac:(by rewrite P5) Hf Hp) as (d6 & m6 & disk6 & w6 & E6 & V & (_ & _ & _ & _ & S6)).
  { rewrite C5. intros x1 x2 M1 M2. destruct (run_read (sectors GP) (disk_of d5) m5 x1 x2 AHCI_BASE (fb d5) 0 0 1 0x600000)
      as (m0 & R & R1); try done; try lia.
    { unfold placed, disj. rewrite Ct', B5. unfold AHCI_BASE. lia. }
    exists (disk_of d5), m0. split; [exact R|]. intros m' Hs b Hb. destruct (R1 m' Hs) as [R2 _]. rewrite R2 by lia. f_equal; lia. }
  unfold read_pci. rewrite (hm_bind_some _ _ _ _ _ E6). rewrite C5 in S6. change (AHCI_BASE + sizeof_cmd_header * 0) with AHCI_BASE in S6.
  assert (Hv : load64 m6 0x600000 = 23).
  { change 23 with (u64 23). rewrite <- (load64_store64_eq m1 0x300000 23). fold m2. apply load_moved.
    intros i Hi. rewrite (V m6 S6) by lia. rewrite D5, D4, W1 by lia. rewrite M3 by (unfold AHCI_BASE; lia). f_equal; lia. }
  exists d6, m6. rewrite <- Hv, <- !app_assoc. cbn [app]. unfold get_ram, mbind, hm_bind, say. cbn [ram dev ahci_addr log].
  by rewrite <- !app_assoc.
Qed.

(** [stop_cmd] on such a port with its FIS engine on never returns: it waits for
    PxCMD.FR to clear before it clears FRE. *)
Theorem stop_cmd_never_returns {D} `{QP : QuickPort D abar port} d m l :
  idle d → fre d = true → ∀ fuel, stop_cmd fuel port (Hw d m abar l) = None.
Proof.
  intros Hd Hfre fuel. unfold stop_cmd.
  destruct (and_cmd (not32 HBA_PxCMD_ST) d m l Hd) as (d1 & m1 & E1 & N1 & T1 & F1). pose proof (next_idle _ _ _ _ N1) as I1.
  rewrite (hm_bind_some _ _ _ _ _ E1). apply hm_bind_none, wait_masks_stuck; [done|].
  apply Z.eqb_neq. unfold HBA_PxCMD_FR. rewrite land_bit by lia. destruct (quick_running d1 I1) as [_ ->].
  rewrite F1, Hfre. done.
Qed.

(** ** The configuration space *)

(** The address written to the configuration port has the bus, the device, the
    function and the register in their fields and the enable bit set; no field
    spills into another. *)
Theorem config_address_fields bus slot func offset :
  0 <= bus < 2 ^ 8 → 0 <= slot < 2 ^ 5 → 0 <= func < 2 ^ 3 → 0 <= offset < 2 ^ 8 →
  let a := config_address bus slot func offset in
  a / 2 ^ 31 = 1 ∧ (a / 2 ^ 16) mod 2 ^ 15 = bus ∧ (a / 2 ^ 11) mod 2 ^ 5 = slot ∧
  (a / 2 ^ 8) mod 2 ^ 3 = func ∧ a mod 2 ^ 8 = offset - offset mod 4.
Proof.
  intros Hb Hs Hf Ho.
  assert (E : config_address bus slot func offset =
    2 ^ 31 + 2 ^ 16 * bus + 2 ^ 11 * slot + 2 ^ 8 * func + (offset - offset mod 4)).
  { assert (Ho4 : Z.land offset 0xfc = offset - offset mod 4).
    { assert (H : forallb (λ x, Z.land x 0xfc =? x - x mod 4) (seqZ 0 256) = true) by (vm_compute; reflexivity).
      rewrite forallb_forall in H. apply Z.eqb_eq, H, list_elem_of_In, elem_of_seqZ. lia. }
    unfold config_address. rewrite Ho4, !Z.shiftl_mul_pow2 by lia.
    rewrite (lor_disjoint_add (bus * 2 ^ 16) (slot * 2 ^ 11) 16) by lia.
    rewrite (lor_disjoint_add (bus * 2 ^ 16 + slot * 2 ^ 11) (func * 2 ^ 8) 11) by lia.
    rewrite (lor_disjoint_add _ (offset - offset mod 4) 8) by lia.
    rewrite Z.lor_comm. change 0x80000000 with (2 ^ 31). rewrite (lor_disjoint_add (2 ^ 31) _ 31) by (done || lia). lia. }
  intros a. unfold a. rewrite E. lia.
Qed.

Lemma config_address_fields_witness :
  let a := config_address 3 17 5 0x26 in
  a / 2 ^ 31 = 1 ∧ (a / 2 ^ 16) mod 2 ^ 15 = 3 ∧ (a / 2 ^ 11) mod 2 ^ 5 = 17 ∧
  (a / 2 ^ 8) mod 2 ^ 3 = 5 ∧ a mod 2 ^ 8 = 0x26 - 0x26 mod 4.
Proof. apply (config_address_fields 3 17 5 0x26); lia. Defined.

(** ** The bus scan *)

Section Scan.
Context {D : Type} `{Device D}.

(** Nothing answers on the bus: every word read is all ones. *)
Hypothesis empty_bus : ∀ d p, u32 (dev_in d p).1 = 0xFFFFFFFF.

Lemma config_read_empty bus slot func h :
  ∃ h', pciConfigReadWord bus slot func 0 h = Some (0xFFFF, h').
Proof.
  unfold pciConfigReadWord, outl, inl, mbind, hm_bind. cbn [dev ram ahci_addr log].
  match goal with |- context [dev_in ?x ?p] => pose proof (empty_bus x p) as E; destruct (dev_in x p) as [v d'] end.
  cbn [fst] in E. rewrite E. eexists. reflexivity.
Qed.

Lemma device_loop_empty fuel i n : ∀ j h, ∃ j' h', device_loop fuel n i j h = Some ((0, j'), h').
Proof.
  induction n as [|n IH]; intros j h; [by do 2 eexists|]. cbn [device_loop].
  destruct (config_read_empty i j 0 h) as [h1 E1].
  assert (E : check_device i j h = Some (-1, h1)).
  { unfold check_device. rewrite (hm_bind_some _ _ _ _ _ E1). done. }
  rewrite (hm_bind_some _ _ _ _ _ E). change (0 <? -1) with false. cbv iota. apply IH.
Qed.

(** Without a controller on the bus [enumerate_pci] never returns: the bus number
    is a [uint8_t], which stays below 256 for ever. *)
Theorem enumerate_pci_never_ends fuel h : enumerate_pci fuel h = None.
Proof.
  unfold enumerate_pci. apply hm_bind_none.
  assert (Hgo : ∀ n i j h, 0 <= i < 256 → bus_loop fuel n i j h = None).
  { induction n as [|n IH]; intros i j h0 Hi; [done|]. cbn [bus_loop].
    destruct (Z.ltb_spec i 256); [|lia]. destruct (device_loop_empty fuel i 32 0 h0) as (j' & h' & E).
    rewrite (hm_bind_some _ _ _ _ _ E). change (0 =? 0) with true. cbv iota. apply IH. unfold u8. lia. }
  apply Hgo. lia.
Qed.
End Scan.
