(* ===== verification/AhciSim.v ===== *)
(** * AhciSim: a port of the classes

    A controller with one disk: it works on a command for two readings of PxCI,
    moves the data at the third, and writes the byte count and a FIS.  It satisfies
    the laws of [GoodPort] and [QuickPort], and the theorems of [AhciDisk] apply to
    it. *)
From S2P Require Import Prelude Memory Ahci AhciProps AhciDisk.

(** The registers, the disk, the configuration address, and the command in work
    with the readings of PxCI until it is done. *)
Record sim := Sim { s_cmd : Z; s_clb : Z; s_fb : Z; s_disk : mem; s_cfg : Z; s_ci : Z; s_wait : nat }.

Definition s_abar : Z := 0x2000000.
Definition s_port : Z := port_addr s_abar 0.
Definition s_sectors : Z := 2 ^ 28.

(** PxCMD: bits 15 and 14 follow bits 0 and 4. *)
Definition mirror (v : Z) : Z :=
  (Z.lor (Z.land v (not32 (2 ^ 15 + 2 ^ 14)))
    (Z.lor (if Z.testbit v 0 then 2 ^ 15 else 0) (if Z.testbit v 4 then 2 ^ 14 else 0))) mod 2 ^ 32.

Definition sim_val (s : sim) (n : nat) (a : Z) : Z :=
  (if a =? s_port + PxCMD then s_cmd s
   else if a =? s_port + PxCLB then s_clb s
   else if a =? s_port + PxFB then s_fb s
   else if a =? s_port + PxSSTS then 0x113
   else if a =? s_abar + HBA_CAP then 0x100
   else if a =? s_abar + HBA_PI then 1
   else 0) mod 2 ^ (8 * Z.of_nat n).

(** The AHCI function is device 2 of bus 0. *)
Definition sim_config (a : Z) : Z :=
  if a =? config_address 0 2 0 0 then 0x29228086
  else if a =? config_address 0 2 0 8 then 0x01060102
  else if a =? config_address 0 2 0 0x0C then 0
  else if a =? config_address 0 2 0 0x24 then s_abar
  else 0xFFFFFFFF.

Definition with_ci (s : sim) (disk : mem) (ci : Z) (wait : nat) : sim :=
  Sim (s_cmd s) (s_clb s) (s_fb s) disk (s_cfg s) ci wait.

(** The end of a command: the data, a FIS from the device (type 0x34) and the
    count of bytes. *)
Definition sim_finish (s : sim) (m : mem) : sim * mem :=
  let h := s_clb s + sizeof_cmd_header * Z.log2 (s_ci s) in
  match run_command s_sectors (s_disk s) m h with
  | Some (disk, m') => (with_ci s disk 0 0, store 4 (wr m' (s_fb s + 0x40) 0x34) (h + 4) (512 * fis_count m (ctba m h)))
  | None => (with_ci s (s_disk s) 0 0, m)
  end.

#[export] Instance sim_device : Device sim := {|
  dev_read n s m a :=
    if (a =? s_port + PxCI) && negb (s_ci s =? 0) then
      match s_wait s with
      | S k => (s_ci s, with_ci s (s_disk s) (s_ci s) k, m)
      | O => let '(s', m') := sim_finish s m in (0, s', m')
      end
    else (sim_val s n a, s, m);
  dev_write n s m a v :=
    if a =? s_port + PxCMD then (Sim (mirror v) (s_clb s) (s_fb s) (s_disk s) (s_cfg s) (s_ci s) (s_wait s), m)
    else if a =? s_port + PxCLB then (Sim (s_cmd s) v (s_fb s) (s_disk s) (s_cfg s) (s_ci s) (s_wait s), m)
    else if a =? s_port + PxFB then (Sim (s_cmd s) (s_clb s) v (s_disk s) (s_cfg s) (s_ci s) (s_wait s), m)
    else if a =? s_port + PxCI then (with_ci s (s_disk s) v 2, m)
    else (s, m);
  dev_in s p := (sim_config (s_cfg s), s);
  dev_out s p v := if p =? 0xCF8 then Sim (s_cmd s) (s_clb s) (s_fb s) (s_disk s) v (s_ci s) (s_wait s) else s;
|}.

Record sim_idle (s : sim) : Prop := {
  si_cmd : 0 <= s_cmd s < 2 ^ 32;
  si_clb : 0 <= s_clb s < 2 ^ 64;
  si_fb : 0 <= s_fb s < 2 ^ 64;
  si_cr : Z.testbit (s_cmd s) 15 = Z.testbit (s_cmd s) 0;
  si_fr : Z.testbit (s_cmd s) 14 = Z.testbit (s_cmd s) 4;
  si_ci : s_ci s = 0;
}.

(** The command of [slot], issued in [d0], with [n] readings to come. *)
Record sim_executing (n : nat) (slot : Z) (d0 : sim) (disk m0 : mem) (d : sim) (m : mem) : Prop := {
  se_state : d = with_ci d0 (s_disk d0) (Z.shiftl 1 slot) n;
  se_slot : 0 <= slot < 32;
  se_idle : sim_idle d0;
  se_st : Z.testbit (s_cmd d0) 0 = true;
  se_fre : Z.testbit (s_cmd d0) 4 = true;
  se_run : run_command s_sectors (s_disk d0) m (s_clb d0 + sizeof_cmd_header * slot) = Some (disk, m0);
}.

Lemma mirror_bits v :
  Z.testbit (mirror v) 0 = Z.testbit v 0 ∧ Z.testbit (mirror v) 4 = Z.testbit v 4 ∧
  Z.testbit (mirror v) 15 = Z.testbit v 0 ∧ Z.testbit (mirror v) 14 = Z.testbit v 4.
Proof.
  unfold mirror. rewrite !Z.mod_pow2_bits_low, !Z.lor_spec, !Z.land_spec by lia.
  destruct (Z.testbit v 0), (Z.testbit v 4), (Z.testbit v 15), (Z.testbit v 14); split_and!; reflexivity.
Qed.

Lemma mirror_idle s v : sim_idle s → sim_idle (Sim (mirror v) (s_clb s) (s_fb s) (s_disk s) (s_cfg s) (s_ci s) (s_wait s)).
Proof.
  intros [H1 H2 H3 H4 H5 H6]. destruct (mirror_bits v) as (B1 & B2 & B3 & B4).
  constructor; cbn [s_cmd s_clb s_fb s_ci]; try done; [apply Z.mod_pos_bound; lia|congruence..].
Qed.

Lemma sim_cmd s : sim_idle s → sim_val s 4 (s_port + PxCMD) = s_cmd s.
Proof. intros Hs. unfold sim_val. rewrite Z.eqb_refl. apply Z.mod_small. apply Hs. Qed.
Lemma sim_clb s : sim_idle s → sim_val s 8 (s_port + PxCLB) = s_clb s.
Proof.
  intros Hs. unfold sim_val. change (s_port + PxCLB =? s_port + PxCMD) with false. rewrite Z.eqb_refl. apply Z.mod_small. apply Hs.
Qed.
Lemma sim_fb s : sim_idle s → sim_val s 8 (s_port + PxFB) = s_fb s.
Proof.
  intros Hs. unfold sim_val. change (s_port + PxFB =? s_port + PxCMD) with false. change (s_port + PxFB =? s_port + PxCLB) with false.
  rewrite Z.eqb_refl. apply Z.mod_small. apply Hs.
Qed.
Lemma sim_read n s m a : sim_idle s → dev_read n s m a = (sim_val s n a, s, m).
Proof. intros Hs. cbn. rewrite (si_ci s Hs). by rewrite andb_false_r. Qed.

(** The last reading of PxCI. *)
Lemma sim_finish_settled slot d0 disk m0 m :
  sim_executing 0 slot d0 disk m0 (with_ci d0 (s_disk d0) (Z.shiftl 1 slot) 0) m →
  ∃ m', sim_finish (with_ci d0 (s_disk d0) (Z.shiftl 1 slot) 0) m = (with_ci d0 disk 0 0, m') ∧
    settled (s_fb d0) (s_clb d0 + sizeof_cmd_header * slot) m0 m'.
Proof.
  intros [_ Hs _ _ _ R]. unfold sim_finish. cbn [with_ci s_clb s_ci s_disk s_fb].
  rewrite Z.log2_shiftl, Z.log2_1, Z.add_0_l, R by lia. eexists. split; [reflexivity|].
  intros b H1 H2. rewrite rd_store_ne by lia. apply rd_wr_ne. lia.
Qed.

#[export] Instance sim_port : GoodPort sim s_abar s_port.
Proof.
  refine {| idle := sim_idle; regval := sim_val; disk_of := s_disk; sectors := s_sectors; patience := 2; executing := sim_executing |}.
  - intros n d m a Hd. exists m. by rewrite (sim_read n d m a Hd).
  - intros d n a Hd. unfold sim_val. apply Z.mod_pos_bound. lia.
  - done.
  - done.
  - intros d m v Hd Hst H0 H4. eexists _, m. split; [reflexivity|]. pose proof (mirror_idle d v Hd) as Hd'.
    rewrite (sim_cmd _ Hd'), (sim_clb _ Hd'), (sim_clb _ Hd), (sim_fb _ Hd'), (sim_fb _ Hd).
    destruct (mirror_bits v) as (B1 & B2 & _). cbn [s_cmd]. rewrite B1, B2. done.
  - intros d m v Hd. exists d, m. done.
  - intros d m slot disk m0 Hd Hst Hfre Hslot R. rewrite (sim_cmd _ Hd), (sim_clb _ Hd) in *. exists (with_ci d (s_disk d) (Z.shiftl 1 slot) 2), m.
    split; [reflexivity|]. constructor; try done. pose proof (Z.mod_pos_bound (sim_val d 4 (s_abar + HBA_CAP) / 2 ^ 8) (2 ^ 5)). lia.
  - intros n slot d0 disk m0 d m Hx. pose proof Hx as [-> Hs Hd Hst Hfre R]. cbn [dev_read sim_device s_ci with_ci s_wait s_disk].
    assert (Hnz : Z.shiftl 1 slot ≠ 0) by (rewrite Z.shiftl_1_l; lia).
    rewrite Z.eqb_refl, (proj2 (Z.eqb_neq _ _) Hnz). cbn [andb negb]. destruct n as [|n].
    + destruct (sim_finish_settled _ _ _ _ _ Hx) as (m' & -> & Hm'). exists 0, (with_ci d0 disk 0 0), m'. split; [done|]. split; [lia|].
      rewrite Z.bits_0. assert (Hd' : sim_idle (with_ci d0 disk 0 0)) by (by destruct Hd).
      rewrite (sim_cmd _ Hd'), (sim_clb _ Hd'), (sim_fb _ Hd'), (sim_clb _ Hd), (sim_fb _ Hd). done.
    + exists (Z.shiftl 1 slot), (with_ci d0 (s_disk d0) (Z.shiftl 1 slot) n), m. split; [done|]. split.
      { rewrite Z.shiftl_1_l. split; [lia|]. apply Z.pow_lt_mono_r; lia. }
      assert (Hb : Z.testbit (Z.shiftl 1 slot) slot = true) by (rewrite Z.shiftl_1_l; apply Z.pow2_bits_true; lia).
      rewrite Hb. exists n. split; [done|]. by constructor.
  - intros n slot d0 disk m0 d m Hx. exists 0, d, m. split; [reflexivity|]. split; [lia|]. done.
Defined.

#[export] Instance sim_quick : QuickPort sim (GP := sim_port).
Proof.
  constructor.
  - intros d Hd. unfold st, fre. cbn [regval sim_port]. rewrite (sim_cmd d Hd). split; apply Hd.
  - intros d m v Hd. eexists _, m. split; [reflexivity|]. pose proof (mirror_idle d v Hd) as Hd'. unfold next, same, st, fre, clb, fb, cap.
    cbn [regval idle disk_of sim_port].
    rewrite (sim_cmd _ Hd'), (sim_clb _ Hd'), (sim_clb _ Hd), (sim_fb _ Hd'), (sim_fb _ Hd).
    destruct (mirror_bits v) as (B1 & B2 & _). cbn [s_cmd]. rewrite B1, B2. done.
  - intros d m a v Hd Ha. exists d, m. split; [by destruct Ha as [-> | ->]|]. done.
  - intros d m v Hd Hv. eexists _, m. split; [reflexivity|].
    assert (Hd' : sim_idle (Sim (s_cmd d) v (s_fb d) (s_disk d) (s_cfg d) (s_ci d) (s_wait d))) by (by destruct Hd).
    unfold st, fre, clb, fb, cap. cbn [regval idle disk_of sim_port].
    rewrite (sim_cmd _ Hd'), (sim_clb _ Hd'), (sim_cmd _ Hd), (sim_fb _ Hd'), (sim_fb _ Hd). done.
  - intros d m v Hd Hv. eexists _, m. split; [reflexivity|].
    assert (Hd' : sim_idle (Sim (s_cmd d) (s_clb d) v (s_disk d) (s_cfg d) (s_ci d) (s_wait d))) by (by destruct Hd).
    unfold st, fre, clb, fb, cap. cbn [regval idle disk_of sim_port].
    rewrite (sim_cmd _ Hd'), (sim_clb _ Hd'), (sim_cmd _ Hd), (sim_clb _ Hd), (sim_fb _ Hd'), (sim_fb _ Hd). done.
Qed.

(** A machine with nothing on the bus. *)
#[export] Instance no_device : Device () := {|
  dev_read n d m a := (0, d, m);
  dev_write n d m a v := (d, m);
  dev_in d p := (0xFFFFFFFF, d);
  dev_out d p v := d;
|}.

(** ** The theorems at work *)

Definition s0 (cmd : Z) : sim := Sim (mirror cmd) 0x1000 0 ∅ 0 0 0.

Lemma s0_idle cmd : sim_idle (s0 cmd).
Proof. apply (mirror_idle (Sim 0 0x1000 0 ∅ 0 0 0)). by constructor. Qed.

Lemma find_cmdslot_lowest_witness :
  (∃ k, find_cmdslot s_port (Hw (s0 1) ∅ s_abar []) = Some (Z.of_nat k, Hw (s0 1) ∅ s_abar []) ∧
        Z.of_nat k < 1 ∧ false = false ∧ ∀ j, (j < k)%nat → false = true) ∨
  (find_cmdslot s_port (Hw (s0 1) ∅ s_abar []) = Some (-1, Hw (s0 1) ∅ s_abar [NoSlot]) ∧
   ∀ j : nat, Z.of_nat j < 1 → false = true).
Proof.
  pose proof (find_cmdslot_lowest (Hw (s0 1) ∅ s_abar []) s_port 0 0 0x100 (s0 1) ∅ (s0 1) ∅ (s0 1) ∅
    eq_refl eq_refl eq_refl ltac:(lia) ltac:(lia) ltac:(lia)) as T. cbv zeta in T.
  destruct T as [(k & E & K & _ & Hj)|[E Hj]].
  - left. exists k. change ((0x100 / 2 ^ 8) mod 2 ^ 4) with 1 in K. split; [exact E|]. split; [exact K|].
    split; [done|]. intros j Hl. lia.
  - right. split; [exact E|]. intros j Hl. specialize (Hj j Hl). rewrite Z.bits_0 in Hj. exact Hj.
Defined.


Lemma init_write_reads_back_witness :
  ∃ d' m', init_write 4 (Hw (s0 0) ∅ s_abar []) =
    Some ((), Hw d' m' s_abar [Over; Over1; Over2; Over3; Over; Over1; Over2; Over3; TestOut 23]).
Proof.
  apply (init_write_reads_back (QP := sim_quick) 4 (s0 0) ∅ []);
    [apply s0_idle|vm_compute; reflexivity|vm_compute; discriminate|vm_compute; discriminate|lia|cbn; lia].
Defined.

Lemma stop_cmd_never_returns_witness : stop_cmd 100 s_port (Hw (s0 16) ∅ s_abar []) = None.
Proof. apply (stop_cmd_never_returns (QP := sim_quick) (s0 16) ∅ []); [apply s0_idle|vm_compute; reflexivity]. Defined.

Lemma enumerate_pci_never_ends_witness : enumerate_pci 1000 (Hw () ∅ 0 []) = None.
Proof. apply (enumerate_pci_never_ends). intros d p. reflexivity. Defined.

(** The scan finds the function of the simulated machine, but reports the device
    before it: [j] was not incremented when the loop was left. *)
Lemma find_ahci_reports_previous_device :
  ('(_, h) ← find_ahci 4 (Hw (s0 0) ∅ 0 []); Some (last (log h))) = Some (Some (Detected 0 1)).
Proof. vm_compute. reflexivity. Qed.
