(* ===== verification/Syscalls.v ===== *)
(** * Syscalls: the system-call dispatcher and the fault handlers

    The handlers of src/sys/idt.c and src/sys/gidt.c and [load_sbush] of
    src/sys/main.c, over one state that joins the components: the flat memory,
    the file system's counters, the keyboard with the console, the task list,
    the globals [PID] and [is_bg], and the scan codes still to arrive.

    User pointers are followed through the tables of the running task.  A user
    string that crosses a page is outside the model.  Local arrays of the
    handlers and string literals are given by their physical addresses. *)
From Stdlib Require String Ascii.
From S2P Require Import Prelude Memory Utils Strings PageSource Mem Paging Region Console Process ProcessProps Interrupts Tarfs Elf Fork.
Import String.StringSyntax.

(** A C string literal. *)
Definition chars (s : String.string) : list Z :=
  (λ a, Z.of_nat (Ascii.nat_of_ascii a)) <$> String.list_ascii_of_string s.
Arguments chars s%_string_scope.

(** ** The state *)

Record kstate := KState {
  k_mem : mem;
  k_idx : Z;
  k_done : Z;
  k_kb : keyboard;
  k_sched : sched;
  k_PID : Z;
  k_is_bg : Z;
  k_keys : list Z;
}.

Definition with_k_mem (k : kstate) (m : mem) : kstate :=
  KState m (k_idx k) (k_done k) (k_kb k) (k_sched k) (k_PID k) (k_is_bg k) (k_keys k).
Definition with_k_kb (k : kstate) (b : keyboard) (keys : list Z) : kstate :=
  KState (k_mem k) (k_idx k) (k_done k) b (k_sched k) (k_PID k) (k_is_bg k) keys.
Definition with_k_sched (k : kstate) (s : sched) : kstate :=
  KState (k_mem k) (k_idx k) (k_done k) (k_kb k) s (k_PID k) (k_is_bg k) (k_keys k).
Definition with_k_PID (k : kstate) (p : Z) : kstate :=
  KState (k_mem k) (k_idx k) (k_done k) (k_kb k) (k_sched k) p (k_is_bg k) (k_keys k).
Definition with_k_is_bg (k : kstate) (b : Z) : kstate :=
  KState (k_mem k) (k_idx k) (k_done k) (k_kb k) (k_sched k) (k_PID k) b (k_keys k).

(** The view of the file system. *)
Definition tar_of (k : kstate) : tarfs := Tarfs (k_mem k) (k_idx k) (k_done k) (con (k_kb k)).
Definition with_tar (k : kstate) (t : tarfs) : kstate :=
  KState (t_mem t) (tarf_idx t) (bytesdone t) (with_con (k_kb k) (t_con t)) (k_sched k) (k_PID k) (k_is_bg k) (k_keys k).

(** [None]: a fault, a crash or a loop that did not end within the fuel. *)
Definition KM (A : Type) : Type := kstate → option (A * kstate).
#[export] Instance km_ret : MRet KM := λ A a k, Some (a, k).
#[export] Instance km_bind : MBind KM := λ A B f x k,
  match x k with Some (a, k') => f a k' | None => None end.

Definition getk {A} (f : kstate → A) : KM A := λ k, Some (f k, k).
Definition modk (f : kstate → kstate) : KM () := λ k, Some ((), f k).
(** A value that may be missing, and an operation given by a function. *)
Definition asks {A} (f : kstate → option A) : KM A := λ k, a ← f k; Some (a, k).
Definition runk {A} (f : kstate → option (A * kstate)) : KM A := f.

(** Operations of the components.  Loops over the task list get fuel enough for
    its nodes. *)
Definition on_mem (f : mem → option mem) : KM () := λ k, m ← f (k_mem k); Some ((), with_k_mem k m).
Definition on_tar {A} (f : tarfs → option (A * tarfs)) : KM A := λ k,
  '(a, t) ← f (tar_of k); Some (a, with_tar k t).
Definition on_sched {A} (f : nat → SM A) : KM A := λ k,
  match f (fuel_of (k_sched k)) (k_sched k) with Ret (a, s) => Some (a, with_k_sched k s) | _ => None end.

(** ** The static environment *)

(** [sf]: fuel of string loops and regions; [mf], [free_list]: the page
    allocator; [tl], [ent]: the file table and the local entry of its functions;
    the kernel's globals; the literals; the local arrays. *)
Record env := Env {
  sf : nat;
  mf : nat;
  free_list : Z;
  tl : Z;
  ent : Z;
  after_ch : list Z;
  ker_pml4 : Z;
  isr32 : Z;
  path : Z;
  amp : Z;
  oxterm : Z;
  sub : Z;
  cmd : Z;
  argument : Z;
  argvec : Z;
  cmd_args : Z;
  outbuf : Z;
  readbuf : Z;
  dirbuf : Z;
}.

Section Kernel.
Context (E : env) `{A : NodeAlloc}.

Definition kprint (fmt : list Z) (args : list arg) : KM () := λ k,
  c ← kprintf (after_ch E) fmt args (con (k_kb k)); Some ((), with_k_kb k (with_con (k_kb k) c) (k_keys k)).

(** ** User memory *)

Definition cur_root (k : kstate) : Z := cpu_cr3 (k_sched k).

(** The physical address behind [n] bytes of user memory in one page. *)
Definition user_buf (a n : Z) : KM Z := λ k,
  p ← vphys (k_mem k) (cur_root k) a;
  if a mod PAGE_SIZE + n <=? PAGE_SIZE then Some (p, k) else None.

(** The physical address of a user string. *)
Definition user_str (a : Z) : KM Z := λ k,
  p ← vphys (k_mem k) (cur_root k) a;
  s ← get_str (sf E) (k_mem k) p;
  if a mod PAGE_SIZE + Z.of_nat (length s) <? PAGE_SIZE then Some (p, k) else None.

(** [kprintf(fmt, s)] of the string at a physical address. *)
Definition kprint_at (fmt : list Z) (p : Z) : KM () :=
  s ← asks (λ k, get_str (sf E) (k_mem k) p); kprint fmt [AStr s].

Definition strlen_at (p : Z) : KM Z := asks (λ k, str_len (sf E) (k_mem k) p).

(** ** write (1) *)

Definition sys_write (buf third fourth : Z) : KM Z :=
  p ← user_str third;
  n ← strlen_at p;
  written ← (if n <=? fourth then
               _ ← on_mem (λ m, str_cpy (sf E) m (sub E) p);
               strlen_at p
             else
               _ ← on_mem (λ m, Some (str_substr m p 0 (i32 fourth) (sub E)));
               strlen_at (sub E));
  _ ← (if buf =? 1 then kprint_at (chars "%s") (sub E) else kprint_at (chars "STDERR: %s") (sub E));
  mret (u64 written).

(** ** read (2) and gets (30) *)

(** The polling loop; [limit] is the size given to [read]. *)
Definition poll_call (limit : option Z) : KM () := runk (λ k,
  '(b, keys) ← (if match limit with Some l => 0 <? l | None => true end
                then poll (after_ch E) limit (k_kb k) (k_keys k) else Some (k_kb k, k_keys k));
  Some ((), with_k_kb k b keys)).

(** The prompt, the loop and the line; the number of bytes copied is known when
    the loop has ended. *)
Definition read_line (limit : option Z) (user : Z) : KM () :=
  _ ← kprint PS1 [];
  _ ← poll_call limit;
  n ← asks (λ k, str_len (sf E) (char_buf (k_kb k)) 0);
  p ← user_buf user n;
  runk (λ k, '(m, b) ← take_line (sf E) (k_mem k) p (k_kb k); Some ((), with_k_kb (with_k_mem k m) b (k_keys k))).

(** [read] returns the length of the cleared buffer. *)
Definition sys_read_call (third fourth : Z) : KM Z :=
  _ ← read_line (Some fourth) third;
  r ← asks (λ k, str_len (sf E) (char_buf (k_kb k)) 0);
  mret (u64 r).

Definition sys_gets_call (buf : Z) : KM () := read_line None buf.

(** ** Programs *)

Definition elf_text (x : elf_msg) : list Z :=
  match x with
  | MAG0 => chars "ELF Header EI_MAG0 incorrect."
  | MAG1 => chars "ELF Header EI_MAG1 incorrect."
  | MAG2 => chars "ELF Header EI_MAG2 incorrect."
  | MAG3 => chars "ELF Header EI_MAG3 incorrect."
  | INVALID => chars "Invalid ELF File."
  | CLASS => chars "Unsupported ELF File Class."
  | ORDER => chars "Unsupported ELF File byte order."
  | TARGET => chars "Unsupported ELF File target."
  | VERSION => chars "Unsupported ELF File version."
  | TYPE => chars "Unsupported ELF File type."
  | WRONG_SIZE => chars "Wrong size in elf binary"
  end ++ [10].

Fixpoint print_elf (msgs : list elf_msg) : KM () :=
  match msgs with
  | [] => mret ()
  | x :: msgs => _ ← kprint (elf_text x) []; print_elf msgs
  end.

(** [elf_parse(fd->addr+512, (file* )fd->addr, argc, argv)], [fd] a kernel
    pointer; answers the task.  [elf_run_bin] ends with the address space of the
    running task in CR3. *)
Definition parse_file (fd argc argv : Z) : KM Z :=
  me ← on_sched (λ _, get_running_task);
  t ← on_sched (λ _, get_task me);
  r ← runk (λ k,
    let addr := load64 (k_mem k) (phys fd + f_addr) in
    '(pcb, PID, m, msgs) ← elf_parse (sf E) (mf E) (free_list E) (k_mem k) (k_PID k) (pid t)
       (ker_pml4 E) (isr32 E) (addr +64 512) addr argc argv;
    let s := k_sched k in
    Some ((pcb, msgs), with_k_PID (with_k_sched (with_k_mem k m) (with_cpu s (cpu_rsp s) (cr3 t))) PID));
  _ ← print_elf r.2;
  mret r.1.

(** [pcb->pid = pid; pcb->ppid = ppid;] and the record of the task. *)
Definition name_task (pcb pid ppid : Z) : KM () := λ k,
  let m := store64 (store64 (k_mem k) (phys pcb + t_pid) pid) (phys pcb + t_ppid) ppid in
  t ← task_view (sf E) m pcb;
  let s := k_sched k in
  Some ((), with_k_sched (with_k_mem k m) (with_tasks s (<[pcb := t]> (tasks s)))).

(** [load_sbush] of main.c: the shell's task, then its place in the list;
    [argv] is not read when [argc] is 0. *)
Definition sbush_load : KM Z :=
  fd ← on_tar (Tarfs.open (sf E) (tl E) (ent E) (after_ch E) (mf E) (free_list E) (oxterm E));
  parse_file fd 0 (argvec E).

Definition load_sbush : KM () :=
  pcb ← sbush_load;
  _ ← name_task pcb 1 0;
  on_sched (λ n, add_to_task_list n pcb).

(** ** exec (7) and execvp (8) *)

(** The program opened and loaded: the running task and the new one. *)
Definition exec_load (p fd third : Z) : KM (Z * Z) :=
  parent ← on_sched (λ _, get_running_task);
  _ ← modk (λ k, with_k_PID k (i32 (k_PID k - 1)));
  q ← user_str third;
  _ ← on_mem (λ m, str_cpy (sf E) m (argument E) q);
  _ ← on_mem (λ m, Some (store64 m (argvec E) (VADDR (argument E))));
  n ← strlen_at (argument E);
  argc ← (if 0 <? n then
            c ← asks (λ k, str_cmp (sf E) (k_mem k) (argument E) p);
            mret (if c <? 0 then 1 else 0)
          else mret 0);
  pcb ← parse_file fd argc (argvec E);
  mret (parent, pcb).

Definition exec_find (buf : Z) : KM (Z * Z) :=
  p ← user_str buf;
  _ ← on_mem (λ m, str_concat (sf E) m (path E) p (cmd E));
  fd ← on_tar (Tarfs.open (sf E) (tl E) (ent E) (after_ch E) (mf E) (free_list E) (cmd E));
  mret (p, fd).

(** The new task takes the ids of the running one and its place in the list is
    the end. *)
Definition exec_switch (parent pcb : Z) : KM () :=
  t ← on_sched (λ _, get_task parent);
  _ ← name_task pcb (pid t) (ppid t);
  _ ← on_sched (λ n, delete_curr_from_task_list n);
  _ ← on_sched (λ n, add_to_task_list n pcb);
  on_sched (λ n, schedule n 1).

Definition sys_exec (buf third : Z) : KM () :=
  r ← exec_find buf;
  if r.2 =? 0 then
    _ ← kprint_at (chars "oxTerm error: Command %s not found" ++ [10]) r.1;
    on_sched (λ n, sys_exit n 1)
  else
    t ← exec_load r.1 r.2 third;
    exec_switch t.1 t.2.

(** ** fork (4), cat (14), ps (18), sleep (22), kill (24) *)

Definition sys_fork_call : KM Z :=
  parent ← on_sched (λ _, get_running_task);
  runk (λ k,
    '(r, PID, m, s) ← sys_fork (sf E) (mf E) (free_list E) (k_mem k) (k_sched k) (k_PID k) (ker_pml4 E) (isr32 E) parent;
    Some (r, with_k_PID (with_k_sched (with_k_mem k m) s) PID)).

(** The first piece of the argument: [str_split_delim(buf, ' ', cmd_args)]. *)
Definition split_args (p : Z) : KM () :=
  runk (λ k, '(_, m) ← str_split_delim (sf E) (k_mem k) p 32 (cmd_args E); Some ((), with_k_mem k m)).

(** [while (bread >= bytes) { bread = read_file(fd, readbuf, bytes); kprintf("%s", readbuf); }] *)
Fixpoint cat_loop (n : nat) (fd bytes bread : Z) : KM () :=
  if bytes <=? bread then
    match n with
    | O => runk (λ _, None)
    | S n' =>
        r ← on_tar (Tarfs.read_file (sf E) fd (readbuf E) bytes);
        _ ← kprint_at (chars "%s") (readbuf E);
        cat_loop n' fd bytes (i32 r)
    end
  else mret ().

Definition sys_cat (buf : Z) : KM () :=
  p ← user_str buf;
  _ ← split_args p;
  fd ← on_tar (Tarfs.open (sf E) (tl E) (ent E) (after_ch E) (mf E) (free_list E) (cmd_args E));
  if fd =? 0 then mret ()
  else
    _ ← cat_loop (sf E) fd 60 2048;
    on_tar (λ t, Some ((), (Tarfs.close fd t).2)).

(** The lines of [print_task_list]. *)
Definition status_text (x : task_status) : list Z :=
  match x with Waiting => chars "Waiting" | Sleeping => chars "Sleeping" | Running => chars "Running" end.

Fixpoint print_tasks (ts : list (Z * list Z * task_status)) : KM () :=
  match ts with
  | [] => mret ()
  | (p, name, st) :: ts =>
      _ ← kprint (chars "%d %s") [ANum p; AStr name];
      _ ← kprint (chars " %s" ++ [10]) [AStr (status_text st)];
      print_tasks ts
  end.

Definition sys_ps : KM () :=
  _ ← kprint (chars "PID NAME STATUS" ++ [10]) [];
  ts ← on_sched (λ n, print_task_list n);
  print_tasks ts.

(** [get_running_task()->is_bg = 1] *)
Definition mark_bg : KM () :=
  on_sched (λ _,
    me ← get_running_task;
    t ← get_task me;
    put_task me (Task (pid t) (ppid t) (tname t) (rsp t) (cr3 t) (is_waiting t) (sleep_time t) (is_sleeping t) 1)).

Definition sys_sleep_call (buf : Z) : KM () :=
  p ← user_str buf;
  _ ← split_args p;
  r ← asks (λ k, str_contains (sf E) (k_mem k) p (amp E));
  _ ← (if negb (r =? -1) then _ ← mark_bg; modk (λ k, with_k_is_bg k 1) else modk (λ k, with_k_is_bg k 0));
  time ← asks (λ k, atoi_int (sf E) (k_mem k) (cmd_args E));
  on_sched (λ n, sys_sleep n time).

(** The message of [sys_kill], before it changes the list. *)
Definition kill_message (w : Z) : KM () :=
  me ← on_sched (λ _, get_running_task);
  t ← on_sched (λ _, get_task me);
  q ← on_sched (λ _, gets queue_head);
  found ← on_sched (λ n, find_pid n w q);
  let missing := if found =? 0 then kprint (chars "Process with PID: %d not found" ++ [10]) [ANum w] else mret () in
  if ppid t =? w then
    _ ← kprint (chars "oxTerm: Session Terminated..." ++ [10]) [];
    missing
  else
    c ← on_sched (λ n, kill_loop root_name n w q);
    match c with
    | KillKernel => kprint (chars "oxTerm: err: Can't kill kernel. You don't have privileges!" ++ [10]) []
    | KillCurrent => mret ()
    | KillOther => missing
    end.

(** The second piece without its first character, the delimiter. *)
Definition sys_kill_call (buf : Z) : KM () :=
  p ← user_str buf;
  _ ← split_args p;
  n ← strlen_at (cmd_args E + FMT_LEN);
  _ ← on_mem (λ m, Some (str_substr m (cmd_args E + FMT_LEN) 1 (n - 1) (outbuf E)));
  n ← strlen_at (outbuf E);
  if n =? 0 then kprint (chars "oxTerm: Usage: kill -9 PID" ++ [10]) []
  else
    w ← asks (λ k, atoi_int (sf E) (k_mem k) (outbuf E));
    _ ← kill_message (u64 w);
    on_sched (λ n, sys_kill root_name n (u64 w)).

(** ** The dispatcher *)

(** The calls the handler serves. *)
Inductive syscall :=
  | Write | Read | ForkCall | Yield | Exec | Exit | ListDir | Cat | Echo | Ps | WaitPid | Sleep | Kill
  | GetPid | GetPpid | Gets | Wait | Open | Close | ReadFile | OpenDir | ReadDir | CloseDir | Clear.

#[export] Instance syscall_eq_dec : EqDecision syscall.
Proof. solve_decision. Defined.

Definition dispatch (num : Z) : option syscall :=
  if num =? 1 then Some Write else if num =? 2 then Some Read else if num =? 4 then Some ForkCall
  else if num =? 6 then Some Yield else if (num =? 7) || (num =? 8) then Some Exec
  else if num =? 10 then Some Exit else if num =? 12 then Some ListDir else if num =? 14 then Some Cat
  else if num =? 16 then Some Echo else if num =? 18 then Some Ps else if num =? 20 then Some WaitPid
  else if num =? 22 then Some Sleep else if num =? 24 then Some Kill else if num =? 26 then Some GetPid
  else if num =? 28 then Some GetPpid else if num =? 30 then Some Gets else if num =? 32 then Some Wait
  else if num =? 34 then Some Open else if num =? 36 then Some Close else if num =? 38 then Some ReadFile
  else if num =? 40 then Some OpenDir else if num =? 42 then Some ReadDir else if num =? 44 then Some CloseDir
  else if num =? 46 then Some Clear else None.

(** A call that leaves a value in [rax], and one that does not. *)
Definition value (x : KM Z) : KM (option Z) := r ← x; mret (Some (u64 r)).
Definition quiet (x : KM ()) : KM (option Z) := _ ← x; mret None.

Definition running_field (f : task → Z) : KM Z :=
  me ← on_sched (λ _, get_running_task); t ← on_sched (λ _, get_task me); mret (f t).

(** [buf], [third] and [fourth] are the registers rbx, rcx and rdx. *)
Definition serve (c : syscall) (buf third fourth : Z) : KM (option Z) :=
  match c with
  | Write => value (sys_write buf third fourth)
  | Read => value (sys_read_call third fourth)
  | ForkCall => quiet (_ ← sys_fork_call; mret ())
  | Yield => quiet (on_sched (λ n, schedule n 0))
  | Exec => quiet (sys_exec buf third)
  | Exit => quiet (on_sched (λ n, sys_exit n buf))
  | ListDir => quiet (on_tar (λ t, t ← list_dir (sf E) (tl E) (ent E) (after_ch E) t; Some ((), t)))
  | Cat => quiet (sys_cat buf)
  | Echo => quiet (p ← user_str buf; kprint_at (chars "%s" ++ [10]) p)
  | Ps => quiet sys_ps
  | WaitPid => value (bg ← getk k_is_bg; r ← on_sched (λ n, sys_waitpid n buf (u64 bg)); mret (u32 r))
  | Sleep => quiet (sys_sleep_call buf)
  | Kill => quiet (sys_kill_call buf)
  | GetPid => value (p ← running_field pid; mret (u32 p))
  | GetPpid => value (p ← running_field ppid; mret (u32 p))
  | Gets => quiet (sys_gets_call buf)
  | Wait => value (r ← on_sched (λ n, sys_waitpid n 0 0); mret (u32 r))
  | Open => value (p ← user_str buf;
      on_tar (Tarfs.open (sf E) (tl E) (ent E) (after_ch E) (mf E) (free_list E) p))
  | Close => value (on_tar (λ t, Some (Tarfs.close buf t)))
  | ReadFile => value (p ← user_buf third (u64 fourth + 1); on_tar (Tarfs.read_file (sf E) buf p fourth))
  | OpenDir => value (p ← user_str buf; on_tar (Tarfs.opendir (sf E) (tl E) (ent E) (after_ch E) p))
  | ReadDir => value (on_tar (Tarfs.read_dir (sf E) (tl E) (ent E) (after_ch E) (dirbuf E) buf))
  | CloseDir => value (mret (Tarfs.closedir buf))
  | Clear => quiet (modk (λ k, with_k_kb k (with_con (k_kb k) (clear_screen (con (k_kb k)))) (k_keys k)))
  end.

(** An unknown number does nothing. *)
Definition syscall_handler (num buf third fourth : Z) : KM (option Z) :=
  match dispatch num with
  | Some c => serve c buf third fourth
  | None => mret None
  end.

(** ** Faults and exceptions *)

#[local] Instance kernel_source : PageSource := mem_page_source (mf E) (free_list E).

(** Maps one page for the faulting address and prints; then a new shell starts
    in place of the task. *)
Definition page_fault_map (err_code pf_addr : Z) : KM () :=
  cr3 ← getk cur_root;
  let direct := (err_code =? 5) || (err_code =? 7) || (err_code =? 1) || (err_code =? 3) in
  _ ← (if (direct : bool) then on_mem (λ m, init_map_virt_phys_addr m pf_addr (PADDR pf_addr) 1 (VADDR cr3) 1)
       else on_mem (λ m, '(pp, m) ← kmalloc (mf E) (free_list E) m 1;
                         init_map_virt_phys_addr m pf_addr (PADDR pp) 1 (VADDR cr3) 1));
  kprint (chars "(Segmentation Fault)" ++ [10]) [].

Definition page_fault_handler (err_code pf_addr : Z) : KM () :=
  _ ← page_fault_map err_code pf_addr;
  _ ← load_sbush;
  _ ← on_sched (λ n, delete_curr_from_task_list n);
  on_sched (λ n, schedule n 1).

(** It prints and stops the machine; the state at the halt. *)
Definition general_protection_fault_handler : KM () := kprint (chars "GPF Encountered" ++ [10]) [].

(** gidt.c: the message of each exception that has a handler there. *)
Definition exception_text (vector : Z) : option (list Z) :=
  (λ s, s ++ [10]) <$>
  (if vector =? 0 then Some (chars "oxTerm: Invalid operation: Divide by zero")
   else if vector =? 1 then Some (chars "oxTerm: Debug exception raised")
   else if vector =? 3 then Some (chars "oxTerm: Debug: Breakpoint encountered")
   else if vector =? 4 then Some (chars "oxTerm: Operand overflow detected. Terminating Process")
   else if vector =? 5 then Some (chars "oxTerm: Exception: Bound range exceeded")
   else if vector =? 6 then Some (chars "oxTerm: Invalid opcode")
   else if vector =? 7 then Some (chars "oxTerm: error: Device not available")
   else if vector =? 8 then Some (chars "oxTerm: Double Fault encountered. Terminating Process")
   else if vector =? 10 then Some (chars "oxTerm: Invalid TSS exception")
   else if vector =? 11 then Some (chars "oxTerm: Invalid Segment load performed. Terminating Process")
   else if vector =? 12 then Some (chars "oxTerm: Stack Seg Fault. Terminating Process")
   else if vector =? 16 then Some (chars "oxTerm: Floating point exception raised")
   else if vector =? 17 then Some (chars "oxTerm: error: Unaligned memory reference performed. Terminating Process")
   else if vector =? 18 then Some (chars "oxTerm: Machine check: internal error detected")
   else if vector =? 19 then Some (chars "oxTerm: Floating Point Exception raised")
   else if vector =? 20 then Some (chars "oxTerm: error: Virtualization Exception")
   else None).

(** Vector 9 raises the general protection fault, which does not come back. *)
Definition irq_handler (vector : Z) : KM () :=
  if vector =? 9 then general_protection_fault_handler
  else
    text ← asks (λ _, exception_text vector);
    _ ← kprint text [];
    on_sched (λ n, sys_exit n 1).
End Kernel.
