(* ===== verification/SyscallsProps.v ===== *)
(** * SyscallsProps: what the system calls do

    The calls keep the task list's invariant; writing, listing a file,
    replacing a task, and exceptions, each with what appears on the screen and
    what happens to the tasks. *)
From Stdlib Require String Ascii.
From S2P Require Import Prelude Memory Utils Strings PageSource Mem Paging Region Console Process ProcessProps Identity Interrupts Tarfs TarfsProps Elf Fork Syscalls.
Import String.StringSyntax.

(** ** Running the monad *)

Lemma km_bind_inv {A B} (x : KM A) (f : A → KM B) k r k' :
  (x ≫= f) k = Some (r, k') → ∃ a k1, x k = Some (a, k1) ∧ f a k1 = Some (r, k').
Proof. unfold mbind, km_bind. destruct (x k) as [[a k1]|]; [eauto|done]. Qed.

Lemma km_bind_some {A B} (x : KM A) (f : A → KM B) k a k' : x k = Some (a, k') → (x ≫= f) k = f a k'.
Proof. intros E. unfold mbind, km_bind. by rewrite E. Qed.

(** Operations that do not touch the task list, and those that keep a property
    of it. *)
Definition leaves_tasks {A} (x : KM A) : Prop := ∀ k a k', x k = Some (a, k') → k_sched k' = k_sched k.
Definition keeps_sched (P : sched → Prop) {A} (x : KM A) : Prop :=
  ∀ k a k', P (k_sched k) → x k = Some (a, k') → P (k_sched k').

Create HintDb tasks discriminated.

Lemma leaves_bind {A B} (x : KM A) (f : A → KM B) :
  leaves_tasks x → (∀ a, leaves_tasks (f a)) → leaves_tasks (x ≫= f).
Proof.
  intros Hx Hf k r k' (a & k1 & E1 & E2)%km_bind_inv. etrans; [by eapply Hf|]. by eapply Hx.
Qed.
Lemma leaves_ret {A} (a : A) : leaves_tasks (mret a).
Proof. by intros k r k' [= _ <-]. Qed.
Lemma leaves_asks {A} (f : kstate → option A) : leaves_tasks (asks f).
Proof. intros k r k'. unfold asks. destruct (f k); [by intros [= _ <-]|done]. Qed.
Lemma leaves_getk {A} (f : kstate → A) : leaves_tasks (getk f).
Proof. by intros k r k' [= _ <-]. Qed.
Lemma leaves_on_mem f : leaves_tasks (on_mem f).
Proof. intros k r k'. unfold on_mem. destruct (f (k_mem k)); [by intros [= _ <-]|done]. Qed.
Lemma leaves_on_tar {A} (f : tarfs → option (A * tarfs)) : leaves_tasks (on_tar f).
Proof. intros k r k'. unfold on_tar. destruct (f (tar_of k)) as [[a t]|]; [by intros [= _ <-]|done]. Qed.
Lemma leaves_modk f : (∀ k, k_sched (f k) = k_sched k) → leaves_tasks (modk f).
Proof. intros H k r k' [= _ <-]. apply H. Qed.

#[export] Hint Resolve leaves_bind leaves_ret leaves_asks leaves_getk leaves_on_mem leaves_on_tar : tasks.

Section Invariant.
Context (E : env) `{A : NodeAlloc} {AL : NodeAllocLaws A}.

Lemma leaves_kprint fmt args : leaves_tasks (kprint E fmt args).
Proof. intros k r k'. unfold kprint. destruct (kprintf _ _ _ _); [by intros [= _ <-]|done]. Qed.
Lemma leaves_user_str a : leaves_tasks (user_str E a).
Proof.
  intros k r k'. unfold user_str. destruct (vphys _ _ _); [|done]. cbn [mbind option_bind].
  destruct (get_str _ _ _); [|done]. cbn [mbind option_bind]. case_match; [by intros [= _ <-]|done].
Qed.
Lemma leaves_user_buf a n : leaves_tasks (user_buf a n).
Proof.
  intros k r k'. unfold user_buf. destruct (vphys _ _ _); [|done]. cbn [mbind option_bind].
  case_match; [by intros [= _ <-]|done].
Qed.
#[local] Hint Resolve leaves_kprint leaves_user_str leaves_user_buf : tasks.

Lemma leaves_kprint_at fmt p : leaves_tasks (kprint_at E fmt p).
Proof. unfold kprint_at. auto with tasks. Qed.
Lemma leaves_strlen_at p : leaves_tasks (strlen_at E p).
Proof. unfold strlen_at. auto with tasks. Qed.
#[local] Hint Resolve leaves_kprint_at leaves_strlen_at : tasks.

Lemma leaves_split_args p : leaves_tasks (split_args E p).
Proof.
  intros k r k'. unfold split_args, runk. destruct (str_split_delim _ _ _ _ _) as [[? ?]|]; [by intros [= _ <-]|done].
Qed.
Lemma leaves_poll_call limit : leaves_tasks (poll_call E limit).
Proof.
  intros k r k'. unfold poll_call, runk.
  match goal with |- context [?x ≫= _] => destruct x as [[? ?]|]; [by intros [= _ <-]|done] end.
Qed.
#[local] Hint Resolve leaves_split_args leaves_poll_call : tasks.
Lemma leaves_read_line limit u : leaves_tasks (read_line E limit u).
Proof.
  unfold read_line. do 4 (apply leaves_bind; [auto with tasks|intros ?]).
  intros k r k'. unfold runk. destruct (take_line _ _ _ _) as [[? ?]|]; [by intros [= _ <-]|done].
Qed.
Lemma leaves_cat_loop n : ∀ fd bytes bread, leaves_tasks (cat_loop E n fd bytes bread).
Proof. induction n as [|n IH]; intros fd bytes bread; cbn [cat_loop]; case_match; auto with tasks. by intros k r k'. Qed.
Lemma leaves_print_tasks ts : leaves_tasks (print_tasks E ts).
Proof. induction ts as [|[[p name] st] ts IH]; cbn [print_tasks]; auto with tasks. Qed.
#[local] Hint Resolve leaves_read_line leaves_cat_loop leaves_print_tasks : tasks.

(** ** Keeping a property of the task list *)

Section Keeps.
Context (P : sched → Prop).

Lemma keeps_leaves {A'} (x : KM A') : leaves_tasks x → keeps_sched P x.
Proof. intros H k a k' Hl Hx. by rewrite (H k a k' Hx). Qed.
Lemma keeps_bind {A' B} (x : KM A') (f : A' → KM B) :
  keeps_sched P x → (∀ a, keeps_sched P (f a)) → keeps_sched P (x ≫= f).
Proof. intros Hx Hf k r k' Hl (a & k1 & E1 & E2)%km_bind_inv. eapply Hf; [by eapply Hx|done]. Qed.
Lemma keeps_on_sched {A'} (f : nat → SM A') :
  (∀ s a s', P s → f (fuel_of s) s = Ret (a, s') → P s') → keeps_sched P (on_sched f).
Proof.
  intros H k a k' Hl. unfold on_sched. destruct (f _ _) as [[r s']| |] eqn:Ef; [|done..].
  intros [= _ <-]. cbn. by eapply H.
Qed.
Lemma keeps_value (x : KM Z) : keeps_sched P x → keeps_sched P (value x).
Proof. intros H. apply keeps_bind; [done|intros ?]. apply keeps_leaves, leaves_ret. Qed.
Lemma keeps_quiet (x : KM ()) : keeps_sched P x → keeps_sched P (quiet x).
Proof. intros H. apply keeps_bind; [done|intros ?]. apply keeps_leaves, leaves_ret. Qed.
End Keeps.

(** A read of the task list. *)
Lemma leaves_read {A'} (f : nat → SM A') : (∀ n, reads (f n)) → leaves_tasks (on_sched f).
Proof.
  intros H k a k'. unfold on_sched. destruct (f _ _) as [[r s']| |] eqn:Ef; [|done..].
  intros [= _ <-]. cbn. by rewrite (H _ _ _ _ Ef).
Qed.

Lemma reads_print_loop n : ∀ q out, reads (print_loop n q out).
Proof. induction n as [|n IH]; intros q out; cbn [print_loop]; repeat reads_step. Qed.
#[local] Hint Resolve reads_print_loop : stays.

Lemma leaves_running : leaves_tasks (on_sched (λ _, get_running_task)).
Proof. apply leaves_read. auto with stays. Qed.
Lemma leaves_get_task p : leaves_tasks (on_sched (λ _, get_task p)).
Proof. apply leaves_read. auto with stays. Qed.
Lemma leaves_queue_head : leaves_tasks (on_sched (λ _, gets queue_head)).
Proof. apply leaves_read. auto with stays. Qed.
Lemma leaves_find_pid w q : leaves_tasks (on_sched (λ n, find_pid n w q)).
Proof. apply leaves_read. auto with stays. Qed.
Lemma leaves_kill_loop w q : leaves_tasks (on_sched (λ n, kill_loop root_name n w q)).
Proof. apply leaves_read. auto with stays. Qed.
Lemma leaves_print_task_list : leaves_tasks (on_sched (λ n, print_task_list n)).
Proof. apply leaves_read. intros n. unfold print_task_list. repeat reads_step. Qed.
#[local] Hint Resolve leaves_running leaves_get_task leaves_queue_head leaves_find_pid leaves_kill_loop
  leaves_print_task_list : tasks.

Lemma leaves_running_field f : leaves_tasks (running_field f).
Proof. unfold running_field. auto with tasks. Qed.
#[local] Hint Resolve leaves_running_field : tasks.

Lemma leaves_kill_message w : leaves_tasks (kill_message E w).
Proof.
  unfold kill_message. do 4 (apply leaves_bind; [auto with tasks|intros ?]).
  assert (Hm : ∀ b : bool, leaves_tasks (if b then kprint E (chars "Process with PID: %d not found" ++ [10]) [ANum w] else mret ()))
    by (intros []; auto with tasks).
  case_match; [apply leaves_bind; [auto with tasks|intros ?; apply Hm]|].
  apply leaves_bind; [auto with tasks|intros []; auto with tasks].
Qed.

(** kill changes the list only in its last step. *)
Lemma kill_call_cases buf k k' :
  sys_kill_call E buf k = Some ((), k') →
  k_sched k' = k_sched k ∨ ∃ w, sys_kill root_name (fuel_of (k_sched k)) w (k_sched k) = Ret (tt, k_sched k').
Proof.
  unfold sys_kill_call. intros Ex.
  do 5 (let H := fresh in apply km_bind_inv in Ex as (? & ? & H & Ex);
    lazymatch type of H with ?x ?k1 = Some (?a, ?k2) =>
      let L := fresh in assert (L : leaves_tasks x) by auto with tasks; apply L in H; clear L end).
  destruct (_ =? 0).
  { left. apply leaves_kprint in Ex. congruence. }
  apply km_bind_inv in Ex as (w & k6 & E6%leaves_asks & Ex). apply km_bind_inv in Ex as ([] & k7 & E7%leaves_kill_message & Ex).
  right. exists (u64 w). revert Ex. unfold on_sched. replace (k_sched k7) with (k_sched k) by congruence.
  destruct (sys_kill _ _ _ _) as [[[] s']| |]; [|done..]. by intros [= <-].
Qed.

(** What the calls that only move tasks keep: switching, exiting, waiting,
    sleeping, and a mark on a task. *)
Record call_closed (P : sched → Prop) : Prop := {
  cc_schedule fs s s' : P s → schedule (fuel_of s) fs s = Ret (tt, s') → P s';
  cc_exit st s s' : P s → sys_exit (fuel_of s) st s = Ret (tt, s') → P s';
  cc_wait w bg v s s' : P s → sys_waitpid (fuel_of s) w bg s = Ret (v, s') → P s';
  cc_sleep time s s' : P s → sys_sleep (fuel_of s) time s = Ret (tt, s') → P s';
  cc_task p t t' s : P s → tasks s !! p = Some t → ident t' = ident t → P (with_tasks s (<[p := t']> (tasks s)));
}.

Lemma inv_closed : call_closed (λ s, ∃ l, sched_inv s l).
Proof.
  constructor.
  - intros fs s s' [l Hl] Ex. eapply (inv_step root_name); [by eapply step_schedule|done].
  - intros st s s' [l Hl] Ex. eapply (inv_step root_name); [by eapply step_exit|done].
  - intros w bg v s s' [l Hl] Ex. eapply (inv_step root_name); [by eapply step_wait|done].
  - intros time s s' [l Hl] Ex. eapply (inv_step root_name); [by eapply step_sleep|done].
  - intros p t t' s [l Hl] Ht [= E1 E2 _]. exists l. by eapply inv_put_task.
Qed.

Lemma kept_closed s0 : call_closed (kept s0).
Proof.
  constructor.
  - intros fs s s' H Ex%stays_schedule. by etrans.
  - intros st s s' H Ex%stays_exit. by etrans.
  - intros w bg v s s' H Ex%stays_waitpid. by etrans.
  - intros time s s' H Ex%stays_sleep. by etrans.
  - intros p t t' s H Ht Hi. etrans; [exact H|by eapply kept_put].
Qed.

Section Closed.
Context (P : sched → Prop) (HP : call_closed P).

Lemma keeps_mark_bg : keeps_sched P mark_bg.
Proof.
  apply keeps_on_sched. intros s [] s' Hs (me & s0 & ->%reads_get_running & Ex)%bind_inv.
  apply bind_inv in Ex as (t & s0 & [-> Ht]%get_task_inv & Ex). injection Ex as <-. by eapply (cc_task P HP).
Qed.
Lemma keeps_schedule fs : keeps_sched P (on_sched (λ n, schedule n fs)).
Proof. apply keeps_on_sched. intros s [] s'. by apply (cc_schedule P HP). Qed.
Lemma keeps_exit st : keeps_sched P (on_sched (λ n, sys_exit n st)).
Proof. apply keeps_on_sched. intros s [] s'. by apply (cc_exit P HP). Qed.
Lemma keeps_wait w bg : keeps_sched P (on_sched (λ n, sys_waitpid n w bg)).
Proof. apply keeps_on_sched. intros s v s'. by apply (cc_wait P HP). Qed.
Lemma keeps_sleep time : keeps_sched P (on_sched (λ n, sys_sleep n time)).
Proof. apply keeps_on_sched. intros s [] s'. by apply (cc_sleep P HP). Qed.

Lemma keeps_sleep_call buf : keeps_sched P (sys_sleep_call E buf).
Proof.
  unfold sys_sleep_call. do 3 (apply keeps_bind; [apply keeps_leaves; auto with tasks|intros ?]).
  apply keeps_bind.
  { case_match; [apply keeps_bind; [apply keeps_mark_bg|intros ?]|]; apply keeps_leaves; by apply leaves_modk. }
  intros ?. apply keeps_bind; [apply keeps_leaves; auto with tasks|intros ?]. apply keeps_sleep.
Qed.
End Closed.

Lemma leaves_write buf third fourth : leaves_tasks (sys_write E buf third fourth).
Proof.
  unfold sys_write. do 2 (apply leaves_bind; [auto with tasks|intros ?]).
  apply leaves_bind; [case_match; auto with tasks|intros ?]. apply leaves_bind; [case_match; auto with tasks|intros ?].
  auto with tasks.
Qed.
Lemma leaves_cat buf : leaves_tasks (sys_cat E buf).
Proof. unfold sys_cat. do 3 (apply leaves_bind; [auto with tasks|intros ?]). case_match; auto with tasks. Qed.

(** The calls that return to the task that made them without a switch to another
    one and without a copy of its kernel stack. *)
Definition stays_here (c : syscall) : bool :=
  match c with ForkCall | Yield | Exec | Exit | WaitPid | Wait | Sleep | Kill => false | _ => true end.

(** They change no task. *)
Lemma leaves_serve c buf third fourth : stays_here c = true → leaves_tasks (serve E c buf third fourth).
Proof.
  intros H. destruct c; try discriminate H; cbn [serve]; (apply leaves_bind; [|intros ?; apply leaves_ret]).
  all: first [apply leaves_write | apply leaves_cat | solve [auto with tasks]
    | unfold sys_read_call; solve [auto with tasks] | unfold sys_ps; solve [auto with tasks]
    | unfold sys_gets_call; solve [auto with tasks] | by apply leaves_modk].
Qed.

Lemma leaves_syscall num buf third fourth :
  (∀ c, dispatch num = Some c → stays_here c = true) → leaves_tasks (syscall_handler E num buf third fourth).
Proof.
  intros H. unfold syscall_handler. destruct (dispatch num) as [c|]; [by apply leaves_serve, H|apply leaves_ret].
Qed.

Lemma serve_keeps P c buf third fourth :
  call_closed P → c ≠ ForkCall → c ≠ Exec → c ≠ Kill → keeps_sched P (serve E c buf third fourth).
Proof.
  intros HP H1 H2 H3. destruct (stays_here c) eqn:Hs; [by apply keeps_leaves, leaves_serve|].
  destruct c; try done; cbn [serve]; (apply keeps_value || apply keeps_quiet).
  - by apply keeps_schedule.
  - by apply keeps_exit.
  - apply keeps_bind; [apply keeps_leaves; auto with tasks|intros ?]. apply keeps_bind; [by apply keeps_wait|intros ?].
    apply keeps_leaves; auto with tasks.
  - by apply keeps_sleep_call.
  - apply keeps_bind; [by apply keeps_wait|intros ?]. apply keeps_leaves; auto with tasks.
Qed.

Lemma irq_handler_keeps P vector : call_closed P → keeps_sched P (irq_handler E vector).
Proof.
  intros HP. unfold irq_handler. case_match; [apply keeps_leaves; unfold general_protection_fault_handler; auto with tasks|].
  do 2 (apply keeps_bind; [apply keeps_leaves; auto with tasks|intros ?]). by apply keeps_exit.
Qed.

(** ** New tasks *)

Lemma leaves_print_elf msgs : leaves_tasks (print_elf E msgs).
Proof. induction msgs; cbn [print_elf]; auto with tasks. Qed.
#[local] Hint Resolve leaves_print_elf : tasks.
(** Operations that change at most CR3. *)
Definition moves_cr3 {A'} (x : KM A') : Prop :=
  ∀ k a k', x k = Some (a, k') → ∃ c, k_sched k' = with_cpu (k_sched k) (cpu_rsp (k_sched k)) c.

Lemma moves_leaves {A'} (x : KM A') : leaves_tasks x → moves_cr3 x.
Proof. intros H k a k' E0. exists (cpu_cr3 (k_sched k)). rewrite (H _ _ _ E0). by destruct (k_sched k). Qed.
Lemma moves_bind {A' B} (x : KM A') (f : A' → KM B) : moves_cr3 x → (∀ a, moves_cr3 (f a)) → moves_cr3 (x ≫= f).
Proof.
  intros Hx Hf k b k' (a & k1 & E1 & E2)%km_bind_inv. destruct (Hx _ _ _ E1) as [c1 S1]. destruct (Hf _ _ _ _ E2) as [c2 S2].
  exists c2. by rewrite S2, S1.
Qed.

(** What such an operation keeps of the task list. *)
Lemma moved_list k1 k2 l c :
  k_sched k2 = with_cpu (k_sched k1) (cpu_rsp (k_sched k1)) c → sched_inv (k_sched k1) l →
  sched_inv (k_sched k2) l ∧ tasks (k_sched k2) = tasks (k_sched k1) ∧ running_task (k_sched k2) = running_task (k_sched k1) ∧
  queue_head (k_sched k2) = queue_head (k_sched k1) ∧
  ∀ p, get_running_task (k_sched k1) = Ret (p, k_sched k1) → get_running_task (k_sched k2) = Ret (p, k_sched k2).
Proof.
  intros S Hinv. rewrite S. split; [by apply inv_cpu|]. split_and!; try done. intros p.
  unfold get_running_task, mbind, sm_bind, gets, get_node. cbn. destruct (nodes (k_sched k1) !! _) as [n|]; [|done]. by intros [= <-].
Qed.

Lemma moves_parse_file fd argc argv : moves_cr3 (parse_file E fd argc argv).
Proof.
  unfold parse_file. do 2 (apply moves_bind; [apply moves_leaves; auto with tasks|intros ?]).
  apply moves_bind; [|intros ?; apply moves_leaves; auto with tasks]. intros k r k'. unfold runk.
  destruct (elf_parse _ _ _ _ _ _ _ _ _ _ _ _) as [[[[? ?] ?] ?]|]; [|done]. intros [= _ <-]. eexists. reflexivity.
Qed.
Lemma moves_sbush_load : moves_cr3 (sbush_load E).
Proof. unfold sbush_load. apply moves_bind; [apply moves_leaves; auto with tasks|intros ?]. apply moves_parse_file. Qed.
Lemma leaves_exec_find buf : leaves_tasks (exec_find E buf).
Proof. unfold exec_find. auto with tasks. Qed.
Lemma moves_exec_load p fd third : moves_cr3 (exec_load E p fd third).
Proof.
  unfold exec_load. apply moves_bind; [apply moves_leaves; auto with tasks|intros ?].
  apply moves_bind; [by apply moves_leaves, leaves_modk|intros ?].
  do 4 (apply moves_bind; [apply moves_leaves; auto with tasks|intros ?]).
  apply moves_bind; [apply moves_leaves; case_match; auto with tasks|intros ?].
  apply moves_bind; [apply moves_parse_file|intros ?; apply moves_leaves; auto with tasks].
Qed.

Lemma name_task_spec pcb a b k k' :
  name_task E pcb a b k = Some ((), k') →
  ∃ t, k_sched k' = with_tasks (k_sched k) (<[pcb := t]> (tasks (k_sched k))) ∧ pid t = u64 a ∧ ppid t = u64 b.
Proof.
  unfold name_task, task_view. destruct (get_str _ _ _) as [name|]; [|done]. cbn [mbind option_bind].
  intros [= <-]. eexists. split; [reflexivity|]. cbn [pid ppid]. unfold t_pid, t_ppid.
  rewrite load64_store64_ne by lia. by rewrite !load64_store64_eq.
Qed.

(** The memory after it, of which the record is a view. *)
Definition renamed (m : mem) (pcb a b : Z) : mem := store64 (store64 m (phys pcb + t_pid) a) (phys pcb + t_ppid) b.

Lemma name_task_view pcb a b k k' :
  name_task E pcb a b k = Some ((), k') →
  k_mem k' = renamed (k_mem k) pcb a b ∧ ∀ t, tasks (k_sched k') !! pcb = Some t →
    rsp t = load64 (k_mem k') (phys pcb) ∧ cr3 t = load64 (k_mem k') (phys pcb + t_cr3).
Proof.
  unfold name_task, task_view. destruct (get_str _ _ _) as [name|]; [|done]. cbn [mbind option_bind].
  intros [= <-]. split; [reflexivity|]. intros t.
  cbn [k_sched with_k_sched tasks with_tasks k_mem with_k_mem]. rewrite lookup_insert_eq. intros E0. apply (inj Some) in E0. subst t.
  cbn [rsp cr3]. split; reflexivity.
Qed.

(** Running an operation of the scheduler. *)
Lemma on_sched_inv {A'} (f : nat → SM A') k a k' :
  on_sched f k = Some (a, k') → f (fuel_of (k_sched k)) (k_sched k) = Ret (a, k_sched k').
Proof. unfold on_sched. destruct (f _ _) as [[r s']| |]; [|done..]. by intros [= <- <-]. Qed.

Lemma on_sched_ret {A'} (f : nat → SM A') k a s' :
  f (fuel_of (k_sched k)) (k_sched k) = Ret (a, s') → on_sched f k = Some (a, with_k_sched k s').
Proof. unfold on_sched. by intros ->. Qed.

(** The ids lie before the name. *)
Lemma rd_ids_ne m p a b c : p + t_tname <= c → rd (store64 (store64 m (p + t_pid) a) (p + t_ppid) b) c = rd m c.
Proof. unfold t_pid, t_ppid, t_tname. intros H. by rewrite !rd_store64_ne by lia. Qed.

Lemma get_str_above fuel m m' a :
  (∀ b, a <= b → rd m' b = rd m b) → get_str fuel m' a = get_str fuel m a.
Proof.
  revert a. induction fuel as [|fuel IH]; intros a H; cbn [get_str]; [done|].
  rewrite H by lia. case_match; [done|]. rewrite (IH (a + 1)); [done|]. intros b Hb. apply H. lia.
Qed.

(** The name of a task that was just loaded can be read. *)
Definition has_name (k : kstate) (pcb : Z) : Prop := is_Some (get_str (sf E) (k_mem k) (phys pcb + t_tname)).

Lemma name_task_returns pcb a b k : has_name k pcb → ∃ k', name_task E pcb a b k = Some ((), k').
Proof.
  intros [name Hn]. unfold name_task, task_view. rewrite (get_str_above _ (k_mem k)), Hn; [eexists; reflexivity|].
  intros c Hc. by apply rd_ids_ne.
Qed.

(** The new task takes the running task's ids and the running task leaves. *)
Lemma name_task_has_name pcb a b k k' : name_task E pcb a b k = Some ((), k') → has_name k pcb.
Proof.
  unfold name_task, task_view, has_name. destruct (get_str _ _ _) as [name|] eqn:En; [|done]. intros _.
  rewrite (get_str_above _ (k_mem k)) in En; [rewrite En; eauto|]. intros c Hc. by apply rd_ids_ne.
Qed.

Lemma exec_switch_spec k l parent pcb t :
  sched_inv (k_sched k) l → tasks (k_sched k) !! pcb = None → has_name k pcb →
  get_running_task (k_sched k) = Ret (parent, k_sched k) → tasks (k_sched k) !! parent = Some t →
  0 <= pid t < 2 ^ 64 → 0 <= ppid t < 2 ^ 64 → running_task (k_sched k) ≠ queue_head (k_sched k) →
  ∃ k' l' x, exec_switch E parent pcb k = Some ((), k') ∧
    sched_inv (k_sched k') (l' ++ [x]) ∧ (∀ a, a ∈ l' ↔ a ∈ l ∧ a ≠ running_task (k_sched k)) ∧
    process <$> nodes (k_sched k') !! x = Some pcb ∧ ids (k_sched k') x = Some (pid t, ppid t) ∧
    k_mem k' = renamed (k_mem k) pcb (pid t) (ppid t) ∧
    regs (k_sched k') x = Some (load64 (k_mem k') (phys pcb), load64 (k_mem k') (phys pcb + t_cr3)).
Proof.
  intros Hinv Hnone Hname Hrun Ht H1 H2 Hh.
  destruct (name_task_returns pcb (pid t) (ppid t) k Hname) as [k2 E2].
  destruct (name_task_spec _ _ _ _ _ E2) as (tn & S2 & P1 & P2). rewrite u64_small in P1, P2 by done.
  destruct (name_task_view _ _ _ _ _ E2) as [M2 V2].
  destruct (inv_get_running _ _ _ _ Hinv Hrun) as (_ & Hrl & n & Hn & ->).
  destruct (inv_insert_fresh (k_sched k) l pcb tn Hinv Hnone) as [Hi Hnq]. rewrite <- S2 in Hi, Hnq.
  assert (Hne : pid t ≠ ppid t).
  { apply (inv_ids _ _ Hinv (running_task (k_sched k)) _ _ Hrl). unfold ids, task_at. rewrite Hn. simpl. by rewrite Ht. }
  destruct (inv_replace (k_sched k2) l pcb tn) as (s3 & s4 & s5 & l2 & x & E3 & E4 & E5 & R1 & R2 & R3 & R4 & R5);
    try done; [rewrite S2; apply lookup_insert_eq|by rewrite P1, P2|by rewrite S2|by rewrite S2|].
  rewrite P1, P2 in R4. assert (Hv : tasks (k_sched k2) !! pcb = Some tn) by (rewrite S2; apply lookup_insert_eq).
  destruct (V2 tn Hv) as [V3 V4]. rewrite V3, V4 in R5. rewrite S2 in R2.
  exists (with_k_sched (with_k_sched (with_k_sched k2 s3) s4) s5), l2, x. split; [|done].
  unfold exec_switch. rewrite (km_bind_some _ _ k t k).
  - rewrite (km_bind_some _ _ _ _ _ E2), (km_bind_some _ _ _ _ _ (on_sched_ret _ _ _ _ E3)).
    rewrite (km_bind_some _ _ (with_k_sched k2 s3) _ _ (on_sched_ret _ (with_k_sched k2 s3) _ _ E4)).
    exact (on_sched_ret _ (with_k_sched (with_k_sched k2 s3) s4) _ _ E5).
  - unfold on_sched, get_task. rewrite Ht. by destruct k.
Qed.

(** A call of it that returns had a task to leave. *)
Lemma exec_switch_returned k l parent pcb k' :
  sched_inv (k_sched k) l → tasks (k_sched k) !! pcb = None → running_task (k_sched k) ∈ l →
  exec_switch E parent pcb k = Some ((), k') →
  has_name k pcb ∧ running_task (k_sched k) ≠ queue_head (k_sched k).
Proof.
  intros Hinv Hnone Hrl (t & k1 & E1 & Ex)%km_bind_inv. apply km_bind_inv in Ex as ([] & k2 & E2 & Ex).
  apply km_bind_inv in Ex as ([] & k3 & E3%on_sched_inv & _). pose proof (leaves_get_task _ _ _ _ E1) as S1.
  assert (k1 = k) as ->.
  { revert E1. unfold on_sched. destruct (get_task _ _) as [[r s]| |]; [|done..]. intros [= _ <-]. cbn in S1. rewrite S1. by destruct k. }
  split.
  - by eapply name_task_has_name.
  - intros Eh. destruct (name_task_spec _ _ _ _ _ E2) as (tn & S2 & _).
    destruct (inv_insert_fresh (k_sched k) l pcb tn Hinv Hnone) as [Hi _]. rewrite <- S2 in Hi.
    pose proof (inv_queue _ _ Hi) as Hq. pose proof (queue_length _ _ Hq) as Hf.
    destruct l as [|x l]; [by apply not_elem_of_nil in Hrl|].
    rewrite (delete_curr_head_crash (fuel_of (k_sched k2)) (k_sched k2) x l Hq) in E3; [done| |cbn [length] in Hf; lia].
    rewrite S2. cbn. rewrite Eh. by rewrite (q_head _ _ (inv_queue _ _ Hinv)).
Qed.

(** ** Fork, exec and page faults *)

(** What [sys_fork] does to the task list: the child is appended, and its record
    is what its structure says in the end. *)
Lemma sys_fork_sched m s PID ker isr parent r PID' m' s' :
  Fork.sys_fork (sf E) (mf E) (free_list E) m s PID ker isr parent = Some (r, PID', m', s') →
  ∃ child m1 s1 t a b, kmalloc (mf E) (free_list E) m sizeof_task = Some (child, m1) ∧
    add_to_task_list (sf E) child s = Ret (tt, s1) ∧ s' = with_cpu (with_tasks s1 (<[child := t]> (tasks s1))) a b.
Proof.
  unfold Fork.sys_fork. destruct (kmalloc _ _ m sizeof_task) as [[child m1]|]; [|done].
  cbn [mbind option_bind]. destruct (fork_task _ _ _ _ _) as [m2|]; [|done]. cbn [mbind option_bind].
  destruct (add_to_task_list _ child s) as [[[] s1]| |] eqn:Ea; [|done..]. cbn [mbind option_bind].
  destruct (fork_space _ _ _ _ _) as [[[tk tu] m3]|]; [|done]. cbn [mbind option_bind].
  destruct (fork_stacks _ _ _ _ _ _ _) as [m4|]; [|done]. cbn [mbind option_bind].
  destruct (fork_areas _ _ _ _ _ _ _) as [m5|]; [|done]. cbn [mbind option_bind].
  destruct (task_view _ _ _) as [t|]; [|done]. cbn [mbind option_bind]. intros [= _ _ _ <-].
  exists child, m1, s1, t. do 2 eexists. split; [done|]. split; [exact Ea|]. reflexivity.
Qed.

Lemma sys_fork_keeps m s l PID ker isr parent r PID' m' s' :
  sched_inv s l →
  (∀ child m1, kmalloc (mf E) (free_list E) m sizeof_task = Some (child, m1) →
     tasks s !! child = None ∧ ∀ t, tasks s' !! child = Some t → pid t ≠ ppid t) →
  Fork.sys_fork (sf E) (mf E) (free_list E) m s PID ker isr parent = Some (r, PID', m', s') → ∃ l', sched_inv s' l'.
Proof.
  intros Hinv Hfresh Ef. destruct (sys_fork_sched _ _ _ _ _ _ _ _ _ _ Ef) as (child & m1 & s1 & t & a & b & Ek & Ea & ->).
  destruct (Hfresh child m1 Ek) as [Hnone Hids]. destruct (add_with_tasks (<[child := t]> (tasks s)) _ _ _ _ _ Ea) as [T1 Ea'].
  destruct (inv_insert_fresh s l child t Hinv Hnone) as [Hi Hnq]. rewrite T1.
  enough (∃ l', sched_inv (with_tasks s1 (<[child := t]> (tasks s))) l') as [l' Hl'] by (exists l'; by apply inv_cpu).
  assert (Hl : (length l < sf E + fuel_of s)%nat) by (pose proof (queue_length _ _ (inv_queue _ _ Hinv)); lia).
  eexists. eapply (inv_add (sf E + fuel_of s) _ l child t); [exact Hi|apply lookup_insert_eq| |exact Hnq|exact Hl|].
  - apply Hids. cbn. apply lookup_insert_eq.
  - by apply add_more_fuel.
Qed.

(** Every task structure lies in a page that the allocator has given away. *)
Definition tasks_in_use (l : list page) (ts : gmap Z task) : Prop :=
  ∀ i q, l !! i = Some q → is_free q = true → ts !! VADDR (PAGE_SIZE * Z.of_nat i) = None.

(** The allocator has a block for a task, and the tasks' own pages are in use:
    then the structure it gives is no task yet. *)
Record task_block (m : mem) (ts : gmap Z task) (child : Z) : Prop := {
  tb_block : ∃ l i, pool m (free_list E) l ∧ first_fit l (Z.of_nat (npages sizeof_task)) i ∧
    (i + npages sizeof_task <= length l)%nat ∧ (i < mf E)%nat ∧ tasks_in_use l ts ∧ child = VADDR (PAGE_SIZE * Z.of_nat i);
}.

Lemma task_block_fresh m ts child child' m' :
  task_block m ts child → kmalloc (mf E) (free_list E) m sizeof_task = Some (child', m') → child' = child ∧ ts !! child = None.
Proof.
  intros [(l & i & Hp & Hff & Hl & Hi & Hu & ->)] Hk.
  destruct (kmalloc_ok (mf E) m (free_list E) l sizeof_task i Hp ltac:(unfold sizeof_task; lia) Hff Hl Hi) as (m2 & E2 & _).
  rewrite E2 in Hk. injection Hk as <- _. split; [done|]. destruct Hff as [(p & Hpi & [Hf _]%fits_true) _]. by eapply Hu.
Qed.

(** What the calls that create a task need: for fork a block for the structure
    and different ids for parent and child, for exec that the structure is no
    task yet. *)
Definition new_task_ok (c : syscall) (buf third : Z) (k k' : kstate) : Prop :=
  match c with
  | ForkCall => ∃ child, task_block (k_mem k) (tasks (k_sched k)) child ∧
      ∀ t, tasks (k_sched k') !! child = Some t → pid t ≠ ppid t
  | Exec => ∀ p k1 t k2, exec_find E buf k = Some (p, k1) → exec_load E p.1 p.2 third k1 = Some (t, k2) →
      tasks (k_sched k) !! t.2 = None ∧
      ∀ u, tasks (k_sched k) !! t.1 = Some u → 0 <= pid u < 2 ^ 64 ∧ 0 <= ppid u < 2 ^ 64
  | _ => True
  end.

Lemma exec_load_running p fd third k t k' :
  exec_load E p fd third k = Some (t, k') → get_running_task (k_sched k) = Ret (t.1, k_sched k).
Proof.
  unfold exec_load. intros (parent & k1 & E1 & Ex)%km_bind_inv. pose proof (leaves_running _ _ _ E1) as S1.
  apply on_sched_inv in E1. rewrite S1 in E1. enough (t.1 = parent) as -> by done.
  repeat match type of Ex with (_ ≫= _) _ = _ => apply km_bind_inv in Ex as (? & ? & _ & Ex) end.
  by injection Ex as <- _.
Qed.

Lemma exec_keeps_inv buf third k l k' :
  sched_inv (k_sched k) l → new_task_ok Exec buf third k k' → sys_exec E buf third k = Some ((), k') →
  ∃ l', sched_inv (k_sched k') l'.
Proof.
  intros Hinv Hok (r & k1 & E1 & Ex)%km_bind_inv. pose proof (leaves_exec_find _ _ _ _ E1) as S1.
  rewrite <- S1 in Hinv. destruct (r.2 =? 0).
  - apply (keeps_bind (λ s, ∃ l, sched_inv s l) (kprint_at E _ r.1) (λ _, on_sched (λ n, sys_exit n 1))) in Ex;
      [exact Ex|apply keeps_leaves; auto with tasks|intros ?; apply keeps_exit, inv_closed|by exists l].
  - apply km_bind_inv in Ex as (t & k2 & E2 & Ex). destruct (Hok r k1 t k2 E1 E2) as [Hnone Hw].
    pose proof (exec_load_running _ _ _ _ _ _ E2) as Hrun.
    destruct (inv_get_running _ _ _ _ Hinv Hrun) as (_ & Hrl & n & Hn & Et).
    destruct (q_tasks _ _ (inv_queue _ _ Hinv) _ _ Hn) as [u Hu]. rewrite <- Et in Hu.
    rewrite <- S1 in Hnone, Hw. destruct (Hw u Hu) as [W1 W2]. destruct (moves_exec_load _ _ _ _ _ _ E2) as [cr S2].
    destruct (moved_list k1 k2 l cr S2 Hinv) as (Hinv2 & T2 & R2 & Q2 & G2). apply G2 in Hrun. rewrite <- T2 in *. rewrite <- R2 in Hrl.
    destruct (exec_switch_returned k2 l t.1 t.2 k' Hinv2 Hnone Hrl Ex) as [Hnm Hh].
    destruct (exec_switch_spec k2 l t.1 t.2 u) as (k3 & l' & x & E3 & H & _); try done.
    rewrite E3 in Ex. injection Ex as <-. eauto.
Qed.

(** A fault puts a new shell at the end of the list and takes the running task
    out of it. *)
Lemma load_sbush_spec k l pcb k1 :
  sched_inv (k_sched k) l → sbush_load E k = Some (pcb, k1) → tasks (k_sched k) !! pcb = None → has_name k1 pcb →
  ∃ k' x, load_sbush E k = Some ((), k') ∧ sched_inv (k_sched k') (l ++ [x]) ∧ process <$> nodes (k_sched k') !! x = Some pcb ∧
    ids (k_sched k') x = Some (1, 0) ∧ (l ≠ [] → running_task (k_sched k') = running_task (k_sched k)) ∧
    ∀ a, a ∈ l → ids (k_sched k') a = ids (k_sched k) a.
Proof.
  intros Hinv E0 Hnone Hname. destruct (moves_sbush_load _ _ _ E0) as [cr S1].
  destruct (name_task_returns pcb 1 0 k1 Hname) as [k2 E2].
  destruct (name_task_spec _ _ _ _ _ E2) as (t & S2 & P1 & P2). rewrite S1 in S2.
  destruct (inv_insert_fresh _ l pcb t (inv_cpu _ _ (cpu_rsp (k_sched k)) cr Hinv) Hnone) as [Hi Hnq]. rewrite <- S2 in Hi, Hnq.
  pose proof (queue_length _ _ (inv_queue _ _ Hi)) as Hf.
  assert (Ht : tasks (k_sched k2) !! pcb = Some t) by (rewrite S2; apply lookup_insert_eq).
  destruct (add_to_task_list_spec (fuel_of (k_sched k2)) _ l pcb (inv_queue _ _ Hi) ltac:(eauto) Hnq ltac:(lia))
    as (s2 & E4 & _ & P3 & T3 & _ & R3 & _ & N3).
  exists (with_k_sched k2 s2), (node_alloc (nodes (k_sched k2))). cbn [k_sched with_k_sched]. split.
  { unfold load_sbush. rewrite (km_bind_some _ _ _ _ _ E0), (km_bind_some _ _ _ _ _ E2). by apply on_sched_ret. }
  split; [eapply (inv_add (fuel_of (k_sched k2)) (k_sched k2) l pcb t _ Hi Ht); [rewrite P1, P2; done|done|lia|exact E4]|].
  split; [done|]. split.
  - unfold ids, task_at. destruct (nodes s2 !! _) as [n|]; [|done]. simplify_eq/=. rewrite T3, Ht. simpl. by rewrite P1, P2.
  - split; [intros Hl; rewrite R3, decide_False by done; by rewrite S2|].
    intros a Ha. rewrite (ids_process (k_sched k2)); [|apply N3|done].
    + rewrite S2. change (ids (k_sched k) a) with (ids (with_cpu (k_sched k) (cpu_rsp (k_sched k)) cr) a).
      eapply ids_insert_fresh; [apply (inv_cpu _ _ _ _ Hinv)|done].
    + intros ->. by apply (fresh_notin (k_sched k2) l); [apply Hi|].
Qed.

Lemma leaves_page_fault_map err_code pf_addr : leaves_tasks (page_fault_map E err_code pf_addr).
Proof. unfold page_fault_map. apply leaves_bind; [auto with tasks|intros ?]. cbv zeta. case_match; auto with tasks. Qed.

(** Every system call keeps the task list in order: after any of the 24
    calls the handler serves, and after a number it does not know, the list is
    again linked, without repetition, with the running task and the one before
    it in it.  For fork the task structures have to lie in pages that the
    allocator has given away, so that the child's is a new one; for exec the
    loaded structure has to be no task's yet. *)
Lemma syscall_handler_keeps_task_list num buf third fourth k l r k' :
  sched_inv (k_sched k) l → (∀ c, dispatch num = Some c → new_task_ok c buf third k k') →
  syscall_handler E num buf third fourth k = Some (r, k') → ∃ l', sched_inv (k_sched k') l'.
Proof.
  intros Hinv Hok. unfold syscall_handler. destruct (dispatch num) as [c|]; [|intros [= _ <-]; eauto].
  specialize (Hok c eq_refl). destruct (decide (c = Exec)) as [->|Hne]; [|destruct (decide (c = ForkCall)) as [->|Hnf]].
  - intros ([] & k1 & E1 & Ex)%km_bind_inv. injection Ex as _ <-. by eapply exec_keeps_inv.
  - intros (v & k1 & E1 & Ex)%km_bind_inv. injection Ex as _ <-. apply km_bind_inv in E1 as (? & k2 & E1 & Ex). injection Ex as _ <-.
    apply km_bind_inv in E1 as (me & k3 & E1 & Ex). rename k2 into k1', k3 into k2.
    pose proof (leaves_running _ _ _ E1) as S1. assert (k2 = k) as ->.
    { revert E1. unfold on_sched. destruct (get_running_task _) as [[p s']| |]; [|done..].
      intros [= _ <-]. cbn in S1. rewrite S1. by destruct k. }
    unfold runk in Ex. destruct (Fork.sys_fork _ _ _ _ _ _ _ _ _) as [[[[r0 PID] m] s]|] eqn:Ef; [|done].
    injection Ex as _ <-. destruct Hok as (child & Hb & Hids). eapply sys_fork_keeps; [exact Hinv| |exact Ef].
    intros ch m1 Hk. by destruct (task_block_fresh _ _ _ _ _ Hb Hk) as [-> ?].
  - destruct (decide (c = Kill)) as [->|Hk].
    + intros ([] & k1 & E1 & Ex)%km_bind_inv. injection Ex as _ <-.
      destruct (kill_call_cases _ _ _ E1) as [->|[w Ew]]; [eauto|]. eapply inv_step; [by eapply step_kill|done].
    + intros Ex. by eapply (serve_keeps (λ s, ∃ l, sched_inv s l)); [apply inv_closed|..|by exists l|].
Qed.

(** [exec] of a program that is found and loaded returns and replaces the
    running task, when that is not the head of the list: it leaves the list and
    the loaded task joins at its end, with the same pid and parent, and the
    other tasks stay. *)
Lemma exec_replaces_running_task buf third k l p fd k1 parent pcb k2 u :
  sched_inv (k_sched k) l → exec_find E buf k = Some ((p, fd), k1) → fd ≠ 0 →
  exec_load E p fd third k1 = Some ((parent, pcb), k2) → tasks (k_sched k) !! pcb = None → has_name k2 pcb →
  task_at (k_sched k) (running_task (k_sched k)) = Some u → 0 <= pid u < 2 ^ 64 → 0 <= ppid u < 2 ^ 64 →
  running_task (k_sched k) ≠ queue_head (k_sched k) →
  ∃ k' l' x, sys_exec E buf third k = Some ((), k') ∧
    sched_inv (k_sched k') (l' ++ [x]) ∧ (∀ a, a ∈ l' ↔ a ∈ l ∧ a ≠ running_task (k_sched k)) ∧
    process <$> nodes (k_sched k') !! x = Some pcb ∧ ids (k_sched k') x = Some (pid u, ppid u) ∧
    k_mem k' = renamed (k_mem k2) pcb (pid u) (ppid u) ∧
    regs (k_sched k') x = Some (load64 (k_mem k') (phys pcb), load64 (k_mem k') (phys pcb + t_cr3)).
Proof.
  intros Hinv E1 Hfd E2 Hnone Hname Hu W1 W2 Hh. unfold sys_exec. rewrite (km_bind_some _ _ _ _ _ E1).
  cbn [fst snd]. destruct (Z.eqb_spec fd 0); [done|]. rewrite (km_bind_some _ _ _ _ _ E2). cbn [fst snd].
  pose proof (leaves_exec_find _ _ _ _ E1) as S1. destruct (moves_exec_load _ _ _ _ _ _ E2) as [cr S2].
  pose proof (exec_load_running _ _ _ _ _ _ E2) as Hrun. cbn [fst] in Hrun.
  rewrite <- S1 in *. destruct (inv_get_running _ _ _ _ Hinv Hrun) as (_ & Hrl & nd & Hn & ->).
  unfold task_at in Hu. rewrite Hn in Hu. cbn in Hu.
  destruct (moved_list k1 k2 l cr S2 Hinv) as (Hinv2 & T2 & R2 & Q2 & G2). apply G2 in Hrun.
  rewrite <- T2 in Hnone, Hu. rewrite <- R2, <- Q2 in Hh. rewrite <- R2. by eapply exec_switch_spec.
Qed.

(** C22: A page fault of a task that is not the head of the list returns and
    replaces the task by a new shell: whatever the error code, the task leaves
    the list, the loaded shell joins it with pid 1 and parent 0, and the other
    tasks stay. *)
Theorem page_fault_replaces_by_shell err_code pf_addr k l k0 pcb k1 :
  sched_inv (k_sched k) l → running_task (k_sched k) ∈ l → running_task (k_sched k) ≠ queue_head (k_sched k) →
  page_fault_map E err_code pf_addr k = Some ((), k0) → sbush_load E k0 = Some (pcb, k1) →
  tasks (k_sched k) !! pcb = None → has_name k1 pcb →
  ∃ k' l' x, page_fault_handler E err_code pf_addr k = Some ((), k') ∧
    sched_inv (k_sched k') l' ∧ (x ∉ l) ∧ (∀ a, a ∈ l' ↔ (a ∈ l ∨ a = x) ∧ a ≠ running_task (k_sched k)) ∧
    process <$> nodes (k_sched k') !! x = Some pcb ∧ ids (k_sched k') x = Some (1, 0).
Proof.
  intros Hinv Hrl Hh E0 E1 Hnone Hname. unfold page_fault_handler. rewrite (km_bind_some _ _ _ _ _ E0).
  pose proof (leaves_page_fault_map _ _ _ _ _ E0) as S0. rewrite <- S0 in *.
  assert (Hl0 : l ≠ []) by (intros ->; by apply not_elem_of_nil in Hrl).
  destruct (load_sbush_spec k0 l pcb k1 Hinv E1 Hnone Hname) as (k2 & x & E2 & Hi & Hx & Hids & Hrun & _).
  specialize (Hrun Hl0). pose proof (queue_length _ _ (inv_queue _ _ Hi)) as Hf.
  assert (Hxl : x ∉ l).
  { pose proof (q_nodup _ _ (inv_queue _ _ Hi)) as Hnd. apply NoDup_app in Hnd as (_ & Hnd & _).
    intros Hxl. apply (Hnd x Hxl). left. }
  assert (Hrl2 : running_task (k_sched k2) ∈ l ++ [x]) by (rewrite Hrun, elem_of_app; by left).
  assert (Hh2 : running_task (k_sched k2) ≠ queue_head (k_sched k2)).
  { rewrite Hrun, (q_head _ _ (inv_queue _ _ Hi)). rewrite (q_head _ _ (inv_queue _ _ Hinv)) in Hh. by destruct l. }
  destruct (exit_returns _ _ Hi Hrl2 Hh2) as (s3 & s4 & E3 & E4).
  destruct (inv_delete_curr _ _ _ _ Hi Hf Hrl2 E3) as (lm & Hqm & _ & _ & _ & _ & _ & Hlen).
  pose proof (queue_length _ _ Hqm) as Hfm.
  destruct (inv_exit_list _ (fuel_of s3) _ _ _ _ _ Hi Hf ltac:(lia) Hrl2 E3 E4) as (l' & H1 & H2 & H3 & H4).
  assert (Hx' : x ∈ l').
  { apply H2. split; [rewrite elem_of_app, list_elem_of_singleton; by right|]. rewrite Hrun. by intros ->. }
  exists (with_k_sched (with_k_sched k2 s3) s4), l', x. cbn [k_sched with_k_sched]. split.
  { rewrite (km_bind_some _ _ _ _ _ E2), (km_bind_some _ _ _ _ _ (on_sched_ret _ _ _ _ E3)).
    exact (on_sched_ret _ (with_k_sched k2 s3) _ _ E4). }
  split; [done|]. split; [done|]. rewrite H3, (H4 x Hx'). split; [|done].
  intros a. rewrite H2, elem_of_app, list_elem_of_singleton, Hrun. done.
Qed.
End Invariant.

(** ** write *)

(** Printing a string with "%s". *)
Lemma kprintf_s after_ch s c :
  Z.of_nat (length s) < FMT_LEN →
  ∃ c', kprintf after_ch (chars "%s") [AStr s] c = Some c' ∧ screen c' = screen (print_seq s c (-1) (-1)).
Proof.
  intros Hs. unfold kprintf. change (pieces 37 [] (chars "%s")) with [[]; [37; 115]]. cbn [length].
  destruct (Z.leb_spec (Z.of_nat 2) 10); [|lia].
  destruct (kprintf_loop_text after_ch [[]; [37; 115]] [AStr s] c s) as (c' & E & H1 & _); [|exists c'; split; [done|by apply H1]].
  cbn [loop_text]. change (fits_buf []) with (Some (A := list Z) []). change (fits_buf [37; 115]) with (Some [37; 115]).
  cbn [mbind option_bind]. change (render_piece after_ch [] [AStr s]) with (Some ([] : list Z, [AStr s])).
  cbn [mbind option_bind]. change (render_piece after_ch [37; 115] [AStr s]) with (str ← fits_buf (s ++ []); Some (str, [] : list arg)).
  rewrite app_nil_r. unfold fits_buf. destruct (Z.ltb_spec (Z.of_nat (length s)) FMT_LEN); [|lia].
  cbn [mbind option_bind]. by rewrite app_nil_r.
Qed.

Lemma kprint_at_s E p s k :
  cstr (k_mem k) p s → (length s < sf E)%nat → Z.of_nat (length s) < FMT_LEN →
  ∃ c, kprint_at E (chars "%s") p k = Some ((), with_k_kb k (with_con (k_kb k) c) (k_keys k)) ∧
    screen c = screen (print_seq s (con (k_kb k)) (-1) (-1)).
Proof.
  intros Hs Hf Hl. destruct (kprintf_s (after_ch E) s (con (k_kb k)) Hl) as (c & Ec & Hc). exists c. split; [|done].
  unfold kprint_at. rewrite (km_bind_some _ _ k s k); [unfold kprint; by rewrite Ec|].
  unfold asks. by rewrite (get_str_spec s).
Qed.

Lemma strlen_at_spec E p s k :
  cstr (k_mem k) p s → (length s < sf E)%nat → strlen_at E p k = Some (Z.of_nat (length s), k).
Proof. intros Hs Hf. unfold strlen_at, asks. by rewrite (str_len_spec _ _ _ s). Qed.
Lemma user_str_spec E a p s k :
  vphys (k_mem k) (cur_root k) a = Some p → cstr (k_mem k) p s → (length s < sf E)%nat →
  a mod PAGE_SIZE + Z.of_nat (length s) < PAGE_SIZE → user_str E a k = Some (p, k).
Proof.
  intros Hv Hs Hf Hp. unfold user_str. rewrite Hv. cbn [mbind option_bind]. rewrite (get_str_spec s) by done.
  cbn [mbind option_bind]. by destruct (Z.ltb_spec (a mod PAGE_SIZE + Z.of_nat (length s)) PAGE_SIZE); [|lia].
Qed.

(** The part of the string that [write] copies to its local array. *)
Lemma write_copies E k p s fourth :
  cstr (k_mem k) p s → (length s < sf E)%nat → 0 <= fourth → Z.of_nat (length s) < 2 ^ 31 →
  disj p (Z.of_nat (length s) + 1) (sub E) (Z.of_nat (length s) + 1) →
  let out := take (Z.to_nat (fourth + 1)) s in
  ∃ m, (if Z.of_nat (length s) <=? fourth then
          _ ← on_mem (λ m, str_cpy (sf E) m (sub E) p); strlen_at E p
        else
          _ ← on_mem (λ m, Some (str_substr m p 0 (i32 fourth) (sub E))); strlen_at E (sub E)) k =
      Some (Z.of_nat (length out), with_k_mem k m) ∧ cstr_written (k_mem k) m (sub E) out.
Proof.
  intros Hs Hf H4 Hl Hd out. unfold disj in Hd. destruct (Z.leb_spec (Z.of_nat (length s)) fourth) as [Hle|Hgt].
  - assert (out = s) as -> by (apply take_ge; lia).
    destruct (str_cpy_spec (sf E) (k_mem k) (sub E) p s Hs Hf) as (m & Em & Hw); [unfold disj; lia|].
    exists m. split; [|done]. rewrite (km_bind_some _ _ k () (with_k_mem k m)) by (unfold on_mem; by rewrite Em).
    apply strlen_at_spec; [|done]. eapply cstr_agree; [exact Hs|]. intros b Hb. cbn. apply Hw. lia.
  - rewrite (i32_small fourth) by lia.
    pose proof (str_substr_spec (k_mem k) p s 0 fourth (sub E) Hs ltac:(lia) Hgt) as Hw.
    rewrite Z.sub_0_r, Z2Nat.inj_0, drop_0 in Hw. specialize (Hw ltac:(unfold disj; lia)). fold out in Hw.
    exists (str_substr (k_mem k) p 0 fourth (sub E)). split; [|done].
    rewrite (km_bind_some _ _ k () (with_k_mem k (str_substr (k_mem k) p 0 fourth (sub E)))) by done.
    apply strlen_at_spec; [apply Hw|]. unfold out. rewrite length_take. lia.
Qed.

Lemma sys_write_spec E `{A : NodeAlloc} third fourth k p s :
  vphys (k_mem k) (cur_root k) third = Some p → third mod PAGE_SIZE + Z.of_nat (length s) < PAGE_SIZE →
  cstr (k_mem k) p s → (length s < sf E)%nat → 0 <= fourth < 2 ^ 64 → Z.of_nat (length s) < FMT_LEN →
  disj p (Z.of_nat (length s) + 1) (sub E) (Z.of_nat (length s) + 1) →
  let out := take (Z.to_nat (fourth + 1)) s in
  ∃ k', syscall_handler E 1 1 third fourth k = Some (Some (Z.of_nat (length out)), k') ∧
    screen (con (k_kb k')) = screen (print_seq out (con (k_kb k)) (-1) (-1)) ∧ k_sched k' = k_sched k ∧
    ∀ b, b < sub E ∨ sub E + Z.of_nat (length s) < b → rd (k_mem k') b = rd (k_mem k) b.
Proof.
  intros Hv Hp Hs Hf H4 Hl Hd out. unfold FMT_LEN in Hl.
  destruct (write_copies E k p s fourth Hs Hf ltac:(lia) ltac:(lia) Hd) as (m & Em & [Hc Ho]). fold out in Em, Hc, Ho.
  assert (Hlo : (length out <= length s)%nat) by (unfold out; rewrite length_take; lia).
  destruct (kprint_at_s E (sub E) out (with_k_mem k m) Hc) as (c & Ec & Hscr); [lia|unfold FMT_LEN; lia|].
  eexists. split.
  - unfold syscall_handler. change (dispatch 1) with (Some Write). cbn [serve]. unfold value.
    rewrite (km_bind_some _ _ k (u64 (Z.of_nat (length out))) (with_k_kb (with_k_mem k m) (with_con (k_kb k) c) (k_keys k))).
    + unfold mret, km_ret. rewrite !u64_small by (rewrite ?u64_small by lia; lia). reflexivity.
    + unfold sys_write. rewrite (km_bind_some _ _ k p k (user_str_spec E third p s k Hv Hs Hf Hp)).
      rewrite (km_bind_some _ _ k _ k (strlen_at_spec E p s k Hs Hf)). rewrite (km_bind_some _ _ k _ _ Em).
      by rewrite (km_bind_some _ _ _ _ _ Ec).
  - split; [exact Hscr|]. split; [done|]. intros b Hb. apply Ho. lia.
Qed.

(** C25: [write] to file 1 of a string of less than 100 characters, all of it in
    one page, shows on the screen what printing its first [fourth + 1] characters
    at the cursor shows, or the whole string when it is shorter, and returns the
    number of characters printed, one more than asked for when the string is
    longer than [fourth].  It changes no task, and no memory but its local array
    and the byte behind it: the array has no room for the terminating zero.
    (A string of 100 characters or more overruns the buffers of [kprintf].) *)
Theorem sys_write_prints E `{A : NodeAlloc} third fourth k p s :
  vphys (k_mem k) (cur_root k) third = Some p → third mod PAGE_SIZE + Z.of_nat (length s) < PAGE_SIZE →
  cstr (k_mem k) p s → (length s < sf E)%nat → 0 <= fourth < 2 ^ 64 → Z.of_nat (length s) < FMT_LEN →
  disj p (Z.of_nat (length s) + 1) (sub E) (Z.of_nat (length s) + 1) →
  let out := take (Z.to_nat (fourth + 1)) s in
  ∃ k', syscall_handler E 1 1 third fourth k = Some (Some (Z.of_nat (length out)), k') ∧
    screen (con (k_kb k')) = screen (print_seq out (con (k_kb k)) (-1) (-1)) ∧ k_sched k' = k_sched k ∧
    ∀ b, b < sub E ∨ sub E + Z.of_nat (length s) < b → rd (k_mem k') b = rd (k_mem k) b.
Proof. apply sys_write_spec. Qed.

(** ** cat *)

(** What [cat] prints: chunks of 60 characters, each starting at the last
    character of the one before. *)
Fixpoint cat_text (n : nat) (data : list Z) : list Z :=
  match n with
  | O => []
  | S n' => if decide (60 <= length data)%nat then take 60 data ++ cat_text n' (drop 59 data) else data
  end.

(** The file behind a descriptor, and that the buffer of [cat] is apart from
    both. *)
Record cat_file (E : env) (m : mem) (fd h : Z) (data : list Z) : Prop := {
  cf_size : load_int m (phys fd + f_size) = Z.of_nat (length data);
  cf_addr : load64 m (phys fd + f_addr) = VADDR h;
  cf_data : bytes_at m (h + skip_size) data;
  cf_text : Forall (λ c, c ≠ 0) data;
  cf_low : 0 <= h ∧ h + skip_size + Z.of_nat (length data) < 2 ^ 31 ∧ 0 <= readbuf E < 2 ^ 31;
  cf_apart : disj (readbuf E) 61 (h + skip_size) (Z.of_nat (length data)) ∧ disj (readbuf E) 61 (phys fd) sizeof_file;
}.

Lemma cat_file_agree E m m' fd h data :
  cat_file E m fd h data → (∀ b, b < readbuf E ∨ readbuf E + 60 < b → rd m' b = rd m b) → cat_file E m' fd h data.
Proof.
  intros [F1 F2 F3 F4 F5 [D1 D2]] H. unfold disj, sizeof_file, f_size, f_addr in *. constructor; try done.
  - rewrite <- F1. unfold load_int. f_equal. apply load_agree. intros b Hb. apply H. unfold f_size in *. lia.
  - rewrite <- F2. apply load_agree. intros b Hb. apply H. unfold f_addr in *. lia.
  - intros i c Hi. rewrite <- (F3 i c Hi). apply H. apply lookup_lt_Some in Hi. lia.
Qed.

(** One round: the chunk is printed and the position moves by one less. *)
Lemma cat_round E k fd h data :
  cat_file E (k_mem k) fd h data → 0 <= k_done k < Z.of_nat (length data) → (60 < sf E)%nat →
  let n := Z.min 60 (Z.of_nat (length data) - k_done k) in
  let chunk := take (Z.to_nat n) (drop (Z.to_nat (k_done k)) data) in
  ∃ k1 k2, on_tar (Tarfs.read_file (sf E) fd (readbuf E) 60) k = Some (n, k1) ∧
    kprint_at E (chars "%s") (readbuf E) k1 = Some ((), k2) ∧ k_done k2 = k_done k + n - 1 ∧
    cat_file E (k_mem k2) fd h data ∧ k_sched k2 = k_sched k ∧
    screen (con (k_kb k2)) = screen (print_seq chunk (con (k_kb k)) (-1) (-1)).
Proof.
  intros HF Hd Hsf n chunk. pose proof HF as [F1 F2 F3 F4 (L1 & L2 & L3) [D1 D2]].
  assert (Hc : Forall (λ c, c ≠ 0) chunk) by (by apply Forall_take, Forall_drop).
  assert (Hn : length chunk = Z.to_nat n) by (unfold chunk; rewrite length_take, length_drop; lia).
  destruct (read_file_spec (sf E) fd (readbuf E) 60 (tar_of k) h data F1 F2 F3) as (m & Em & Hb & Ho & Hlen);
    cbn [bytesdone tar_of] in *; try lia; [rewrite phys_low by done; unfold disj in *; lia|].
  fold n in Em, Hb, Ho, Hlen. fold chunk in Em, Hb, Hlen. rewrite Hlen in Em by done.
  rewrite phys_low in Hb, Ho by done.
  set (k1 := with_tar k (Tarfs m (k_idx k) (k_done k + Z.of_nat (Z.to_nat n) - 1) (con (k_kb k)))).
  pose proof (cstr_until_nul m chunk (readbuf E) Hb) as Hs. rewrite until_nul_all in Hs by done.
  destruct (kprint_at_s E (readbuf E) chunk k1) as (c & Ec & Hscr); [exact Hs|lia|unfold FMT_LEN; lia|].
  eexists k1, _. split; [unfold on_tar; by rewrite Em|]. split; [exact Ec|].
  split; [cbn; lia|]. split; [|split; [done|]].
  - eapply cat_file_agree; [exact HF|]. intros b Hbb. cbn. apply Ho. lia.
  - cbn [k_kb with_k_kb con with_con]. rewrite Hscr. done.
Qed.

Lemma cat_loop_rounds E fd h data n : ∀ k bread,
  cat_file E (k_mem k) fd h data → 0 <= k_done k < Z.of_nat (length data) → (60 < sf E)%nat → 60 <= bread →
  Z.of_nat (length data) - k_done k <= Z.of_nat n →
  ∃ k', cat_loop E n fd 60 bread k = Some ((), k') ∧ k_sched k' = k_sched k ∧
    screen (con (k_kb k')) = screen (print_seq (cat_text n (drop (Z.to_nat (k_done k)) data)) (con (k_kb k)) (-1) (-1)).
Proof.
  induction n as [|n IH]; intros k bread HF Hd Hsf Hbr Hn; [lia|].
  cbn [cat_loop cat_text]. destruct (Z.leb_spec 60 bread) as [_|]; [|lia].
  destruct (cat_round E k fd h data HF Hd Hsf) as (k1 & k2 & E1 & E2 & Hdone & HF2 & Hs2 & Hscr).
  set (rest := drop (Z.to_nat (k_done k)) data) in *. assert (Hlr : length rest = (length data - Z.to_nat (k_done k))%nat) by apply length_drop.
  rewrite (km_bind_some _ _ _ _ _ E1), (km_bind_some _ _ _ _ _ E2), i32_small by lia.
  destruct (decide (60 <= length rest)%nat) as [Hge|Hlt].
  - rewrite Z.min_l in * by lia. destruct (IH k2 60 HF2) as (k' & E' & Hs' & Hscr'); try lia.
    exists k'. split; [exact E'|]. split; [congruence|]. rewrite Hscr', Hdone.
    replace (drop (Z.to_nat (k_done k + 60 - 1)) data) with (drop 59 rest)
      by (unfold rest; rewrite drop_drop; f_equal; lia).
    rewrite <- print_seq_app. by apply print_seq_proper.
  - rewrite Z.min_r in * by lia. exists k2. split; [|split; [done|]].
    + destruct n; cbn [cat_loop]; (destruct (Z.leb_spec 60 (Z.of_nat (length data) - k_done k)); [lia|done]).
    + rewrite Hscr. f_equal. f_equal. apply take_ge. lia.
Qed.


(** ** Exceptions *)

(** Text without a directive is printed as it is. *)
Lemma pieces_plain s : ∀ cur, 37 ∉ s → pieces 37 cur s = [cur ++ s].
Proof.
  induction s as [|c s IH]; intros cur Hs; cbn [pieces]; [by rewrite app_nil_r|].
  rewrite elem_of_cons in Hs. destruct (Z.eqb_spec c 37); [exfalso; apply Hs; by left|].
  rewrite IH by tauto. by rewrite <- app_assoc.
Qed.

Lemma take2_no_directive s c : 37 ∉ s → take 2 s ≠ [37; c].
Proof. intros Hs E. apply Hs. destruct s as [|a [|b s]]; simplify_eq/=. left. Qed.

Lemma kprint_plain E text k :
  37 ∉ text → Z.of_nat (length text) < FMT_LEN →
  ∃ c, kprint E text [] k = Some ((), with_k_kb k (with_con (k_kb k) c) (k_keys k)) ∧
    screen c = screen (print_seq text (con (k_kb k)) (-1) (-1)).
Proof.
  intros Hp Hl. assert (Er : loop_text (after_ch E) [text] [] = Some text).
  { cbn [loop_text]. unfold fits_buf. destruct (Z.ltb_spec (Z.of_nat (length text)) FMT_LEN); [|lia]. cbn [mbind option_bind].
    unfold render_piece. rewrite !bool_decide_eq_false_2; [|by (try intros [?|[?|?]]); eapply take2_no_directive..].
    cbn [mbind option_bind]. by rewrite app_nil_r. }
  destruct (kprintf_loop_text (after_ch E) [text] [] (con (k_kb k)) text Er) as (c & Ec & Hc & _).
  exists c. split; [|by apply Hc]. unfold kprint, kprintf. rewrite pieces_plain by done. cbn [length app].
  by rewrite Ec.
Qed.

Lemma exception_text_plain vector text :
  exception_text vector = Some text → (37 ∉ text) ∧ Z.of_nat (length text) < FMT_LEN.
Proof.
  unfold exception_text. intros H.
  repeat (case_match; [injection H as <-; split; [apply (bool_decide_unpack _); vm_compute; exact I|vm_compute; reflexivity]|]).
  discriminate H.
Qed.

