(* ===== verification/SyscallsSim.v ===== *)
(** * SyscallsSim: a small machine on which the system calls run

    The machine of [MemProps.boot_mem] with one mapped user page at 0x400000, a
    file table of two programs and the three tasks of [ProcessProps.demo]; the
    witnesses of the theorems of [SyscallsProps] are runs on it. *)
From Stdlib Require String Ascii.
From S2P Require Import Prelude Memory Utils Strings StringsProps PageSource Mem MemProps Paging Region Console Process ProcessProps Interrupts InterruptsProps Tarfs TarfsProps Elf Fork Syscalls SyscallsProps.
Import String.StringSyntax.

(** A program: one segment of eight bytes at 0x400100, five of them in the file. *)
Definition sim_program (m : mem) (a : Z) (name : list Z) : mem :=
  foldl (λ m w, store64 m w.1 w.2) (put_str m a name)
    [(a + 512, 0x00010102464c457f); (a + 512 + 16, 0x3e0002); (a + 512 + 24, 0x400100); (a + 512 + 32, 64);
     (a + 512 + 56, 1);
     (a + 576, 0x500000001); (a + 576 + 8, 0x100); (a + 576 + 16, 0x400100); (a + 576 + 32, 5); (a + 576 + 40, 8); (a + 512 + 0x100, 0x0908070605)].
Definition sim_entry (m : mem) (a : Z) (name : list Z) (addr : Z) : mem :=
  store64 (store_int (put_str m a name) (a + e_size) 700) (a + e_addr) (VADDR addr).

Definition sim_mem : mem :=
  let m := foldl (λ m w, store64 m w.1 w.2) boot_mem
    [(0x200000, 0x201007); (0x201000, 0x202007); (0x202010, 0x203007); (0x203000, 0x207007)] in
  let m := put_str (put_str m 0x207000 (chars "ls")) 0x207010 (chars "hello") in
  let m := put_str (put_str m 0x220000 (chars "bin/")) 0x220400 (chars "bin/oxterm") in
  let m := sim_program (sim_program m 0x240000 (chars "bin/ls")) 0x250000 (chars "bin/oxterm") in
  sim_entry (sim_entry m 0x230000 (chars "bin/ls") 0x240000) (0x230000 + sizeof_tarfs_e) (chars "bin/oxterm") 0x250000.

Definition sim_env : env :=
  Env 300 341 4096 0x230000 0x22f000 [] (VADDR 0x200000) 0x100000 0x220000 0x221000 0x220400 0x222000 0x220100 0x220200
    0x220300 0x223000 0x224000 0x225000 0x226000.

Definition sim_sched : sched := with_cpu (demo 2 1) 500 0x200000.
Definition sim_state : kstate := KState sim_mem 2 0 kb_start sim_sched 3 0 [].

Lemma sim_inv : sched_inv sim_sched [1; 2; 3].
Proof.
  constructor.
  - apply (queue_ext (demo 2 1)); [done|done|done|apply demo_queue].
  - left. apply (bool_decide_unpack _). vm_compute. exact I.
  - right. split; [apply (bool_decide_unpack _); vm_compute; exact I|done].
  - intros a x y Ha. rewrite !elem_of_cons in Ha.
    destruct Ha as [->|[->|[->|Ha]]]; [..|by apply not_elem_of_nil in Ha]; vm_compute; intros [= <- <-]; done.
Qed.

(** ** Runs *)

(** What a run has to show, for any machine. *)
Section Runs.
Context (E : env) `{A : NodeAlloc} (k : kstate).

Definition named (k : kstate) (pcb : Z) : bool :=
  match get_str (sf E) (k_mem k) (phys pcb + t_tname) with Some _ => true | None => false end.
Lemma named_name k' pcb : named k' pcb = true → has_name E k' pcb.
Proof. unfold named, has_name. destruct (get_str _ _ _); [eauto|done]. Qed.

Definition fault_run (err_code pf_addr : Z) : bool :=
  match page_fault_map E err_code pf_addr k with
  | Some (_, k0) =>
      match sbush_load E k0 with
      | Some (pcb, k1) => bool_decide (tasks (k_sched k) !! pcb = None) && named k1 pcb
      | None => false
      end
  | None => false
  end.
Lemma fault_run_steps err_code pf_addr : fault_run err_code pf_addr = true →
  ∃ k0 pcb k1, page_fault_map E err_code pf_addr k = Some ((), k0) ∧ sbush_load E k0 = Some (pcb, k1) ∧
    tasks (k_sched k) !! pcb = None ∧ has_name E k1 pcb.
Proof.
  unfold fault_run. destruct (page_fault_map E err_code pf_addr k) as [[[] k0]|]; [|done].
  destruct (sbush_load E k0) as [[pcb k1]|] eqn:E2; [|done].
  intros [H2%bool_decide_eq_true H3%named_name]%andb_prop. exists k0, pcb, k1. split_and!; done.
Qed.
End Runs.

Definition sim_task : task := Task 1 0 [111] 101 201 0 0 0 0.
Lemma sim_running : task_at (k_sched sim_state) (running_task (k_sched sim_state)) = Some sim_task.
Proof. vm_compute. reflexivity. Qed.

(** A read of the unmapped page at 0x500000 by the task. *)
Lemma sim_fault_runs : fault_run sim_env sim_state 4 0x500000 = true.
Proof. vm_compute. reflexivity. Qed.

Lemma page_fault_replaces_by_shell_witness :
  ∃ k' l' x, page_fault_handler sim_env 4 0x500000 sim_state = Some ((), k') ∧ sched_inv (k_sched k') l' ∧
    ids (k_sched k') x = Some (1, 0).
Proof.
  destruct (fault_run_steps _ _ _ _ sim_fault_runs) as (k0 & pcb & k1 & E1 & E2 & E3 & E4).
  destruct (page_fault_replaces_by_shell sim_env 4 0x500000 sim_state [1; 2; 3] k0 pcb k1 sim_inv) as (k' & l' & x & E5 & H1 & _ & _ & _ & H2);
    [apply (bool_decide_unpack _); vm_compute; exact I|discriminate|exact E1|exact E2|exact E3|exact E4|].
  exists k', l', x. split; [exact E5|]. split; [exact H1|exact H2].
Defined.

(** write(1, "hello", 2) prints "hel". *)
Lemma sim_text_mapped : vphys (k_mem sim_state) (cur_root sim_state) 0x400010 = Some 0x207010.
Proof. vm_compute. reflexivity. Qed.
Lemma sim_hello : cstr (k_mem sim_state) 0x207010 (chars "hello").
Proof. vm_compute. repeat split; discriminate. Qed.

Lemma sys_write_prints_witness :
  ∃ k', syscall_handler sim_env 1 1 0x400010 2 sim_state = Some (Some 3, k') ∧
    screen (con (k_kb k')) = screen (print_seq (chars "hel") (con (k_kb sim_state)) (-1) (-1)).
Proof.
  destruct (sys_write_prints sim_env 0x400010 2 sim_state 0x207010 (chars "hello") sim_text_mapped) as (k' & E & H & _);
    [vm_compute; reflexivity|exact sim_hello|vm_compute; lia|split; [discriminate|reflexivity]|vm_compute; reflexivity
    |left; vm_compute; discriminate|].
  exists k'. split; [exact E|exact H].
Defined.

(** cat of a file of 70 characters *)
Definition sim_data : list Z := repeat 97 69 ++ [98].
Definition sim_file : mem :=
  store64 (store_int (put_str sim_mem (0x260000 + skip_size) sim_data) (0x270000 + f_size) 70) (0x270000 + f_addr) (VADDR 0x260000).
Definition sim_cat : kstate := with_k_mem sim_state sim_file.

Lemma bytes_at_imap m a l : imap (λ i _, rd m (a + Z.of_nat i)) l = l → bytes_at m a l.
Proof.
  intros H i c Hi. pose proof (list_lookup_imap (λ i _, rd m (a + Z.of_nat i)) l i) as E.
  rewrite H, Hi in E. by injection E.
Qed.

Lemma sim_cat_file : cat_file sim_env (k_mem sim_cat) (VADDR 0x270000) 0x260000 sim_data.
Proof.
  constructor.
  - vm_compute. reflexivity.
  - vm_compute. reflexivity.
  - apply bytes_at_imap. vm_compute. reflexivity.
  - apply (bool_decide_unpack _). vm_compute. exact I.
  - vm_compute. repeat split; discriminate || reflexivity.
  - split; left; vm_compute; discriminate.
Qed.

Lemma sim_cat_text : cat_text (sf sim_env) sim_data = repeat 97 70 ++ [98].
Proof. vm_compute. reflexivity. Qed.


