(* ===== verification/SyscallsUser.v ===== *)
(** * SyscallsUser: the C library meets the kernel

    The stubs of src/libc against the dispatcher of src/sys/idt.c: which service
    each stub reaches, what comes back, and [printf] down to the screen. *)
From Stdlib Require String Ascii.
From S2P Require Import Prelude Memory Utils Strings StringsProps PageSource Mem MemProps Paging Region Console Process ProcessProps Interrupts Tarfs Elf Fork.
From S2P Require Libc LibcProps User.
From S2P Require Import Syscalls SyscallsProps SyscallsSim.
Import String.StringSyntax.

(** The service a stub's call reaches. *)
Definition reaches (c : Libc.call) : option syscall := dispatch (Libc.rax (Libc.call_regs c)).

(** A register the stub did not load keeps what the program had in it. *)
Definition reg (garbage : Z) (r : option Z) : Z := match r with Some v => v | None => garbage end.

(** [int 0x80] with the registers of a stub. *)
Definition enter (E : env) `{A : NodeAlloc} (garbage : Z) (c : Libc.call) : KM (option Z) :=
  let r := Libc.call_regs c in
  syscall_handler E (Libc.rax r) (reg garbage (Libc.rbx r)) (reg garbage (Libc.rcx r)) (reg garbage (Libc.rdx r)).

(** Every stub of the library that has a service of its name reaches it,
    whatever its arguments; [chdir], [pipe] and [execve] reach the listing of the
    files, the listing of a directory and [write], and [dup2] nothing. *)
Theorem stubs_reach_services p q r :
  reaches (Libc.write p q r) = Some Write ∧ reaches (Libc.read p q r) = Some Read ∧
  reaches Libc.fork = Some ForkCall ∧ reaches Libc.yield = Some Yield ∧
  reaches (Libc.exec p) = Some Exec ∧ reaches (Libc.execvp p q) = Some Exec ∧ reaches (Libc.exit p) = Some Exit ∧
  reaches (Libc.waitpid p q) = Some WaitPid ∧ reaches Libc.wait = Some Wait ∧
  reaches Libc.getpid = Some GetPid ∧ reaches Libc.getppid = Some GetPpid ∧ reaches (Libc.gets p) = Some Gets ∧
  reaches (Libc.open p) = Some Open ∧ reaches (Libc.close p) = Some Close ∧
  reaches (Libc.read_file p q r) = Some ReadFile ∧ reaches (Libc.opendir p) = Some OpenDir ∧
  reaches (Libc.read_dir p) = Some ReadDir ∧ reaches (Libc.closedir p) = Some CloseDir ∧
  reaches (Libc.chdir p) = Some ListDir ∧ reaches (Libc.pipe p) = Some ReadDir ∧
  reaches (Libc.execve p q r) = Some Write ∧ reaches (Libc.dup2 p q) = None.
Proof. repeat split. Qed.

(** The pointer [open] gets back is the one the kernel returned, although the
    stub passes it through an [int]: kernel addresses of the first 2 GB are
    negative as an [int] and are extended again. *)
Theorem open_keeps_pointer f p : 0 <= p < 2 ^ 31 → Libc.call_ret (Libc.open f) (VADDR p) = VADDR p.
Proof.
  intros Hp. cbn. unfold VADDR, KERNEL_VADDR, u64, i32. lia.
Qed.
Lemma open_keeps_pointer_witness : Libc.call_ret (Libc.open 0) (VADDR 12288) = VADDR 12288.
Proof. apply open_keeps_pointer. lia. Defined.

(** The kernel state [k] has the user's string [t] at [a], on one page. *)
Record user_view (E : env) (k : kstate) (m : mem) (a : Z) (t : list Z) (p : Z) : Prop := {
  uv_mapped : vphys (k_mem k) (cur_root k) a = Some p;
  uv_page : a mod PAGE_SIZE + Z.of_nat (length t) < PAGE_SIZE;
  uv_bytes : ∀ i, 0 <= i <= Z.of_nat (length t) → rd (k_mem k) (p + i) = rd m (a + i);
  uv_apart : disj p (Z.of_nat (length t) + 1) (sub E) (Z.of_nat (length t) + 1);
}.

Lemma cstr_moved m m' a a' t :
  cstr m a t → (∀ i, 0 <= i <= Z.of_nat (length t) → rd m' (a' + i) = rd m (a + i)) → cstr m' a' t.
Proof.
  revert a a'. induction t as [|c t IH]; intros a a' Ht Hm; pose proof (Hm 0 ltac:(lia)) as H0; rewrite !Z.add_0_r in H0.
  - cbn in *. congruence.
  - destruct Ht as (H1 & H2 & H3). split; [congruence|]. split; [done|]. eapply IH; [exact H3|].
    intros i Hi. rewrite <- !Z.add_assoc. apply Hm. cbn [length]. lia.
Qed.

(** C14: What a program prints with [printf] appears on the screen: the text of
    the format, when it has fewer than 100 characters, is shown as printing it
    at the cursor shows it, and [printf] returns its length. *)
Theorem printf_reaches_screen E `{A : NodeAlloc} garbage fuel write_buf istr m str fmt vs ws t :
  disj write_buf 1024 istr 100 → 0 <= write_buf < 2 ^ 64 →
  cstr m str fmt → LibcProps.apart write_buf istr str (Z.of_nat (length fmt) + 1) →
  Forall2 (LibcProps.passes fuel write_buf istr m) vs ws →
  LibcProps.render fmt vs = Some t → Forall (λ c, c ≠ 0) t → Z.of_nat (length t) < FMT_LEN →
  (length fmt < fuel)%nat → (1024 <= fuel)%nat → (length t < sf E)%nat →
  ∃ m' c, Libc.printf fuel write_buf istr m str ws = Some (m', c) ∧ cstr m' write_buf t ∧
    Libc.call_ret c (Z.of_nat (length t)) = Z.of_nat (length t) ∧
    ∀ k p, user_view E k m' write_buf t p →
    ∃ k', enter E garbage c k = Some (Some (Z.of_nat (length t)), k') ∧
      screen (con (k_kb k')) = screen (print_seq t (con (k_kb k)) (-1) (-1)).
Proof.
  intros Hd Hw Hs Ha Hvs Hr Ht Hl Hf1 Hf2 Hf3. unfold FMT_LEN in Hl.
  destruct (LibcProps.printf_spec fuel write_buf istr m str fmt vs ws t) as (m' & c & E1 & E2 & E3 & Hc & _); try done; [lia|].
  exists m', c. split; [exact E1|]. split; [exact Hc|]. split; [rewrite E3; apply i32_small; lia|].
  intros k p [V1 V2 V3 V4]. pose proof (cstr_moved _ _ _ _ _ Hc V3) as Hck.
  destruct (sys_write_spec E write_buf (Z.of_nat (length t)) k p t V1 V2 Hck Hf3) as (k' & Ek & Hscr & _);
    [lia|unfold FMT_LEN; lia|exact V4|].
  rewrite take_ge in Ek, Hscr by lia. exists k'. split; [|exact Hscr].
  unfold enter. rewrite E2. exact Ek.
Qed.

Lemma cstr_same m m' a a' t :
  cstr m a t → cstr m' a' t → ∀ i, 0 <= i <= Z.of_nat (length t) → rd m' (a' + i) = rd m (a + i).
Proof.
  revert a a'. induction t as [|c t IH]; intros a a' H H' i Hi; cbn [length] in Hi.
  - replace i with 0 by lia. rewrite !Z.add_0_r. cbn in *. congruence.
  - destruct H as (H1 & H2 & H3), H' as (H1' & _ & H3'). destruct (decide (i = 0)) as [->|]; [rewrite !Z.add_0_r; congruence|].
    specialize (IH _ _ H3 H3' (i - 1) ltac:(lia)). rewrite <- !Z.add_assoc in IH. by replace (1 + (i - 1)) with i in IH by lia.
Qed.

(** printf("%d %s", -7, "ok") on the machine of [SyscallsSim]; the library's
    buffer is at 0x400400. *)
Definition sim_text : list Z := chars "-7 ok".
Definition sim_printed : kstate := with_k_mem sim_state (put_str sim_mem 0x207400 sim_text).

Lemma sim_printed_text : cstr (k_mem sim_printed) 0x207400 sim_text.
Proof. vm_compute. repeat split; discriminate. Qed.
Lemma sim_printed_mapped : vphys (k_mem sim_printed) (cur_root sim_printed) 0x400400 = Some 0x207400.
Proof. vm_compute. reflexivity. Qed.

Lemma printf_reaches_screen_witness :
  ∃ m' c k', Libc.printf 1024 0x400400 0x400900 (LibcProps.poke (LibcProps.poke ∅ 0 (chars "%d %s")) 50 (chars "ok")) 0 [-7; 50] = Some (m', c) ∧
    enter sim_env 0 c sim_printed = Some (Some 5, k') ∧
    screen (con (k_kb k')) = screen (print_seq sim_text (con (k_kb sim_printed)) (-1) (-1)).
Proof.
  destruct (printf_reaches_screen sim_env 0 1024 0x400400 0x400900
    (LibcProps.poke (LibcProps.poke ∅ 0 (chars "%d %s")) 50 (chars "ok")) 0 (chars "%d %s")
    [LibcProps.VInt (-7); LibcProps.VStr (chars "ok")] [-7; 50] sim_text) as (m' & c & E1 & E2 & _ & H).
  - left. vm_compute. discriminate.
  - split; [discriminate|reflexivity].
  - vm_compute. repeat split; discriminate.
  - split; left; vm_compute; discriminate.
  - apply Forall2_cons. split; [split; [reflexivity|discriminate]|]. apply Forall2_cons. split; [|by apply Forall2_nil].
    split; [vm_compute; repeat split; discriminate|]. split; [vm_compute; lia|]. split; left; vm_compute; discriminate.
  - vm_compute. reflexivity.
  - repeat constructor; discriminate.
  - vm_compute. reflexivity.
  - vm_compute. lia.
  - lia.
  - vm_compute. lia.
  - destruct (H sim_printed 0x207400) as (k' & Ek & Hscr).
    { constructor; [exact sim_printed_mapped|vm_compute; reflexivity| |left; vm_compute; discriminate].
      exact (cstr_same _ _ _ _ _ E2 sim_printed_text). }
    exists m', c, k'. split; [exact E1|]. split; [exact Ek|exact Hscr].
Defined.
