(* ===== verification/SyscallTrap.v ===== *)
(** * SyscallTrap: a system call from user mode and back

    The trap, [isr128], the dispatcher of [Syscalls] and the return, as one step
    of the user program, for the calls that stay on the caller's kernel stack.  The
    compiled [syscall_handler] is a parameter that does what the model of the C
    function does, beside the use of its own stack and variables. *)
From S2P Require Import Prelude Memory Utils PageSource Mem Console Process ProcessProps Interrupts InterruptsProps Tarfs Elf Fork Syscalls SyscallsProps.
From S2P Require Import Stubs StubsProps.

Section Trap.
Context (E : env) `{A : NodeAlloc}.
Context (code : Z → option instr) (C : cfun → machine → option machine) (isr : Z → Z) (IDT : gmap Z gate).
(** The kernel's state but for the memory, which is the machine's. *)
Context (k : kstate).

(** Where the compiled kernel has memory of its own that the model has not: the
    [depth] bytes of stack below the return address, and [vars], the variables
    that the model keeps in its state and not in memory. *)
Context (depth : Z) (vars : Z → Prop).
Definition private (rsp x : Z) : Prop := phys rsp - depth <= x < phys rsp ∨ vars x.

(** The compiled function, for the calls that stay on the caller's kernel stack:
    it reads the number and the arguments from the registers in which it is
    entered, leaves a result in rax when the call has one, and writes memory as
    the model does, but for its own.  It returns when the bytes above its frame
    are not written. *)
Definition runs_handler : Prop := ∀ c0 r k',
  (∀ s, dispatch (gpr c0 RAX) = Some s → stays_here s = true) →
  Syscalls.syscall_handler E (gpr c0 RAX) (gpr c0 RBX) (gpr c0 RCX) (gpr c0 RDX) (with_k_mem k (m_mem c0)) = Some (r, k') →
  agree_on (m_mem c0) (k_mem k') (phys (m_rsp c0)) 160 →
  ∃ c1, c_returns (C Stubs.syscall_handler) c0 c1 152 ∧ (∀ x, ¬ private (m_rsp c0) x → rd (m_mem c1) x = rd (k_mem k') x) ∧
    ∀ v, r = Some v → gpr c1 RAX = v.

(** C7: a system call that neither switches tasks nor forks is an atomic step of
    the program that makes it.  After [int 0x80] with the number and the arguments
    in rax, rbx, rcx and rdx, the dispatcher is entered with exactly these and on
    a memory that differs from the program's only in 160 bytes of the kernel
    stack; when it comes back without having written these, the program continues after the
    instruction with the call's value in rax, if it has one, with all other
    registers, flags and segments unchanged, on the dispatcher's memory but for
    the kernel's own bytes, and no task has changed.  The compiled function is
    taken to do what its model does ([runs_handler]). *)
Theorem syscall_trap_returns c :
  runs_handler → is_word (isr 128) → placed code (isr 128) isr128_code → fits c → room (frame_top (tss_rsp0 (k_sched k)) c) 20 →
  (∀ s, dispatch (gpr c RAX) = Some s → stays_here s = true) →
  ∃ ct c0, interrupt (idt_init isr IDT) (tss_rsp0 (k_sched k)) 128 true None c = Some ct ∧
    enters code C ct Stubs.syscall_handler c0 ∧ gpr c0 = gpr c ∧ m_rsp c0 = frame_top (tss_rsp0 (k_sched k)) c - 160 ∧
    kept_outside (m_mem c) (m_mem c0) (m_rsp c0) (frame_top (tss_rsp0 (k_sched k)) c) ∧
    ∀ r k', Syscalls.syscall_handler E (gpr c RAX) (gpr c RBX) (gpr c RCX) (gpr c RDX) (with_k_mem k (m_mem c0)) = Some (r, k') →
    agree_on (m_mem c0) (k_mem k') (phys (m_rsp c0)) 160 →
    ∃ c', steps code C ct c' ∧ continues c c' ∧ (∀ v, r = Some v → gpr c' RAX = v) ∧ (∀ g, g ≠ RAX → gpr c' g = gpr c g) ∧
      (∀ x, ¬ private (m_rsp c0) x → rd (m_mem c') x = rd (k_mem k') x) ∧ k_sched k' = k_sched k.
Proof.
  intros HC Hi Hcode Hf Hr Hst.
  destruct (isr128_run code C isr IDT (tss_rsp0 (k_sched k)) c Hi Hcode Hf Hr) as (ct & c0 & Ht & N0 & G0 & R0 & K0 & _ & Hret).
  exists ct, c0. split; [exact Ht|]. split; [exact N0|]. split; [exact G0|]. split; [exact R0|]. split; [exact K0|]. intros r k' Hs Ha.
  destruct (HC c0 r k') as (c1 & H1 & M1 & V1); [by rewrite G0|by rewrite G0|exact Ha|].
  destruct (Hret c1 H1) as (c' & S & HK & G & M). exists c'. split; [exact S|]. split; [exact HK|].
  split; [intros v ->; rewrite G; by apply V1|]. split; [intros g Hne; rewrite G; by rewrite decide_False|].
  split; [by rewrite M|]. exact (leaves_syscall E _ _ _ _ Hst _ _ _ Hs).
Qed.
End Trap.

(** ** getpid

    On the tasks of [ProcessProps.demo], the second of which runs. *)

(** A function that does what the model says, writes a word of its stack and
    returns. *)
Definition model_handler (E : env) (k : kstate) (f : cfun) (c0 : machine) : option machine :=
  '(r, k') ← Syscalls.syscall_handler E (gpr c0 RAX) (gpr c0 RBX) (gpr c0 RCX) (gpr c0 RDX) (with_k_mem k (m_mem c0));
  let m := store64 (k_mem k') (phys (m_rsp c0) - 8) (gpr c0 RBP) in
  let c := set_rsp (set_rip (set_mem c0 m) (top c0)) (m_rsp c0 + 8) in
  Some (match r with Some v => set_gpr c RAX v | None => c end).

Lemma model_handler_runs E k : runs_handler E (model_handler E k) k 8 (λ _, False).
Proof.
  intros c0 r k' _ Hs Ha. set (m := store64 (k_mem k') (phys (m_rsp c0) - 8) (gpr c0 RBP)).
  set (c := set_rsp (set_rip (set_mem c0 m) (top c0)) (m_rsp c0 + 8)).
  assert (Hm : ∀ x, ¬ private 8 (λ _, False) (m_rsp c0) x → rd m x = rd (k_mem k') x).
  { intros x Hx. unfold private in Hx. apply rd_store64_ne. lia. }
  exists (match r with Some v => set_gpr c RAX v | None => c end).
  assert (Em : m_mem (match r with Some v => set_gpr c RAX v | None => c end) = m) by (by destruct r). split.
  - constructor; [unfold model_handler; by rewrite Hs|destruct r; reflexivity..|]. rewrite Em.
    intros x Hx. rewrite Hm by (unfold private; lia). apply Ha. lia.
  - rewrite Em. split; [exact Hm|]. intros v ->. reflexivity.
Qed.

Definition trap_state : kstate :=
  let s := demo 2 1 in
  KState ∅ 0 0 kb_start (Sched (nodes s) (tasks s) (queue_head s) (running_task s) (previous s) (task_count s) demo_rsp0 500 0x200000) 3 0 [].
Definition trap_env : env := Env 0 0 0 0 0 [] 0 0 0 0 0 0 0 0 0 0 0 0 0.

Lemma trap_getpid m a b c : Syscalls.syscall_handler trap_env 26 a b c (with_k_mem trap_state m) = Some (Some 1, with_k_mem trap_state m).
Proof. reflexivity. Qed.

Lemma syscall_trap_returns_witness :
  ∃ ct c', interrupt (idt_init demo_isr ∅) demo_rsp0 128 true None (set_gpr demo_machine RAX 26) = Some ct ∧
    steps (code_of (demo_isr 128) isr128_code) (model_handler trap_env trap_state) ct c' ∧
    m_rip c' = 0x400123 ∧ gpr c' RAX = 1 ∧ gpr c' RBX = 101.
Proof.
  set (c := set_gpr demo_machine RAX 26).
  assert (Hf : fits c).
  { constructor; try (apply demo_fits). intros r. cbn. case_decide; [unfold is_word; lia|apply demo_fits]. }
  destruct (syscall_trap_returns trap_env (code_of (demo_isr 128) isr128_code) (model_handler trap_env trap_state) demo_isr ∅
    trap_state 8 (λ _, False) c) as (ct & c0 & Ht & _ & _ & _ & _ & H).
  - apply model_handler_runs.
  - split; [discriminate|reflexivity].
  - apply placed_code_of; vm_compute; [discriminate|reflexivity].
  - exact Hf.
  - split; [discriminate|reflexivity].
  - intros s [= <-]. reflexivity.
  - destruct (H (Some 1) (with_k_mem trap_state (m_mem c0))) as (c' & S & [E1 _ _ _ _ _] & E2 & E3 & _);
      [apply trap_getpid|apply agree_on_refl|].
    exists ct, c'. split; [exact Ht|]. split; [exact S|]. split; [exact E1|]. split; [by apply E2|]. by rewrite E3.
Defined.
