(* ===== verification/Exec.v ===== *)
(** * Exec: the call exec, from the file to the running program

    [sys_exec] with its loading: the theorems of [Program] on [elf_run_bin] and
    those of [SyscallsProps] on the task list together.  The file has been found;
    the memory it leaves is described by the allocator's pool and the kernel's
    tables. *)
From Stdlib Require String Ascii.
From S2P Require Import Prelude Memory Utils Strings PageSource Mem MemProps Paging Region PagingProps Console Tarfs TarfsProps Elf ElfProps.
From S2P Require Import Process ProcessProps Fork ForkProps Interrupts InterruptsProps Stubs StubsProps Launch Program Syscalls SyscallsProps SyscallsSim.
Import String.StringSyntax.

(** ** Renaming a loaded task *)

Lemma loaded_renamed mf fl N g T m m' P R h hd us PID parent name isr32 argc argv a b :
  (length name < 104)%nat →
  program_loaded mf fl N g T m m' P R h hd us PID parent name isr32 argc argv →
  program_loaded mf fl N g T m (renamed m' (VADDR P) a b) P R h hd us a b name isr32 argc argv.
Proof.
  intros Hl [HP Hf TF [U1 U2 U3] K SR En (g' & T' & W & B)]. destruct (task_addr _ _ HP) as [Ep _].
  unfold renamed. rewrite Ep. set (m2 := store64 _ _ _).
  assert (F2 : ∀ x, ¬ P + t_pid <= x < P + t_cr3 → rd m2 x = rd m' x).
  { intros x Hx. unfold m2. task_fields. by task_loads. }
  assert (Fo : ∀ x, ¬ P <= x < P + block_size_ → rd m2 x = rd m' x) by (intros x Hx; apply F2; task_fields; lia).
  assert (L2 : ∀ x, ¬ (P + t_pid < x + 8 ∧ x < P + t_cr3) → load64 m2 x = load64 m' x).
  { intros x Hx. apply load_agree. intros y Hy. apply F2. lia. }
  destruct (wf_data (L := mem_page_source_laws mf fl N) g' m' R T' m2 W) as [W2 V2].
  { intros x Hx. apply Fo. intros Hin. apply Hx. by apply (B x Hin). }
  destruct TF as [T1 T2 T3 T4 T5 T6]. constructor; try assumption.
  - constructor; try (rewrite L2 by (task_fields; lia); assumption).
    + unfold m2. task_fields. by task_loads.
    + unfold m2. task_fields. by task_loads.
    + eapply cstr_agree; [exact T6|]. intros x Hx. apply F2. task_fields. lia.
  - constructor; [..|exact U3]; intros i Hi.
    + destruct (U1 i Hi) as (x & E1 & E2 & E3). exists x. rewrite V2, Fo by exact E2. done.
    + destruct (U2 i Hi) as (x & E1 & E2 & E3). exists x. rewrite V2, Fo by exact E2. done.
  - intros x Hx. destruct (K x Hx) as [K1 K2]. split; [exact K1|]. by rewrite Fo.
  - eapply stack_ready_agree; [|exact SR]. intros x H1 _. apply F2. task_fields. lia.
  - rewrite L2 by (task_fields; lia). exact En.
  - by exists g', T'.
Qed.

(** ** The header check *)

Lemma check_agree m m' h size : agree_on m m' h size → 64 <= size → 0 <= h → h + size < 2 ^ 31 →
  elf_check_supported m' (VADDR h) = elf_check_supported m (VADDR h).
Proof.
  intros Ag Hs H0 H1. unfold elf_check_supported, elf_check_file. rewrite phys_VADDR by lia.
  assert (E1 : ∀ i, 0 <= i < 16 → e_ident m' h i = e_ident m h i) by (intros i Hi; apply Ag; lia).
  assert (E2 : e_type m' h = e_type m h) by (apply load_agree; eapply agree_on_sub; [exact Ag|lia..]).
  assert (E3 : e_machine m' h = e_machine m h) by (apply load_agree; eapply agree_on_sub; [exact Ag|lia..]).
  by rewrite E2, E3, !E1 by done.
Qed.

Section Exec.
Context (E : env) `{A : NodeAlloc} {AL : NodeAllocLaws A} (N : nat).
Abbreviation settled := (ElfProps.settled (mf E) (free_list E) N).
Abbreviation loaded := (program_loaded (mf E) (free_list E) N).

(** ** The arguments *)

(** A range that the call may write: settled, and none of what it still reads. *)
Definition buffer_ok (g : list page) (T : gmap (list Z) Z) (a n : Z) (reads : list (Z * Z)) : Prop :=
  (∀ b, a <= b < a + n → settled g T b) ∧ Forall (λ r, disj a n r.1 r.2) reads.

(** The state in which the file was found: its structure at [fd], the string of
    the command at [p] and the argument at [q]. *)
Record exec_ready (k : kstate) (third : Z) (g : list page) (kroot : Z) (T : gmap (list Z) Z) (h size : Z) (n : nat) (hd : phdr)
    (F : Z) (name : list Z) (fd p q : Z) (command arg : list Z) : Prop := {
  er_run : run_bin_ok (sf E) (mf E) (free_list E) N g (k_mem k) kroot T h size n hd F name 0 0;
  er_kernel : ker_pml4 E = VADDR kroot;
  er_fd : load64 (k_mem k) (phys fd + f_addr) = F ∧ F +64 512 = VADDR h;
  er_valid : elf_check_supported (k_mem k) (VADDR h) = (1, []);
  er_user : vphys (k_mem k) (cur_root k) third = Some q ∧ third mod PAGE_SIZE + Z.of_nat (length arg) < PAGE_SIZE;
  er_arg : cstr (k_mem k) q arg ∧ (length arg < sf E)%nat;
  er_command : cstr (k_mem k) p command;
  er_argument : buffer_ok g T (argument E) (Z.of_nat (length arg) + 1)
    [(q, Z.of_nat (length arg) + 1); (p, Z.of_nat (length command) + 1); (argvec E, 8); (phys fd + f_addr, 8);
     (h, size); (phys F, Z.of_nat (length name) + 1)];
  er_argvec : buffer_ok g T (argvec E) 8
    [(p, Z.of_nat (length command) + 1); (phys fd + f_addr, 8); (h, size); (phys F, Z.of_nat (length name) + 1)];
  er_range : 0 <= argvec E < 2 ^ 31 - 8;
}.

(** The number of arguments: one, unless the argument is empty or the command
    itself. *)
Definition exec_argc (command arg : list Z) : Z := if bool_decide (arg = [] ∨ arg = command) then 0 else 1.

Lemma exec_argc_range command arg : 0 <= exec_argc command arg <= 1.
Proof. unfold exec_argc. case_bool_decide; lia. Qed.

(** The memory with the argument and its vector. *)
Lemma exec_arguments k third g kroot T h size n hd F name fd p q command arg :
  exec_ready k third g kroot T h size n hd F name fd p q command arg →
  ∃ m2, str_cpy (sf E) (k_mem k) (argument E) q = Some m2 ∧
    let m3 := store64 m2 (argvec E) (VADDR (argument E)) in
    cstr m3 (argument E) arg ∧ cstr m3 p command ∧ load64 m3 (phys fd + f_addr) = F ∧ agree_on (k_mem k) m3 h size ∧
    load64 m3 (argvec E) = VADDR (argument E) ∧
    run_bin_ok (sf E) (mf E) (free_list E) N g m3 kroot T h size n hd F name (exec_argc command arg) (argvec E).
Proof.
  intros [[W Rn Av Fu Fi [Nm Nl] Ns _ _] _ [Hfd _] _ _ [Ha Hal] Hc [S1 D1] [S2 D2] Hr]. rewrite !Forall_cons in D1. rewrite !Forall_cons in D2. cbn [fst snd] in D1, D2.
  destruct D1 as (Dq & Dp & Dv & Df & Dh & DF & _), D2 as (Vp & Vf & Vh & VF & _).
  destruct (str_cpy_spec (sf E) (k_mem k) (argument E) q arg Ha Hal) as (m2 & E2 & C2 & F2); [unfold disj in *; lia|].
  exists m2. split; [exact E2|]. intros m3. unfold disj in *.
  assert (F3 : ∀ b, ¬ argument E <= b <= argument E + Z.of_nat (length arg) → ¬ argvec E <= b < argvec E + 8 → rd m3 b = rd (k_mem k) b).
  { intros b H1 H2. unfold m3. rewrite rd_store64_ne by lia. apply F2. lia. }
  assert (AF : agree_on (k_mem k) m3 h size) by (intros b Hb; apply F3; lia).
  assert (Dat : ∀ b, ¬ data_byte (L := mem_page_source_laws (mf E) (free_list E) N) T b → rd m3 b = rd (k_mem k) b).
  { intros b Hb. apply F3; intros Hin; apply Hb; [apply S1|apply S2]; lia. }
  split; [|split; [|split; [|split; [exact AF|split]]]].
  - eapply cstr_agree; [exact C2|]. intros b Hb. apply rd_store64_ne. lia.
  - eapply cstr_agree; [exact Hc|]. intros b Hb. apply F3; lia.
  - rewrite <- Hfd. apply load_agree. intros b Hb. apply F3; lia.
  - unfold m3. rewrite load64_store64_eq. apply u64_small, u64_range.
  - constructor; try assumption.
    + by apply (wf_data (L := mem_page_source_laws (mf E) (free_list E) N) g (k_mem k)).
    + eapply program_file_agree; [exact Fi|]. intros b Hb. split; [by apply Fi|by apply AF].
    + split; [|exact Nl]. eapply cstr_agree; [exact Nm|]. intros b Hb. apply F3; lia.
    + pose proof (exec_argc_range command arg). lia.
    + rewrite phys_low by lia. pose proof (exec_argc_range command arg). intros b Hb. apply S2. lia.
Qed.

Lemma on_sched_read {B} (f : nat → SM B) k a : f (fuel_of (k_sched k)) (k_sched k) = Ret (a, k_sched k) → on_sched f k = Some (a, k).
Proof. intros H. rewrite (on_sched_ret f k a _ H). by destruct k. Qed.

(** [parse_file] of a file that can be loaded. *)
Lemma parse_file_loads k fd argc argv me t g kroot T h size n hd F name :
  run_bin_ok (sf E) (mf E) (free_list E) N g (k_mem k) kroot T h size n hd F name argc argv → ker_pml4 E = VADDR kroot →
  load64 (k_mem k) (phys fd + f_addr) = F → F +64 512 = VADDR h → elf_check_supported (k_mem k) (VADDR h) = (1, []) →
  get_running_task (k_sched k) = Ret (me, k_sched k) → tasks (k_sched k) !! me = Some t →
  ∃ P R us k', parse_file E fd argc argv k = Some (VADDR P, k') ∧
    loaded g T (k_mem k) (k_mem k') P R h hd us (k_PID k) (pid t) name (isr32 E) argc argv.
Proof.
  intros Hok HK HF Hh Hv Hme Ht.
  destruct (elf_run_bin_spec (sf E) (mf E) (free_list E) N g (k_mem k) kroot T h size n hd (k_PID k) (pid t) (isr32 E) F name argc argv Hok)
    as (P & R & us & m' & Er & PL). exists P, R, us.
  unfold parse_file. rewrite (km_bind_some _ _ _ _ _ (on_sched_read (λ _, get_running_task) k me Hme)).
  rewrite (km_bind_some _ _ _ _ _ (on_sched_read (λ _, get_task me) k t (get_task_ret _ _ _ Ht))).
  set (k' := with_k_PID (with_k_sched (with_k_mem k m') (with_cpu (k_sched k) (cpu_rsp (k_sched k)) (cr3 t))) (i32 (k_PID k + 1))).
  exists k'. split; [|exact PL].
  rewrite (km_bind_some _ _ k (VADDR P, []) k'); [reflexivity|].
  unfold runk, elf_parse. rewrite HF, Hh, Hv, HK, Er. reflexivity.
Qed.

Lemma exec_load_runs k third g kroot T h size n hd F name fd p q command arg parent t :
  exec_ready k third g kroot T h size n hd F name fd p q command arg →
  get_running_task (k_sched k) = Ret (parent, k_sched k) → tasks (k_sched k) !! parent = Some t →
  ∃ P R us k' m, exec_load E p fd third k = Some ((parent, VADDR P), k') ∧
    loaded g T m (k_mem k') P R h hd us (i32 (k_PID k - 1)) (pid t) name (isr32 E) (exec_argc command arg) (argvec E) ∧
    agree_on (k_mem k) m h size ∧ cstr m (argument E) arg ∧ load64 m (argvec E) = VADDR (argument E).
Proof.
  intros Hr Hrun Ht. destruct (exec_arguments _ _ _ _ _ _ _ _ _ _ _ _ _ _ _ _ Hr) as (m2 & E2 & C3 & P3 & F3 & A3 & V3 & Hok).
  pose proof Hr as [_ HK [_ Hh] Hv [Hu1 Hu2] [Ha Hal] _ _ _ _].
  pose proof (rb_file _ _ _ _ _ _ _ _ _ _ _ _ _ _ _ _ Hok) as Hfi. pose proof (pf_range _ _ _ _ _ _ _ _ _ _ Hfi) as (R1 & R2 & R3).
  set (m3 := store64 m2 (argvec E) (VADDR (argument E))) in *.
  set (k1 := with_k_PID k (i32 (k_PID k - 1))). set (k2 := with_k_mem k1 m2). set (k3 := with_k_mem k2 m3).
  destruct (parse_file_loads k3 fd (exec_argc command arg) (argvec E) parent t g kroot T h size n hd F name Hok HK F3 Hh)
    as (P & R & us & k' & Ep & PL); [|exact Hrun|exact Ht|].
  { etransitivity; [|exact Hv]. by apply (check_agree (k_mem k) m3 h size). }
  exists P, R, us, k', m3. split; [|by split].
  unfold exec_load. rewrite (km_bind_some _ _ _ _ _ (on_sched_read (λ _, get_running_task) k parent Hrun)).
  rewrite (km_bind_some _ _ k () k1) by reflexivity.
  rewrite (km_bind_some _ _ k1 q k1) by (eapply user_str_spec; [exact Hu1|exact Ha|exact Hal|exact Hu2]).
  rewrite (km_bind_some _ _ k1 () k2) by (unfold on_mem; change (k_mem k1) with (k_mem k); by rewrite E2).
  rewrite (km_bind_some _ _ k2 () k3) by reflexivity.
  rewrite (km_bind_some _ _ k3 (Z.of_nat (length arg)) k3) by (by apply strlen_at_spec).
  rewrite (km_bind_some _ _ k3 (exec_argc command arg) k3).
  - rewrite (km_bind_some _ _ _ _ _ Ep). reflexivity.
  - unfold exec_argc. destruct (Z.ltb_spec 0 (Z.of_nat (length arg))) as [Hlt|Hge].
    + rewrite (km_bind_some _ _ k3 (if decide (arg = command) then 1 else -1) k3).
      * destruct arg as [|c arg']; [cbn in Hlt; lia|]. repeat case_decide || case_bool_decide; try reflexivity; naive_solver.
      * unfold asks. change (k_mem k3) with m3. rewrite (str_cmp_spec arg _ _ _ _ command C3 P3 Hal). reflexivity.
    + destruct arg; [|cbn in Hge; lia]. rewrite bool_decide_true by tauto. reflexivity.
Qed.

(** ** From the call to the program *)

(** What is settled reads alike before and after the load. *)
Lemma loaded_agree g T m m' P R h hd us PID parent name a argc argv x n :
  loaded g T m m' P R h hd us PID parent name a argc argv → (∀ b, x <= b < x + n → settled g T b) → agree_on m m' x n.
Proof. intros PL Hs b Hb. by apply PL, Hs. Qed.

Lemma loaded_has_name g T m k P R h hd us PID parent name a argc argv :
  loaded g T m (k_mem k) P R h hd us PID parent name a argc argv → (length name < sf E)%nat → has_name E k (VADDR P).
Proof.
  intros PL Hl. destruct (task_addr _ _ (pl_pcb _ _ _ _ _ _ _ _ _ _ _ _ _ _ _ _ _ _ PL)) as [Ep _].
  unfold has_name. rewrite Ep, (get_str_spec name); [eauto|apply PL|exact Hl].
Qed.

(** A user space and an entry do not depend on more than the file and the
    arguments. *)
Lemma user_space_agree m0 m m' P R h hd us size :
  agree_on m0 m h size → 0 <= p_offset hd → p_offset hd + p_filesz hd <= size →
  user_space m m' P R h hd us → user_space m0 m' P R h hd us.
Proof.
  intros Ag H0 H1 [U1 U2 U3]. constructor; [|exact U2|exact U3]. intros i Hi. destruct (U1 i Hi) as (b & E1 & E2 & E3).
  exists b. split; [exact E1|]. split; [exact E2|]. rewrite E3. destruct (Z.ltb_spec i (p_filesz hd)); [|done]. apply Ag. lia.
Qed.

Lemma enters_agree code C m0 m m' P h us size argc argv :
  agree_on m0 m h size → 64 <= size → agree_on m0 m (phys argv) (8 * argc) →
  enters_program code C m0 m' P h us argc argv → enters_program code C m m' P h us argc argv.
Proof.
  intros Ag Hs Aa H c Hc. destruct (H c Hc) as (c' & S & E1 & E2 & E3 & E4 & E5 & E6 & E7 & E8). exists c'.
  split; [exact S|]. split; [rewrite E1; symmetry; by apply (ehdr_agree m0 m h size)|]. do 5 (split; [assumption|]). split; [|exact E8].
  intros r Hr. rewrite E7 by exact Hr. symmetry. apply load_agree. eapply agree_on_sub; [exact Aa|lia..].
Qed.

Lemma running_of_task s u : task_at s (running_task s) = Some u →
  ∃ me, get_running_task s = Ret (me, s) ∧ tasks s !! me = Some u.
Proof.
  unfold task_at. intros Hu. destruct (nodes s !! running_task s) as [nd|] eqn:En; [|done].
  exists (process nd). split; [|exact Hu]. unfold get_running_task. rewrite (bind_ret (gets _) _ s (running_task s) s eq_refl).
  by rewrite (bind_ret _ _ _ _ _ (get_node_ret _ _ _ En)).
Qed.

(** C13: exec, from the file to the running program.  When the file of the command
    is there, with one segment to load, and the allocator has the pages, the call
    returns; the running task has left the list and a new one stands at its end
    with its pid and parent.  The new task's page tables, which the switch to it
    loads, show the user the bytes of the segment, zeros behind them and a
    cleared stack; the first switch to it arrives in user mode at the file's
    entry point on that stack, with one argument, the caller's string, unless
    that is empty or the command itself.  The file is as it was. *)
Theorem exec_starts_program code C buf third k l p fd k1 u g kroot T h size n hd F name q command arg :
  sched_inv (k_sched k) l → exec_find E buf k = Some ((p, fd), k1) → fd ≠ 0 →
  exec_ready k1 third g kroot T h size n hd F name fd p q command arg → tasks_in_use g (tasks (k_sched k)) →
  task_at (k_sched k) (running_task (k_sched k)) = Some u → 0 <= pid u < 2 ^ 64 → 0 <= ppid u < 2 ^ 64 →
  running_task (k_sched k) ≠ queue_head (k_sched k) → placed code (isr32 E) isr32_code →
  ∃ k' l' x P R us, sys_exec E buf third k = Some ((), k') ∧
    sched_inv (k_sched k') (l' ++ [x]) ∧ (∀ a, a ∈ l' ↔ a ∈ l ∧ a ≠ running_task (k_sched k)) ∧
    process <$> nodes (k_sched k') !! x = Some (VADDR P) ∧ ids (k_sched k') x = Some (pid u, ppid u) ∧
    regs (k_sched k') x = Some (load64 (k_mem k') P, R) ∧ user_space (k_mem k1) (k_mem k') P R h hd us ∧
    enters_program code C (k_mem k') (k_mem k') P h us (exec_argc command arg) (argvec E) ∧
    load64 (k_mem k') (argvec E) = VADDR (argument E) ∧ cstr (k_mem k') (argument E) arg ∧
    agree_on (k_mem k1) (k_mem k') h size.
Proof.
  intros Hinv Ef Hfd Hr Hu Ht I1 I2 Hh Hcode. pose proof (leaves_exec_find _ _ _ _ _ Ef) as S1.
  assert (Ht1 := Ht). rewrite <- S1 in Ht1. destruct (running_of_task _ u Ht1) as (me & Hme & Htm).
  destruct (exec_load_runs k1 third g kroot T h size n hd F name fd p q command arg me u Hr Hme Htm)
    as (P & R & us & k2 & m & El & PL & Ag & Ca & Va).
  pose proof Hr as [[_ _ _ [_ Fl] Hfi [_ Nl] _ _ _] _ _ _ _ _ _ [Sa _] [Sv _] Rv].
  destruct (exec_replaces_running_task E buf third k l p fd k1 me (VADDR P) k2 u Hinv Ef Hfd El)
    as (k' & l' & x & Ex & H1 & H2 & H3 & H4 & Hm & H5); [|by eapply loaded_has_name|done..|].
  { destruct (pl_free _ _ _ _ _ _ _ _ _ _ _ _ _ _ _ _ _ _ PL) as (i & pg & -> & Hi & Hf). by apply (Hu i pg). }
  apply (loaded_renamed _ _ _ _ _ _ _ _ _ _ _ _ _ _ _ _ _ _ (pid u) (ppid u) Nl) in PL. rewrite <- Hm in PL.
  destruct (task_addr _ _ (pl_pcb _ _ _ _ _ _ _ _ _ _ _ _ _ _ _ _ _ _ PL)) as [Ep _]. rewrite Ep in H5.
  rewrite (tf_cr3 _ _ _ _ _ _ (pl_fields _ _ _ _ _ _ _ _ _ _ _ _ _ _ _ _ _ _ PL)) in H5.
  destruct (pf_range _ _ _ _ _ _ _ _ _ _ Hfi) as (_ & Hs & _).
  assert (Af : agree_on m (k_mem k') h size) by (eapply loaded_agree; [exact PL|apply Hfi]).
  assert (Av : agree_on m (k_mem k') (argvec E) 8) by (eapply loaded_agree; [exact PL|exact Sv]).
  exists k', l', x, P, R, us. do 5 (split; [assumption|]). split; [exact H5|]. split; [|split; [|split; [|split]]].
  - eapply user_space_agree; [exact Ag| |apply Hfi|apply PL]. rewrite <- (pf_segment _ _ _ _ _ _ _ _ _ _ Hfi). apply load64_range.
  - eapply enters_agree; [exact Af|exact Hs| |by eapply loaded_enters]. rewrite phys_low by lia.
    pose proof (exec_argc_range command arg). eapply agree_on_sub; [exact Av|lia..].
  - rewrite <- Va. by apply load_agree.
  - eapply cstr_agree; [exact Ca|]. intros b Hb. apply PL, Sa. lia.
  - intros b Hb. by rewrite Af, Ag.
Qed.
End Exec.

(** ** ls on the small machine

    The file [bin/ls] of [SyscallsSim]: a header at 0x240200 and a segment of eight
    bytes, five of them in the file; the argument is [hello]. *)

Definition sim_found : kstate := default sim_state (snd <$> exec_find sim_env 0x400000 sim_state).
Definition sim_pages : list page := mark boot_pages 3 1.
Definition sim_segment : phdr := Phdr 1 5 0x100 0x400100 5 8.

Lemma sim_find : exec_find sim_env 0x400000 sim_state = Some ((0x207000, VADDR 0x3000), sim_found).
Proof.
  unfold sim_found. assert (H : fst <$> exec_find sim_env 0x400000 sim_state = Some (0x207000, VADDR 0x3000)) by (vm_compute; reflexivity).
  destruct (exec_find _ _ _) as [[r k1]|]; [|discriminate H]. injection H as ->. reflexivity.
Qed.

Lemma sim_pool : pool (k_mem sim_found) 4096 sim_pages.
Proof.
  destruct (kmalloc_init_ok 341 boot_mem 4096 boot_pages 1 3 boot_pool) as (m & _ & A);
    [lia|exact boot_first_fit|rewrite length_boot_pages; change (npages 1) with 1%nat; lia|lia|].
  eapply pool_checked; [apply A|]. vm_compute. reflexivity.
Qed.

Lemma length_sim_pages : length sim_pages = 341%nat.
Proof. unfold sim_pages. rewrite length_mark. exact length_boot_pages. Qed.

(** Everything between the tables and the frames' end is settled. *)
Lemma sim_settled b : 0x208000 <= b < 0x280000 → ElfProps.settled 341 4096 341 sim_pages demo_tables b.
Proof.
  intros Hb. split; [split|].
  - cbn. unfold pool_private, sizeof_page. lia.
  - intros π t Ht. unfold in_page, PAGE_SIZE. apply demo_tables_cases in Ht. lia.
  - intros q (i & r & -> & Hi & _). apply lookup_lt_Some in Hi. rewrite length_sim_pages in Hi. unfold in_page, PAGE_SIZE. lia.
Qed.

Lemma sim_file_ok : program_file 341 4096 341 sim_pages demo_tables (k_mem sim_found) 0x240200 300 0 sim_segment.
Proof.
  assert (E1 : e_phoff (k_mem sim_found) 0x240200 = 64) by (vm_compute; reflexivity).
  assert (E2 : e_phnum (k_mem sim_found) 0x240200 = 1) by (vm_compute; reflexivity).
  constructor; rewrite ?E1, ?E2; clear E1 E2.
  - lia.
  - intros b Hb. apply sim_settled. lia.
  - unfold sizeof_phdr. lia.
  - lia.
  - vm_compute. reflexivity.
  - reflexivity.
  - intros j Hj Hne. lia.
  - cbn. lia.
  - cbn. lia.
Qed.

Lemma sim_run_ok : run_bin_ok 300 341 4096 341 sim_pages (k_mem sim_found) 0x200000 demo_tables 0x240200 300 0 sim_segment
  (VADDR 0x240000) (chars "bin/ls") 0 0.
Proof.
  constructor.
  - apply demo_wf_of; [exact sim_pool|exact length_sim_pages|vm_compute; reflexivity].
  - exists 4%nat. split; [|lia]. split; [eexists; split; vm_compute; reflexivity|]. vm_compute. discriminate.
  - apply Nat.leb_le. vm_compute. reflexivity.
  - split; apply Nat.ltb_lt; vm_compute; reflexivity.
  - exact sim_file_ok.
  - split; [vm_compute; repeat split; discriminate|apply Nat.ltb_lt; vm_compute; reflexivity].
  - rewrite phys_VADDR by lia. change (length (chars "bin/ls")) with 6%nat. intros b Hb. apply sim_settled. lia.
  - lia.
  - intros b Hb. lia.
Qed.

Lemma sim_exec_ready : exec_ready sim_env 341 sim_found 0x400010 sim_pages 0x200000 demo_tables 0x240200 300 0 sim_segment
  (VADDR 0x240000) (chars "bin/ls") (VADDR 0x3000) 0x207000 0x207010 (chars "ls") (chars "hello").
Proof.
  assert (Ef : phys (VADDR 0x3000) = 0x3000) by (apply phys_VADDR; lia).
  assert (EF : phys (VADDR 0x240000) = 0x240000) by (apply phys_VADDR; lia).
  assert (L1 : Z.of_nat (length (chars "hello")) = 5) by reflexivity.
  assert (L2 : Z.of_nat (length (chars "ls")) = 2) by reflexivity.
  assert (L3 : Z.of_nat (length (chars "bin/ls")) = 6) by reflexivity.
  constructor; change (argument sim_env) with 0x220200; change (argvec sim_env) with 0x220300.
  - exact sim_run_ok.
  - reflexivity.
  - split; vm_compute; reflexivity.
  - vm_compute. reflexivity.
  - split; vm_compute; reflexivity.
  - split; [vm_compute; repeat split; discriminate|apply Nat.ltb_lt; vm_compute; reflexivity].
  - vm_compute. repeat split; discriminate.
  - rewrite L1, L2, L3, Ef, EF. split; [intros b Hb; apply sim_settled; lia|]. unfold f_addr, disj.
    repeat (constructor; [cbn [fst snd]; lia|]). constructor.
  - rewrite L2, L3, Ef, EF. split; [intros b Hb; apply sim_settled; lia|]. unfold f_addr, disj.
    repeat (constructor; [cbn [fst snd]; lia|]). constructor.
  - lia.
Qed.

Lemma sim_tasks_in_use : tasks_in_use sim_pages (tasks (k_sched sim_state)).
Proof.
  assert (H : forallb (λ i, match tasks (k_sched sim_state) !! VADDR (PAGE_SIZE * Z.of_nat i) with None => true | _ => false end) (seq 0 341) = true)
    by (vm_compute; reflexivity).
  rewrite forallb_forall in H. intros i q Hi _. apply lookup_lt_Some in Hi. rewrite length_sim_pages in Hi.
  assert (Hin : In i (seq 0 341)) by (apply in_seq; lia). specialize (H i Hin). by destruct (tasks _ !! _).
Qed.

Lemma sim_argvec : phys (argvec sim_env) + 8 * (place RBX - 1) = argvec sim_env.
Proof. vm_compute. reflexivity. Qed.

(** The new program runs its entry with one argument, the string hello. *)
Lemma exec_starts_program_witness :
  ∃ k' P c' b, sys_exec sim_env 0x400000 0x400010 sim_state = Some ((), k') ∧
    steps (code_of 0x100000 isr32_code) return_at_once (switch_return (load64 (k_mem k') P) (set_mem demo_machine (k_mem k'))) c' ∧
    m_rip c' = 0x400100 ∧ gpr c' RAX = 1 ∧ gpr c' RBX = VADDR b ∧ cstr (k_mem k') b (chars "hello").
Proof.
  destruct (exec_starts_program sim_env 341 (code_of 0x100000 isr32_code) return_at_once 0x400000 0x400010 sim_state [1; 2; 3]
    0x207000 (VADDR 0x3000) sim_found sim_task sim_pages 0x200000 demo_tables 0x240200 300 0 sim_segment
    (VADDR 0x240000) (chars "bin/ls") 0x207010 (chars "ls") (chars "hello") sim_inv sim_find)
    as (k' & l' & x & P & R & us & E1 & _ & _ & _ & _ & _ & _ & E2 & E3 & E4 & E5).
  - vm_compute. discriminate.
  - exact sim_exec_ready.
  - exact sim_tasks_in_use.
  - exact sim_running.
  - split; [discriminate|reflexivity].
  - split; [discriminate|reflexivity].
  - discriminate.
  - apply placed_code_of; vm_compute; [discriminate|reflexivity].
  - assert (Ea : exec_argc (chars "ls") (chars "hello") = 1) by (vm_compute; reflexivity). rewrite Ea in E2.
    destruct (E2 (set_mem demo_machine (k_mem k')) eq_refl) as (c' & S & H1 & _ & _ & _ & _ & H2 & H3 & _).
    exists k', P, c', (argument sim_env). split; [exact E1|]. split; [exact S|]. split.
    { rewrite H1. etransitivity; [apply (ehdr_agree (k_mem sim_found) (k_mem k') 0x240200 300 E5); lia|]. vm_compute. reflexivity. }
    split; [exact H2|]. split; [|exact E4]. rewrite H3 by (clear; cbn; lia). rewrite sim_argvec. exact E3.
Defined.
