(* ===== verification/Boot.v ===== *)
(** * Boot: src/sys/main.c

    The scan of the loader's memory map, the kernel's own task and the order of
    the initialisations up to the first switch.  The loader's data lie in the
    flat memory; [start] works on the joint state of [Syscalls], in which the
    task list is still empty. *)
From Stdlib Require String Ascii.
From S2P Require Import Prelude Memory Utils Strings PageSource Mem Paging Region Console Process ProcessProps Interrupts Tarfs Elf Fork Gdt Syscalls SyscallsProps.
Import String.StringSyntax.

Definition load32 (m : mem) (a : Z) : Z := load 4 m a.

(** ** The memory map *)

(** [while (modulep[0] != 0x9001) modulep += modulep[1]+2;] on physical
    addresses; a module has a type, a length and its data, in 32-bit words. *)
Fixpoint find_smap (fuel : nat) (m : mem) (modulep : Z) : option Z :=
  match fuel with
  | O => None
  | S f =>
      if load32 m modulep =? 0x9001 then Some modulep
      else find_smap f m (modulep + 4 * u32 (load32 m (modulep + 4) + 2))
  end.

(** [struct smap_t], packed. *)
Definition sizeof_smap : Z := 20.
Record smap_t := Smap { s_base : Z; s_length : Z; s_type : Z }.
Definition load_smap (m : mem) (a : Z) : smap_t := Smap (load64 m a) (load64 m (a + 8)) (load32 m (a + 16)).
Definition usable (e : smap_t) : bool := (s_type e =? 1) && negb (s_length e =? 0).

Definition smap_msg : list Z := chars "Available Physical Memory [%p-%p]" ++ [10].

Section Start.
Context (E : env) `{A : NodeAlloc}.

(** The loop over the entries from [smap] up to [last]; answers
    [last_mem_ptr]. *)
Fixpoint smap_loop (fuel : nat) (smap last last_mem_ptr : Z) : KM Z :=
  if smap <? last then
    match fuel with
    | O => runk (λ _, None)
    | S f =>
        e ← getk (λ k, load_smap (k_mem k) smap);
        last_mem_ptr ← (if usable e then
                          let p := s_base e +64 s_length e in
                          _ ← kprint E smap_msg [ANum (s_base e); ANum p]; mret p
                        else mret last_mem_ptr);
        smap_loop f (smap + sizeof_smap) last last_mem_ptr
    end
  else mret last_mem_ptr.

Definition scan_memory (modulep : Z) : KM Z :=
  modulep ← asks (λ k, find_smap (sf E) (k_mem k) modulep);
  size ← getk (λ k, load32 (k_mem k) (modulep + 4));
  smap_loop (sf E) (modulep + 8) (modulep + size + 8) 0.

(** ** The kernel's task *)

Definition root_str : list Z := chars "root".

(** [pcb_boot]: the fields and the frame from which [idle_proc] starts.
    [kernel] is the address of the name. *)
Definition boot_task (kernel idle_proc ker_cr3 : Z) : KM Z :=
  runk (λ k,
    '(pcb, m) ← kmalloc (mf E) (free_list E) (k_mem k) sizeof_task;
    let a := phys pcb in
    let m := store64 m (a + t_pml4) (ker_pml4 E) in
    let m := store64 m (a + t_cr3) ker_cr3 in
    let m := store64 m (a + t_pid) (u64 (k_PID k)) in
    let m := store64 m (a + t_ppid) (u64 (-1)) in
    let m := store64 m (a + t_kstack 511) 0x10 in
    let m := store64 m (a + t_kstack 508) 0x08 in
    let m := store64 m (a + t_kstack 510) (pcb +64 t_kstack 511) in
    let m := store64 m (a + t_kstack 509) 0x200202 in
    let m := store64 m (a + t_kstack 507) idle_proc in
    let m := store64 m (a + t_kstack 491) (isr32 E +64 29) in
    let m := store64 m a (pcb +64 t_kstack 491) in
    let m := store64 m (a + t_is_sleeping) 0 in
    let m := store64 m (a + t_sleep_time) 0 in
    let m := store64 m (a + t_is_waiting) 0 in
    n ← str_len (sf E) m kernel;
    let m := memcpy m (a + t_tname) kernel n in
    t ← task_view (sf E) m pcb;
    let s := k_sched k in
    Some (pcb, with_k_PID (with_k_sched (with_k_mem k m) (with_tasks s (<[pcb := t]> (tasks s)))) (i32 (k_PID k + 1)))).

Definition add_boot_task (kernel idle_proc ker_cr3 : Z) : KM () :=
  pcb ← boot_task kernel idle_proc ker_cr3;
  on_sched (λ n, add_to_task_list n pcb).

(** ** The file system and the shell *)

(** [opendir("bin/")], [read_dir], [load_sbush], [clear_screen] and the first
    switch; [tarfs] is the address of the archive. *)
Definition start_files (tarfs : Z) : KM () :=
  _ ← on_tar (λ t, t ← Tarfs.init_tarfs (sf E) tarfs (tl E) (ent E) (sf E) t; Some ((), t));
  p ← on_tar (Tarfs.opendir (sf E) (tl E) (ent E) (after_ch E) (path E));
  _ ← on_tar (Tarfs.read_dir (sf E) (tl E) (ent E) (after_ch E) (dirbuf E) p);
  mret ().

Definition start_shell : KM () :=
  _ ← load_sbush E;
  _ ← modk (λ k, with_k_kb k (with_con (k_kb k) (clear_screen (con (k_kb k)))) (k_keys k));
  on_sched (λ n, schedule n 1).

(** From the first task on. *)
Definition start_tasks (kernel idle_proc ker_cr3 tarfs : Z) : KM () :=
  _ ← add_boot_task kernel idle_proc ker_cr3;
  _ ← start_files tarfs;
  start_shell.
End Start.

(** ** start *)

(** The environment once the tables exist. *)
Definition with_kernel (E : env) (fl ker : Z) : env :=
  Env (sf E) (mf E) fl (tl E) (ent E) (after_ch E) ker (isr32 E) (path E) (amp E) (oxterm E) (sub E) (cmd E)
    (argument E) (argvec E) (cmd_args E) (outbuf E) (readbuf E) (dirbuf E).

(** The free list at [physfree] and the kernel's tables; answers the table's
    virtual address and leaves its physical address in CR3. *)
Definition start_memory (E : env) (num_pages physbase physfree : Z) : KM Z :=
  _ ← on_mem (λ m, Some (calculate_free_list m num_pages physfree).2);
  st ← runk (λ k,
    '(st, m) ← init_paging (P := mem_page_source (mf E) physfree) (k_mem k) (PagingState 0 0 0 0)
       (KERNEL_VADDR +64 physbase) physbase num_pages;
    let s := k_sched k in
    Some (st, with_k_sched (with_k_mem k m) (with_cpu s (cpu_rsp s) (Paging.cr3 st))));
  _ ← kprint E (chars "Top Address: %p" ++ [10]) [ANum (topVAddr st)];
  mret (ker_pml4_t st).

(** [isr] gives the address of each interrupt stub; the ports and the gates,
    which [kmain] sets and the rest does not touch, are answered beside the
    state at the first switch. *)
Definition start (E : env) `{NodeAlloc} (isr : Z → Z) (p : ports) (IDT : gmap Z gate)
    (kernel idle_proc tarfs tarfs_end initial_stack modulep physbase physfree : Z) : KM (ports * gmap Z gate) :=
  last_mem_ptr ← scan_memory E modulep;
  let num_pages := last_mem_ptr / 0x1000 in
  _ ← kprint E (chars "Num pages: %d") [ANum num_pages];
  ker ← start_memory E num_pages physbase physfree;
  let E := with_kernel E physfree ker in
  _ ← modk (λ k, with_k_sched k (with_cpu (k_sched k) (initial_stack +64 8 * 4096) (cpu_cr3 (k_sched k))));
  _ ← kprint E (chars "Page Tables Setup complete" ++ [10]) [];
  _ ← kprint E (chars "physfree %p" ++ [10]) [ANum physfree];
  _ ← kprint E (chars "tarfs in [%p:%p]" ++ [10]) [ANum tarfs; ANum tarfs_end];
  cr ← getk cur_root;
  _ ← start_tasks E kernel idle_proc cr tarfs;
  mret (kmain isr p IDT).

(** ** idle_proc *)

(** [n] rounds of the endless loop of the kernel's task. *)
Fixpoint idle_proc (n : nat) : KM () :=
  match n with
  | O => mret ()
  | S n' => _ ← on_sched (λ f, schedule f 0); idle_proc n'
  end.

(** ** boot *)

(** The attribute bytes of the screen, then the descriptor table and [start];
    [start] does not return. *)
Fixpoint white_loop (n : nat) (v : mem) (temp2 : Z) : mem :=
  match n with O => v | S n' => white_loop n' (wr v temp2 7) (temp2 + 2) end.

Definition white (v : mem) : mem := white_loop 2000 v 1.

Definition boot (E : env) `{NodeAlloc} (isr : Z → Z) (p : ports) (IDT : gmap Z gate) (gdt : list Z)
    (tss kernel idle_proc tarfs tarfs_end initial_stack loader3 loader4 kernmem physbase : Z)
    : KM (list Z * (ports * gmap Z gate)) :=
  _ ← modk (λ k, let c := con (k_kb k) in with_k_kb k (with_con (k_kb k) (with_vram c (white (vram c)))) (k_keys k));
  let gdt := init_gdt gdt tss in
  r ← start E isr p IDT kernel idle_proc tarfs tarfs_end initial_stack
        (phys (loader3 +64 kernmem -64 physbase)) physbase loader4;
  mret (gdt, r).

(** ** src/sys/apicio.c *)

Definition apicwrite (E : env) (reg value : Z) : KM () :=
  _ ← kprint E ([10] ++ chars "Writing: %x %x" ++ [10]) [ANum reg; ANum value];
  on_mem (λ m, Some (store64 m (phys reg) value)).
Definition apicread (E : env) (reg : Z) : KM Z :=
  _ ← kprint E (chars "reading: %x" ++ [10]) [ANum reg];
  getk (λ k, load64 (k_mem k) (phys reg)).
