(* ===== verification/BootProps.v ===== *)
(** * BootProps: what the kernel has when the first task starts

    The memory map is read to its end and the shell is the first user task. *)
From Stdlib Require String Ascii.
From S2P Require Import Prelude Memory Utils Strings StringsProps PageSource Mem MemProps Paging Region Console Process ProcessProps Interrupts InterruptsProps Tarfs TarfsProps Elf Fork Gdt Syscalls SyscallsProps SyscallsSim Boot.
Import String.StringSyntax.

(** ** The memory map *)

(** Modules of the lengths [mods] (in words) stand before the one at [p]. *)
Fixpoint modules_at (m : mem) (a : Z) (mods : list Z) (p : Z) : Prop :=
  match mods with
  | [] => a = p ∧ load32 m a = 0x9001
  | w :: mods => load32 m a ≠ 0x9001 ∧ load32 m (a + 4) = w ∧ 0 <= w < 2 ^ 32 - 2 ∧ modules_at m (a + 4 * (w + 2)) mods p
  end.

Lemma find_smap_spec m p mods : ∀ fuel a,
  modules_at m a mods p → (length mods < fuel)%nat → find_smap fuel m a = Some p.
Proof.
  induction mods as [|w mods IH]; intros [|fuel] a Hm Hf; cbn [length] in Hf; try lia; cbn [find_smap].
  - destruct Hm as [-> ->]. done.
  - destruct Hm as (H1 & H2 & H3 & H4). destruct (Z.eqb_spec (load32 m a) 0x9001); [done|].
    rewrite H2, u32_small by lia. apply IH; [done|lia].
Qed.

(** An entry of the loader's map is a base, a length and a type, in 8, 8 and 4
    bytes; the map is a sequence of them. *)
Definition map_entry : Type := Z * Z * Z.
Fixpoint map_at (m : mem) (a : Z) (es : list map_entry) : Prop :=
  match es with
  | [] => True
  | (base, len, ty) :: es =>
      load64 m a = base ∧ load64 m (a + 8) = len ∧ load32 m (a + 16) = ty ∧ map_at m (a + 20) es
  end.

(** Memory (type 1) of some length. *)
Definition available (e : map_entry) : Prop := e.2 = 1 ∧ e.1.2 ≠ 0.

(** [v] is the end of the last available entry, [none] when there is no such. *)
Definition ends_at (es : list map_entry) (none v : Z) : Prop :=
  (∃ before base len after, es = before ++ (base, len, 1) :: after ∧ len ≠ 0 ∧ Forall (λ e, ¬ available e) after ∧
     v = (base + len) mod 2 ^ 64) ∨
  (Forall (λ e, ¬ available e) es ∧ v = none).

Lemma ends_at_cons e es none v :
  ends_at es (if decide (available e) then (e.1.1 + e.1.2) mod 2 ^ 64 else none) v → ends_at (e :: es) none v.
Proof.
  intros [(l1 & b & n & l2 & -> & H)|[Hn ->]]; [left; by exists (e :: l1), b, n, l2|]. case_decide as Ha.
  - left. destruct e as [[b n] t]. destruct Ha as [Ht Hl]. simpl in *. subst t. by exists [], b, n, es.
  - right. split; [by constructor|done].
Qed.

#[global] Instance available_dec e : Decision (available e).
Proof. unfold available. apply _. Defined.

Lemma usable_available base len ty : usable (Smap base len ty) = bool_decide (available (base, len, ty)).
Proof.
  unfold usable, available. simpl. destruct (Z.eqb_spec ty 1), (Z.eqb_spec len 0); symmetry;
    first [by apply bool_decide_eq_true_2|apply bool_decide_eq_false_2; naive_solver].
Qed.

(** The report of an entry fits the buffers. *)
Lemma kprint_smap E x y k :
  ∃ c, kprint E smap_msg [ANum x; ANum y] k = Some ((), with_k_kb k (with_con (k_kb k) c) (k_keys k)).
Proof.
  unfold kprint, kprintf. set (ps := pieces 37 [] smap_msg).
  assert (Eps : ps = [chars "Available Physical Memory ["; chars "%p-"; chars "%p]" ++ [10]]) by reflexivity.
  rewrite Eps. cbn [length]. destruct (Z.leb_spec (Z.of_nat 3) 10); [|lia]. cbn [kprintf_loop].
  rewrite (fits_some (chars "Available Physical Memory [")) by (vm_compute; reflexivity). cbn [mbind option_bind].
  change (render_piece (after_ch E) (chars "Available Physical Memory [") [ANum x; ANum y])
    with (Some (chars "Available Physical Memory [", [ANum x; ANum y])). cbn [mbind option_bind].
  pose proof (num_string_length x 16) as Hx. pose proof (num_string_length y 16) as Hy. unfold FMT_LEN in *.
  rewrite (fits_some (chars "%p-")) by (vm_compute; reflexivity). cbn [mbind option_bind].
  change (render_piece (after_ch E) (chars "%p-") [ANum x; ANum y])
    with (str ← fits_buf (num_string x 16 ++ [45]); final ← fits_buf ([48; 120] ++ str); Some (final, [ANum y])).
  rewrite (fits_some (num_string x 16 ++ [45])) by (unfold FMT_LEN; rewrite length_app; cbn [length]; lia). cbn [mbind option_bind].
  rewrite (fits_some ([48; 120] ++ num_string x 16 ++ [45])) by (unfold FMT_LEN; cbn [length app]; rewrite ?length_app; cbn [length]; lia). cbn [mbind option_bind].
  rewrite (fits_some (chars "%p]" ++ [10])) by (vm_compute; reflexivity). cbn [mbind option_bind].
  change (render_piece (after_ch E) (chars "%p]" ++ [10]) [ANum y])
    with (str ← fits_buf (num_string y 16 ++ [93; 10]); final ← fits_buf ([48; 120] ++ str); Some (final, [] : list arg)).
  rewrite (fits_some (num_string y 16 ++ [93; 10])) by (unfold FMT_LEN; rewrite length_app; cbn [length]; lia). cbn [mbind option_bind].
  rewrite (fits_some ([48; 120] ++ num_string y 16 ++ [93; 10])) by (unfold FMT_LEN; cbn [length app]; rewrite ?length_app; cbn [length]; lia). cbn [mbind option_bind]. eauto.
Qed.

Lemma smap_loop_spec E es : ∀ fuel a none k,
  map_at (k_mem k) a es → (length es <= fuel)%nat →
  ∃ v c, smap_loop E fuel a (a + 20 * Z.of_nat (length es)) none k = Some (v, with_k_kb k (with_con (k_kb k) c) (k_keys k)) ∧
    ends_at es none v.
Proof.
  induction es as [|[[base len] ty] es IH]; intros fuel a none k He Hf; cbn [length] in *.
  - exists none, (con (k_kb k)). split; [|right; by split].
    assert (Ek : with_k_kb k (with_con (k_kb k) (con (k_kb k))) (k_keys k) = k) by (by destruct k as [? ? ? []]). rewrite Ek.
    destruct fuel; cbn [smap_loop]; (destruct (Z.ltb_spec a (a + 20 * Z.of_nat 0)); [lia|done]).
  - destruct fuel as [|fuel]; [lia|]. destruct He as (H1 & H2 & H3 & He). cbn [smap_loop].
    destruct (Z.ltb_spec a (a + 20 * Z.of_nat (S (length es)))); [|lia].
    rewrite (km_bind_some _ _ k (Smap base len ty) k) by (unfold getk, load_smap; by rewrite H1, H2, H3).
    rewrite usable_available. cbn [s_base s_length]. set (e := (base, len, ty)) in *.
    assert (∃ c, (if bool_decide (available e) then let p := base +64 len in _ ← kprint E smap_msg [ANum base; ANum p]; mret p else mret none) k =
      Some (if decide (available e) then (base + len) mod 2 ^ 64 else none, with_k_kb k (with_con (k_kb k) c) (k_keys k))) as (c & E1).
    { case_bool_decide; case_decide; try done.
      - destruct (kprint_smap E base (base +64 len) k) as [c Ec]. exists c. by rewrite (km_bind_some _ _ _ _ _ Ec).
      - exists (con (k_kb k)). by destruct k as [? ? ? []]. }
    rewrite (km_bind_some _ _ _ _ _ E1).
    destruct (IH fuel (a + 20) (if decide (available e) then (base + len) mod 2 ^ 64 else none)
      (with_k_kb k (with_con (k_kb k) c) (k_keys k))) as (v & c' & E' & Hv); [exact He|lia|].
    exists v, c'. split; [|by apply ends_at_cons]. change sizeof_smap with 20.
    replace (a + 20 * Z.of_nat (S (length es))) with (a + 20 + 20 * Z.of_nat (length es)) by lia. exact E'.
Qed.

(** C40: For every memory map of the loader, behind any modules, the scan ends and
    answers the end of the last entry of type 1 with a length other than 0, which
    need not be the highest one, or 0 when there is none; it changes nothing but
    the screen. *)
Theorem scan_memory_finds_last_end E k modulep mods p es :
  modules_at (k_mem k) modulep mods p → (length mods < sf E)%nat →
  load32 (k_mem k) (p + 4) = 20 * Z.of_nat (length es) → map_at (k_mem k) (p + 8) es → (length es <= sf E)%nat →
  ∃ v c, scan_memory E modulep k = Some (v, with_k_kb k (with_con (k_kb k) c) (k_keys k)) ∧ ends_at es 0 v.
Proof.
  intros Hm Hf1 Hs He Hf2. unfold scan_memory.
  rewrite (km_bind_some _ _ k p k) by (unfold asks; by rewrite (find_smap_spec _ p mods)).
  rewrite (km_bind_some _ _ k (20 * Z.of_nat (length es)) k) by (unfold getk; by rewrite Hs).
  replace (p + 20 * Z.of_nat (length es) + 8) with (p + 8 + 20 * Z.of_nat (length es)) by lia.
  by apply smap_loop_spec.
Qed.

(** A module of one word, then a map of two entries, of which the second is
    reserved. *)
Definition sim_map : mem :=
  foldl (λ m w, store 4 m w.1 w.2) ∅
    [(0, 0x1); (4, 1); (12, 0x9001); (16, 40); (20, 0); (28, 0x9fc00); (36, 1); (40, 0xf0000); (48, 0x10000); (56, 2)].

Lemma scan_memory_finds_last_end_witness :
  ∃ c, scan_memory sim_env 0 (with_k_mem sim_state sim_map) =
    Some (0x9fc00, with_k_kb (with_k_mem sim_state sim_map) (with_con (k_kb sim_state) c) (k_keys sim_state)).
Proof.
  destruct (scan_memory_finds_last_end sim_env (with_k_mem sim_state sim_map) 0 [1] 12
    [(0, 0x9fc00, 1); (0xf0000, 0x10000, 2)]) as (v & c & E1 & Hv).
  - vm_compute. repeat split; discriminate.
  - vm_compute. lia.
  - vm_compute. reflexivity.
  - vm_compute. done.
  - vm_compute. lia.
  - exists c. assert (v = 0x9fc00) as ->; [|exact E1].
    destruct Hv as [(l1 & b & n & l2 & E & Hn & Ha & ->)|[Hno _]].
    + destruct l1 as [|e1 [|e2 l1]]; [by injection E as <- <- <-|injection E as E1' E2' _; discriminate|].
      injection E as _ _ E. by destruct l1.
    + apply Forall_cons in Hno as [[] _]. by split.
Defined.

(** ** The tasks *)

Section Tasks.
Context (E : env) `{A : NodeAlloc} {AL : NodeAllocLaws A}.

Lemma memcpy_loop_below n : ∀ m d s b, b < d → rd (memcpy_loop n m d s) b = rd m b.
Proof.
  induction n as [|n IH]; intros m d s b Hb; cbn [memcpy_loop]; [done|]. rewrite IH by lia. apply rd_wr_ne. lia.
Qed.
Lemma load64_memcpy_below m d s n a : a + 8 <= d → load64 (memcpy m d s n) a = load64 m a.
Proof. intros H. apply load_agree. intros b Hb. apply memcpy_loop_below. lia. Qed.

(** The kernel's task has pid 0 and no parent. *)
Lemma boot_task_spec kernel idle_proc cr k pcb k' :
  boot_task E kernel idle_proc cr k = Some (pcb, k') → k_PID k = 0 →
  ∃ t, k_sched k' = with_tasks (k_sched k) (<[pcb := t]> (tasks (k_sched k))) ∧ pid t = 0 ∧ ppid t = 2 ^ 64 - 1.
Proof.
  unfold boot_task, runk, task_view. destruct (kmalloc _ _ _ _) as [[p m]|]; [|done]. cbn [mbind option_bind].
  destruct (str_len _ _ _) as [n|]; [|done]. cbn [mbind option_bind]. destruct (get_str _ _ _) as [name|]; [|done].
  cbn [mbind option_bind]. intros [= <- <-] HP. eexists. split; [reflexivity|]. cbn [pid ppid].
  unfold t_pid, t_ppid, t_tname, t_is_waiting, t_sleep_time, t_is_sleeping, t_kstack.
  rewrite !load64_memcpy_below by lia. rewrite HP. split.
  - repeat (rewrite load64_store64_ne by lia). by rewrite load64_store64_eq.
  - repeat (rewrite load64_store64_ne by lia). by rewrite load64_store64_eq.
Qed.

Lemma leaves_start_files tarfs : leaves_tasks (start_files E tarfs).
Proof. unfold start_files. auto with tasks. Qed.
(** The first switch from a list of two tasks. *)
Lemma first_switch s x y :
  sched_inv s [x; y] → running_task s = x →
  ∃ s', schedule (fuel_of s) 1 s = Ret (tt, s') ∧ sched_inv s' [x; y] ∧ previous s' = x ∧
    running_task s' = (if decide (runnable s y) then y else x) ∧
    nodes s' = nodes s ∧ ids s' x = ids s x ∧ ids s' y = ids s y.
Proof.
  intros Hi Hr. pose proof (inv_queue _ _ Hi) as Hq. pose proof (queue_length _ _ Hq) as Hf.
  destruct (schedule_spec (fuel_of s) 1 s [x; y] [] x [y] Hq eq_refl ltac:(lia)) as (s' & E' & Hs); [by left|].
  exists s'. split; [done|]. split; [by eapply (scheduled_inv 1 s [x; y] [] x [y]); try apply Hi|].
  split; [apply Hs|]. split.
  - rewrite (sc_running _ _ _ _ _ _ Hs). unfold next_task. cbn [list_find]. rewrite (q_head _ _ Hq).
    by destruct (decide (runnable s y)).
  - split; [apply Hs|]. split; eapply scheduled_ids; try done; rewrite !elem_of_cons; tauto.
Qed.

Lemma add_boot_task_spec kernel idle_proc cr k k' c t r cr0 :
  k_sched k = Sched ∅ ∅ 0 0 0 c t r cr0 → k_PID k = 0 → add_boot_task E kernel idle_proc cr k = Some ((), k') →
  ∃ x, sched_inv (k_sched k') [x] ∧ ids (k_sched k') x = Some (0, 2 ^ 64 - 1) ∧ running_task (k_sched k') = x ∧
    ∃ pcb k1, boot_task E kernel idle_proc cr k = Some (pcb, k1) ∧ task_at (k_sched k') x = tasks (k_sched k1) !! pcb.
Proof.
  intros Hs HP (pcb & k1 & E1 & E2)%km_bind_inv. apply on_sched_inv in E2.
  destruct (boot_task_spec _ _ _ _ _ _ E1 HP) as (tb & S1 & P1 & P2).
  pose proof (inv_empty c t r cr0) as H0. rewrite <- Hs in H0.
  destruct (inv_insert_fresh (k_sched k) [] pcb tb H0) as [Hi Hnq]; [by rewrite Hs|]. rewrite <- S1 in Hi, Hnq.
  assert (Ht : tasks (k_sched k1) !! pcb = Some tb) by (rewrite S1; apply lookup_insert_eq).
  pose proof (queue_length _ _ (inv_queue _ _ Hi)) as Hf. cbn [length] in Hf.
  destruct (add_to_task_list_spec (fuel_of (k_sched k1)) _ [] pcb (inv_queue _ _ Hi) ltac:(eauto) Hnq) as (s2 & E3 & _ & P3 & T3 & _ & R3 & _);
    [cbn [length]; lia|].
  exists (node_alloc (nodes (k_sched k1))). split.
  - eapply (inv_add (fuel_of (k_sched k1)) (k_sched k1) [] pcb tb _ Hi Ht); [by rewrite P1, P2|done|cbn [length]; lia|exact E2].
  - rewrite E3 in E2. injection E2 as ->.
    assert (Hta : task_at (k_sched k') (node_alloc (nodes (k_sched k1))) = tasks (k_sched k1) !! pcb).
    { unfold task_at. destruct (nodes (k_sched k') !! _) as [n|]; [|done]. simplify_eq/=. by rewrite T3. }
    split; [unfold ids; rewrite Hta, Ht; cbn; by rewrite P1, P2|]. split; [by rewrite R3|]. by exists pcb, k1.
Qed.

(** C20: Once the kernel's task, the file system and the shell are loaded, the
    start goes on to the first switch.  There the task list holds exactly two
    tasks, the kernel's with pid 0 and the shell with pid 1 and parent 0; the switch
    leaves the kernel's task and goes to the shell, if the shell's task is
    neither asleep nor waiting. *)
Theorem boot_starts_shell kernel idle_proc cr tarfs k c t r cr0 k1 k2 pcb k3 :
  k_sched k = Sched ∅ ∅ 0 0 0 c t r cr0 → k_PID k = 0 →
  add_boot_task E kernel idle_proc cr k = Some ((), k1) → start_files E tarfs k1 = Some ((), k2) →
  sbush_load E k2 = Some (pcb, k3) → tasks (k_sched k1) !! pcb = None → has_name E k3 pcb →
  ∃ k' x y sy, start_tasks E kernel idle_proc cr tarfs k = Some ((), k') ∧
    sched_inv (k_sched k') [x; y] ∧ ids (k_sched k') x = Some (0, 2 ^ 64 - 1) ∧ ids (k_sched k') y = Some (1, 0) ∧
    process <$> nodes (k_sched k') !! y = Some pcb ∧ previous (k_sched k') = x ∧
    load_sbush E k2 = Some ((), sy) ∧
    running_task (k_sched k') = (if decide (runnable (k_sched sy) y) then y else x).
Proof.
  intros Hs HP E1 E2 E3 Hnone Hname. unfold start_tasks.
  rewrite (km_bind_some _ _ _ _ _ E1), (km_bind_some _ _ _ _ _ E2).
  destruct (add_boot_task_spec _ _ _ _ _ _ _ _ _ Hs HP E1) as (x & Hi & Hx & Hr & _).
  rewrite <- (leaves_start_files _ _ _ _ E2) in *.
  destruct (load_sbush_spec E k2 [x] pcb k3 Hi E3 Hnone Hname) as (ks & y & E4 & Hi2 & Hy & Hids & Hr2 & Hids2).
  destruct (first_switch (k_sched ks) x y Hi2) as (s' & E5 & F1 & F2 & F3 & F4 & F5 & F6); [by rewrite Hr2|].
  set (kc := with_k_kb ks (with_con (k_kb ks) (clear_screen (con (k_kb ks)))) (k_keys ks)).
  exists (with_k_sched kc s'), x, y, ks. cbn [k_sched with_k_sched]. split.
  { unfold start_shell. rewrite (km_bind_some _ _ _ _ _ E4), (km_bind_some _ _ ks () kc) by done. by apply on_sched_ret. }
  rewrite F4, F5, F6. split; [done|]. split; [|done]. rewrite <- Hx. apply Hids2. left.
Qed.
End Tasks.

(** ** A run

    The machine of [SyscallsSim] with the archive of a directory and the shell
    at 0x280000, the kernel's name at 0x221100 and no tasks. *)

Definition sim_header (m : mem) (a : Z) (name size : list Z) (type : Z) : mem :=
  put_str (put_str (put_str m a name) (a + h_size) size) (a + h_typeflag) [type].
Definition sim_archive (m : mem) : mem :=
  let m := sim_header m 0x280000 (chars "bin/") (chars "0") 53 in
  let m := sim_program m 0x280200 (chars "bin/oxterm") in
  sim_header m 0x280200 (chars "bin/oxterm") (chars "1274") 48.
Definition sim_boot : kstate :=
  KState (put_str (sim_archive sim_mem) 0x221100 root_str) 0 0 kb_start (Sched ∅ ∅ 0 0 0 0 0 500 0x200000) 0 0 [].

Section BootRun.
Context (E : env) `{A : NodeAlloc} (k : kstate).
Definition boot_run (kernel idle_proc cr tarfs : Z) : bool :=
  match add_boot_task E kernel idle_proc cr k with
  | Some (_, k1) =>
      match start_files E tarfs k1 with
      | Some (_, k2) =>
          match sbush_load E k2 with
          | Some (pcb, k3) =>
              bool_decide (tasks (k_sched k1) !! pcb = None) && named E k3 pcb &&
              match start_tasks E kernel idle_proc cr tarfs k with
              | Some (_, k') => bool_decide (ids (k_sched k') (running_task (k_sched k')) = Some (1, 0))
              | None => false
              end
          | None => false
          end
      | None => false
      end
  | None => false
  end.
Lemma boot_run_steps kernel idle_proc cr tarfs : boot_run kernel idle_proc cr tarfs = true →
  ∃ k1 k2 pcb k3 k', add_boot_task E kernel idle_proc cr k = Some ((), k1) ∧ start_files E tarfs k1 = Some ((), k2) ∧
    sbush_load E k2 = Some (pcb, k3) ∧ tasks (k_sched k1) !! pcb = None ∧ has_name E k3 pcb ∧
    start_tasks E kernel idle_proc cr tarfs k = Some ((), k') ∧
    ids (k_sched k') (running_task (k_sched k')) = Some (1, 0).
Proof.
  unfold boot_run. destruct (add_boot_task _ _ _ _ _) as [[[] k1]|]; [|done].
  destruct (start_files _ _ _) as [[[] k2]|] eqn:E2; [|done]. destruct (sbush_load _ _) as [[pcb k3]|] eqn:E3; [|done].
  destruct (start_tasks _ _ _ _ _ _) as [[[] k']|]; [|by rewrite andb_false_r].
  intros [[H1%bool_decide_eq_true Hn%named_name]%andb_prop H2%bool_decide_eq_true]%andb_prop. exists k1, k2, pcb, k3, k'. split_and!; done.
Qed.
End BootRun.

Lemma sim_boot_runs : boot_run sim_env sim_boot 0x221100 0x300000 0x200000 (VADDR 0x280000) = true.
Proof. vm_compute. reflexivity. Qed.

Lemma boot_starts_shell_witness :
  ∃ k' x y, start_tasks sim_env 0x221100 0x300000 0x200000 (VADDR 0x280000) sim_boot = Some ((), k') ∧
    sched_inv (k_sched k') [x; y] ∧ ids (k_sched k') y = Some (1, 0) ∧
    ids (k_sched k') (running_task (k_sched k')) = Some (1, 0).
Proof.
  destruct (boot_run_steps _ _ _ _ _ _ sim_boot_runs) as (k1 & k2 & pcb & k3 & k' & E1 & E2 & E3 & E4 & E5 & E6 & E7).
  destruct (boot_starts_shell sim_env 0x221100 0x300000 0x200000 (VADDR 0x280000) sim_boot 0 0 500 0x200000 k1 k2 pcb k3
    eq_refl eq_refl E1 E2 E3 E4 E5) as (k4 & x & y & ky & H0 & H1 & _ & H2 & _).
  assert (k4 = k') as -> by (rewrite E6 in H0; by injection H0).
  exists k', x, y. split; [exact E6|]. split; [exact H1|]. split; [exact H2|exact E7].
Defined.
