(* ===== verification/Kernel.v ===== *)
(** * Kernel: the kernel as one machine

    The state of [Syscalls] with the clock and the ports, and its steps: a system
    call, a page fault, an exception, an interrupt of the timer or the keyboard,
    and what user programs do to memory in between.  The theorem of this file
    follows every run from the first task on. *)
From S2P Require Import Prelude Memory Utils Strings PageSource Mem MemProps Paging Region Console Process ProcessProps Identity Interrupts Tarfs TarfsProps Elf Fork Syscalls SyscallsProps SyscallsSim Boot BootProps.

Section Kernel.
Context (E : env) `{A : NodeAlloc} {AL : NodeAllocLaws A}.

(** ** What is kept when a task is created *)

Lemma kept_moves {B} (x : KM B) k a k' : moves_cr3 x → x k = Some (a, k') → kept (k_sched k) (k_sched k').
Proof. intros Hm Ex. destruct (Hm _ _ _ Ex) as [c ->]. by constructor. Qed.

Lemma kept_name_task pcb a b k k' :
  tasks (k_sched k) !! pcb = None → name_task E pcb a b k = Some ((), k') → kept (k_sched k) (k_sched k').
Proof. intros Hn Ex. destruct (name_task_spec E _ _ _ _ _ Ex) as (t & -> & _). by apply kept_new. Qed.

Lemma kept_on_sched {B} (f : nat → SM B) k a k' :
  (∀ n, stays (f n)) → on_sched f k = Some (a, k') → kept (k_sched k) (k_sched k').
Proof. intros Hf Ex%on_sched_inv. by eapply Hf. Qed.

Lemma kept_append pcb k k' :
  queue_head (k_sched k) ≠ 0 → on_sched (λ n, add_to_task_list n pcb) k = Some ((), k') → kept (k_sched k) (k_sched k').
Proof. intros Hq Ex%on_sched_inv. by eapply kept_add. Qed.

(** The structure of the task that exec creates is new. *)
Lemma kept_exec buf third k k' :
  queue_head (k_sched k) ≠ 0 → new_task_ok E Exec buf third k k' → sys_exec E buf third k = Some ((), k') →
  kept (k_sched k) (k_sched k').
Proof.
  intros Hq Hok (r & k1 & E1 & Ex)%km_bind_inv. pose proof (leaves_exec_find E _ _ _ _ E1) as S1. destruct (r.2 =? 0).
  - apply km_bind_inv in Ex as (u & k2 & E2%leaves_kprint_at & Ex). apply kept_on_sched in Ex; [|auto with stays]. by rewrite <- S1, <- E2.
  - apply km_bind_inv in Ex as (t & k2 & E2 & Ex). destruct (Hok r k1 t k2 E1 E2) as [Hnone _].
    destruct (moves_exec_load E _ _ _ _ _ _ E2) as [c S2]. rewrite S1 in S2.
    apply km_bind_inv in Ex as (u & k3 & E3%leaves_get_task & Ex). apply km_bind_inv in Ex as ([] & k4 & E4 & Ex).
    apply km_bind_inv in Ex as ([] & k5 & E5 & Ex). apply km_bind_inv in Ex as ([] & k6 & E6 & E7).
    assert (K4 : kept (k_sched k) (k_sched k4)).
    { etrans; [|eapply kept_name_task; [|exact E4]]; rewrite E3, S2; [by constructor|exact Hnone]. }
    apply kept_on_sched in E5; [|auto with stays]. assert (K5 : kept (k_sched k) (k_sched k5)) by (by etrans).
    apply kept_append in E6; [|by rewrite (kept_head _ _ K5)]. apply kept_on_sched in E7; [|auto with stays].
    etrans; [exact K5|]. by etrans.
Qed.

Lemma kept_fork k r k' :
  queue_head (k_sched k) ≠ 0 → new_task_ok E ForkCall 0 0 k k' → sys_fork_call E k = Some (r, k') →
  kept (k_sched k) (k_sched k').
Proof.
  intros Hq (child & Hb & _) (me & k1 & E1 & Ex)%km_bind_inv.
  apply on_sched_inv in E1 as E1'. apply reads_get_running in E1'.
  assert (k1 = k) as ->.
  { revert E1. unfold on_sched. destruct (get_running_task _) as [[p s']| |] eqn:Er; [|done..]. apply reads_get_running in Er as ->.
    intros [= _ <-]. by destruct k. }
  unfold runk in Ex. destruct (Fork.sys_fork _ _ _ _ _ _ _ _ _) as [[[[r0 PID] m] s]|] eqn:Ef; [|done].
  injection Ex as _ <-. cbn [k_sched with_k_sched with_k_PID].
  destruct (sys_fork_sched E _ _ _ _ _ _ _ _ _ _ Ef) as (ch & m1 & s1 & t & a & b & Ek & Ea & ->).
  destruct (task_block_fresh E _ _ _ _ _ Hb Ek) as [-> Hnone]. etrans; [by eapply kept_add|].
  etrans; [eapply (kept_new s1 child t)|by constructor]. by destruct (add_with_tasks (tasks (k_sched k)) _ _ _ _ _ Ea) as [-> _].
Qed.

(** The structure of the shell that a fault starts is new. *)
Definition fault_ok (err_code pf_addr : Z) (k : kstate) : Prop :=
  ∀ k0 pcb k1, page_fault_map E err_code pf_addr k = Some ((), k0) → sbush_load E k0 = Some (pcb, k1) → tasks (k_sched k) !! pcb = None.

(** A fault that returns has loaded the shell and left the running task. *)
Lemma page_fault_steps err_code pf_addr k k' :
  fault_ok err_code pf_addr k → page_fault_handler E err_code pf_addr k = Some ((), k') →
  ∃ k0 pcb k1 k2 k3, k_sched k0 = k_sched k ∧ sbush_load E k0 = Some (pcb, k1) ∧ tasks (k_sched k0) !! pcb = None ∧ has_name E k1 pcb ∧
    load_sbush E k0 = Some ((), k2) ∧ on_sched (λ n, delete_curr_from_task_list n) k2 = Some ((), k3) ∧
    on_sched (λ n, schedule n 1) k3 = Some ((), k').
Proof.
  intros Hok ([] & k0 & E0 & Ex)%km_bind_inv. pose proof (leaves_page_fault_map E _ _ _ _ _ E0) as S0.
  apply km_bind_inv in Ex as ([] & k2 & E2 & Ex). apply km_bind_inv in Ex as ([] & k3 & E3 & E4).
  pose proof E2 as (pcb & k1 & E1 & E5)%km_bind_inv. exists k0, pcb, k1, k2, k3. rewrite S0. split; [done|]. split; [done|].
  split; [by eapply Hok|]. split; [|done]. apply km_bind_inv in E5 as ([] & k6 & E6 & _). by eapply name_task_has_name.
Qed.

Lemma page_fault_keeps_inv err_code pf_addr k k' l :
  sched_inv (k_sched k) l → l ≠ [] → fault_ok err_code pf_addr k → page_fault_handler E err_code pf_addr k = Some ((), k') →
  ∃ l', sched_inv (k_sched k') l'.
Proof.
  intros Hinv Hl Hok Ex. destruct (page_fault_steps _ _ _ _ Hok Ex) as (k0 & pcb & k1 & k2 & k3 & S0 & E1 & Hn & Hname & E2 & E3 & E4).
  rewrite <- S0 in Hinv. destruct (load_sbush_spec E k0 l pcb k1 Hinv E1 Hn Hname) as (k2' & x & E2' & Hi & _ & _ & Hrun & _).
  rewrite E2 in E2'. injection E2' as <-. apply on_sched_inv in E3, E4.
  assert (Hrl : running_task (k_sched k2) ∈ l ++ [x]).
  { rewrite Hrun, elem_of_app by done. left. by destruct (inv_running _ _ Hinv) as [|[-> _]]. }
  destruct (inv_delete_curr _ _ _ _ Hi (queue_length _ _ (inv_queue _ _ Hi)) Hrl E3) as (lm & Hqm & _ & _ & _ & _ & _ & Hlen).
  pose proof (queue_length _ _ Hqm) as Hf.
  destruct (inv_exit_list _ (fuel_of (k_sched k3)) _ _ _ _ _ Hi (queue_length _ _ (inv_queue _ _ Hi)) ltac:(lia) Hrl E3 E4) as (l' & H & _).
  by exists l'.
Qed.

Lemma kept_load_sbush k pcb k1 k' :
  queue_head (k_sched k) ≠ 0 → sbush_load E k = Some (pcb, k1) → tasks (k_sched k) !! pcb = None → load_sbush E k = Some ((), k') →
  kept (k_sched k) (k_sched k').
Proof.
  intros Hq E1 Hn (pcb' & k1' & E1' & E2)%km_bind_inv. rewrite E1 in E1'. injection E1' as <- <-.
  destruct (moves_sbush_load E _ _ _ E1) as [c S1]. assert (K1 : kept (k_sched k) (k_sched k1)) by (rewrite S1; by constructor).
  apply km_bind_inv in E2 as ([] & k4 & E5 & E6). apply kept_name_task in E5; [|by rewrite S1].
  assert (K4 : kept (k_sched k) (k_sched k4)) by (by etrans). etrans; [exact K4|]. eapply kept_append; [|exact E6].
  by rewrite (kept_head _ _ K4).
Qed.

Lemma kept_page_fault err_code pf_addr k k' :
  queue_head (k_sched k) ≠ 0 → fault_ok err_code pf_addr k → page_fault_handler E err_code pf_addr k = Some ((), k') →
  kept (k_sched k) (k_sched k').
Proof.
  intros Hq Hok Ex. destruct (page_fault_steps _ _ _ _ Hok Ex) as (k0 & pcb & k1 & k2 & k3 & S0 & E1 & Hn & _ & E2 & E3 & E4).
  rewrite <- S0 in *. apply kept_on_sched in E3; [|auto with stays]. apply kept_on_sched in E4; [|auto with stays].
  etrans; [by eapply kept_load_sbush|]. by etrans.
Qed.

(** ** The machine *)

Record machine := Machine { kn : kstate; kn_clock : clock; kn_ports : ports }.
Abbreviation tasks_of K := (k_sched (kn K)).

(** A task that calls kill is not a child of the kernel's task: the shell runs
    the program kill in a child of its own. *)
Definition kill_ok (c : syscall) (k : kstate) : Prop :=
  match c with Kill => ∀ t, task_at (k_sched k) (running_task (k_sched k)) = Some t → ppid t ≠ 0 | _ => True end.

(** System calls, faults and exceptions of the running task; the timer, the
    keyboard, scan codes that arrive; and a user program that writes memory. *)
Inductive kernel_step : machine → machine → Prop :=
  | step_call num buf third fourth k r k' ck p :
      (∀ c, dispatch num = Some c → new_task_ok E c buf third k k' ∧ kill_ok c k) →
      syscall_handler E num buf third fourth k = Some (r, k') → kernel_step (Machine k ck p) (Machine k' ck p)
  | step_fault err_code pf_addr k k' ck p :
      fault_ok err_code pf_addr k → page_fault_handler E err_code pf_addr k = Some ((), k') →
      kernel_step (Machine k ck p) (Machine k' ck p)
  | step_exception vector k k' ck p :
      irq_handler E vector k = Some ((), k') → kernel_step (Machine k ck p) (Machine k' ck p)
  | step_timer k ck p p' ck' c s :
      irq_timer_handler (fuel_of (k_sched k)) p ck (con (k_kb k)) (k_sched k) = Some (p', ck', c, s) →
      kernel_step (Machine k ck p) (Machine (with_k_sched (with_k_kb k (with_con (k_kb k) c) (k_keys k)) s) ck' p')
  | step_key k ck p p' b keys :
      irq_kb_handler (after_ch E) p (k_kb k) (k_keys k) = Some (p', b, keys) →
      kernel_step (Machine k ck p) (Machine (with_k_kb k b keys) ck p')
  | step_arrive k ck p keys : kernel_step (Machine k ck p) (Machine (with_k_kb k (k_kb k) (k_keys k ++ keys)) ck p)
  | step_user k ck p m : kernel_step (Machine k ck p) (Machine (with_k_mem k m) ck p).

(** The task list is in order and the kernel's task is its head. *)
Definition in_order (s : sched) : Prop := (∃ l, sched_inv s l) ∧ rooted root_name s.

Lemma rooted_head kernel s l : sched_inv s l → rooted kernel s → queue_head s ≠ 0 ∧ ∃ l', l = queue_head s :: l'.
Proof.
  intros Hi [x Hx]. pose proof (inv_queue _ _ Hi) as Hq. unfold ident_at, task_at in Hx.
  assert (Hn : queue_head s ≠ 0) by (intros E0; by rewrite E0, (q_null _ _ Hq) in Hx). split; [exact Hn|].
  rewrite (q_head _ _ Hq) in *. destruct l as [|a l]; [done|]. by exists l.
Qed.

Lemma kept_call num buf third fourth k r k' :
  in_order (k_sched k) → (∀ c, dispatch num = Some c → new_task_ok E c buf third k k' ∧ kill_ok c k) →
  syscall_handler E num buf third fourth k = Some (r, k') → kept (k_sched k) (k_sched k').
Proof.
  intros [[l Hi] Hr] Hok. destruct (rooted_head _ _ _ Hi Hr) as [Hh _].
  unfold syscall_handler. destruct (dispatch num) as [c|]; [|by intros [= _ <-]]. destruct (Hok c eq_refl) as [Hnew Hkill].
  destruct (decide (c = Exec)) as [->|H1]; [|destruct (decide (c = ForkCall)) as [->|H2]; [|destruct (decide (c = Kill)) as [->|H3]]].
  - intros ([] & k1 & E1 & Ex)%km_bind_inv. injection Ex as _ <-. by eapply kept_exec.
  - intros (v & k1 & E1 & Ex)%km_bind_inv. injection Ex as _ <-. apply km_bind_inv in E1 as (? & k2 & E1 & Ex). injection Ex as _ <-.
    by eapply kept_fork.
  - intros ([] & k1 & E1 & Ex)%km_bind_inv. injection Ex as _ <-. destruct (kill_call_cases E _ _ _ E1) as [->|[w Ew]]; [done|].
    by eapply kept_kill.
  - intros Ex. by eapply (serve_keeps E (kept (k_sched k))); [apply kept_closed|..|exact Ex].
Qed.

Lemma timer_sched n p ck c s p' ck' c' s' : irq_timer_handler n p ck c s = Some (p', ck', c', s') →
  s' = s ∨ dec_sleep_count n s = Ret (tt, s').
Proof.
  unfold irq_timer_handler. destruct (Z.rem _ _ =? 0); [|intros [= _ _ _ <-]; by left].
  match goal with |- context [if negb ?b then _ else _] => destruct (negb b) end.
  - destruct (kprintf_boott _ _ _); [|done]. cbn [mbind option_bind]. destruct (dec_sleep_count n s) as [[[] s1]| |]; [|done..].
    intros [= _ _ _ <-]. by right.
  - cbn [mbind option_bind]. destruct (dec_sleep_count n s) as [[[] s1]| |]; [|done..]. intros [= _ _ _ <-]. by right.
Qed.

(** Every step keeps the order and the identities. *)
Lemma kernel_step_keeps K K' : kernel_step K K' → in_order (tasks_of K) → in_order (tasks_of K') ∧ kept (tasks_of K) (tasks_of K').
Proof.
  intros Hst [[l Hi] Hr]. destruct (rooted_head _ _ _ Hi Hr) as [Hh (l0 & El)].
  enough ((∃ l', sched_inv (tasks_of K') l') ∧ kept (tasks_of K) (tasks_of K')) as [H1 H2]
    by (split; [split; [exact H1|by eapply kept_rooted]|exact H2]).
  destruct Hst as [num buf third fourth k r k' ck p Hok Ex|err_code pf_addr k k' ck p Hok Ex|vector k k' ck p Ex
    |k ck p p' ck' c s Ex|k ck p p' b keys Ex|k ck p keys|k ck p m]; cbn [kn] in *.
  - split; [|eapply kept_call; [by split; [exists l|]|exact Hok|exact Ex]].
    eapply (syscall_handler_keeps_task_list E); [exact Hi| |exact Ex]. intros c Hc. by apply (Hok c Hc).
  - split; [|by eapply kept_page_fault]. eapply page_fault_keeps_inv; [exact Hi|by rewrite El|exact Hok|exact Ex].
  - split.
    + eapply (irq_handler_keeps E (λ s, ∃ l, sched_inv s l)); [apply inv_closed|by exists l|exact Ex].
    + by eapply (irq_handler_keeps E (kept (k_sched k))); [apply kept_closed|..|exact Ex].
  - apply timer_sched in Ex as [->|Ex]; [by split; [exists l|]|]. split; [|by eapply stays_dec_sleep].
    eapply (inv_step root_name); [by eapply step_tick|exact Hi].
  - by split; [exists l|].
  - by split; [exists l|].
  - by split; [exists l|].
Qed.

Lemma kernel_run_keeps K K' : rtc kernel_step K K' → in_order (tasks_of K) → in_order (tasks_of K') ∧ kept (tasks_of K) (tasks_of K').
Proof.
  induction 1 as [|K1 K2 K3 Hst _ IH]; [done|]. intros H1. destruct (kernel_step_keeps _ _ Hst H1) as [H2 P1].
  destruct (IH H2) as [H3 P2]. split; [exact H3|by etrans].
Qed.

(** ** From the first task on *)

(** The memory in which the kernel's task is made: a block for its structure,
    and the name apart from the block and the descriptors. *)
Record boot_memory (k : kstate) (kernel : Z) : Prop := {
  bm_block : ∃ l i, pool (k_mem k) (free_list E) l ∧ first_fit l (Z.of_nat (npages sizeof_task)) i ∧
    (i + npages sizeof_task <= length l)%nat ∧ (i < mf E)%nat ∧
    ∀ b, kernel <= b < kernel + 5 → ¬ in_block i (npages sizeof_task) b ∧ ¬ in_array (free_list E) l b;
  bm_name : cstr (k_mem k) kernel root_name;
  bm_fuel : (4 < sf E)%nat;
}.

Lemma boot_task_name kernel idle_proc cr k pcb k' t :
  boot_memory k kernel → boot_task E kernel idle_proc cr k = Some (pcb, k') → tasks (k_sched k') !! pcb = Some t → tname t = root_name.
Proof.
  intros [(l & i & Hp & Hff & Hl & Hi & Hap) Hn Hf].
  destruct (kmalloc_ok (mf E) (k_mem k) (free_list E) l sizeof_task i Hp ltac:(unfold sizeof_task; lia) Hff Hl Hi) as (m' & Ek & [_ _ _ Z0 Fr]).
  assert (Ha : phys (VADDR (PAGE_SIZE * Z.of_nat i)) = PAGE_SIZE * Z.of_nat i).
  { apply phys_VADDR. destruct (pool_geometry _ _ _ Hp) as (_ & _ & G). unfold PAGE_SIZE in *. lia. }
  unfold boot_task, runk, task_view. rewrite Ek. cbn [mbind option_bind]. rewrite Ha. set (a := PAGE_SIZE * Z.of_nat i) in *.
  set (m2 := store64 _ (a + t_is_waiting) 0).
  assert (Hblk : ∀ b, a <= b < a + sizeof_task → in_block i (npages sizeof_task) b).
  { intros b Hb. unfold in_block, a, PAGE_SIZE in *. change (npages sizeof_task) with 9%nat. unfold sizeof_task in Hb. lia. }
  assert (F2 : ∀ b, b < a ∨ a + t_tname <= b < a + t_pml4 ∨ a + sizeof_task <= b → rd m2 b = rd m' b).
  { intros b Hb. unfold m2, t_kstack, t_pid, t_ppid, t_cr3, t_pml4, t_tname, t_is_waiting, t_sleep_time, t_is_sleeping, sizeof_task in *.
    repeat (rewrite rd_store64_ne by lia). done. }
  assert (Hdk : ∀ b, kernel <= b < kernel + 5 → rd m2 b = rd (k_mem k) b ∧ (b < a ∨ a + sizeof_task <= b)).
  { intros b Hb. destruct (Hap b Hb) as [H1 H2]. assert (Hb' : b < a ∨ a + sizeof_task <= b).
    { destruct (Z.lt_ge_cases b a); [by left|]. destruct (Z.le_gt_cases (a + sizeof_task) b); [by right|]. exfalso. apply H1, Hblk. lia. }
    split; [|exact Hb']. rewrite F2 by lia. by apply Fr. }
  rewrite (str_len_spec _ _ _ root_name); [|eapply cstr_agree; [exact Hn|]; intros b Hb; apply Hdk; cbn in Hb; lia|exact Hf].
  cbn [mbind option_bind]. change (Z.of_nat (length root_name)) with 4.
  assert (Hc : cstr (memcpy m2 (a + t_tname) kernel 4) (a + t_tname) root_name).
  { pose proof (Hdk kernel ltac:(lia)) as [_ D0]. pose proof (Hdk (kernel + 3) ltac:(lia)) as [_ D3].
    assert (R : ∀ j, 0 <= j < 4 → rd (memcpy m2 (a + t_tname) kernel 4) (a + t_tname + j) = rd (k_mem k) (kernel + j)).
    { intros j Hj. rewrite memcpy_rd by (unfold sizeof_task, t_tname in *; lia). rewrite decide_True by lia.
      replace (kernel + _) with (kernel + j) by lia. apply Hdk. lia. }
    apply cstr_intro.
    - intros j c Hj. pose proof (lookup_lt_Some _ _ _ Hj) as Hlt. cbn in Hlt. rewrite R by lia. by eapply cstr_rd.
    - change (Z.of_nat (length root_name)) with 4. rewrite memcpy_rd by (unfold sizeof_task, t_tname in *; lia).
      rewrite decide_False by lia. rewrite F2 by (unfold t_tname, t_pml4; lia). apply Z0, Hblk. unfold t_tname, sizeof_task. lia. }
  rewrite (get_str_spec root_name) by (exact Hc || exact Hf). cbn [mbind option_bind].
  intros [= <- <-]. cbn [k_sched with_k_sched with_k_PID tasks with_tasks]. rewrite lookup_insert_eq. by intros [= <-].
Qed.

(** The shell's structure is not the one of the kernel's task. *)
Definition shell_new (kernel idle_proc cr tarfs : Z) (k : kstate) : Prop :=
  ∀ k1 k2 pcb k3, add_boot_task E kernel idle_proc cr k = Some ((), k1) → start_files E tarfs k1 = Some ((), k2) →
    sbush_load E k2 = Some (pcb, k3) → tasks (k_sched k1) !! pcb = None.

Lemma start_tasks_in_order kernel idle_proc cr tarfs k c t r cr0 k' :
  k_sched k = Sched ∅ ∅ 0 0 0 c t r cr0 → k_PID k = 0 → boot_memory k kernel → shell_new kernel idle_proc cr tarfs k →
  start_tasks E kernel idle_proc cr tarfs k = Some ((), k') →
  (∃ l, sched_inv (k_sched k') l) ∧ ident_at (k_sched k') (queue_head (k_sched k')) = Some (0, 2 ^ 64 - 1, root_name).
Proof.
  intros Hs HP Hbm Hnew ([] & k1 & E1 & Ex)%km_bind_inv. apply km_bind_inv in Ex as ([] & k2 & E2 & Ex).
  apply km_bind_inv in Ex as ([] & k4 & E4 & Ex). apply km_bind_inv in Ex as ([] & k5 & E5 & E6%on_sched_inv).
  destruct (add_boot_task_spec E _ _ _ _ _ _ _ _ _ Hs HP E1) as (x & Hi & Hx & Hr & pcb0 & kb & Eb & Hta).
  assert (Hq : queue_head (k_sched k1) = x) by (by rewrite (q_head _ _ (inv_queue _ _ Hi))).
  assert (Hid : ident_at (k_sched k1) x = Some (0, 2 ^ 64 - 1, root_name)).
  { unfold ids in Hx. unfold ident_at. destruct (task_at (k_sched k1) x) as [tb|] eqn:Et; [|done]. injection Hx as H1 H2.
    cbn. unfold ident. rewrite H1, H2. by rewrite (boot_task_name _ _ _ _ _ _ tb Hbm Eb (eq_sym Hta)). }
  pose proof E4 as (pcb & k3 & E3 & E7)%km_bind_inv. apply km_bind_inv in E7 as ([] & k6 & E8 & _).
  pose proof (Hnew _ _ _ _ E1 E2 E3) as Hnone. pose proof (name_task_has_name E _ _ _ _ _ E8) as Hname.
  pose proof (leaves_start_files E _ _ _ _ E2) as S2. rewrite <- S2 in *.
  assert (Hx0 : x ≠ 0) by (intros ->; unfold ident_at, task_at in Hid; by rewrite (q_null _ _ (inv_queue _ _ Hi)) in Hid).
  assert (K4 : kept (k_sched k2) (k_sched k4)) by (eapply kept_load_sbush; [by rewrite Hq|exact E3|exact Hnone|exact E4]).
  destruct (load_sbush_spec E k2 [x] pcb k3 Hi E3 Hnone Hname) as (ks & y & E4' & Hi2 & _). rewrite E4 in E4'. injection E4' as <-.
  injection E5 as <-. cbn [k_sched with_k_kb] in E6. pose proof (stays_schedule _ _ _ _ _ E6) as K6. split.
  - eapply (inv_step root_name); [by eapply step_schedule|exact Hi2].
  - rewrite (kept_head _ _ K6), (kept_head _ _ K4), Hq. eapply kept_ident; [exact K6|]. by eapply kept_ident.
Qed.

(** C4: Whatever happens after the start, the task list stays in order and the
    kernel's task stays its head.  From the state in which the kernel switches to
    the first shell, any sequence of system calls, page faults, exceptions,
    timer and keyboard interrupts and writes of user programs leads to a linked
    list without repetition, with the running task and the one before it on it, whose
    first task has pid 0 and the name by which kill knows it; and a task that exists
    at any moment of the run, the tasks made by fork and exec included, has the
    same pid, parent and name at every later moment.  New task structures have
    to be new ones (for fork: the tasks lie in pages the allocator has given
    away), and no child of the kernel's task calls kill. *)
Theorem kernel_task_survives kernel idle_proc cr tarfs k c t r cr0 k0 ck p K :
  k_sched k = Sched ∅ ∅ 0 0 0 c t r cr0 → k_PID k = 0 → boot_memory k kernel → shell_new kernel idle_proc cr tarfs k →
  start_tasks E kernel idle_proc cr tarfs k = Some ((), k0) → rtc kernel_step (Machine k0 ck p) K →
  ∃ l, sched_inv (tasks_of K) (queue_head (k_sched k0) :: l) ∧
    ident_at (tasks_of K) (queue_head (k_sched k0)) = Some (0, 2 ^ 64 - 1, root_name) ∧
    ∀ K' q i, rtc kernel_step K K' → ident <$> tasks (tasks_of K) !! q = Some i → ident <$> tasks (tasks_of K') !! q = Some i.
Proof.
  intros Hs HP Hbm Hnew E0 Hrun. destruct (start_tasks_in_order _ _ _ _ _ _ _ _ _ _ Hs HP Hbm Hnew E0) as [Hi Hid].
  assert (H0 : in_order (tasks_of (Machine k0 ck p))) by (split; [exact Hi|by eexists]).
  destruct (kernel_run_keeps _ _ Hrun H0) as [H1 HK]. pose proof H1 as [[l Hl] Hr]. cbn [kn] in HK.
  destruct (rooted_head _ _ _ Hl Hr) as [_ [l' ->]]. rewrite (kept_head _ _ HK) in Hl. exists l'. split; [exact Hl|].
  split; [by eapply kept_ident|]. intros K' q i Hrun'. apply (kernel_run_keeps _ _ Hrun' H1).
Qed.
End Kernel.

(** ** A run

    The machine of [BootProps.sim_boot]: after the start come a call with a number
    that the kernel does not know, a tick of the timer, a scan code and a write of
    the user program. *)

Lemma sim_boot_memory : boot_memory sim_env sim_boot 0x221100.
Proof.
  constructor.
  - exists boot_pages, 3%nat. split; [eapply pool_checked; [exact boot_pool|vm_compute; reflexivity]|].
    split; [split; [eexists; split; vm_compute; reflexivity|]|].
    { intros j q Hj Hq. do 3 (destruct j as [|j]; [vm_compute in Hq; injection Hq as <-; vm_compute; reflexivity|]). lia. }
    split; [rewrite length_boot_pages; change (npages sizeof_task) with 9%nat; lia|]. split; [cbn; lia|].
    intros b Hb. unfold in_block, in_array, PAGE_SIZE. change (npages sizeof_task) with 9%nat.
    change (free_list sim_env) with 4096. rewrite length_boot_pages. unfold sizeof_page. lia.
  - vm_compute. repeat split; discriminate.
  - cbn. lia.
Qed.

Lemma sim_shell_new : shell_new sim_env 0x221100 0x300000 0x200000 (VADDR 0x280000) sim_boot.
Proof.
  destruct (boot_run_steps _ _ _ _ _ _ sim_boot_runs) as (k1 & k2 & pcb & k3 & k' & E1 & E2 & E3 & E4 & _).
  intros k1' k2' pcb' k3' F1 F2 F3. rewrite E1 in F1. injection F1 as <-. rewrite E2 in F2. injection F2 as <-.
  rewrite E3 in F3. injection F3 as <- <-. exact E4.
Qed.

Lemma kernel_task_survives_witness :
  ∃ k0 K l, start_tasks sim_env 0x221100 0x300000 0x200000 (VADDR 0x280000) sim_boot = Some ((), k0) ∧
    rtc (kernel_step sim_env) (Machine k0 (Clock 1 0) []) K ∧ clk_ticks (kn_clock K) = 2 ∧ k_mem (kn K) = ∅ ∧
    sched_inv (k_sched (kn K)) (queue_head (k_sched k0) :: l).
Proof.
  destruct (boot_run_steps _ _ _ _ _ _ sim_boot_runs) as (_ & _ & _ & _ & k0 & _ & _ & _ & _ & _ & E0 & _).
  assert (Hrun : ∃ K, rtc (kernel_step sim_env) (Machine k0 (Clock 1 0) []) K ∧ clk_ticks (kn_clock K) = 2 ∧ k_mem (kn K) = ∅).
  { eexists. split.
    - eapply rtc_l; [eapply (step_call sim_env 99 0 0 0); [intros c [=]|reflexivity]|].
      eapply rtc_l; [eapply step_timer; reflexivity|]. eapply rtc_l; [apply (step_arrive sim_env _ _ _ [30])|].
      apply rtc_once, (step_user sim_env _ _ _ ∅).
    - split; reflexivity. }
  destruct Hrun as (K & Hrun & Ht & Hm).
  destruct (kernel_task_survives sim_env 0x221100 0x300000 0x200000 (VADDR 0x280000) sim_boot 0 0 500 0x200000 k0 (Clock 1 0) [] K
    eq_refl eq_refl sim_boot_memory sim_shell_new E0 Hrun) as (l & H & _).
  exists k0, K, l. split; [exact E0|]. split; [exact Hrun|]. split; [exact Ht|]. split; [exact Hm|exact H].
Defined.
